(* ===== verification/_CoqProject ===== *)
-Q . S2P
Prelude.v
Bytes.v
PathNames.v
Device.v
BlockIO.v
PartTable.v
RedoLog.v
Layout.v
Core.v
Meta.v
Alloc.v
Extents.v
FileIO.v
DirBlock.v
Directory.v
Fsck.v
Xattr.v
XattrTable.v
XattrSet.v
Journal.v
Recovery.v
Commit.v
FsInterface.v
Crc32c.v
BtrfsTree.v
BtrfsCompress.v
BtrfsNode.v
BtrfsWriter.v
BtrfsFsck.v
BtrfsFs.v
BtrfsLeaf.v
BtrfsKeys.v
BtrfsWalk.v
BtrfsForest.v
BtrfsSplit.v
BtrfsStore.v
BtrfsGrow.v
BtrfsNames.v
BtrfsAlloc.v
BtrfsCreate.v
BtrfsData.v
BtrfsRefine.v
BtrfsInodes.v
BtrfsRename.v
BtrfsLinks.v
BtrfsTruncate.v
BtrfsVerify.v
BtrfsMount.v
BtrfsDevice.v
BtrfsExample.v
Ext4.v
Staged.v
Adapter.v
Paths.v
OpenFiles.v
Host.v
Serve.v
Main.v
Commands.v
