(* ===== verification/Prelude.v ===== *)
(** Werunos in Rocq: a verification development for the user-space ext4 and
    btrfs driver of [src/].

    * The program

    A disk or image file is opened as a device ([block/]); a partition of
    it becomes a device of its own; [SafeDevice] ([vfs/redolog.go]) puts an
    undo log and a block cache over it.  The ext4 driver ([vfs/]) reads and
    writes its structures through one field [fs.dev], which is the device
    or, inside a transaction, an overlay of dirty blocks that
    [CommitTransaction] sends through the journal.  The adapter ([ext4/])
    makes each request of the host one transaction.  The btrfs driver
    ([btrfs/]) works on the device directly: it walks the tree of the file
    system for every lookup and rewrites single leaves, splitting them when
    they are full.  The bridge ([host/]) turns the callbacks of the FUSE
    server into requests to either driver.  The commands ([main.go]) open
    files, find partitions and stack these layers.

    * The files

    - [Prelude]: errors and outcomes, the state-and-outcome monad [M], loops
      and their rules, invariants of computations ([preserves]), machine
      integers.  [Bytes]: slices of byte lists, little-endian fields, the
      checked operations of Go on slices, codecs of fixed-size records.
      [PathNames]: paths, shared by the two drivers.  [Device]: the
      interface [ReadWriterAt] and its laws ([Device]), files.
      [FsInterface]: the types of [fs/fs.go], the class of operations, and
      the class [OverDevice] of drivers that change a device by writes alone.
    - [BlockIO], [PartTable]: [block/aligned.go], [block/device.go],
      [block/mbr.go], [block/gpt.go].
    - [RedoLog]: [vfs/redolog.go].
    - [Layout]: the on-disk structs of [vfs/super.go], [vfs/bgdesc.go],
      [vfs/inodes.go], [vfs/extents.go] with their codecs.  [Core]: the
      object [FileSystem] ([vfs/core.go]) and [TxDevice], transactions.
      [Meta]: superblock, descriptors, inodes.  [Alloc]: [vfs/allocate.go]
      and [vfs/reclaim.go] up to extent trees.  [Extents]: reading and
      growing extent trees.  [FileIO]: [vfs/reader.go], [vfs/writer.go],
      [vfs/symlinks.go] and truncation.  [DirBlock], [Directory]: blocks of
      directory entries, lookup, insertion, removal and the path walk
      ([vfs/directory.go], [vfs/dirent.go], [vfs/core.go]).
    - [Fsck]: [vfs/health.go].
    - [Xattr], [XattrTable], [XattrSet]: [vfs/xattr.go], its serialized
      table, setting an attribute.
    - [Journal]: commit and recovery ([vfs/journal_writer.go],
      [vfs/jbd2.go]); [Recovery] and [Commit] hold the theorems on each.
    - [Crc32c]: the checksum of [btrfs/writer.go].  [BtrfsTree]:
      [btrfs/types.go], [btrfs/tree.go], [btrfs/super.go], mounting.
      [BtrfsCompress]: [btrfs/compress.go].  [BtrfsNode]: the bytes of a
      node; [BtrfsWriter]: search, update, allocation, splits
      ([btrfs/writer.go]).  [BtrfsFs]: [btrfs/fs.go] and the making of inodes
      and names.  [BtrfsFsck]: [btrfs/fsck.go].  The theorems build on each
      other: [BtrfsLeaf] (what a block holds), [BtrfsKeys] (sorted items),
      [BtrfsWalk] (trees, walks), [BtrfsForest] (changing one leaf of a tree),
      [BtrfsSplit] (a leaf becomes two), [BtrfsStore] (the tree of a file
      system on a device, [fs_tree]), [BtrfsGrow] (insertion into a full
      leaf, on the device), [BtrfsNames], [BtrfsCreate], [BtrfsData],
      [BtrfsInodes], [BtrfsRename], [BtrfsLinks], [BtrfsTruncate] (lookups and
      operations), [BtrfsRefine] (the tree as a finite map), [BtrfsAlloc],
      [BtrfsVerify], [BtrfsMount]; [BtrfsDevice] holds what every operation
      keeps of the device; [BtrfsExample] is a volume they are applied to.
    - [Ext4]: [ext4/fs.go]; [Staged]:
      what every driver operation keeps of the device; [Adapter]:
      transactions of the adapter; [Paths]: splitting paths; [OpenFiles]:
      open files, listings, links.
    - [Host]: [host/bridge.go], [host/handles.go], over the class
      [FileSystem_ops] that stands for the interface of [fs/fs.go].
      [Serve]: sessions of callbacks over any driver of the class
      [OverDevice].  [Main]: [main.go], [block/enum_windows.go],
      [install.go], from the command line to the files of the machine;
      [Commands]: the theorems on them.

    * What the theorems show

    - Devices: sector-aligned and partition readers are windows of the disk
      and writes stay inside them; the partition parsers are total on
      readable disks; [SafeDevice] is transparent under nested-or-disjoint
      ranges and its writes are atomic under a crash.
    - Structures: what is written is read back, and nothing else changes.
    - Transactions: a transaction is an overlay, a rollback restores the
      device, the write-back equals the overlay in any order of the map; no
      operation of the driver touches the device inside a transaction; a
      refused operation of the adapter leaves device and tables alone, and
      no operation leaves a transaction open.
    - Journal: a commit writes exactly the ring the format asks for, and
      replay implements a declarative reading of that ring.
    - Allocation, extents, files, directories, paths, attributes: the
      functional behaviour of each operation against a model of the data
      (free bits, block maps, slots of a directory block, path resolution).
    - Btrfs: blocks read back as they were laid out; under [fs_tree] a walk
      visits the items in the order of their keys, and insertion where there
      is room, update and deletion are those of a finite map; insertion into
      a full leaf divides it and gives the node above a pointer, and both
      the file-system tree and the extent tree stay search trees without a
      block in common; making, renaming, linking and removing names, symbolic
      links, writing, reading and truncating inline files, changing permissions
      follow from the map; allocated space is free, and found when there is some; the
      check of a volume is exact; the checksum is CRC-32C; mounting is
      type-correct on every device.
    - Commands: only mounting, installing and [fsck --fix] change a file;
      a mounted partition is confined to its sectors, through every layer and
      whatever callbacks the host makes.
    - Where the code does not do what it means to, a theorem or lemma shows
      what it does instead.  In particular the btrfs driver takes a DIR_ITEM
      and a DIR_INDEX both for the entry of a name, but deletes only the first
      item it finds: the theorems on removing and renaming names speak of all
      the items that carry a name, and say when the name is gone and what it
      leads to otherwise ([leads]).

    * Conventions

    - A Go string or path is a [list byte].  Offsets are [Z]; arithmetic on
      [uint8] .. [uint64] wraps with [w8] .. [w64] where it can overflow,
      [int64(x)] is [i64].  Memory is unbounded, so [make] does not fail.
    - Reads and writes of a device ([ReadWriterAt]) give bytes and an error,
      not a panic, and offsets do not wrap in them: at a negative offset that
      is not a multiple of the sector size, or within a sector of 2^63, the
      code of [block/aligned.go] panics or wraps where [Aligned_ReadAt] and
      [Aligned_WriteAt] clamp.  The theorems on them ask for ranges inside
      the disk.
    - A nil dereference, an index out of range and a division by zero are
      the outcome [Panic].  Loops whose length depends on the device carry
      fuel: a bound computed from the data where there is one (a round per
      byte of a block), and otherwise [fuel] of [Env], for which theorems
      say how much is enough; [OutOfFuel] is never an outcome of the code.
    - A function that changes an inode through a pointer returns the changed
      inode; a caller's buffer is threaded through; a result object that a
      pass fills in is the second half of a pair state ([zoom], [update]).
    - The clock is [now] of [Env].  The order in which Go ranges over a map
      is a parameter.  [sort.Slice] is [merge_sort]; the keys are distinct.
    - Error messages keep their format strings; the operands are dropped.
      Logging is left out, and so are locks: one request runs at a time.
    - The path that the walk down an extent tree collects is kept without
      the indexes that nothing reads; the depth of link following counts
      down from 41.

    - The btrfs driver writes the device as it goes; there is no
      transaction.  A callback of a walk works on the variables it captures,
      which are its state; it stops the walk with an error.  The zlib and
      zstd codecs are the class [Codecs]; their laws are [CodecLaws].  A walk
      carries [fuel] for the height of the tree, because it believes the
      levels it finds in the nodes.  The sort of the occupied ranges is
      [merge_sort]; ranges with one start do not change the result.

    - The commands take the operating system, the FUSE host and the network
      as parameters ([OS], [FuseHost], [Installer]); what they print is a list
      of values.  The class [ReadWriterAt] has reads that leave a device as
      it is, so under a driver a read of a [SafeDevice] does not fill the
      cache, which [RedoLog] models and shows to be transparent for nested or
      disjoint ranges.  A panic in a callback is recovered by the host
      library.

    * Open

    The btrfs operations are definitions as a whole; what has no theorem of
    its own is the split of an internal node and of the root, and regular
    extents.  The theorems on operations ask for room in the leaves;
    [BtrfsGrow] is the step without it.

    * Not modelled

    [Init] of the bridge, the [String] methods and the texts of usage and
    help only format; [xattr_test.go] is a test (of a mock device that is
    not in the repository); the website files are not part of the program. *)
From Stdlib Require Export ZArith Lia.
From stdpp Require Export prelude gmap strings list.
From coqutil Require Export Byte Word.LittleEndianList.

#[global] Open Scope Z_scope.
Declare Scope go_scope.
Delimit Scope go_scope with go.
#[global] Open Scope go_scope.

(** ** Errors

    A Go [error] is a sentinel value compared by identity, a fresh error
    with a message, or a wrapped one ([fmt.Errorf] with [%w]).  Messages
    keep the format string of the source; the formatted operands carry no
    behaviour. *)
Inductive sentinel :=
  | io_EOF
  | io_ErrUnexpectedEOF
  | vfs_ErrNotExist
  | vfs_ErrAttrNotExist
  | vfs_ErrNoSpace
  | fs_ErrNotExist.

Inductive error :=
  | Sentinel (s : sentinel)
  | Errorf (msg : string)
  | Wrapf (msg : string) (e : error).

#[export] Instance sentinel_eq_dec : EqDecision sentinel.
Proof. solve_decision. Defined.
#[export] Instance error_eq_dec : EqDecision error.
Proof. solve_decision. Defined.

(** [errors.Is(err, target)] for a sentinel target: unwrap [%w] chains. *)
Fixpoint errors_Is (e : error) (target : sentinel) : bool :=
  match e with
  | Sentinel s => bool_decide (s = target)
  | Errorf _ => false
  | Wrapf _ e' => errors_Is e' target
  end.

(** ** Outcomes

    A Go call returns a value, returns a non-nil error, or panics; a loop
    modelled with fuel may run out of it. *)
Inductive res (A : Type) :=
  | Ok (a : A)
  | Err (e : error)
  | Panic
  | OutOfFuel.
Arguments Ok {_} _.
Arguments Err {_} _.
Arguments Panic {_}.
Arguments OutOfFuel {_}.

#[export] Instance res_ret : MRet res := fun A => @Ok A.
#[export] Instance res_bind : MBind res := fun A B f m =>
  match m with
  | Ok a => f a
  | Err e => Err e
  | Panic => Panic
  | OutOfFuel => OutOfFuel
  end.

(** State-and-outcome monad: the state reached so far survives an error,
    as it does for a Go method with a pointer receiver. *)
Definition M (S A : Type) : Type := S -> res A * S.

#[export] Instance M_ret {S} : MRet (M S) := fun A a s => (Ok a, s).
#[export] Instance M_bind {S} : MBind (M S) := fun A B f m s =>
  match m s with
  | (Ok a, s') => f a s'
  | (Err e, s') => (Err e, s')
  | (Panic, s') => (Panic, s')
  | (OutOfFuel, s') => (OutOfFuel, s')
  end.

Notation "x <- m ;; k" := (mbind (fun x => k) m)
  (at level 100, m at next level, right associativity) : go_scope.
Notation "'let!' p := m 'in' k" := (mbind (fun x => match x with p => k end) m)
  (at level 100, p pattern, m at level 99, right associativity) : go_scope.
Notation "m ;; k" := (mbind (fun _ => k) m)
  (at level 100, right associativity) : go_scope.

Definition get {S} : M S S := fun s => (Ok s, s).
Definition modify {S} (f : S -> S) : M S unit := fun s => (Ok tt, f s).
Definition lift {S A} (r : res A) : M S A := fun s => (r, s).
Definition fail {S A} (e : error) : M S A := fun s => (Err e, s).

(** [if err != nil { return fmt.Errorf("...: %w", err) }] *)
Definition wrap {S A} (msg : string) (m : M S A) : M S A := fun s =>
  match m s with
  | (Err e, s') => (Err (Wrapf msg e), s')
  | r => r
  end.

(** [v, err := m()] where the caller inspects [err] itself. *)
Definition catch {S A} (m : M S A) : M S (A + error) := fun s =>
  match m s with
  | (Ok a, s') => (Ok (inl a), s')
  | (Err e, s') => (Ok (inr e), s')
  | (Panic, s') => (Panic, s')
  | (OutOfFuel, s') => (OutOfFuel, s')
  end.

(** A computation over the first half of a state: the second half is the
    result object an operation fills in beside the file system. *)
Definition zoom {S T A} (m : M S A) : M (S * T) A := fun '(s, t) =>
  let '(r, s') := m s in (r, (s', t)).
Definition update {S T} (f : T -> T) : M (S * T) unit := fun '(s, t) => (Ok tt, (s, f t)).
Definition the_result {S T} : M (S * T) T := fun '(s, t) => (Ok t, (s, t)).

(** [_ = m()] where the error is dropped. *)
Definition ignore {S A} (m : M S A) : M S unit := _ <- catch m ;; mret tt.

(** A [for] loop over the elements of [l] that carries [acc]; an error of
    the body leaves the loop. *)
Fixpoint forM {S A B} (l : list A) (acc : B) (body : A -> B -> M S B) : M S B :=
  match l with
  | [] => mret acc
  | x :: l' => acc' <- body x acc ;; forM l' acc' body
  end.

(** A [for] loop whose body may [return] a value; [None] is falling off
    the end. *)
Fixpoint firstM {S A R} (l : list A) (body : A -> M S (option R)) : M S (option R) :=
  match l with
  | [] => mret None
  | x :: l' =>
      r <- body x ;;
      match r with
      | Some v => mret (Some v)
      | None => firstM l' body
      end
  end.

(** A [for] loop whose body may [continue] ([inl]) or [break] ([inr]). *)
Fixpoint forB {S A B} (l : list A) (acc : B) (body : A -> B -> M S (B + B)) : M S B :=
  match l with
  | [] => mret acc
  | x :: l' =>
      r <- body x acc ;;
      match r with
      | inl acc' => forB l' acc' body
      | inr acc' => mret acc'
      end
  end.

Definition is_Ok {A} (r : res A) : bool := match r with Ok _ => true | _ => false end.

(** Executing a bind whose first step is known. *)
Lemma bind_ok {S A B} (m : M S A) (f : A -> M S B) s s' a :
  m s = (Ok a, s') -> mbind f m s = f a s'.
Proof. unfold mbind, M_bind. by intros ->. Qed.

Lemma bind_err {S A B} (m : M S A) (f : A -> M S B) s s' e :
  m s = (Err e, s') -> mbind f m s = (Err e, s').
Proof. unfold mbind, M_bind. by intros ->. Qed.

Lemma bind_panic {S A B} (m : M S A) (f : A -> M S B) s s' :
  m s = (Panic, s') -> mbind f m s = (Panic, s').
Proof. unfold mbind, M_bind. by intros ->. Qed.

Lemma wrap_ok {S A} msg (m : M S A) s s' a : m s = (Ok a, s') -> wrap msg m s = (Ok a, s').
Proof. unfold wrap. by intros ->. Qed.

Lemma wrap_err {S A} msg (m : M S A) s s' e :
  m s = (Err e, s') -> wrap msg m s = (Err (Wrapf msg e), s').
Proof. unfold wrap. by intros ->. Qed.

Lemma zoom_ok {S T A} (m : M S A) s (t : T) a s' : m s = (Ok a, s') -> zoom m (s, t) = (Ok a, (s', t)).
Proof. unfold zoom. by intros ->. Qed.

Lemma catch_ok {S A} (m : M S A) s a s' : m s = (Ok a, s') -> catch m s = (Ok (inl a), s').
Proof. unfold catch. by intros ->. Qed.

Lemma catch_err {S A} (m : M S A) s e s' : m s = (Err e, s') -> catch m s = (Ok (inr e), s').
Proof. unfold catch. by intros ->. Qed.

Lemma ignore_ok {S A} (m : M S A) x a x' : m x = (Ok a, x') -> ignore m x = (Ok tt, x').
Proof. intros E. unfold ignore. by rewrite (bind_ok _ _ _ _ _ (catch_ok _ _ _ _ E)). Qed.
Lemma ignore_err {S A} (m : M S A) x e x' : m x = (Err e, x') -> ignore m x = (Ok tt, x').
Proof. intros E. unfold ignore. by rewrite (bind_ok _ _ _ _ _ (catch_err _ _ _ _ E)). Qed.

Lemma bind_Ok_inv {S A B} (m : M S A) (f : A -> M S B) s s' b :
  mbind f m s = (Ok b, s') -> exists a s1, m s = (Ok a, s1) /\ f a s1 = (Ok b, s').
Proof.
  unfold mbind, M_bind. destruct (m s) as [[a|e| |] s1]; intros; simplify_eq. eauto.
Qed.

Lemma wrap_Ok_inv {S A} msg (m : M S A) s s' a :
  wrap msg m s = (Ok a, s') -> m s = (Ok a, s').
Proof. unfold wrap. destruct (m s) as [[?|?| |] ?]; intros; simplify_eq; done. Qed.

(** The monad laws of [M], pointwise in the state. *)
Lemma M_left_id {S A B} (a : A) (f : A -> M S B) s : mbind f (mret a) s = f a s.
Proof. done. Qed.
Lemma M_assoc {S A B C} (m : M S A) (f : A -> M S B) (g : B -> M S C) s :
  mbind g (mbind f m) s = mbind (fun a => mbind g (f a)) m s.
Proof. unfold mbind, M_bind. by destruct (m s) as [[?|?| |] ?]. Qed.

Lemma lift_ok_bind {S A B} (a : A) (f : A -> M S B) s : mbind f (lift (Ok a)) s = f a s.
Proof. done. Qed.
Lemma get_bind {S B} (f : S -> M S B) s : mbind f get s = f s s.
Proof. done. Qed.

Lemma modify_bind {S B} (f : S -> S) (k : unit -> M S B) x : mbind k (modify f) x = k tt (f x).
Proof. done. Qed.

Lemma bind_ext {S A B} (m : M S A) (f g : A -> M S B) s :
  (forall a s', f a s' = g a s') -> mbind f m s = mbind g m s.
Proof. intros Hfg. unfold mbind, M_bind. destruct (m s) as [[?|?| |] ?]; auto. Qed.
Lemma M_right_unit {S} (m : M S unit) s : mbind (fun _ => mret tt) m s = m s.
Proof. unfold mbind, M_bind. by destruct (m s) as [[[]|?| |] ?]. Qed.

Lemma forM_app {S A B} (l1 l2 : list A) (acc : B) (body : A -> B -> M S B) s :
  forM (l1 ++ l2) acc body s = mbind (fun acc' => forM l2 acc' body) (forM l1 acc body) s.
Proof.
  revert acc s. induction l1 as [|x l1 IH]; intros acc s; [done|].
  cbn [app forM]. rewrite M_assoc.
  destruct (body x acc s) as [[?|?| |] ?] eqn:E.
  - rewrite !(bind_ok _ _ _ _ _ E). apply IH.
  - by rewrite !(bind_err _ _ _ _ _ E).
  - by rewrite !(bind_panic _ _ _ _ E).
  - unfold mbind, M_bind. by rewrite E.
Qed.

(** Loops that leave the state alone, by an invariant [I] on the elements
    still to come and the accumulator. *)
Lemma forB_inv {S A B} (I : list A -> B -> Prop) (Post : B -> Prop) (body : A -> B -> M S (B + B)) (s : S) :
  (forall acc, I [] acc -> Post acc) ->
  (forall x l acc, I (x :: l) acc ->
     (exists acc', body x acc s = (Ok (inl acc'), s) /\ I l acc') \/
     (exists acc', body x acc s = (Ok (inr acc'), s) /\ Post acc')) ->
  forall l acc, I l acc -> exists acc', forB l acc body s = (Ok acc', s) /\ Post acc'.
Proof.
  intros Hnil Hstep l. induction l as [|x l IH]; intros acc HI.
  { exists acc. split; [done|auto]. }
  cbn [forB]. destruct (Hstep _ _ _ HI) as [(acc' & E & HI')|(acc' & E & HP)];
    rewrite (bind_ok _ _ _ _ _ E).
  - by apply IH.
  - by exists acc'.
Qed.

(** Loops that change the state, by an invariant on the elements to come,
    the accumulator and the state. *)
Lemma forM_inv {S A B} (I : list A -> B -> S -> Prop) (body : A -> B -> M S B) :
  (forall x l acc s, I (x :: l) acc s -> exists acc' s', body x acc s = (Ok acc', s') /\ I l acc' s') ->
  forall l acc s, I l acc s -> exists acc' s', forM l acc body s = (Ok acc', s') /\ I [] acc' s'.
Proof.
  intros Hstep l. induction l as [|x l IH]; intros acc s HI; [by exists acc, s|].
  destruct (Hstep _ _ _ _ HI) as (acc' & s' & E & HI'). cbn [forM].
  rewrite (bind_ok _ _ _ _ _ E). by apply IH.
Qed.

Lemma forM_fmap {S A A' B} (f : A -> A') (l : list A) (acc : B) (body : A' -> B -> M S B) s :
  forM (f <$> l) acc body s = forM l acc (fun x => body (f x)) s.
Proof.
  revert acc s. induction l as [|x l IH]; intros acc s; [done|]. cbn [fmap list_fmap forM].
  apply bind_ext. intros. apply IH.
Qed.

Lemma forM_ext {S A B} (l : list A) (acc : B) (f g : A -> B -> M S B) s :
  (forall x a s, x ∈ l -> f x a s = g x a s) -> forM l acc f s = forM l acc g s.
Proof.
  revert acc s. induction l as [|x l IH]; intros acc s Hfg; [done|]. cbn [forM].
  unfold mbind, M_bind. rewrite (Hfg x) by set_solver.
  destruct (g x acc s) as [[?|?| |] ?]; try done. apply IH. set_solver.
Qed.

(** A loop over loops is a loop over the concatenation. *)
Lemma forM_flat {S A A' B} (g : A -> list A') (l : list A) (acc : B) (body : A' -> B -> M S B) s :
  forM l acc (fun x acc => forM (g x) acc body) s = forM (l ≫= g) acc body s.
Proof.
  revert acc s. induction l as [|x l IH]; intros acc s; [done|].
  change ((x :: l) ≫= g) with (g x ++ (l ≫= g)). rewrite forM_app. cbn [forM]. apply bind_ext. intros. apply IH.
Qed.

Lemma firstM_app {S A R} (l1 l2 : list A) (body : A -> M S (option R)) s :
  firstM (l1 ++ l2) body s =
  mbind (fun r => match r with Some v => mret (Some v) | None => firstM l2 body end) (firstM l1 body) s.
Proof.
  revert s. induction l1 as [|x l1 IH]; intros s; [done|].
  cbn [app firstM]. rewrite M_assoc. apply bind_ext. intros [v|] s'; [done|apply IH].
Qed.

Lemma firstM_flat {S A A' R} (g : A -> list A') (l : list A) (body : A' -> M S (option R)) s :
  firstM l (fun x => firstM (g x) body) s = firstM (l ≫= g) body s.
Proof.
  revert s. induction l as [|x l IH]; intros s; [done|].
  change ((x :: l) ≫= g) with (g x ++ (l ≫= g)). rewrite firstM_app. cbn [firstM].
  apply bind_ext. intros [v|] s'; [done|apply IH].
Qed.

Lemma firstM_fmap {S A A' R} (f : A -> A') (l : list A) (body : A' -> M S (option R)) s :
  firstM (f <$> l) body s = firstM l (fun x => body (f x)) s.
Proof.
  revert s. induction l as [|x l IH]; intros s; [done|]. cbn [fmap list_fmap firstM].
  apply bind_ext. intros [v|] s'; [done|apply IH].
Qed.

Lemma firstM_ext {S A R} (l : list A) (f g : A -> M S (option R)) s :
  (forall x s, x ∈ l -> f x s = g x s) -> firstM l f s = firstM l g s.
Proof.
  revert s. induction l as [|x l IH]; intros s Hfg; [done|]. cbn [firstM].
  unfold mbind, M_bind. rewrite (Hfg x) by set_solver.
  destruct (g x s) as [[[v|]|?| |] ?]; try done. apply IH. set_solver.
Qed.

(** A loop that stops at the first element the body accepts, when the
    rejected elements leave the state alone. *)
Lemma firstM_first {S A R} (l : list A) (body : A -> M S (option R)) (s : S) :
  (forall x, x ∈ l -> body x s = (Ok None, s) \/ exists v s', body x s = (Ok (Some v), s')) ->
  (exists l1 x l2 v s', l = l1 ++ x :: l2 /\ (forall y, y ∈ l1 -> body y s = (Ok None, s)) /\
     body x s = (Ok (Some v), s') /\ firstM l body s = (Ok (Some v), s')) \/
  (firstM l body s = (Ok None, s) /\ forall y, y ∈ l -> body y s = (Ok None, s)).
Proof.
  induction l as [|x l IH]; intros Hl.
  { right. split; [done|]. by intros y ?%not_elem_of_nil. }
  destruct (Hl x) as [E|(v & s' & E)]; [by left| |].
  - destruct IH as [(l1 & y & l2 & v & s' & -> & H1 & H2 & H3)|[H1 H2]]; [intros; apply Hl; by right|left|right].
    + exists (x :: l1), y, l2, v, s'. split; [done|]. split; [|split; [done|]].
      * by intros z [->|?]%elem_of_cons; [|apply H1].
      * cbn [firstM]. by rewrite (bind_ok _ _ _ _ _ E).
    + split; [cbn [firstM]; by rewrite (bind_ok _ _ _ _ _ E)|].
      by intros z [->|?]%elem_of_cons; [|apply H2].
  - left. exists [], x, l, v, s'. split; [done|]. split; [by intros y ?%not_elem_of_nil|].
    split; [done|]. cbn [firstM]. by rewrite (bind_ok _ _ _ _ _ E).
Qed.

(** What an operation takes from its environment: the clock
    ([time.Now().Unix()], which does not advance during an operation) and a
    bound on the loops and recursions whose termination depends on the data
    found on the disk. *)
Class Env := mkEnv { now : Z; fuel : nat }.

(** ** Invariants of computations

    [preserves P m]: from a state with [P], [m] ends in one, whatever the
    outcome. *)
Section preserves.
Context {S : Type}.
Variable P : S -> Prop.

Definition preserves {A} (m : M S A) : Prop := forall s, P s -> P (m s).2.

Lemma preserves_ret {A} (a : A) : preserves (mret a).
Proof. by intros s Hs. Qed.
Lemma preserves_lift {A} (r : res A) : preserves (lift r).
Proof. by intros s Hs. Qed.
Lemma preserves_bind {A B} (m : M S A) (k : A -> M S B) : preserves m -> (forall a, preserves (k a)) -> preserves (mbind k m).
Proof.
  intros Hm Hk s Hs. specialize (Hm s Hs). unfold mbind, M_bind. destruct (m s) as [[a|?| |] s']; [|done..].
  by apply Hk.
Qed.
Lemma preserves_forM {A B} (l : list A) (acc : B) (body : A -> B -> M S B) :
  (forall x a, preserves (body x a)) -> preserves (forM l acc body).
Proof.
  intros Hb. revert acc. induction l as [|x l IH]; intros acc; [apply preserves_ret|]. by apply preserves_bind.
Qed.
Lemma preserves_forB {A B} (l : list A) (acc : B) (body : A -> B -> M S (B + B)) :
  (forall x a, preserves (body x a)) -> preserves (forB l acc body).
Proof.
  intros Hb. revert acc. induction l as [|x l IH]; intros acc; [apply preserves_ret|].
  apply preserves_bind; [done|]. intros [a|a]; [apply IH|apply preserves_ret].
Qed.
Lemma preserves_firstM {A R} (l : list A) (body : A -> M S (option R)) :
  (forall x, preserves (body x)) -> preserves (firstM l body).
Proof.
  intros Hb. induction l as [|x l IH]; [apply preserves_ret|].
  apply preserves_bind; [done|]. intros [v|]; [apply preserves_ret|done].
Qed.
Lemma preserves_get : preserves get.
Proof. by intros s Hs. Qed.
Lemma preserves_fail {A} e : preserves (fail (A := A) e).
Proof. by intros s Hs. Qed.
Lemma preserves_modify f : (forall s, P s -> P (f s)) -> preserves (modify f).
Proof. intros Hf s Hs. by apply Hf. Qed.
Lemma preserves_wrap {A} msg (m : M S A) : preserves m -> preserves (wrap msg m).
Proof. intros Hm s Hs. specialize (Hm s Hs). unfold wrap. by destruct (m s) as [[?|?| |] ?]. Qed.
Lemma preserves_catch {A} (m : M S A) : preserves m -> preserves (catch m).
Proof. intros Hm s Hs. specialize (Hm s Hs). unfold catch. by destruct (m s) as [[?|?| |] ?]. Qed.
Lemma preserves_ignore {A} (m : M S A) : preserves m -> preserves (ignore m).
Proof. intros Hm. apply preserves_bind; [by apply preserves_catch|]. intros. apply preserves_ret. Qed.
End preserves.

Create HintDb pass discriminated.
#[export] Hint Constants Opaque : pass.
#[export] Hint Resolve preserves_ret preserves_lift preserves_get preserves_fail : pass.

(** Decompose a pass; conditionals and pattern matches split. *)
Ltac pass_tac :=
  repeat
    match goal with
    | |- preserves _ (mbind _ _) => apply preserves_bind; [ | intros ?]
    | |- preserves _ (wrap _ _) => apply preserves_wrap
    | |- preserves _ (catch _) => apply preserves_catch
    | |- preserves _ (ignore _) => apply preserves_ignore
    | |- preserves _ (firstM _ _) => apply preserves_firstM; intros ?
    | |- preserves _ (forM _ _ _) => apply preserves_forM; intros ? ?
    | |- preserves _ (forB _ _ _) => apply preserves_forB; intros ? ?
    | |- preserves _ (if ?b then _ else _) => destruct b
    | |- preserves _ (match ?x with _ => _ end) => destruct x
    | |- preserves _ (let _ := _ in _) => cbn zeta
    | |- preserves _ _ => solve [auto with pass]
    end.

(** ** Machine integers

    Unsigned values are [Z] in range; [w8]..[w64] write out the wrap-around
    of an arithmetic operation, [i64] is Go's conversion to [int64]. *)
Definition w8 (z : Z) : Z := z mod 2 ^ 8.
Definition w16 (z : Z) : Z := z mod 2 ^ 16.
Definition w32 (z : Z) : Z := z mod 2 ^ 32.
Definition w64 (z : Z) : Z := z mod 2 ^ 64.
Definition i64 (z : Z) : Z :=
  let m := z mod 2 ^ 64 in if m <? 2 ^ 63 then m else m - 2 ^ 64.

Lemma w8_id z : 0 <= z < 2 ^ 8 -> w8 z = z. Proof. apply Z.mod_small. Qed.
Lemma w16_id z : 0 <= z < 2 ^ 16 -> w16 z = z. Proof. apply Z.mod_small. Qed.
Lemma w32_id z : 0 <= z < 2 ^ 32 -> w32 z = z. Proof. apply Z.mod_small. Qed.
Lemma w64_id z : 0 <= z < 2 ^ 64 -> w64 z = z. Proof. apply Z.mod_small. Qed.
Lemma i64_id z : 0 <= z < 2 ^ 63 -> i64 z = z.
Proof. intros. unfold i64. rewrite Z.mod_small by lia. case_match; lia. Qed.

Lemma w8_range z : 0 <= w8 z < 2 ^ 8. Proof. by apply Z.mod_pos_bound. Qed.
Lemma w16_range z : 0 <= w16 z < 2 ^ 16. Proof. by apply Z.mod_pos_bound. Qed.
Lemma w32_range z : 0 <= w32 z < 2 ^ 32. Proof. by apply Z.mod_pos_bound. Qed.
Lemma w64_range z : 0 <= w64 z < 2 ^ 64. Proof. by apply Z.mod_pos_bound. Qed.

Lemma w16_pred_succ z : 0 <= z < 2 ^ 16 -> w16 (w16 (z - 1) + 1) = z.
Proof.
  intros. unfold w16. rewrite Zplus_mod_idemp_l. replace (z - 1 + 1) with z by lia.
  by apply Z.mod_small.
Qed.

Lemma w8_mod z : w8 z = z mod 2 ^ 8. Proof. done. Qed.
Lemma w16_mod z : w16 z = z mod 2 ^ 16. Proof. done. Qed.
Lemma w32_mod z : w32 z = z mod 2 ^ 32. Proof. done. Qed.
Lemma w64_mod z : w64 z = z mod 2 ^ 64. Proof. done. Qed.

(** Bit operations stay within their width. *)
Lemma lor_range n a b : 0 <= n -> 0 <= a < 2 ^ n -> 0 <= b < 2 ^ n -> 0 <= Z.lor a b < 2 ^ n.
Proof.
  intros Hn Ha Hb. replace (Z.lor a b) with (Z.lor a b mod 2 ^ n); [apply Z.mod_pos_bound; lia|].
  rewrite <- Z.land_ones by lia. rewrite Z.land_lor_distr_l, !Z.land_ones, !Z.mod_small by lia. done.
Qed.

Lemma land_range n a b : 0 <= n -> 0 <= b < 2 ^ n -> 0 <= Z.land a b < 2 ^ n.
Proof.
  intros Hn Hb. replace (Z.land a b) with (Z.land a b mod 2 ^ n); [apply Z.mod_pos_bound; lia|].
  rewrite <- Z.land_ones by lia. rewrite <- Z.land_assoc, (Z.land_ones b), Z.mod_small by lia. done.
Qed.

Lemma shiftl_range n m a : 0 <= n -> 0 <= m -> 0 <= a < 2 ^ n -> 0 <= Z.shiftl a m < 2 ^ (n + m).
Proof. intros Hn Hm Ha. rewrite Z.shiftl_mul_pow2, Z.pow_add_r by lia. nia. Qed.

(** A number is its high and its low part put together. *)
Lemma hi_lo b : 0 <= b -> Z.lor (Z.shiftl (Z.shiftr b 32) 32) (w32 b) = b.
Proof.
  intros Hb. rewrite Z.shiftr_div_pow2, w32_mod by lia.
  apply Z.bits_inj'. intros i Hi. rewrite Z.lor_spec.
  destruct (Z.lt_ge_cases i 32).
  - rewrite Z.shiftl_spec_low, Z.mod_pow2_bits_low by lia. done.
  - rewrite Z.shiftl_spec, Z.div_pow2_bits, Z.mod_pow2_bits_high by lia.
    rewrite orb_false_r. f_equal. lia.
Qed.

Lemma shiftr32_range b n : 0 <= n -> 0 <= b < 2 ^ (32 + n) -> 0 <= Z.shiftr b 32 < 2 ^ n.
Proof.
  intros Hn Hb. rewrite Z.shiftr_div_pow2 by lia. rewrite Z.pow_add_r in Hb by lia.
  split; [apply Z.div_pos; lia|]. apply Z.div_lt_upper_bound; lia.
Qed.

Lemma hi_lo_48 b : 0 <= b < 2 ^ 48 -> Z.lor (Z.shiftl (w16 (Z.shiftr b 32)) 32) (w32 b) = b.
Proof. intros Hb. rewrite w16_id by exact (shiftr32_range b 16 ltac:(lia) Hb). apply hi_lo; lia. Qed.
Lemma hi_lo_64 b : 0 <= b < 2 ^ 64 -> Z.lor (Z.shiftl (w32 (Z.shiftr b 32)) 32) (w32 b) = b.
Proof. intros Hb. rewrite (w32_id (Z.shiftr b 32)) by exact (shiftr32_range b 32 ltac:(lia) Hb). apply hi_lo; lia. Qed.

Create HintDb words.
Create Rewrite HintDb words.
#[export] Hint Resolve w8_range w16_range w32_range w64_range : words.
#[export] Hint Rewrite w8_id w16_id w32_id w64_id i64_id using lia : words.

(** Remove wrap-arounds whose argument [lia] finds in range. *)
Ltac unwrap := autorewrite with words.

(** Decidable facts by evaluation. *)
Ltac by_decision := refine (bool_decide_unpack _ _); vm_compute; exact I.

#[global] Opaque w8 w16 w32 w64 i64.

