(* ===== verification/Bytes.v ===== *)
(** Byte slices with Go's bounds checks, and the codecs of [encoding/binary]. *)
From S2P Require Export Prelude.

(** ** Byte slices

    Offsets and lengths are [Z], as Go's [int].  [sub l off n] is
    [l[off:off+n]]; [put l off s] is the slice after [copy(l[off:], s)]:
    bytes of [s] that do not fit are dropped, the length never changes. *)
Definition zlen {A} (l : list A) : Z := Z.of_nat (length l).
Definition sub {A} (l : list A) (off n : Z) : list A :=
  take (Z.to_nat n) (drop (Z.to_nat off) l).
Definition put {A} (l : list A) (off : Z) (s : list A) : list A :=
  take (Z.to_nat off) l ++ take (length l - Z.to_nat off) s ++ drop (Z.to_nat off + length s) l.
Definition zeros (n : Z) : list byte := replicate (Z.to_nat n) Byte.x00.

#[export] Instance byte_eq_dec : EqDecision byte := Byte.byte_eq_dec.
#[export] Program Instance byte_countable : Countable byte :=
  inj_countable Byte.to_N Byte.of_N _.
Next Obligation. exact Byte.of_to_N. Qed.

(** Slicing expressions that panic out of range. *)
Definition slice {A} (l : list A) (lo hi : Z) : res (list A) :=
  if (0 <=? lo) && (lo <=? hi) && (hi <=? zlen l) then Ok (sub l lo (hi - lo)) else Panic.
Definition copy_at (l : list byte) (off : Z) (s : list byte) : res (list byte) :=
  if (0 <=? off) && (off <=? zlen l) then Ok (put l off s) else Panic.
Definition put_at (l : list byte) (off : Z) (s : list byte) : res (list byte) :=
  if (0 <=? off) && (off + zlen s <=? zlen l) then Ok (put l off s) else Panic.
Definition index {A} (l : list A) (i : Z) : res A :=
  if 0 <=? i then match l !! Z.to_nat i with Some x => Ok x | None => Panic end else Panic.

(** [binary.LittleEndian.UintN(b[off:off+n])] and [PutUintN]. *)
Definition le_get (n : nat) (b : list byte) (off : Z) : Z := le_combine (sub b off (Z.of_nat n)).
Definition getUint (n : nat) (b : list byte) (off : Z) : res Z :=
  s <- slice b off (off + Z.of_nat n) ;; Ok (le_combine s).
Definition putUint (n : nat) (b : list byte) (off : Z) (v : Z) : res (list byte) :=
  put_at b off (le_split n v).
Abbreviation getUint16 := (getUint 2).
Abbreviation getUint32 := (getUint 4).
Abbreviation getUint64 := (getUint 8).
Abbreviation putUint16 := (putUint 2).
Abbreviation putUint32 := (putUint 4).
Abbreviation putUint64 := (putUint 8).

(** A Go string and a byte slice hold the same bytes. *)
Definition bytes_of_string (s : string) : list byte := String.list_byte_of_string s.

(** ** Facts about [sub] and [put] *)
Section slices.
Context {A : Type}.
Implicit Types l s : list A.

Lemma lookup_sub l off n (i : nat) :
  0 <= off -> sub l off n !! i = if decide (Z.of_nat i < n) then l !! Z.to_nat (off + Z.of_nat i) else None.
Proof.
  intros. unfold sub. case_decide.
  - rewrite lookup_take_lt by lia. rewrite lookup_drop. f_equal. lia.
  - by rewrite lookup_take_ge by lia.
Qed.

Lemma length_put l off s : length (put l off s) = length l.
Proof. unfold put. rewrite !length_app, !length_take, length_drop. lia. Qed.

Lemma lookup_put l off s (i : nat) :
  0 <= off ->
  put l off s !! i =
    if decide (off <= Z.of_nat i < off + zlen s /\ (i < length l)%nat) then s !! (i - Z.to_nat off)%nat else l !! i.
Proof.
  intros Ho. unfold put, zlen. case_decide as Hd.
  - rewrite lookup_app_r by (rewrite length_take; lia).
    rewrite length_take, Nat.min_l by lia.
    rewrite lookup_app_l by (rewrite length_take; lia).
    by rewrite lookup_take_lt by lia.
  - destruct (decide (i < Z.to_nat off)%nat).
    { destruct (decide (i < length l)%nat).
      - rewrite lookup_app_l by (rewrite length_take; lia). by rewrite lookup_take_lt by lia.
      - rewrite !lookup_ge_None_2; [done| |]; rewrite ?length_app, ?length_take, ?length_drop; lia. }
    destruct (decide (i < length l)%nat).
    + rewrite lookup_app_r by (rewrite length_take; lia).
      rewrite length_take, lookup_app_r by (rewrite length_take; lia).
      rewrite length_take, lookup_drop. f_equal. lia.
    + rewrite !lookup_ge_None_2; [done| |]; rewrite ?length_app, ?length_take, ?length_drop; lia.
Qed.

Lemma zlen_nonneg l : 0 <= zlen l.
Proof. unfold zlen. lia. Qed.
Lemma zlen_put l off s : zlen (put l off s) = zlen l.
Proof. unfold zlen. by rewrite length_put. Qed.
Lemma zlen_app l s : zlen (l ++ s) = zlen l + zlen s.
Proof. unfold zlen. rewrite length_app. lia. Qed.
Lemma zlen_sub l off n : 0 <= off -> 0 <= n -> off + n <= zlen l -> zlen (sub l off n) = n.
Proof. unfold zlen, sub. intros. rewrite length_take, length_drop. lia. Qed.
Lemma zlen_sub_le l off n : 0 <= n -> zlen (sub l off n) <= n.
Proof. unfold zlen, sub. intros. rewrite length_take. lia. Qed.
Lemma zlen_sub_min l off n :
  0 <= off -> 0 <= n -> zlen (sub l off n) = Z.min n (Z.max 0 (zlen l - off)).
Proof. unfold zlen, sub. intros. rewrite length_take, length_drop. lia. Qed.

Lemma zlen_insert l (i : nat) x : zlen (<[i := x]> l) = zlen l.
Proof. unfold zlen. by rewrite length_insert. Qed.
End slices.

Lemma zlen_zeros n : 0 <= n -> zlen (zeros n) = n.
Proof. intros. unfold zlen, zeros. rewrite length_replicate. lia. Qed.
Lemma zlen_le_split n v : zlen (le_split n v) = Z.of_nat n.
Proof. unfold zlen. by rewrite length_le_split. Qed.

(** Two slices are compared pointwise; [lia] decides the windows. *)
Ltac slice_ext :=
  apply list_eq; intros ?i;
  repeat first
    [ rewrite lookup_put by lia
    | rewrite lookup_sub by lia
    | case_decide ];
  unfold zlen in *; rewrite ?length_put in *;
  try solve
    [ done | exfalso; lia | f_equal; lia
    | symmetry; apply lookup_ge_None_2; lia | apply lookup_ge_None_2; lia
    | rewrite !lookup_ge_None_2 by lia; done ].

Section slice_laws.
Context {A : Type}.
Implicit Types l s : list A.

Lemma sub_put_same l off s :
  0 <= off -> off + zlen s <= zlen l -> sub (put l off s) off (zlen s) = s.
Proof. unfold zlen. intros. slice_ext. Qed.

Lemma sub_put_eq l off s n :
  zlen s = n -> 0 <= off -> off + n <= zlen l -> sub (put l off s) off n = s.
Proof. intros <-. apply sub_put_same. Qed.

Lemma sub_put_disj l off s o n :
  0 <= off -> 0 <= o -> o + n <= off \/ off + zlen s <= o -> sub (put l off s) o n = sub l o n.
Proof. intros. slice_ext. Qed.

Lemma sub_put_inside l off s o n :
  0 <= off -> off <= o -> o + n <= off + zlen s -> off + zlen s <= zlen l ->
  sub (put l off s) o n = sub s (o - off) n.
Proof. unfold zlen. intros. slice_ext. Qed.

Lemma sub_put_around l off s o n :
  0 <= o -> o <= off -> off + zlen s <= o + n -> o + n <= zlen l ->
  sub (put l off s) o n = put (sub l o n) (off - o) s.
Proof.
  intros. pose proof (zlen_sub l o n). unfold zlen in *. slice_ext.
Qed.

Lemma sub_sub l o n o' n' :
  0 <= o -> 0 <= o' -> o' + n' <= n -> sub (sub l o n) o' n' = sub l (o + o') n'.
Proof. intros. slice_ext. Qed.

Lemma sub_all l : sub l 0 (zlen l) = l.
Proof. unfold sub, zlen. rewrite Nat2Z.id. apply take_ge. done. Qed.

Lemma sub_nil l o : sub l o 0 = [].
Proof. done. Qed.

Lemma sub_app_l l s o n : 0 <= o -> o + n <= zlen l -> sub (l ++ s) o n = sub l o n.
Proof.
  unfold zlen. intros. apply list_eq; intros i. rewrite !lookup_sub by done.
  case_decide; [|done]. apply lookup_app_l. lia.
Qed.

Lemma sub_app_r l s o n : zlen l <= o -> sub (l ++ s) o n = sub s (o - zlen l) n.
Proof.
  unfold zlen. intros. apply list_eq; intros i. rewrite !lookup_sub by lia.
  case_decide; [|done]. rewrite lookup_app_r by lia. f_equal. lia.
Qed.

Lemma put_sub_id l off n : 0 <= off -> 0 <= n -> put l off (sub l off n) = l.
Proof. intros. pose proof (zlen_sub_le l off n). slice_ext. Qed.

Lemma put_put_same l off s s' :
  0 <= off -> zlen s = zlen s' -> put (put l off s) off s' = put l off s'.
Proof. unfold zlen. intros. slice_ext. Qed.

Lemma put_put_comm l o1 s1 o2 s2 :
  0 <= o1 -> 0 <= o2 -> o1 + zlen s1 <= o2 \/ o2 + zlen s2 <= o1 ->
  put (put l o1 s1) o2 s2 = put (put l o2 s2) o1 s1.
Proof. unfold zlen. intros. slice_ext. Qed.

(** The first of three writes undone by a write of the old bytes, when the
    other two are repeated with other bytes. *)
Lemma put_restore l o n s p a a' q b b' :
  0 <= o -> 0 <= n -> o + n <= zlen l -> 0 <= p -> 0 <= q -> zlen s = n -> zlen a = zlen a' -> zlen b = zlen b' ->
  o + n <= p \/ p + zlen a <= o -> o + n <= q \/ q + zlen b <= o ->
  put (put (put (put (put (put l o s) p a) q b) o (sub l o n)) p a') q b' = put (put l p a') q b'.
Proof.
  intros. apply list_eq; intros i. rewrite !lookup_put by done. rewrite !length_put.
  pose proof (zlen_sub l o n). rewrite !lookup_sub by done. unfold zlen in *.
  repeat case_decide; try done; try lia. all: f_equal; lia.
Qed.

Lemma put_nil l off : put l off [] = l.
Proof. unfold put. rewrite take_nil, Nat.add_0_r. apply take_drop. Qed.

Lemma put_all l s : zlen s = zlen l -> put l 0 s = s.
Proof.
  unfold zlen, put. intros. change (Z.to_nat 0) with 0%nat.
  rewrite take_0, Nat.sub_0_r, Nat.add_0_l, take_ge, drop_ge by lia. apply app_nil_r.
Qed.

Lemma put_sub_whole l off n s :
  0 <= off -> 0 <= n -> off + n <= zlen l -> zlen s = n ->
  put l off (put (sub l off n) 0 s) = put l off s.
Proof. intros. rewrite put_all; [done|]. rewrite zlen_sub; lia. Qed.

(** Writing a larger window that only changes the bytes at [off]. *)
Lemma put_put_sub l o n off s :
  0 <= o -> o <= off -> off + zlen s <= o + n -> o + n <= zlen l ->
  put l o (put (sub l o n) (off - o) s) = put l off s.
Proof.
  intros. pose proof (zlen_sub l o n). unfold zlen in *. slice_ext.
  all: rewrite ?length_put in *; lia.
Qed.

(** Consecutive writes make one write. *)
Lemma put_put_app l o s1 s2 :
  0 <= o -> o + zlen s1 + zlen s2 <= zlen l -> put (put l o s1) (o + zlen s1) s2 = put l o (s1 ++ s2).
Proof.
  intros Ho Hfit. apply list_eq; intros i. rewrite !lookup_put by (unfold zlen in *; lia).
  rewrite length_put, zlen_app. unfold zlen in *. repeat case_decide; try lia; try done.
  - rewrite lookup_app_r by lia. f_equal. lia.
  - rewrite lookup_app_l by lia. done.
Qed.

(** A write that replaces one part of a concatenation. *)
Lemma put_mid (l1 l2 l2' l3 : list A) :
  length l2 = length l2' -> put (l1 ++ l2 ++ l3) (zlen l1) l2' = l1 ++ l2' ++ l3.
Proof.
  intros Hl. unfold put, zlen. rewrite Nat2Z.id, take_app_length.
  rewrite take_ge by (rewrite !length_app; lia).
  rewrite drop_app_ge by lia. rewrite drop_app_ge by lia.
  replace (length l1 + length l2' - length l1 - length l2)%nat with 0%nat by lia. done.
Qed.

Lemma sub_app_mid (l1 l2 l3 : list A) : sub (l1 ++ l2 ++ l3) (zlen l1) (zlen l2) = l2.
Proof. unfold sub, zlen. rewrite !Nat2Z.id, drop_app_length, take_app_length. done. Qed.

Lemma sub_ext l l' o n :
  0 <= o -> (forall i, o <= i < o + n -> l !! Z.to_nat i = l' !! Z.to_nat i) -> sub l o n = sub l' o n.
Proof. intros ? H. slice_ext. apply H. lia. Qed.
End slice_laws.

Create Rewrite HintDb zlen.
#[export] Hint Rewrite @zlen_put @zlen_app @zlen_insert zlen_le_split : zlen.
#[export] Hint Rewrite @zlen_sub zlen_zeros using lia : zlen.

(** Lengths: push [zlen] through slices, then arithmetic. *)
Ltac zlen := autorewrite with zlen in *; try lia.

(** ** The checked operations inside and outside their bounds *)
Section checked.
Context {A : Type}.
Implicit Types l s : list A.

Lemma slice_in l lo hi : 0 <= lo <= hi -> hi <= zlen l -> slice l lo hi = Ok (sub l lo (hi - lo)).
Proof. intros. unfold slice. by rewrite !(proj2 (Z.leb_le _ _)) by lia. Qed.
Lemma slice_out l lo hi : zlen l < hi -> slice l lo hi = Panic.
Proof. intros. unfold slice. by rewrite (proj2 (Z.leb_gt hi _)), andb_false_r by lia. Qed.
Lemma slice_neg l lo hi : hi < lo -> slice l lo hi = Panic.
Proof. intros. unfold slice. by rewrite (proj2 (Z.leb_gt lo hi)), andb_false_r by lia. Qed.
Lemma slice_inv l lo hi s :
  slice l lo hi = Ok s -> 0 <= lo <= hi /\ hi <= zlen l /\ s = sub l lo (hi - lo).
Proof.
  unfold slice. destruct (_ && _) eqn:E; intros; simplify_eq.
  apply andb_prop in E as [[E1 E2]%andb_prop E3]. apply Z.leb_le in E1, E2, E3. done.
Qed.
Lemma index_in l i : 0 <= i < zlen l -> exists x, l !! Z.to_nat i = Some x /\ index l i = Ok x.
Proof.
  intros. unfold index. rewrite (proj2 (Z.leb_le 0 i)) by lia.
  destruct (lookup_lt_is_Some_2 l (Z.to_nat i)) as [x ->]; [unfold zlen in *; lia|eauto].
Qed.
Lemma index_lookup l i x : 0 <= i -> l !! Z.to_nat i = Some x -> index l i = Ok x.
Proof. intros ? H. unfold index. by rewrite (proj2 (Z.leb_le 0 i)), H by lia. Qed.
Lemma index_out l i : zlen l <= i -> index l i = Panic.
Proof.
  intros. unfold index. case_match; [|done].
  by rewrite (lookup_ge_None_2 l) by (unfold zlen in *; lia).
Qed.
End checked.

Lemma copy_at_in l off s : 0 <= off <= zlen l -> copy_at l off s = Ok (put l off s).
Proof. intros. unfold copy_at. by rewrite !(proj2 (Z.leb_le _ _)) by lia. Qed.
Lemma put_at_in l off s : 0 <= off -> off + zlen s <= zlen l -> put_at l off s = Ok (put l off s).
Proof. intros. unfold put_at. by rewrite !(proj2 (Z.leb_le _ _)) by lia. Qed.
Lemma getUint_in n b off : 0 <= off -> off + Z.of_nat n <= zlen b -> getUint n b off = Ok (le_get n b off).
Proof.
  intros. unfold getUint, le_get. rewrite slice_in by lia. cbn. do 3 f_equal. lia.
Qed.
Lemma putUint_in n b off v :
  0 <= off -> off + Z.of_nat n <= zlen b -> putUint n b off v = Ok (put b off (le_split n v)).
Proof. intros. unfold putUint. apply put_at_in; rewrite ?zlen_le_split; lia. Qed.

Lemma putUint_out n b off v : zlen b < off + Z.of_nat n -> putUint n b off v = Panic.
Proof. intros. unfold putUint, put_at. by rewrite zlen_le_split, (proj2 (Z.leb_gt _ (zlen b))), andb_false_r by lia. Qed.
Lemma putUint_bind {S A} n b off v (f : list byte -> M S A) s :
  0 <= off -> off + Z.of_nat n <= zlen b -> mbind f (lift (putUint n b off v)) s = f (put b off (le_split n v)) s.
Proof. intros. by rewrite putUint_in. Qed.

Lemma le_get_range n b off : 0 <= le_get n b off < 2 ^ (8 * Z.of_nat n).
Proof.
  unfold le_get. pose proof (le_combine_bound (sub b off (Z.of_nat n))) as H.
  assert (2 ^ (8 * Z.of_nat (length (sub b off (Z.of_nat n)))) <= 2 ^ (8 * Z.of_nat n)).
  { apply Z.pow_le_mono_r; [lia|]. unfold sub. rewrite length_take. lia. }
  lia.
Qed.

Lemma le_get_put_same n b off v :
  0 <= off -> off + Z.of_nat n <= zlen b -> le_get n (put b off (le_split n v)) off = v mod 2 ^ (Z.of_nat n * 8).
Proof.
  intros. unfold le_get. rewrite <- (zlen_le_split n v) at 1. rewrite sub_put_same.
  - apply le_combine_split.
  - done.
  - rewrite zlen_le_split. lia.
Qed.

Lemma le_get_put_disj n b off s o :
  0 <= off -> 0 <= o -> o + Z.of_nat n <= off \/ off + zlen s <= o -> le_get n (put b off s) o = le_get n b o.
Proof. intros. unfold le_get. by rewrite sub_put_disj. Qed.

Lemma le_get_sub n b o len off :
  0 <= o -> 0 <= off -> off + Z.of_nat n <= len -> le_get n (sub b o len) off = le_get n b (o + off).
Proof. intros. unfold le_get. by rewrite sub_sub. Qed.

(** ** [encoding/binary] on fixed-size structs

    A codec is the little-endian layout of a Go struct: its size, the bytes
    [binary.Write] emits and the value [binary.Read] fills in.  The layout of
    a struct is the concatenation of its fields without padding. *)
Record codec (A : Type) := mkCodec {
  c_size : nat;
  c_enc : A -> list byte;
  c_dec : list byte -> A;
  c_wf : A -> Prop;
  c_length : forall a, c_wf a -> length (c_enc a) = c_size;
  c_dec_enc : forall a rest, c_wf a -> c_dec (c_enc a ++ rest) = a;
  c_enc_dec : forall bs, (c_size <= length bs)%nat -> c_enc (c_dec bs) = take c_size bs;
  c_dec_wf : forall bs, (c_size <= length bs)%nat -> c_wf (c_dec bs)
}.
Arguments c_size {A} _.
Arguments c_enc {A} _ _.
Arguments c_dec {A} _ _.
Arguments c_wf {A} _ _.

Lemma le_combine_range bs : 0 <= le_combine bs < 2 ^ (8 * Z.of_nat (length bs)).
Proof. apply le_combine_bound. Qed.

Lemma le_combine_le_split n v : 0 <= v < 2 ^ (8 * Z.of_nat n) -> le_combine (le_split n v) = v.
Proof. intros. rewrite le_combine_split. apply Z.mod_small. by rewrite Z.mul_comm. Qed.

(** An unsigned integer of [n] bytes. *)
Program Definition c_uint (n : nat) : codec Z := {|
  c_size := n;
  c_enc := le_split n;
  c_dec bs := le_combine (take n bs);
  c_wf v := 0 <= v < 2 ^ (8 * Z.of_nat n)
|}.
Next Obligation. intros n a _. apply length_le_split. Qed.
Next Obligation.
  intros n a rest H. cbn. rewrite take_app_le by (rewrite length_le_split; lia).
  rewrite take_ge by (rewrite length_le_split; lia). by apply le_combine_le_split.
Qed.
Next Obligation. intros n bs H. cbn in *. apply split_le_combine'. rewrite length_take. lia. Qed.
Next Obligation.
  intros n bs H. cbn in *. pose proof (le_combine_range (take n bs)) as Hr.
  rewrite length_take, Nat.min_l in Hr by lia. exact Hr.
Qed.

(** A byte array [[n]byte]. *)
Program Definition c_bytes (n : nat) : codec (list byte) := {|
  c_size := n;
  c_enc bs := bs;
  c_dec bs := take n bs;
  c_wf bs := length bs = n
|}.
Next Obligation. done. Qed.
Next Obligation. intros n a rest H. cbn in *. rewrite take_app_le, take_ge by lia. done. Qed.
Next Obligation. done. Qed.
Next Obligation. intros n bs H. cbn in *. rewrite length_take. lia. Qed.

(** Consecutive fields: a pair with definitional eta, so that structs with
    many fields stay cheap. *)
#[projections(primitive)]
Record fields (A B : Type) := fcons { fhd : A; ftl : B }.
Arguments fcons {A B} _ _.
Arguments fhd {A B} _.
Arguments ftl {A B} _.
Infix "⊙" := fcons (at level 60, right associativity) : go_scope.

Program Definition c_pair {A B} (a : codec A) (b : codec B) : codec (fields A B) := {|
  c_size := (c_size a + c_size b)%nat;
  c_enc p := c_enc a (fhd p) ++ c_enc b (ftl p);
  c_dec bs := c_dec a bs ⊙ c_dec b (drop (c_size a) bs);
  c_wf p := c_wf a (fhd p) /\ c_wf b (ftl p)
|}.
Next Obligation. intros A B a b [x y] [Hx Hy]. cbn in *. rewrite length_app, !c_length; done. Qed.
Next Obligation.
  intros A B a b [x y] rest [Hx Hy]. cbn in *. rewrite <- app_assoc, (c_dec_enc _ a) by done.
  rewrite drop_app_ge by (rewrite c_length; done || lia).
  rewrite c_length, Nat.sub_diag by done. rewrite drop_0, (c_dec_enc _ b); done.
Qed.
Next Obligation.
  intros A B a b bs H. cbn in *. rewrite (c_enc_dec _ a) by lia.
  rewrite (c_enc_dec _ b) by (rewrite length_drop; lia). by rewrite take_take_drop.
Qed.
Next Obligation.
  intros A B a b bs H. cbn in *. split; apply c_dec_wf; [lia|]. rewrite length_drop. lia.
Qed.

(** The array [[k]T]. *)
Fixpoint c_array_enc {A} (c : codec A) (l : list A) : list byte :=
  match l with [] => [] | x :: l' => c_enc c x ++ c_array_enc c l' end.
Fixpoint c_array_dec {A} (c : codec A) (k : nat) (bs : list byte) : list A :=
  match k with O => [] | S k' => c_dec c bs :: c_array_dec c k' (drop (c_size c) bs) end.

Program Definition c_array {A} (k : nat) (c : codec A) : codec (list A) := {|
  c_size := (k * c_size c)%nat;
  c_enc := c_array_enc c;
  c_dec := c_array_dec c k;
  c_wf l := length l = k /\ Forall (c_wf c) l
|}.
Next Obligation.
  intros A k c l [Hk Hf]. revert k Hk. induction Hf; intros k Hk; cbn in *; subst; [done|].
  cbn. rewrite length_app, c_length by done. erewrite IHHf; done.
Qed.
Next Obligation.
  intros A k c l rest [Hk Hf]. revert k Hk. induction Hf; intros k Hk; cbn in *; subst; [done|].
  cbn. rewrite <- app_assoc, c_dec_enc by done. f_equal.
  rewrite drop_app_ge, c_length, Nat.sub_diag, drop_0 by (rewrite ?c_length; done || lia).
  apply IHHf. done.
Qed.
Next Obligation.
  intros A k c. cbn. induction k as [|k IH]; intros bs H; cbn in *; [done|].
  rewrite c_enc_dec, IH by (rewrite ?length_drop; lia). by rewrite take_take_drop.
Qed.
Next Obligation.
  intros A k c. cbn. induction k as [|k IH]; intros bs H; cbn in *; [done|].
  destruct (IH (drop (c_size c) bs)) as [? ?]; [rewrite length_drop; lia|].
  split; [congruence|]. constructor; [apply c_dec_wf; lia|done].
Qed.

(** A struct whose fields are given by a tuple. *)
Program Definition c_struct {T A} (c : codec T) (mk : T -> A) (fields : A -> T)
    (mk_fields : forall a, mk (fields a) = a) (fields_mk : forall t, fields (mk t) = t) : codec A := {|
  c_size := c_size c;
  c_enc a := c_enc c (fields a);
  c_dec bs := mk (c_dec c bs);
  c_wf a := c_wf c (fields a)
|}.
Next Obligation. intros. by apply c_length. Qed.
Next Obligation. intros. cbn in *. by rewrite c_dec_enc. Qed.
Next Obligation. intros. cbn in *. by rewrite fields_mk, c_enc_dec. Qed.
Next Obligation. intros. cbn in *. rewrite fields_mk. by apply c_dec_wf. Qed.

Infix "⊗" := c_pair (at level 60, right associativity) : go_scope.

(** The layout of a type, found by instance resolution as [encoding/binary]
    finds it by reflection. *)
Class Binary (A : Type) := binary : codec A.

Definition binary_Size (A : Type) `{Binary A} : Z := Z.of_nat (c_size (binary (A := A))).
Definition binary_Write {A} `{Binary A} (v : A) : list byte := c_enc binary v.

(** [binary.Read] over a [bytes.Reader]: [io.ReadFull] of the struct size. *)
Definition binary_Read {A} `{Binary A} (bs : list byte) : res A :=
  if bool_decide (c_size (binary (A := A)) <= length bs)%nat then Ok (c_dec binary bs)
  else Err (Sentinel (if bool_decide (bs = []) then io_EOF else io_ErrUnexpectedEOF)).

Definition struct_wf {A} `{Binary A} (v : A) : Prop := c_wf binary v.

Section binary_laws.
Context {A : Type} `{Binary A}.

Lemma zlen_binary_Write (v : A) : struct_wf v -> zlen (binary_Write v) = binary_Size A.
Proof. intros. unfold zlen, binary_Write, binary_Size. by rewrite c_length. Qed.

Lemma binary_Read_Write (v : A) rest : struct_wf v -> binary_Read (binary_Write v ++ rest) = Ok v.
Proof.
  intros Hv. unfold binary_Read, binary_Write.
  rewrite bool_decide_true by (rewrite length_app, c_length by done; lia).
  by rewrite c_dec_enc.
Qed.

Lemma binary_Read_short (bs : list byte) :
  zlen bs < binary_Size A -> exists e, binary_Read (A := A) bs = Err e.
Proof.
  unfold zlen, binary_Size, binary_Read. intros. rewrite bool_decide_false by lia. eauto.
Qed.

Lemma binary_Read_Ok (bs : list byte) :
  binary_Size A <= zlen bs ->
  exists v, binary_Read (A := A) bs = Ok v /\ struct_wf v /\ binary_Write v = sub bs 0 (binary_Size A).
Proof.
  unfold zlen, binary_Size, binary_Read, struct_wf, binary_Write. intros Hl.
  rewrite bool_decide_true by lia. eexists. split; [done|].
  rewrite c_enc_dec by lia. split; [apply c_dec_wf; lia|].
  unfold sub. by rewrite Nat2Z.id.
Qed.
End binary_laws.
