(* ===== verification/PathNames.v ===== *)
(** Paths as byte strings: splitting at slashes, the last component, and the
    components that resolving a path visits. *)
From S2P Require Export Bytes.

(** [strings.Split(path, "/")] *)
Fixpoint split_slash (path : list byte) : list (list byte) :=
  match path with
  | [] => [[]]
  | c :: path' =>
      if bool_decide (c = Byte.x2f) then [] :: split_slash path'
      else match split_slash path' with
           | s :: rest => (c :: s) :: rest
           | [] => [[c]]
           end
  end.

(** [for idx >= 0 && !stop(s[idx]) { idx-- }] from [idx = n - 1] on. *)
Fixpoint scan_back (stop : byte -> bool) (s : list byte) (n : nat) : Z :=
  match n with
  | O => -1
  | S n' => if stop (nth n' s Byte.x00) then Z.of_nat n' else scan_back stop s n'
  end.

Definition is_slash (c : byte) : bool := bool_decide (c = Byte.x2f).

(** The last component of a path without trailing slashes, and what is
    before it; a parent without components is the root. *)
Definition split_last (trimmed : list byte) : res (list byte * list byte) :=
  let idx := scan_back is_slash trimmed (length trimmed) in
  let parent := if idx <=? 0 then [Byte.x2f] else sub trimmed 0 idx in
  let name := sub trimmed (idx + 1) (zlen trimmed - (idx + 1)) in
  if bool_decide (name = []) then Err (Errorf "empty leaf name") else Ok (parent, name).

Definition no_slash (s : list byte) : Prop := Forall (fun c => is_slash c = false) s.

Local Ltac len := unfold zlen; rewrite ?length_app; cbn [length]; rewrite ?length_app; cbn [length]; lia.

(** The components a walk visits. *)
Definition components (path : list byte) : list (list byte) := filter (fun c => c <> []) (split_slash path).

Lemma is_slash_true c : is_slash c = true -> c = Byte.x2f.
Proof. intros H. by apply bool_decide_eq_true in H. Qed.

Lemma scan_back_app stop a b n : (n <= length a)%nat -> scan_back stop (a ++ b) n = scan_back stop a n.
Proof.
  induction n as [|n IH]; intros Hn; [done|]. cbn [scan_back]. rewrite app_nth1, IH by lia. done.
Qed.

(** The scan finds the last byte that stops it. *)
Lemma scan_back_last stop s :
  (scan_back stop s (length s) = -1 /\ Forall (fun c => stop c = false) s) \/
  exists a c b, s = a ++ c :: b /\ stop c = true /\ Forall (fun c => stop c = false) b /\
    scan_back stop s (length s) = zlen a.
Proof.
  induction s as [|c s IH] using rev_ind; [by left|].
  rewrite length_app, Nat.add_1_r. cbn [scan_back]. rewrite app_nth2, Nat.sub_diag by lia. cbn [nth].
  destruct (stop c) eqn:Ec.
  - right. by exists s, c, [].
  - rewrite scan_back_app by done. destruct IH as [[E Hs]|(a & x & b & -> & Hx & Hb & E)].
    + left. split; [done|]. apply Forall_app. split; [done|]. by constructor.
    + right. exists a, x, (b ++ [c]). rewrite E. split; [by rewrite <- app_assoc|]. split; [done|].
      split; [|done]. apply Forall_app. split; [done|]. by constructor.
Qed.

Lemma split_slash_word s : no_slash s -> split_slash s = [s].
Proof.
  induction s as [|c s IH]; intros Hs; [done|]. inversion_clear Hs as [|? ? Hc Hs']. cbn [split_slash].
  rewrite (IH Hs'). unfold is_slash in Hc. by rewrite Hc.
Qed.

Lemma split_slash_app a b : split_slash (a ++ Byte.x2f :: b) = split_slash a ++ split_slash b.
Proof.
  induction a as [|c a IH]; [done|]. cbn [app split_slash]. rewrite IH. case_bool_decide; [done|].
  destruct (split_slash a) as [|w rest] eqn:E; [|done].
  exfalso. destruct a as [|x a]; [done|]. cbn [split_slash] in E.
  case_bool_decide; [done|]. by destruct (split_slash a).
Qed.

Lemma components_app a b : components (a ++ Byte.x2f :: b) = components a ++ components b.
Proof. unfold components. by rewrite split_slash_app, filter_app. Qed.

Lemma components_word s : no_slash s -> components s = if bool_decide (s = []) then [] else [s].
Proof.
  intros Hs. unfold components. rewrite (split_slash_word s Hs), filter_cons, filter_nil.
  by repeat case_decide || case_bool_decide.
Qed.

Lemma components_slashes s : Forall (fun c => negb (is_slash c) = false) s -> components s = [].
Proof.
  induction s as [|c s IH]; intros Hs; [done|]. inversion_clear Hs as [|? ? Hc Hs'].
  rewrite (is_slash_true c) by (by apply negb_false_iff).
  change (Byte.x2f :: s) with ([] ++ Byte.x2f :: s). rewrite components_app, IH by done. done.
Qed.

(** The path without its trailing slashes. *)
Lemma trimmed_path path :
  exists t, sub path 0 (scan_back (fun c => negb (is_slash c)) path (length path) + 1) = t /\
    components path = components t /\ (t = [] \/ exists a c, t = a ++ [c] /\ is_slash c = false).
Proof.
  destruct (scan_back_last (fun c => negb (is_slash c)) path) as [[-> Hs]|(a & c & b & -> & Hc & Hb & ->)].
  - exists []. split; [by rewrite sub_nil|]. split; [by rewrite components_slashes|by left].
  - exists (a ++ [c]). split; [|split].
    + rewrite cons_middle, app_assoc. rewrite sub_app_l by len.
      replace (zlen a + 1) with (zlen (a ++ [c])) by len. apply sub_all.
    + rewrite cons_middle, app_assoc. destruct b as [|x b]; [by rewrite app_nil_r|].
      inversion_clear Hb as [|? ? Hx Hb']. rewrite (is_slash_true x) by (by apply negb_false_iff).
      by rewrite components_app, (components_slashes b), app_nil_r.
    + right. exists a, c. split; [done|]. by apply negb_true_iff.
Qed.

(** The component and the parent that a split gives. *)
Definition split_of (path : list byte) (r : res (list byte * list byte)) : Prop :=
  match r with
  | Ok (parent, name) => no_slash name /\ name <> [] /\ components path = components parent ++ [name]
  | Err _ => components path = []
  | _ => False
  end.

Lemma split_last_components path :
  split_of path (split_last (sub path 0 (scan_back (fun c => negb (is_slash c)) path (length path) + 1))).
Proof.
  unfold split_of, split_last. destruct (trimmed_path path) as (t & -> & Ec & Ht). rewrite Ec.
  destruct (scan_back_last is_slash t) as [[-> Hs]|(a & c & b & E & Hc & Hb & ->)]; cbn [Z.leb].
  - change (-1 + 1) with 0. rewrite Z.sub_0_r, sub_all, (components_word t Hs).
    case_bool_decide; [done|]. split; [done|]. split; [done|]. done.
  - rewrite (is_slash_true c Hc) in E. subst t.
    assert (Hb' : b <> []).
    { intros ->. destruct Ht as [Ht|(a' & c' & E & Hc')]; [by destruct a|]. apply app_inj_tail in E as [_ <-]. done. }
    replace (sub (a ++ Byte.x2f :: b) (zlen a + 1) (zlen (a ++ Byte.x2f :: b) - (zlen a + 1))) with b
      by (rewrite cons_middle, app_assoc, sub_app_r by len; rewrite <- (sub_all b) at 1; f_equal; len).
    rewrite components_app, (components_word b Hb), bool_decide_false by done.
    split; [done|]. split; [done|]. f_equal.
    case_match eqn:El; [|by rewrite sub_app_l, sub_all by len].
    assert (a = []) as -> by (destruct a; [done|]; exfalso; apply Z.leb_le in El; revert El; len). done.
Qed.
