(* ===== verification/Device.v ===== *)
(** Random-access devices: the [ReadWriterAt] interface every layer of the
    driver is written against, the contract a well-behaved device keeps, and
    the [os.File] of a raw image. *)
From S2P Require Export Bytes.

(** [ReadAt(p, off)] stores the returned bytes in the front of [p] and
    reports their number and an error; [len] is [len(p)].  [WriteAt(p, off)]
    reports the number of bytes written.  Reads leave the device unchanged
    (the contract of [io.ReaderAt]). *)
Class ReadWriterAt (D : Type) := {
  ReadAt : D -> Z -> Z -> list byte * option error;
  WriteAt : D -> Z -> list byte -> D * (Z * option error)
}.

(** What a layer promises to the layer above it: inside its bounds it is an
    array of bytes. *)
Class Device (D : Type) `{ReadWriterAt D} := {
  dev_ok : D -> Prop;
  dev_content : D -> list byte;
  dev_read : forall d off n,
    dev_ok d -> 0 <= off -> 0 < n -> off + n <= zlen (dev_content d) ->
    ReadAt d off n = (sub (dev_content d) off n, None);
  dev_write : forall d off p,
    dev_ok d -> 0 <= off < zlen (dev_content d) -> off + zlen p <= zlen (dev_content d) ->
    exists d', WriteAt d off p = (d', (zlen p, None)) /\ dev_ok d' /\
               dev_content d' = put (dev_content d) off p
}.

(** ** Files

    [os.File] opened read-write on an image file: [ReadAt] past the end is
    [io.EOF] with the bytes there are, [WriteAt] past the end grows the file
    and fills the gap with zeros. *)
Record File := mkFile { f_data : list byte }.

Definition File_ReadAt (f : File) (off n : Z) : list byte * option error :=
  if off <? 0 then ([], Some (Errorf "negative offset"))
  else if n =? 0 then ([], None)
  else
    let got := sub (f_data f) off n in
    (got, if zlen got <? n then Some (Sentinel io_EOF) else None).

Definition grow (l : list byte) (n : Z) : list byte := l ++ zeros (n - zlen l).

Definition File_WriteAt (f : File) (off : Z) (p : list byte) : File * (Z * option error) :=
  if off <? 0 then (f, (0, Some (Errorf "negative offset")))
  else (mkFile (put (grow (f_data f) (off + zlen p)) off p), (zlen p, None)).

#[export] Instance File_rw : ReadWriterAt File := {
  ReadAt := File_ReadAt;
  WriteAt := File_WriteAt
}.

Lemma grow_id l n : n <= zlen l -> grow l n = l.
Proof.
  unfold grow, zeros. intros. replace (Z.to_nat (n - zlen l)) with 0%nat by lia. apply app_nil_r.
Qed.

#[export] Program Instance File_device : Device File := {
  dev_ok _ := True;
  dev_content := f_data
}.
Next Obligation.
  intros f off n _ Ho Hn Hb. cbn. unfold File_ReadAt.
  rewrite (proj2 (Z.ltb_ge off 0)), (proj2 (Z.eqb_neq n 0)) by lia. cbn zeta.
  rewrite zlen_sub by lia. rewrite (proj2 (Z.ltb_ge n n)) by lia. done.
Qed.
Next Obligation.
  intros f off p _ Ho Hb. eexists. cbn. unfold File_WriteAt.
  rewrite (proj2 (Z.ltb_ge off 0)) by lia.
  split; [done|]. split; [done|]. cbn. by rewrite grow_id.
Qed.

(** The interface value of a [ReadWriterAt] field that may hold either of
    two device types. *)
#[export] Instance sum_rw {A B} `{ReadWriterAt A, ReadWriterAt B} : ReadWriterAt (A + B) := {
  ReadAt d off n := match d with inl a => ReadAt a off n | inr b => ReadAt b off n end;
  WriteAt d off p :=
    match d with
    | inl a => let '(a', r) := WriteAt a off p in (inl a', r)
    | inr b => let '(b', r) := WriteAt b off p in (inr b', r)
    end
}.

#[export] Program Instance sum_device {A B} `{Device A, Device B} : Device (A + B) := {
  dev_ok d := match d with inl a => dev_ok a | inr b => dev_ok b end;
  dev_content d := match d with inl a => dev_content a | inr b => dev_content b end
}.
Next Obligation. intros A B ???? [a|b] off n; cbn; apply dev_read. Qed.
Next Obligation.
  intros A B ???? [a|b] off p Hok Ho Hb; cbn in *;
    destruct (dev_write _ _ _ Hok Ho Hb) as (d' & -> & ? & ?); eauto.
Qed.
