(* ===== verification/BlockIO.v ===== *)
(** The disk layer: sector alignment ([src/block/aligned.go]) and the
    partition window ([src/block/device.go]). *)
From S2P Require Export Device.

(** ** [AlignedReaderAt] *)
Record AlignedReaderAt (D : Type) := mkAligned { a_inner : D; a_sectorSize : Z }.
Arguments mkAligned {D} _ _.
Arguments a_inner {D} _.
Arguments a_sectorSize {D} _.

Definition NewAlignedReaderAt {D} (inner : D) (sectorSize : Z) : res (AlignedReaderAt D) :=
  if (sectorSize <=? 0) || negb (Z.land sectorSize (sectorSize - 1) =? 0)
  then Err (Errorf "disk: sector size %d is not a positive power of two")
  else Ok (mkAligned inner sectorSize).

(** Ranges of a disk: offsets are not negative and ends do not wrap. *)
Definition alignedStart (ss off : Z) : Z := Z.quot off ss * ss.
Definition alignedEnd (ss off len : Z) : Z := Z.quot (off + len + ss - 1) ss * ss.

Section aligned.
Context {D : Type} `{ReadWriterAt D}.

Definition Aligned_ReadAt (a : AlignedReaderAt D) (off len : Z) : list byte * option error :=
  if len =? 0 then ([], None)
  else
    let ss := a_sectorSize a in
    let alignedLen := alignedEnd ss off len - alignedStart ss off in
    if (alignedStart ss off =? off) && (alignedLen =? len) then ReadAt (a_inner a) off len
    else
      let '(got, err) := ReadAt (a_inner a) (alignedStart ss off) alignedLen in
      let n := zlen got in
      let skip := off - alignedStart ss off in
      let usable := Z.min (Z.max (n - skip) 0) len in
      let copied := sub got skip usable in
      if zlen copied =? len then (copied, None)
      else match err with
           | Some _ => (copied, err)
           | None => (copied, Some (Sentinel io_EOF))
           end.

Definition Aligned_WriteAt (a : AlignedReaderAt D) (off : Z) (buf : list byte)
    : AlignedReaderAt D * (Z * option error) :=
  if zlen buf =? 0 then (a, (0, None))
  else
    let ss := a_sectorSize a in
    let alignedLen := alignedEnd ss off (zlen buf) - alignedStart ss off in
    if (alignedStart ss off =? off) && (alignedLen =? zlen buf) then
      let '(d, r) := WriteAt (a_inner a) off buf in (mkAligned d ss, r)
    else
      let '(got, err) := ReadAt (a_inner a) (alignedStart ss off) alignedLen in
      if match err with
         | Some e => bool_decide (e <> Sentinel io_EOF)
         | None => false
         end
      then (a, (0, option_map (Wrapf "disk: aligned WriteAt read-modify failed: %w") err))
      else
        let tmp := put (put (zeros alignedLen) 0 got) (off - alignedStart ss off) buf in
        let '(d, (_, werr)) := WriteAt (a_inner a) (alignedStart ss off) tmp in
        match werr with
        | Some _ => (mkAligned d ss, (0, werr))
        | None => (mkAligned d ss, (zlen buf, None))
        end.

#[export] Instance Aligned_rw : ReadWriterAt (AlignedReaderAt D) := {
  ReadAt := Aligned_ReadAt;
  WriteAt := Aligned_WriteAt
}.
End aligned.

Section aligned_laws.
Context {D : Type} `{Device D}.

Definition aligned_ok (a : AlignedReaderAt D) : Prop :=
  0 < a_sectorSize a /\ dev_ok (a_inner a) /\ (a_sectorSize a | zlen (dev_content (a_inner a))).

(** The window handed to the inner device: whole sectors that contain the
    request and stay on the disk. *)
Lemma aligned_window ss off len size :
  0 < ss -> 0 <= off -> 0 < len -> off + len <= size -> (ss | size) ->
  (ss | alignedStart ss off) /\ (ss | alignedEnd ss off len) /\
  0 <= alignedStart ss off /\ alignedStart ss off <= off < alignedStart ss off + ss /\
  off + len <= alignedEnd ss off len /\ alignedEnd ss off len <= size.
Proof.
  intros Hss Ho Hl Hs [k ->]. unfold alignedStart, alignedEnd.
  rewrite !Z.quot_div_nonneg by lia.
  pose proof (Z.mul_div_le off ss). pose proof (Z.mul_succ_div_gt off ss).
  pose proof (Z.mul_div_le (off + len + ss - 1) ss). pose proof (Z.mul_succ_div_gt (off + len + ss - 1) ss).
  assert ((off + len + ss - 1) / ss <= k).
  { apply Z.lt_succ_r, Z.div_lt_upper_bound; nia. }
  assert (0 <= off / ss) by (apply Z.div_pos; lia).
  repeat split; try apply Z.divide_factor_r; nia.
Qed.

Lemma Aligned_read (a : AlignedReaderAt D) off n :
  aligned_ok a -> 0 <= off -> 0 < n -> off + n <= zlen (dev_content (a_inner a)) ->
  ReadAt a off n = (sub (dev_content (a_inner a)) off n, None).
Proof.
  intros (Hss & Hok & Hdiv) Ho Hn Hb.
  destruct (aligned_window _ _ _ _ Hss Ho Hn Hb Hdiv) as (_ & _ & H1 & H2 & H3 & H4).
  cbn [ReadAt Aligned_rw]. unfold Aligned_ReadAt.
  set (s := alignedStart _ _) in *. set (e := alignedEnd _ _ _) in *.
  rewrite (proj2 (Z.eqb_neq n 0)) by lia. cbn zeta.
  case_match; [by apply dev_read|].
  rewrite dev_read by (done || lia).
  assert (Hlen : zlen (sub (dev_content (a_inner a)) s (e - s)) = e - s) by (apply zlen_sub; lia).
  rewrite Hlen, Z.min_r by lia. rewrite sub_sub, zlen_sub by lia.
  rewrite Z.eqb_refl. do 2 f_equal. lia.
Qed.

Lemma Aligned_write (a : AlignedReaderAt D) off p :
  aligned_ok a -> 0 <= off < zlen (dev_content (a_inner a)) ->
  off + zlen p <= zlen (dev_content (a_inner a)) ->
  exists a', WriteAt a off p = (a', (zlen p, None)) /\ aligned_ok a' /\
             dev_content (a_inner a') = put (dev_content (a_inner a)) off p.
Proof.
  intros (Hss & Hok & Hdiv) Ho Hb. cbn [WriteAt Aligned_rw]. unfold Aligned_WriteAt.
  destruct (Z.eqb_spec (zlen p) 0) as [Hp|Hp].
  { destruct p; [|done]. exists a. rewrite put_nil. split; [done|]. split; [|done]. split; done. }
  assert (Hpos : 0 < zlen p) by (pose proof (zlen_nonneg p); lia).
  destruct (aligned_window _ off (zlen p) _ Hss (proj1 Ho) Hpos Hb Hdiv) as (_ & _ & H1 & H2 & H3 & H4).
  set (s := alignedStart _ _) in *. set (e := alignedEnd _ _ _) in *.
  cbn zeta.
  case_match eqn:Hdirect.
  - destruct (dev_write _ _ _ Hok Ho Hb) as (d' & -> & ? & Hc).
    eexists. split; [done|]. cbn. rewrite Hc. split; [|done].
    split; [done|]. split; [done|]. cbn. by rewrite Hc, zlen_put.
  - rewrite dev_read by (done || lia).
    set (old := dev_content (a_inner a)) in *.
    assert (Hold : zlen (sub old s (e - s)) = e - s) by (apply zlen_sub; lia).
    rewrite (put_all (zeros (e - s))) by (rewrite zlen_zeros; lia).
    destruct (dev_write (a_inner a) s (put (sub old s (e - s)) (off - s) p)) as (d' & -> & ? & Hc);
      [done|unfold old in *; lia|rewrite zlen_put; unfold old in *; lia|].
    rewrite put_put_sub in Hc by (fold old; lia).
    eexists. split; [done|]. cbn. rewrite Hc. split; [|done].
    split; [done|]. split; [done|]. cbn. by rewrite Hc, zlen_put.
Qed.

#[export] Instance Aligned_device : Device (AlignedReaderAt D) := {
  dev_ok := aligned_ok;
  dev_content a := dev_content (a_inner a);
  dev_read := Aligned_read;
  dev_write := Aligned_write
}.
End aligned_laws.

(** ** Partitions *)
Inductive PartitionScheme := SchemeUnknown | SchemeGPT | SchemeMBR.
Inductive PartitionType :=
  | TypeUnknown | TypeLinuxData | TypeLinuxSwap | TypeLinuxLVM
  | TypeEFISystem | TypeMicrosoftData | TypeBIOSBoot.
#[export] Instance PartitionType_eq_dec : EqDecision PartitionType.
Proof. solve_decision. Defined.

Definition PartitionScheme_String (s : PartitionScheme) : string :=
  match s with SchemeGPT => "GPT" | SchemeMBR => "MBR" | _ => "Unknown" end.

Definition PartitionType_String (t : PartitionType) : string :=
  match t with
  | TypeLinuxData => "Linux filesystem"
  | TypeLinuxSwap => "Linux swap"
  | TypeLinuxLVM => "Linux LVM"
  | TypeEFISystem => "EFI System"
  | TypeMicrosoftData => "Microsoft basic data"
  | TypeBIOSBoot => "BIOS boot"
  | _ => "Unknown"
  end.

Definition DefaultSectorSize : Z := 512.

(** [p_Name] holds the code points of the decoded Go string. *)
Record Partition := mkPartition {
  p_Number : Z;
  p_Type : PartitionType;
  p_Name : list Z;
  p_Scheme : PartitionScheme;
  p_StartLBA : Z;
  p_EndLBA : Z;
  p_SectorSize : Z;
  p_RawTypeGUID : list byte;
  p_RawTypeByte : Z
}.

Definition StartOffset (p : Partition) : Z := i64 (w64 (p_StartLBA p * p_SectorSize p)).
Definition ByteSize (p : Partition) : Z :=
  i64 (w64 (w64 (w64 (p_EndLBA p - p_StartLBA p) + 1) * p_SectorSize p)).

Record PartitionReader (D : Type) := mkPartitionReader {
  pr_disk : D + AlignedReaderAt D;
  pr_startOffset : Z;
  pr_size : Z
}.
Arguments mkPartitionReader {D} _ _ _.
Arguments pr_disk {D} _.
Arguments pr_startOffset {D} _.
Arguments pr_size {D} _.

Definition NewPartitionReader {D} (disk : D) (p : Partition) : PartitionReader D :=
  let sectorSize := i64 (p_SectorSize p) in
  let sectorSize := if sectorSize =? 0 then DefaultSectorSize else sectorSize in
  match NewAlignedReaderAt disk sectorSize with
  | Ok aligned => mkPartitionReader (inr aligned) (StartOffset p) (ByteSize p)
  | _ => mkPartitionReader (inl disk) (StartOffset p) (ByteSize p)
  end.

Section partition_reader.
Context {D : Type} `{ReadWriterAt D}.

Definition PR_ReadAt (pr : PartitionReader D) (off n : Z) : list byte * option error :=
  if off <? 0 then ([], Some (Errorf "disk: negative read offset %d"))
  else if pr_size pr <=? off then
    ([], Some (Errorf "disk: read offset %d is beyond partition end (%d bytes)"))
  else
    let maxRead := pr_size pr - off in
    let n := if maxRead <? n then maxRead else n in
    ReadAt (pr_disk pr) (pr_startOffset pr + off) n.

Definition PR_WriteAt (pr : PartitionReader D) (off : Z) (buf : list byte)
    : PartitionReader D * (Z * option error) :=
  if off <? 0 then (pr, (0, Some (Errorf "disk: negative write offset %d")))
  else if pr_size pr <=? off then
    (pr, (0, Some (Errorf "disk: write offset %d is beyond partition end (%d bytes)")))
  else
    let maxWrite := pr_size pr - off in
    let buf := if maxWrite <? zlen buf then sub buf 0 maxWrite else buf in
    let '(d, r) := WriteAt (pr_disk pr) (pr_startOffset pr + off) buf in
    (mkPartitionReader d (pr_startOffset pr) (pr_size pr), r).

#[export] Instance PR_rw : ReadWriterAt (PartitionReader D) := {
  ReadAt := PR_ReadAt;
  WriteAt := PR_WriteAt
}.
End partition_reader.

Section partition_laws.
Context {D : Type} `{Device D}.

(** The partition lies on the disk. *)
Definition pr_ok (pr : PartitionReader D) : Prop :=
  dev_ok (pr_disk pr) /\ 0 <= pr_startOffset pr /\ 0 < pr_size pr /\
  pr_startOffset pr + pr_size pr <= zlen (dev_content (pr_disk pr)).
Definition pr_content (pr : PartitionReader D) : list byte :=
  sub (dev_content (pr_disk pr)) (pr_startOffset pr) (pr_size pr).

Lemma zlen_pr_content pr : pr_ok pr -> zlen (pr_content pr) = pr_size pr.
Proof. intros (? & ? & ? & ?). unfold pr_content. apply zlen_sub; lia. Qed.

Lemma PR_read (pr : PartitionReader D) off n :
  pr_ok pr -> 0 <= off -> 0 < n -> off + n <= zlen (pr_content pr) ->
  ReadAt pr off n = (sub (pr_content pr) off n, None).
Proof.
  intros Hok Ho Hn Hb. rewrite zlen_pr_content in Hb by done. destruct Hok as (Hd & ? & ? & ?).
  cbn [ReadAt PR_rw]. unfold PR_ReadAt, pr_content.
  rewrite (proj2 (Z.ltb_ge off 0)), (proj2 (Z.leb_gt _ off)) by lia. cbn zeta.
  rewrite (proj2 (Z.ltb_ge _ n)) by lia.
  rewrite dev_read, sub_sub by (done || lia). done.
Qed.

Lemma PR_write (pr : PartitionReader D) off p :
  pr_ok pr -> 0 <= off < zlen (pr_content pr) -> off + zlen p <= zlen (pr_content pr) ->
  exists pr', WriteAt pr off p = (pr', (zlen p, None)) /\ pr_ok pr' /\
              pr_content pr' = put (pr_content pr) off p.
Proof.
  intros Hok Ho Hb. rewrite zlen_pr_content in Ho, Hb by done. destruct Hok as (Hd & ? & ? & ?).
  cbn [WriteAt PR_rw]. unfold PR_WriteAt, pr_content.
  rewrite (proj2 (Z.ltb_ge off 0)), (proj2 (Z.leb_gt _ off)) by lia. cbn zeta.
  rewrite (proj2 (Z.ltb_ge _ (zlen p))) by lia.
  destruct (dev_write (pr_disk pr) (pr_startOffset pr + off) p) as (d' & -> & ? & Hc); [done|lia..|].
  eexists. split; [done|]. unfold pr_ok. cbn [pr_disk pr_startOffset pr_size]. rewrite Hc, zlen_put.
  split; [done|]. rewrite sub_put_around by lia. f_equal. lia.
Qed.

#[export] Instance PR_device : Device (PartitionReader D) := {
  dev_ok := pr_ok;
  dev_content := pr_content;
  dev_read := PR_read;
  dev_write := PR_write
}.
End partition_laws.

(** ** Correctness of the partition window *)
Section partition_theorems.
Context {D : Type} `{Device D}.

Lemma NewPartitionReader_ok (disk : D) (p : Partition) :
  dev_ok disk -> 0 < p_SectorSize p < 2 ^ 63 -> (p_SectorSize p | zlen (dev_content disk)) ->
  0 <= p_StartLBA p <= p_EndLBA p -> (p_EndLBA p + 1) * p_SectorSize p <= zlen (dev_content disk) ->
  zlen (dev_content disk) < 2 ^ 63 ->
  let pr := NewPartitionReader disk p in
  pr_ok pr /\ dev_content (pr_disk pr) = dev_content disk /\
  pr_startOffset pr = p_StartLBA p * p_SectorSize p /\
  pr_size pr = (p_EndLBA p - p_StartLBA p + 1) * p_SectorSize p.
Proof.
  intros Hok Hss Hdiv Hlba Hend Hlen pr.
  assert (Hstart : StartOffset p = p_StartLBA p * p_SectorSize p).
  { unfold StartOffset. rewrite w64_id, i64_id; nia. }
  assert (Hsize : ByteSize p = (p_EndLBA p - p_StartLBA p + 1) * p_SectorSize p).
  { unfold ByteSize. rewrite (w64_id (_ - _)), (w64_id (_ + 1)), w64_id, i64_id; nia. }
  assert (Hpr : pr = mkPartitionReader (pr_disk pr) (StartOffset p) (ByteSize p)
                /\ dev_ok (pr_disk pr) /\ dev_content (pr_disk pr) = dev_content disk).
  { unfold pr, NewPartitionReader. rewrite i64_id by lia.
    rewrite (proj2 (Z.eqb_neq _ 0)) by lia. unfold NewAlignedReaderAt.
    destruct (_ || _); cbn; (split; [done|]); (split; [|done]); [done|].
    split; [cbn; lia|done]. }
  destruct Hpr as (Heq & Hd & Hc). rewrite Hstart, Hsize in Heq.
  rewrite Heq in *. cbn [pr_disk pr_startOffset pr_size] in *.
  unfold pr_ok. cbn [pr_disk pr_startOffset pr_size]. rewrite Hc.
  repeat split; (done || nia).
Qed.

(** C35: A partition reader built from a partition-table entry that lies on
    the disk is the window of the disk from [StartLBA] to [EndLBA]: an
    in-range write succeeds, changes exactly the addressed bytes of the
    disk (the read-modify-write of the boundary sectors restores the bytes
    around them), and every later in-range read returns the window of the
    updated disk. *)
Theorem partition_window_refines (disk : D) (p : Partition) (off : Z) (buf : list byte) :
  dev_ok disk -> 0 < p_SectorSize p < 2 ^ 63 -> (p_SectorSize p | zlen (dev_content disk)) ->
  0 <= p_StartLBA p <= p_EndLBA p -> (p_EndLBA p + 1) * p_SectorSize p <= zlen (dev_content disk) ->
  zlen (dev_content disk) < 2 ^ 63 ->
  0 <= off -> 0 < zlen buf -> off + zlen buf <= (p_EndLBA p - p_StartLBA p + 1) * p_SectorSize p ->
  let start := p_StartLBA p * p_SectorSize p in
  let disk' := put (dev_content disk) (start + off) buf in
  exists pr',
    PR_WriteAt (NewPartitionReader disk p) off buf = (pr', (zlen buf, None)) /\
    dev_content (pr_disk pr') = disk' /\
    forall o n, 0 <= o -> 0 < n -> o + n <= (p_EndLBA p - p_StartLBA p + 1) * p_SectorSize p ->
      PR_ReadAt pr' o n = (sub disk' (start + o) n, None).
Proof.
  intros Hok Hss Hdiv Hlba Hend Hlen Ho Hn Hb start disk'.
  destruct (NewPartitionReader_ok disk p Hok Hss Hdiv Hlba Hend Hlen) as (Hpr & Hc & Hs & Hz).
  set (pr := NewPartitionReader disk p) in *.
  destruct Hpr as (Hd & Hs0 & Hz0 & Hfit). rewrite Hc in Hfit.
  unfold PR_WriteAt.
  rewrite (proj2 (Z.ltb_ge off 0)), (proj2 (Z.leb_gt _ off)) by lia. cbn zeta.
  rewrite (proj2 (Z.ltb_ge _ (zlen buf))) by lia.
  destruct (dev_write (pr_disk pr) (pr_startOffset pr + off) buf) as (d' & -> & Hd' & Hc');
    rewrite ?Hc; [done|lia..|].
  rewrite Hc, Hs in Hc'. eexists. split; [done|]. split; [done|].
  intros o n Ho' Hn' Hb'. unfold PR_ReadAt. cbn [pr_disk pr_startOffset pr_size].
  rewrite (proj2 (Z.ltb_ge o 0)), (proj2 (Z.leb_gt _ o)) by lia. cbn zeta.
  rewrite (proj2 (Z.ltb_ge _ n)) by lia.
  rewrite dev_read; rewrite ?Hc', ?zlen_put; [by rewrite Hs|done|lia..].
Qed.

(** Whatever offset and length it is called with, a write through a
    partition reader never changes a byte of the disk outside the
    partition; a write that crosses the partition end is cut there and
    reports the short count without an error. *)
Theorem partition_write_confined (pr pr' : PartitionReader D) off buf n err :
  pr_ok pr -> 0 < zlen buf ->
  PR_WriteAt pr off buf = (pr', (n, err)) ->
  zlen (dev_content (pr_disk pr')) = zlen (dev_content (pr_disk pr)) /\
  (forall i, i < pr_startOffset pr \/ pr_startOffset pr + pr_size pr <= i ->
     0 <= i -> dev_content (pr_disk pr') !! Z.to_nat i = dev_content (pr_disk pr) !! Z.to_nat i) /\
  (0 <= off < pr_size pr -> n = Z.min (zlen buf) (pr_size pr - off) /\ err = None) /\
  (~ 0 <= off < pr_size pr -> pr' = pr /\ n = 0 /\ err <> None).
Proof.
  intros (Hd & Hs & Hz & Hfit) Hbuf. unfold PR_WriteAt.
  destruct (Z.ltb_spec off 0); [intros; simplify_eq; repeat split; (done || lia)|].
  destruct (Z.leb_spec (pr_size pr) off); [intros; simplify_eq; repeat split; (done || lia)|].
  cbn zeta. set (b := if _ <? _ then _ else _).
  assert (Hb : zlen b = Z.min (zlen buf) (pr_size pr - off)).
  { unfold b. case_match eqn:E; [apply Z.ltb_lt in E|apply Z.ltb_ge in E].
    - rewrite zlen_sub; lia.
    - lia. }
  destruct (dev_write (pr_disk pr) (pr_startOffset pr + off) b) as (d' & -> & Hd' & Hc');
    [done|lia..|].
  intros; simplify_eq/=. rewrite Hc', zlen_put. repeat split; try (done || lia).
  intros i Hi Hi0. rewrite lookup_put by lia. rewrite decide_False; [done|]. lia.
Qed.
End partition_theorems.

Definition ex_partition : Partition := {|
  p_Number := 1; p_Type := TypeLinuxData; p_Name := []; p_Scheme := SchemeMBR;
  p_StartLBA := 1; p_EndLBA := 2; p_SectorSize := 512; p_RawTypeGUID := []; p_RawTypeByte := 131
|}.
Definition ex_disk : File := mkFile (zeros 2048).

(** A three-byte write across a sector boundary of a two-sector partition. *)
Lemma partition_window_refines_witness :
  exists pr', PR_WriteAt (NewPartitionReader ex_disk ex_partition) 511 [Byte.x01; Byte.x02; Byte.x03]
                = (pr', (3, None)).
Proof.
  destruct (partition_window_refines ex_disk ex_partition 511 [Byte.x01; Byte.x02; Byte.x03])
    as (pr' & Hw & _); try (vm_compute; done).
  - exists 4. vm_compute. done.
  - exists pr'. exact Hw.
Defined.

Lemma partition_write_confined_witness :
  exists n, PR_WriteAt (NewPartitionReader ex_disk ex_partition) 1023 [Byte.x01; Byte.x02]
              = (NewPartitionReader (mkFile (put (zeros 2048) 1535 [Byte.x01])) ex_partition, (n, None)) /\ n = 1.
Proof.
  exists 1. split; [vm_compute; reflexivity|].
  destruct (partition_write_confined (NewPartitionReader ex_disk ex_partition)
    (NewPartitionReader (mkFile (put (zeros 2048) 1535 [Byte.x01])) ex_partition)
    1023 [Byte.x01; Byte.x02] 1 None) as (_ & _ & Hn & _).
  - repeat split; try (vm_compute; done). exists 4. vm_compute. done.
  - vm_compute. done.
  - vm_compute. reflexivity.
  - apply Hn. vm_compute. done.
Defined.
