(* ===== verification/PartTable.v ===== *)
(** Partition tables: [src/block/mbr.go], [src/block/gpt.go] and
    [ProbePartitions] of [src/block/device.go]. *)
From S2P Require Export BlockIO.

(** Read into a fresh buffer of [n] bytes: bytes past the ones the device
    stored stay zero. *)
Definition fill {D} `{ReadWriterAt D} (d : D) (off n : Z) : res (list byte) :=
  let '(got, err) := ReadAt d off n in
  match err with
  | Some e => Err e
  | None => Ok (put (zeros n) 0 got)
  end.

Definition errorf_wrap {A} (msg : string) (r : res A) : res A :=
  match r with Err e => Err (Wrapf msg e) | r => r end.

(** ** MBR *)
Definition mbrTableOffset : Z := 446.
Definition mbrSignatureOffset : Z := 510.
Definition mbrSignature : list byte := [Byte.x55; Byte.xaa].

Record mbrEntry := mkMbrEntry {
  me_Status : Z;
  me_CHSFirst : list byte;
  me_Type : Z;
  me_CHSLast : list byte;
  me_StartLBA : Z;
  me_SectorCount : Z
}.

#[export] Instance mbrEntry_binary : Binary mbrEntry :=
  c_struct (c_uint 1 ⊗ c_bytes 3 ⊗ c_uint 1 ⊗ c_bytes 3 ⊗ c_uint 4 ⊗ c_uint 4)
    (fun '(a ⊙ b ⊙ c ⊙ d ⊙ e ⊙ f) => mkMbrEntry a b c d e f)
    (fun m => me_Status m ⊙ me_CHSFirst m ⊙ me_Type m ⊙ me_CHSLast m ⊙ me_StartLBA m ⊙
              me_SectorCount m)
    ltac:(by intros []) ltac:(reflexivity).

Definition mbrTypeEmpty : Z := 0x00.
Definition mbrTypeLinux : Z := 0x83.
Definition mbrTypeLinuxSwap : Z := 0x82.
Definition mbrTypeLinuxLVM : Z := 0x8E.
Definition mbrTypeEFI : Z := 0xEF.
Definition mbrTypeGPTProtective : Z := 0xEE.
Definition mbrTypeExtended : Z := 0x05.
Definition mbrTypeExtendedLBA : Z := 0x0F.
Definition mbrTypeFAT32LBA : Z := 0x0C.
Definition mbrTypeNTFS : Z := 0x07.

Definition classifyMBRType (t : Z) : PartitionType :=
  if t =? mbrTypeLinux then TypeLinuxData
  else if t =? mbrTypeLinuxSwap then TypeLinuxSwap
  else if t =? mbrTypeLinuxLVM then TypeLinuxLVM
  else if t =? mbrTypeEFI then TypeEFISystem
  else if (t =? mbrTypeFAT32LBA) || (t =? mbrTypeNTFS) then TypeMicrosoftData
  else TypeUnknown.

Definition code_points (s : string) : list Z := byte.unsigned <$> bytes_of_string s.

(** The loop over the four slots carries the partitions found so far and
    whether a protective entry was seen. *)
Fixpoint parseMBR_entries (sector : list byte) (slots : list Z)
    (acc : list Partition) (hasGPTProtective : bool) : res (list Partition * bool) :=
  match slots with
  | [] => Ok (acc, hasGPTProtective)
  | i :: slots' =>
      let offset := mbrTableOffset + i * 16 in
      raw <- slice sector offset (offset + 16) ;;
      e <- errorf_wrap "mbr: failed to decode entry %d: %w" (binary_Read (A := mbrEntry) raw) ;;
      if (me_Type e =? mbrTypeEmpty) || (me_SectorCount e =? 0)
      then parseMBR_entries sector slots' acc hasGPTProtective
      else if me_Type e =? mbrTypeGPTProtective
      then parseMBR_entries sector slots' acc true
      else if (me_Type e =? mbrTypeExtended) || (me_Type e =? mbrTypeExtendedLBA)
      then parseMBR_entries sector slots' acc hasGPTProtective
      else
        let endLBA := w64 (w64 (me_StartLBA e + me_SectorCount e) - 1) in
        let p := {|
          p_Number := i + 1;
          p_Type := classifyMBRType (me_Type e);
          p_Name := code_points "Partition " ++ [48 + (i + 1)];
          p_Scheme := SchemeMBR;
          p_StartLBA := me_StartLBA e;
          p_EndLBA := endLBA;
          p_SectorSize := DefaultSectorSize;
          p_RawTypeGUID := zeros 16;
          p_RawTypeByte := me_Type e
        |} in
        parseMBR_entries sector slots' (acc ++ [p]) hasGPTProtective
  end.

Definition parseMBR {D} `{ReadWriterAt D} (disk : D) : res (list Partition) :=
  sector <- errorf_wrap "mbr: failed to read first sector: %w" (fill disk 0 512) ;;
  s0 <- index sector mbrSignatureOffset ;;
  s1 <- index sector (mbrSignatureOffset + 1) ;;
  if bool_decide ([s0; s1] <> mbrSignature)
  then Err (Errorf "mbr: invalid boot signature 0x%02X%02X (expected 0x55AA)")
  else
    r <- parseMBR_entries sector [0; 1; 2; 3] [] false ;;
    let '(partitions, hasGPTProtective) := r in
    if bool_decide (partitions = []) && hasGPTProtective
    then Err (Errorf "mbr: disk has GPT protective MBR; GPT header may be corrupt")
    else Ok partitions.

(** ** GPT *)
Definition gptHeaderOffset : Z := 512.
Definition gptSignature : list byte := bytes_of_string "EFI PART".

Record gptHeader := mkGptHeader {
  gh_Signature : list byte;
  gh_Revision : Z;
  gh_HeaderSize : Z;
  gh_HeaderCRC32 : Z;
  gh_Reserved : Z;
  gh_MyLBA : Z;
  gh_AlternateLBA : Z;
  gh_FirstUsableLBA : Z;
  gh_LastUsableLBA : Z;
  gh_DiskGUID : list byte;
  gh_PartitionEntryLBA : Z;
  gh_NumPartitionEntries : Z;
  gh_PartitionEntrySize : Z;
  gh_PartitionArrayCRC32 : Z
}.

#[export] Instance gptHeader_binary : Binary gptHeader :=
  c_struct (c_bytes 8 ⊗ c_uint 4 ⊗ c_uint 4 ⊗ c_uint 4 ⊗ c_uint 4 ⊗ c_uint 8 ⊗ c_uint 8 ⊗
            c_uint 8 ⊗ c_uint 8 ⊗ c_bytes 16 ⊗ c_uint 8 ⊗ c_uint 4 ⊗ c_uint 4 ⊗ c_uint 4)
    (fun '(a ⊙ b ⊙ c ⊙ d ⊙ e ⊙ f ⊙ g ⊙ h ⊙ i ⊙ j ⊙ k ⊙ l ⊙ m ⊙ n) =>
       mkGptHeader a b c d e f g h i j k l m n)
    (fun h => gh_Signature h ⊙ gh_Revision h ⊙ gh_HeaderSize h ⊙ gh_HeaderCRC32 h ⊙
       gh_Reserved h ⊙ gh_MyLBA h ⊙ gh_AlternateLBA h ⊙ gh_FirstUsableLBA h ⊙
       gh_LastUsableLBA h ⊙ gh_DiskGUID h ⊙ gh_PartitionEntryLBA h ⊙
       gh_NumPartitionEntries h ⊙ gh_PartitionEntrySize h ⊙ gh_PartitionArrayCRC32 h)
    ltac:(by intros []) ltac:(reflexivity).

Record gptEntry := mkGptEntry {
  ge_TypeGUID : list byte;
  ge_UniqueGUID : list byte;
  ge_StartLBA : Z;
  ge_EndLBA : Z;
  ge_Attributes : Z;
  ge_Name : list byte
}.

#[export] Instance gptEntry_binary : Binary gptEntry :=
  c_struct (c_bytes 16 ⊗ c_bytes 16 ⊗ c_uint 8 ⊗ c_uint 8 ⊗ c_uint 8 ⊗ c_bytes 72)
    (fun '(a ⊙ b ⊙ c ⊙ d ⊙ e ⊙ f) => mkGptEntry a b c d e f)
    (fun m => ge_TypeGUID m ⊙ ge_UniqueGUID m ⊙ ge_StartLBA m ⊙ ge_EndLBA m ⊙
              ge_Attributes m ⊙ ge_Name m)
    ltac:(by intros []) ltac:(reflexivity).

Definition guid (l : list Z) : list byte := byte.of_Z <$> l.
Definition gptTypeLinuxData : list byte :=
  guid [0xAF; 0x3D; 0xC6; 0x0F; 0x83; 0x84; 0x72; 0x47; 0x8E; 0x79; 0x3D; 0x69; 0xD8; 0x47; 0x7D; 0xE4].
Definition gptTypeLinuxSwap : list byte :=
  guid [0x6D; 0xFD; 0x57; 0x06; 0xAB; 0xA4; 0xC4; 0x43; 0x84; 0xE5; 0x09; 0x33; 0xC8; 0x4B; 0x4F; 0x4F].
Definition gptTypeLinuxLVM : list byte :=
  guid [0x79; 0xD3; 0xD6; 0xE6; 0x07; 0xF5; 0xC2; 0x44; 0xA2; 0x3C; 0x23; 0x8F; 0x2A; 0x3D; 0xF9; 0x28].
Definition gptTypeEFI : list byte :=
  guid [0x28; 0x73; 0x2A; 0xC1; 0x1F; 0xF8; 0xD2; 0x11; 0xBA; 0x4B; 0x00; 0xA0; 0xC9; 0x3E; 0xC9; 0x3B].
Definition gptTypeMicrosoftData : list byte :=
  guid [0xA2; 0xA0; 0xD0; 0xEB; 0xE5; 0xB9; 0x33; 0x44; 0x87; 0xC0; 0x68; 0xB6; 0xB7; 0x26; 0x99; 0xC7].
Definition gptTypeBIOSBoot : list byte :=
  guid [0x48; 0x61; 0x68; 0x21; 0x49; 0x64; 0x6F; 0x6E; 0x74; 0x4E; 0x65; 0x65; 0x64; 0x45; 0x46; 0x49].
Definition gptTypeUnused : list byte := zeros 16.

Definition classifyGPTType (g : list byte) : PartitionType :=
  if bool_decide (g = gptTypeLinuxData) then TypeLinuxData
  else if bool_decide (g = gptTypeLinuxSwap) then TypeLinuxSwap
  else if bool_decide (g = gptTypeLinuxLVM) then TypeLinuxLVM
  else if bool_decide (g = gptTypeEFI) then TypeEFISystem
  else if bool_decide (g = gptTypeMicrosoftData) then TypeMicrosoftData
  else if bool_decide (g = gptTypeBIOSBoot) then TypeBIOSBoot
  else TypeUnknown.

(** [unicode/utf16.Decode]: a surrogate pair is one code point, a lone
    surrogate is U+FFFD. *)
Fixpoint utf16_Decode (u : list Z) : list Z :=
  match u with
  | [] => []
  | r :: rest =>
      if (r <? 0xD800) || (0xE000 <=? r) then r :: utf16_Decode rest
      else match rest with
           | r2 :: rest' =>
               if (r <? 0xDC00) && (0xDC00 <=? r2) && (r2 <? 0xE000)
               then (Z.lor (Z.shiftl (r - 0xD800) 10) (r2 - 0xDC00) + 0x10000) :: utf16_Decode rest'
               else 0xFFFD :: utf16_Decode rest
           | [] => [0xFFFD]
           end
  end.

Fixpoint until_nul (u : list Z) : list Z :=
  match u with [] => [] | c :: u' => if c =? 0 then [] else c :: until_nul u' end.

Definition decodeGPTName (raw : list byte) : list Z :=
  let u16 := (fun i => le_get 2 raw (i * 2)) <$> seqZ 0 (zlen raw / 2) in
  utf16_Decode (until_nul u16).

(** [entryBuf[:128]] extends a short entry up to the capacity of the
    slice, which reaches to the end of [arrayBuf]. *)
Fixpoint parseGPT_entries (arrayBuf : list byte) (entrySize : Z) (slots : list Z)
    (acc : list Partition) : res (list Partition) :=
  match slots with
  | [] => Ok acc
  | i :: slots' =>
      _ <- slice arrayBuf (i * entrySize) (i * entrySize + entrySize) ;;
      raw <- slice arrayBuf (i * entrySize) (i * entrySize + 128) ;;
      e <- errorf_wrap "gpt: failed to decode entry %d: %w" (binary_Read (A := gptEntry) raw) ;;
      if bool_decide (ge_TypeGUID e = gptTypeUnused)
      then parseGPT_entries arrayBuf entrySize slots' acc
      else
        let p := {|
          p_Number := i + 1;
          p_Type := classifyGPTType (ge_TypeGUID e);
          p_Name := decodeGPTName (ge_Name e);
          p_Scheme := SchemeGPT;
          p_StartLBA := ge_StartLBA e;
          p_EndLBA := ge_EndLBA e;
          p_SectorSize := DefaultSectorSize;
          p_RawTypeGUID := ge_TypeGUID e;
          p_RawTypeByte := 0
        |} in
        parseGPT_entries arrayBuf entrySize slots' (acc ++ [p])
  end.

Definition parseGPT {D} `{ReadWriterAt D} (disk : D) : res (list Partition) :=
  hdrBuf <- errorf_wrap "gpt: failed to read header: %w" (fill disk gptHeaderOffset 512) ;;
  hdr <- errorf_wrap "gpt: failed to decode header: %w" (binary_Read (A := gptHeader) hdrBuf) ;;
  if bool_decide (gh_Signature hdr <> gptSignature)
  then Err (Errorf "gpt: invalid signature (not a GPT disk)")
  else
    let arrayOffset := i64 (i64 (gh_PartitionEntryLBA hdr) * DefaultSectorSize) in
    let entrySize := gh_PartitionEntrySize hdr in
    let totalArrayBytes := i64 (gh_NumPartitionEntries hdr * entrySize) in
    if totalArrayBytes <? 0 then Panic
    else
      arrayBuf <- errorf_wrap "gpt: failed to read partition array: %w"
                    (fill disk arrayOffset totalArrayBytes) ;;
      parseGPT_entries arrayBuf entrySize (seqZ 0 (gh_NumPartitionEntries hdr)) [].

Definition ProbePartitions {D} `{ReadWriterAt D} (disk : D) : res (PartitionScheme * list Partition) :=
  match parseGPT disk with
  | Ok parts => Ok (SchemeGPT, parts)
  | Panic => Panic
  | OutOfFuel => OutOfFuel
  | Err _ =>
      match parseMBR disk with
      | Ok parts => Ok (SchemeMBR, parts)
      | Panic => Panic
      | OutOfFuel => OutOfFuel
      | Err _ => Err (Errorf "disk: no recognisable partition table (tried GPT and MBR)")
      end
  end.

(** ** Correctness *)
Section fill_facts.
Context {D : Type} `{Device D}.

Lemma fill_in (d : D) off n :
  dev_ok d -> 0 <= off -> 0 < n -> off + n <= zlen (dev_content d) ->
  fill d off n = Ok (sub (dev_content d) off n).
Proof.
  intros. unfold fill. rewrite dev_read by done. cbn.
  rewrite put_all; [done|]. rewrite zlen_zeros, zlen_sub; lia.
Qed.
End fill_facts.

(** A partition that [parseMBR] may report: its slot is one of the four, its
    LBA range is not empty and neither its size nor its offset wraps. *)
Definition mbr_partition_ok (p : Partition) : Prop :=
  1 <= p_Number p <= 4 /\ p_SectorSize p = 512 /\
  StartOffset p = p_StartLBA p * 512 /\
  (exists count, 0 < count < 2 ^ 32 /\ p_EndLBA p = p_StartLBA p + count - 1 /\ ByteSize p = count * 512) /\
  p_RawTypeByte p <> mbrTypeEmpty /\ p_RawTypeByte p <> mbrTypeGPTProtective /\
  p_RawTypeByte p <> mbrTypeExtended /\ p_RawTypeByte p <> mbrTypeExtendedLBA.

Lemma mbr_entry_read raw :
  zlen raw = 16 -> exists e, binary_Read (A := mbrEntry) raw = Ok e /\ 0 <= me_StartLBA e < 2 ^ 32 /\
                             0 <= me_SectorCount e < 2 ^ 32.
Proof.
  intros Hl. destruct (binary_Read_Ok (A := mbrEntry) raw) as (e & He & Hwf & _).
  { rewrite Hl. vm_compute. done. }
  exists e. split; [done|]. destruct Hwf as (_ & _ & _ & _ & H1 & H2). cbn in H1, H2. done.
Qed.

Lemma parseMBR_entries_spec sector slots acc b :
  zlen sector = 512 -> Forall (fun i => 0 <= i < 4) slots ->
  exists new b', parseMBR_entries sector slots acc b = Ok (acc ++ new, b') /\
    Forall mbr_partition_ok new /\ p_Number <$> new `sublist_of` Z.succ <$> slots.
Proof.
  intros Hlen Hslots. revert acc b. induction Hslots as [|i slots Hi Hslots IH]; intros acc b; cbn [parseMBR_entries].
  { exists [], b. rewrite app_nil_r. split; [done|]. split; [done|]. constructor. }
  unfold mbrTableOffset. rewrite slice_in by lia.
  replace (446 + i * 16 + 16 - (446 + i * 16)) with 16 by lia.
  destruct (mbr_entry_read (sub sector (446 + i * 16) 16)) as (e & He & Hlba & Hcnt); [apply zlen_sub; lia|].
  cbn [mbind res_bind]. rewrite He. cbn [errorf_wrap mbind res_bind].
  assert (Hskip : forall b0, exists new b',
    parseMBR_entries sector slots acc b0 = Ok (acc ++ new, b') /\
    Forall mbr_partition_ok new /\ p_Number <$> new `sublist_of` Z.succ <$> (i :: slots)).
  { intros b0. destruct (IH acc b0) as (new & b' & -> & Hok & Hsub). exists new, b'.
    split; [done|]. split; [done|]. by apply sublist_cons. }
  destruct (_ || _) eqn:E1; [apply Hskip|]. apply orb_false_elim in E1 as [E1 E1'].
  destruct (me_Type e =? mbrTypeGPTProtective) eqn:E2; [apply Hskip|].
  destruct (_ || _) eqn:E3; [apply Hskip|]. apply orb_false_elim in E3 as [E3 E3'].
  match goal with |- context [acc ++ [?q]] => set (p := q) end.
  destruct (IH (acc ++ [p]) b) as (new & b' & -> & Hok & Hsub).
  exists (p :: new), b'. rewrite <- app_assoc. split; [done|]. split; [|by constructor].
  constructor; [|done]. apply Z.eqb_neq in E1', E1, E2, E3, E3'.
  unfold mbr_partition_ok, StartOffset, ByteSize, p, DefaultSectorSize.
  cbn [p_Number p_SectorSize p_StartLBA p_EndLBA p_RawTypeByte].
  rewrite (w64_id (_ + _)), (w64_id (_ - 1)) by lia.
  split; [lia|]. split; [done|]. split; [rewrite w64_id, i64_id; lia|].
  split; [|done]. exists (me_SectorCount e). split; [lia|]. split; [done|].
  rewrite (w64_id (_ - _)), (w64_id (_ + 1)), w64_id, i64_id; lia.
Qed.

(** C36: On every disk with a readable first sector, [parseMBR] neither panics
    nor diverges; when it reports partitions there are at most four, their
    numbers increase with the table slots, and each has a non-empty LBA range
    whose byte offset and byte size do not wrap around. *)
Theorem parseMBR_sound {D} `{Device D} (disk : D) :
  dev_ok disk -> 512 <= zlen (dev_content disk) ->
  (exists e, parseMBR disk = Err e) \/
  (exists parts, parseMBR disk = Ok parts /\ Forall mbr_partition_ok parts /\
     p_Number <$> parts `sublist_of` [1; 2; 3; 4]).
Proof.
  intros Hok Hlen. unfold parseMBR. rewrite fill_in by (done || lia). cbn [errorf_wrap mbind res_bind].
  set (sector := sub _ 0 512). assert (Hs : zlen sector = 512) by (apply zlen_sub; lia).
  unfold mbrSignatureOffset.
  destruct (index_in sector 510) as (s0 & _ & ->); [lia|].
  destruct (index_in sector (510 + 1)) as (s1 & _ & ->); [lia|].
  cbn [mbind res_bind]. case_bool_decide; [eauto|].
  destruct (parseMBR_entries_spec sector [0; 1; 2; 3] [] false Hs) as (new & b' & -> & Hnew & Hsub).
  { repeat constructor; lia. }
  cbn [mbind res_bind app]. destruct (_ && _); [eauto|]. right. exists new. split; [done|]. split; [done|].
  exact Hsub.
Qed.

Definition ex_mbr_entry : mbrEntry := mkMbrEntry 0 (zeros 3) 131 (zeros 3) 2048 4096.
Definition ex_mbr_disk : File :=
  mkFile (put (put (zeros 512) 462 (binary_Write ex_mbr_entry)) 510 mbrSignature).

Lemma parseMBR_sound_witness :
  exists p, parseMBR ex_mbr_disk = Ok [p] /\ p_Number p = 2 /\ ByteSize p = 4096 * 512.
Proof.
  destruct (parseMBR_sound ex_mbr_disk) as [[e He]|(parts & Hp & _)].
  - done.
  - vm_compute. done.
  - assert (Hp : is_Ok (parseMBR ex_mbr_disk) = true) by (vm_compute; reflexivity).
    rewrite He in Hp. discriminate Hp.
  - clear. eexists. repeat split; vm_compute; reflexivity.
Defined.

(** A GPT header that declares partition entries shorter than the 128
    bytes of the entry structure makes [parseGPT] panic: the last entry is
    sliced past the capacity of the array. *)
Theorem parseGPT_short_entry_panics {D} `{Device D} (disk : D) (hdr : gptHeader) :
  let es := gh_PartitionEntrySize hdr in
  let num := gh_NumPartitionEntries hdr in
  let off := gh_PartitionEntryLBA hdr * 512 in
  dev_ok disk -> 1024 <= zlen (dev_content disk) ->
  binary_Read (sub (dev_content disk) 512 512) = Ok hdr ->
  gh_Signature hdr = gptSignature ->
  0 < es < 128 -> 0 < num < 2 ^ 32 ->
  0 <= gh_PartitionEntryLBA hdr -> off + num * es <= zlen (dev_content disk) < 2 ^ 63 ->
  parseGPT disk = Panic.
Proof.
  intros es num off Hok Hlen Hhdr Hsig Hes Hnum Hlba Hfit. unfold parseGPT, gptHeaderOffset.
  rewrite fill_in by (done || lia). cbn [errorf_wrap mbind res_bind]. rewrite Hhdr.
  cbn [errorf_wrap mbind res_bind]. rewrite bool_decide_false by (by intros []).
  unfold DefaultSectorSize. fold es num. rewrite (i64_id (gh_PartitionEntryLBA _)), i64_id, i64_id by lia.
  cbn zeta. rewrite (proj2 (Z.ltb_ge _ 0)) by lia. fold off.
  rewrite fill_in by (done || lia). cbn [errorf_wrap mbind res_bind].
  set (arr := sub _ off _). assert (Harr : zlen arr = num * es) by (apply zlen_sub; lia).
  assert (Hgen : forall (k : nat) (i : Z) acc, 0 <= i -> i + Z.of_nat (S k) = num ->
    parseGPT_entries arr es (seqZ i (Z.of_nat (S k))) acc = Panic).
  { induction k as [|k IH]; intros i acc Hi Hk; rewrite seqZ_cons by lia; cbn [parseGPT_entries];
      assert (0 <= i * es /\ i * es + es <= zlen arr) as [Hlo Hhi]
        by (rewrite Harr; assert (i + 1 <= num) by lia; nia);
      rewrite (slice_in arr (i * es) (i * es + es)) by lia; cbn [mbind res_bind].
    - assert (zlen arr = i * es + es) by (rewrite Harr; replace num with (i + 1) by lia; lia).
      rewrite (slice_out arr (i * es) (i * es + 128)) by lia. done.
    - destruct (slice arr (i * es) (i * es + 128)) as [raw|?| |] eqn:Eb;
        try by (unfold slice in Eb; case_match).
      cbn [mbind res_bind]. apply slice_inv in Eb as (_ & Hb & ->).
      destruct (binary_Read_Ok (A := gptEntry) (sub arr (i * es) (i * es + 128 - i * es))) as (e & -> & _).
      { rewrite zlen_sub by lia. replace (i * es + 128 - i * es) with 128 by lia. vm_compute. done. }
      cbn [errorf_wrap mbind res_bind].
      replace (Z.pred (Z.of_nat (S (S k)))) with (Z.of_nat (S k)) by lia.
      case_bool_decide; apply IH; lia. }
  replace num with (Z.of_nat (S (Z.to_nat (num - 1)))) by lia. apply Hgen; lia.
Qed.

Definition ex_gpt_header : gptHeader :=
  mkGptHeader gptSignature 65536 92 0 0 1 3 4 5 (zeros 16) 2 4 64 0.
Definition ex_gpt_disk : File := mkFile (put (zeros 2048) 512 (binary_Write ex_gpt_header)).

Lemma parseGPT_short_entry_panics_witness : parseGPT ex_gpt_disk = Panic.
Proof.
  apply (parseGPT_short_entry_panics ex_gpt_disk ex_gpt_header); try (vm_compute; done).
Defined.
