(* ===== verification/RedoLog.v ===== *)
(** The undo log and the block cache under the file system
    ([src/vfs/redolog.go]).

    The log file survives a crash, so it is threaded explicitly: it is a byte
    array with the position of [os.File.Write], which [Truncate] does not
    move.  Operations on the log file itself succeed. *)
From Stdlib Require Import Sorting.Sorted.
From stdpp Require Import sorting.
From S2P Require Export Device.

(** ** The log file *)
Definition safeHdrSize : Z := 12.

Record safeEntry := mkSafeEntry { se_Offset : Z; se_Data : list byte }.

Record safeLog := mkSafeLog { sl_data : list byte; sl_pos : Z }.

Definition sanitizeDeviceID (path : list byte) : list byte :=
  (fun b =>
     let c := byte.unsigned b in
     if ((97 <=? c) && (c <=? 122)) || ((65 <=? c) && (c <=? 90)) || ((48 <=? c) && (c <=? 57))
     then b else Byte.x5f) <$> path.

(** [os.OpenFile(logPath, os.O_CREATE|os.O_RDWR, 0600)]: no [O_APPEND], the
    position is the start of the file. *)
Definition openSafeLog (onDisk : option (list byte)) : safeLog := mkSafeLog (default [] onDisk) 0.

Definition log_Write (l : safeLog) (p : list byte) : safeLog :=
  mkSafeLog (put (grow (sl_data l) (sl_pos l + zlen p)) (sl_pos l) p) (sl_pos l + zlen p).
Definition log_Truncate (l : safeLog) (size : Z) : safeLog :=
  mkSafeLog (grow (sub (sl_data l) 0 size) size) (sl_pos l).

Fixpoint readPending_loop (fuel : nat) (data : list byte) (pos : Z) (entries : list safeEntry)
    : res (list safeEntry) :=
  match fuel with
  | O => OutOfFuel
  | S fuel =>
      if pos + safeHdrSize <=? zlen data then
        off <- getUint64 data pos ;;
        length <- getUint32 data (pos + 8) ;;
        let pos := pos + safeHdrSize in
        if zlen data <? pos + length then Ok entries
        else
          b <- slice data pos (pos + length) ;;
          readPending_loop fuel data (pos + length) (entries ++ [mkSafeEntry (i64 off) b])
      else Ok entries
  end.

Definition readPending (l : safeLog) : res (list safeEntry) :=
  if zlen (sl_data l) =? 0 then Ok []
  else readPending_loop (S (length (sl_data l))) (sl_data l) 0 [].

Definition entry_header (off len : Z) : list byte := le_split 8 (w64 off) ++ le_split 4 (w32 len).

Definition appendEntry (l : safeLog) (off : Z) (data : list byte) : safeLog :=
  log_Write (log_Write l (entry_header off (zlen data))) data.

Definition removeLastEntry (l : safeLog) (dataLen : Z) : safeLog :=
  let newSize := zlen (sl_data l) - (safeHdrSize + dataLen) in
  let newSize := if newSize <? 0 then 0 else newSize in
  log_Truncate l newSize.

Definition clear (l : safeLog) : safeLog := log_Truncate l 0.

(** ** The cache *)
Record cacheBlock := mkCacheBlock { cb_offset : Z; cb_data : list byte }.

Definition covers (b : cacheBlock) (off n : Z) : bool :=
  (cb_offset b <=? off) && (off + n <=? cb_offset b + zlen (cb_data b)).

Fixpoint lookupCache (cache : list cacheBlock) (off n : Z) : option (list byte) :=
  match cache with
  | [] => None
  | b :: cache' =>
      if covers b off n then Some (sub (cb_data b) (off - cb_offset b) n)
      else lookupCache cache' off n
  end.

Fixpoint find_block (cache : list cacheBlock) (off n : Z) : option (nat * cacheBlock) :=
  match cache with
  | [] => None
  | b :: cache' =>
      if covers b off n then Some (O, b)
      else '(i, b') ← find_block cache' off n; Some (S i, b')
  end.

Definition updateCache (cache : list cacheBlock) (p : list byte) (off : Z) : list cacheBlock :=
  if zlen p =? 0 then cache
  else match find_block cache off (zlen p) with
       | Some (i, b) =>
           let entry := mkCacheBlock (cb_offset b) (put (cb_data b) (off - cb_offset b) p) in
           entry :: take i cache ++ drop (S i) cache
       | None =>
           let newBlock := mkCacheBlock off p in
           if 64 <=? zlen cache then newBlock :: take (length cache - 1) cache
           else newBlock :: cache
       end.

(** ** [SafeDevice] *)
Record SafeDevice (D : Type) := mkSafeDevice {
  sd_inner : D;
  sd_log : safeLog;
  sd_cache : list cacheBlock
}.
Arguments mkSafeDevice {D} _ _ _.
Arguments sd_inner {D} _.
Arguments sd_log {D} _.
Arguments sd_cache {D} _.

Section safe_device.
Context {D : Type} `{ReadWriterAt D}.

Fixpoint recover_entries (inner : D) (entries : list safeEntry) : D * option error :=
  match entries with
  | [] => (inner, None)
  | e :: entries' =>
      let '(inner', (_, err)) := WriteAt inner (se_Offset e) (se_Data e) in
      match err with
      | Some err => (inner', Some (Wrapf "safe: recovery write at offset %d failed: %w" err))
      | None => recover_entries inner' entries'
      end
  end.

(** Whenever the call fails the log file has been deleted
    ([closeAndRemove]); the device is returned as the recovery left it. *)
Definition NewSafeDevice (inner : D) (onDisk : option (list byte))
    : D * (res (SafeDevice D)) :=
  let l := openSafeLog onDisk in
  match readPending l with
  | Ok entries =>
      match recover_entries inner entries with
      | (inner', Some err) => (inner', Err err)
      | (inner', None) =>
          let l := if zlen entries =? 0 then l else clear l in
          (inner', Ok (mkSafeDevice inner' l []))
      end
  | Err e => (inner, Err (Wrapf "safe: reading pending log: %w" e))
  | Panic => (inner, Panic)
  | OutOfFuel => (inner, OutOfFuel)
  end.

Definition Safe_ReadAt (d : SafeDevice D) (off n : Z) : SafeDevice D * (list byte * option error) :=
  match lookupCache (sd_cache d) off n with
  | Some p => (d, (p, None))
  | None =>
      let '(got, err) := ReadAt (sd_inner d) off n in
      match err with
      | Some _ => (d, (got, err))
      | None => (mkSafeDevice (sd_inner d) (sd_log d) (updateCache (sd_cache d) got off), (got, None))
      end
  end.

(** [WriteAt] up to the write of the inner device: the old bytes and the
    cache after the pre-read. *)
Definition pre_read (d : SafeDevice D) (off n : Z) : (list byte * list cacheBlock) + error :=
  match lookupCache (sd_cache d) off n with
  | Some old => inl (old, sd_cache d)
  | None =>
      let '(got, err) := ReadAt (sd_inner d) off n in
      match err with
      | Some e =>
          if bool_decide (e <> Sentinel io_EOF) then inr (Wrapf "safe: pre-read at %d: %w" e)
          else inl (got, updateCache (sd_cache d) got off)
      | None => inl (got, updateCache (sd_cache d) got off)
      end
  end.

Definition Safe_WriteAt (d : SafeDevice D) (off : Z) (p : list byte)
    : SafeDevice D * (Z * option error) :=
  if zlen p =? 0 then (d, (0, None))
  else match pre_read d off (zlen p) with
       | inr e => (d, (0, Some e))
       | inl (old, cache) =>
           let log := appendEntry (sd_log d) off old in
           let '(inner, (written, err)) := WriteAt (sd_inner d) off p in
           match err with
           | Some _ => (mkSafeDevice inner log cache, (written, err))
           | None =>
               (mkSafeDevice inner (removeLastEntry log (zlen old))
                  (updateCache cache (sub p 0 written) off),
                (written, None))
           end
       end.

(** [Close] removes the log file. *)
Definition Safe_Close (d : SafeDevice D) : D * option (list byte) := (sd_inner d, None).
End safe_device.

(** ** Parsing the log *)
Definition record (off : Z) (data : list byte) : list byte := entry_header off (zlen data) ++ data.

Lemma zlen_entry_header off n : zlen (entry_header off n) = 12.
Proof. unfold entry_header. zlen. Qed.
#[export] Hint Rewrite zlen_entry_header : zlen.

Lemma zlen_record off data : zlen (record off data) = 12 + zlen data.
Proof. unfold record. zlen. Qed.
#[export] Hint Rewrite zlen_record : zlen.

Lemma header_fields off data rest :
  0 <= off < 2 ^ 63 -> zlen data < 2 ^ 32 ->
  le_get 8 (record off data ++ rest) 0 = off /\ le_get 4 (record off data ++ rest) 8 = zlen data.
Proof.
  intros Ho Hd. pose proof (zlen_nonneg data).
  unfold record, entry_header, le_get. rewrite w64_id, w32_id by lia. rewrite <- !app_assoc.
  split.
  - rewrite sub_app_l by (rewrite ?zlen_le_split; lia).
    change (Z.of_nat 8) with (zlen (le_split 8 off)) at 1. rewrite sub_all. apply le_combine_le_split. lia.
  - rewrite sub_app_r by (rewrite ?zlen_le_split; lia). rewrite zlen_le_split.
    rewrite sub_app_l by (rewrite ?zlen_le_split; lia).
    change (Z.of_nat 4) with (zlen (le_split 4 (zlen data))) at 1. change (8 - Z.of_nat 8) with 0. rewrite sub_all.
    apply le_combine_le_split. lia.
Qed.

Lemma readPending_loop_total fuel data pos entries :
  0 <= pos <= zlen data -> (Z.to_nat (zlen data - pos) < fuel)%nat ->
  exists es, readPending_loop fuel data pos entries = Ok es.
Proof.
  revert pos entries. induction fuel as [|fuel IH]; intros pos entries Hp Hf; [lia|].
  cbn [readPending_loop]. unfold safeHdrSize. destruct (Z.leb_spec (pos + 12) (zlen data)); [|eauto].
  rewrite !getUint_in by lia. cbn [mbind res_bind].
  pose proof (le_get_range 4 data (pos + 8)).
  destruct (Z.ltb_spec (zlen data) (pos + 12 + le_get 4 data (pos + 8))); [eauto|].
  rewrite slice_in by lia. cbn [mbind res_bind]. apply IH; lia.
Qed.

(** One step of the parser on a complete record, and on the end of the log. *)
Lemma loop_record fuel pre off data rest entries :
  0 <= off < 2 ^ 63 -> zlen data < 2 ^ 32 ->
  readPending_loop (S fuel) (pre ++ record off data ++ rest) (zlen pre) entries =
  readPending_loop fuel ((pre ++ record off data) ++ rest) (zlen (pre ++ record off data))
    (entries ++ [mkSafeEntry off data]).
Proof.
  intros Ho Hd. destruct (header_fields off data rest Ho Hd) as [E1 E2].
  pose proof (zlen_nonneg pre). pose proof (zlen_nonneg data). pose proof (zlen_nonneg rest).
  cbn [readPending_loop]. unfold safeHdrSize.
  assert (Hl : zlen (pre ++ record off data ++ rest) = zlen pre + 12 + zlen data + zlen rest) by zlen.
  rewrite (proj2 (Z.leb_le _ _)) by lia. rewrite !getUint_in by lia. cbn [mbind res_bind].
  assert (E1' : le_get 8 (pre ++ record off data ++ rest) (zlen pre) = off).
  { etransitivity; [|exact E1]. unfold le_get. rewrite sub_app_r by lia. do 2 f_equal. lia. }
  assert (E2' : le_get 4 (pre ++ record off data ++ rest) (zlen pre + 8) = zlen data).
  { etransitivity; [|exact E2]. unfold le_get. rewrite sub_app_r by lia. do 2 f_equal. lia. }
  rewrite E1', E2', (proj2 (Z.ltb_ge _ _)) by lia.
  rewrite slice_in by lia. cbn [mbind res_bind]. rewrite i64_id by lia.
  rewrite <- app_assoc. replace (zlen (pre ++ record off data)) with (zlen pre + 12 + zlen data) by zlen.
  do 3 f_equal. rewrite sub_app_r by lia. unfold record.
  rewrite <- app_assoc, sub_app_r by zlen. rewrite zlen_entry_header.
  rewrite sub_app_l by lia. replace (zlen pre + 12 - zlen pre - 12) with 0 by lia.
  replace (zlen pre + 12 + zlen data - (zlen pre + 12)) with (zlen data) by lia. by rewrite sub_all.
Qed.

Lemma loop_end fuel data entries : readPending_loop (S fuel) data (zlen data) entries = Ok entries.
Proof. cbn [readPending_loop]. unfold safeHdrSize. by rewrite (proj2 (Z.leb_gt _ _)) by lia. Qed.

(** A record that was cut by a crash is ignored. *)
Lemma loop_cut fuel pre off data m entries :
  0 <= off < 2 ^ 63 -> zlen data < 2 ^ 32 -> 0 <= m < 12 + zlen data ->
  readPending_loop (S fuel) (pre ++ sub (record off data) 0 m) (zlen pre) entries = Ok entries.
Proof.
  intros Ho Hd Hm. pose proof (zlen_nonneg pre). pose proof (zlen_nonneg data).
  assert (Hl : zlen (sub (record off data) 0 m) = m) by (apply zlen_sub; zlen).
  cbn [readPending_loop]. unfold safeHdrSize. rewrite zlen_app, Hl.
  destruct (Z.leb_spec (zlen pre + 12) (zlen pre + m)); [|done].
  rewrite !getUint_in by zlen. cbn [mbind res_bind].
  replace (le_get 4 _ _) with (zlen data); [by rewrite (proj2 (Z.ltb_lt _ _)) by lia|].
  destruct (header_fields off data [] Ho Hd) as [_ E]. rewrite app_nil_r in E. rewrite <- E at 1.
  unfold le_get. rewrite sub_app_r by lia. rewrite sub_sub by lia. do 2 f_equal. lia.
Qed.

Definition empty_entry : safeEntry := mkSafeEntry 0 [].

Lemma record_zero : record 0 [] = zeros 12.
Proof. vm_compute. reflexivity. Qed.

(** A hole of zeros reads as records of no bytes. *)
Lemma loop_zeros (k : nat) fuel pre rest entries :
  readPending_loop (k + fuel) (pre ++ zeros (12 * Z.of_nat k) ++ rest) (zlen pre) entries =
  readPending_loop fuel ((pre ++ zeros (12 * Z.of_nat k)) ++ rest) (zlen pre + 12 * Z.of_nat k)
    (entries ++ replicate k empty_entry).
Proof.
  revert pre entries. induction k as [|k IH]; intros pre entries.
  { cbn. by rewrite !app_nil_r, Z.add_0_r. }
  assert (Hz : zeros (12 * Z.of_nat (S k)) = record 0 [] ++ zeros (12 * Z.of_nat k)).
  { rewrite record_zero. unfold zeros. rewrite <- replicate_add. f_equal. lia. }
  rewrite Hz, <- (app_assoc (record 0 [])). cbn [Nat.add]. rewrite loop_record by (vm_compute; done).
  rewrite IH. rewrite <- !app_assoc, zlen_app. rewrite (zlen_record 0 []). change (@zlen byte []) with 0.
  rewrite Nat2Z.inj_succ. f_equal. lia.
Qed.

Lemma zeros_split h m : 0 <= m <= h -> sub (zeros h) 0 m = zeros m.
Proof.
  intros. unfold sub, zeros. rewrite drop_0, take_replicate. f_equal. lia.
Qed.

(** The log a crash leaves behind: [m] bytes of a hole followed by one
    record.  Only a complete record is recovered. *)
Lemma readPending_prefix h off data m :
  (12 | h) -> 0 <= h -> 0 <= off < 2 ^ 63 -> zlen data < 2 ^ 32 -> 0 <= m <= h + 12 + zlen data ->
  exists k, readPending (openSafeLog (Some (sub (zeros h ++ record off data) 0 m))) =
    Ok (replicate k empty_entry ++
        if m =? h + 12 + zlen data then [mkSafeEntry off data] else []).
Proof.
  intros [q Hq] Hh Ho Hd Hm. pose proof (zlen_nonneg data).
  set (l := sub _ 0 m). assert (Hl : zlen l = m) by (apply zlen_sub; zlen).
  unfold readPending, openSafeLog. cbn [sl_data from_option] ; unfold id. rewrite Hl.
  destruct (Z.eqb_spec m 0) as [->|Hm0].
  { exists 0%nat. rewrite (proj2 (Z.eqb_neq 0 _)) by lia. done. }
  destruct (Z.le_gt_cases m h) as [Hmh|Hmh].
  - assert (El : l = zeros m).
    { unfold l. rewrite sub_app_l by zlen. apply zeros_split. lia. }
    set (k := Z.to_nat (m / 12)). exists k.
    rewrite (proj2 (Z.eqb_neq m _)), app_nil_r by lia.
    assert (Hk : m = 12 * Z.of_nat k + m mod 12).
    { unfold k. rewrite Z2Nat.id by (apply Z.div_pos; lia). apply Z.div_mod. lia. }
    pose proof (Z.mod_pos_bound m 12).
    assert (El' : l = [] ++ zeros (12 * Z.of_nat k) ++ zeros (m mod 12)).
    { rewrite El. unfold zeros. cbn [app]. rewrite <- replicate_add. f_equal. lia. }
    replace (S (length l)) with (k + S (length l - k))%nat by (unfold zlen in Hl; lia).
    rewrite El' at 2. change 0 with (zlen (A := byte) []) at 1. rewrite loop_zeros.
    cbn [app readPending_loop]. unfold safeHdrSize.
    rewrite (proj2 (Z.leb_gt _ _)); [done|]. rewrite zlen_app, !zlen_zeros by lia. change (zlen []) with 0. lia.
  - set (k := Z.to_nat q). exists k.
    assert (El : l = [] ++ zeros (12 * Z.of_nat k) ++ sub (record off data) 0 (m - h)).
    { cbn [app]. unfold l. replace (12 * Z.of_nat k) with h by lia. unfold sub.
      rewrite !drop_0, take_app. unfold zeros. rewrite length_replicate, take_ge by (rewrite length_replicate; lia).
      do 2 f_equal. lia. }
    destruct (Z.eqb_spec m (h + 12 + zlen data)) as [->|Hne].
    + assert (Er : sub (record off data) 0 (h + 12 + zlen data - h) = record off data ++ []).
      { rewrite app_nil_r. rewrite <- (sub_all (record off data)) at 2. f_equal. zlen. }
      rewrite Er in El. assert (Hf : (k + 1 < length l)%nat).
      { unfold zlen in Hl. lia. }
      replace (S (length l)) with (k + S (S (length l - k - 1)))%nat by lia.
      rewrite El at 2. change 0 with (zlen (A := byte) []) at 1. rewrite loop_zeros. cbn [app].
      change (zlen [] + ?z) with z.
      replace (12 * Z.of_nat k) with (zlen (zeros (12 * Z.of_nat k))) at 2 by (apply zlen_zeros; lia).
      rewrite loop_record by done. rewrite app_nil_r. apply loop_end.
    + replace (S (length l)) with (k + S (length l - k))%nat by (unfold zlen in Hl; lia).
      rewrite El at 2. change 0 with (zlen (A := byte) []) at 1. rewrite loop_zeros. cbn [app].
      change (zlen [] + ?z) with z.
      replace (12 * Z.of_nat k) with (zlen (zeros (12 * Z.of_nat k))) at 2 by (apply zlen_zeros; lia).
      rewrite app_nil_r. apply loop_cut; lia.
Qed.

(** ** Crash recovery *)
Section crash.
Context {D : Type} `{Device D}.

(** The log between two writes: nothing but the hole that [Truncate] and
    the unmoved file position leave. *)
Definition log_idle (l : safeLog) : Prop :=
  0 <= zlen (sl_data l) <= sl_pos l /\ sl_data l = zeros (zlen (sl_data l)).

(** The states of disk and log file at which the machine may stop during
    [WriteAt p off]: while the record is being appended (any part of the
    extended file may have reached the disk), while the device is being
    written (the bytes in the range are arbitrary), and after the record
    has been removed. *)
Inductive crash (d : SafeDevice D) (off : Z) (p : list byte) : D -> list byte -> Prop :=
  | crash_logging old cache m :
      pre_read d off (zlen p) = inl (old, cache) ->
      zlen (sl_data (sd_log d)) <= m <= zlen (sl_data (appendEntry (sd_log d) off old)) ->
      crash d off p (sd_inner d) (sub (sl_data (appendEntry (sd_log d) off old)) 0 m)
  | crash_writing old cache inner :
      pre_read d off (zlen p) = inl (old, cache) ->
      dev_ok inner -> zlen (dev_content inner) = zlen (dev_content (sd_inner d)) ->
      (forall i, 0 <= i -> ~ off <= i < off + zlen p ->
         dev_content inner !! Z.to_nat i = dev_content (sd_inner d) !! Z.to_nat i) ->
      crash d off p inner (sl_data (appendEntry (sd_log d) off old))
  | crash_done d' r :
      Safe_WriteAt d off p = (d', r) ->
      crash d off p (sd_inner d') (sl_data (sd_log d')).

Lemma grow_zeros l n : l = zeros (zlen l) -> zlen l <= n -> grow l n = zeros n.
Proof.
  intros -> Hl. pose proof (zlen_nonneg l). unfold grow. rewrite zlen_zeros by apply zlen_nonneg.
  unfold zeros. rewrite <- replicate_add. f_equal. rewrite zlen_zeros in Hl by apply zlen_nonneg. lia.
Qed.

Lemma log_Write_end l p :
  zlen (sl_data l) <= sl_pos l -> 
  sl_data (log_Write l p) = grow (sl_data l) (sl_pos l) ++ p.
Proof.
  intros Hl. pose proof (zlen_nonneg (sl_data l)). pose proof (zlen_nonneg p). unfold log_Write. cbn [sl_data].
  set (b := grow (sl_data l) (sl_pos l)).
  assert (Hb : zlen b = sl_pos l) by (unfold b, grow; zlen).
  assert (Hg : grow (sl_data l) (sl_pos l + zlen p) = b ++ zeros (zlen p)).
  { unfold b, grow, zeros. rewrite <- app_assoc, <- replicate_add. do 2 f_equal. lia. }
  rewrite Hg. unfold put. rewrite take_app_le, take_ge by (unfold zlen in *; lia).
  f_equal. rewrite length_app, take_ge, drop_ge, app_nil_r; [done|..]; unfold zlen, zeros in *;
    rewrite ?length_app, ?length_replicate; lia.
Qed.

Lemma appendEntry_data l off old :
  log_idle l -> sl_data (appendEntry l off old) = zeros (sl_pos l) ++ record off old /\
                sl_pos (appendEntry l off old) = sl_pos l + 12 + zlen old.
Proof.
  intros [Hl Hz]. unfold appendEntry. rewrite log_Write_end.
  - rewrite log_Write_end, (grow_zeros (sl_data l)) by (done || lia). cbn [log_Write sl_pos].
    rewrite zlen_entry_header, grow_id by zlen. rewrite <- app_assoc. done.
  - rewrite log_Write_end, (grow_zeros (sl_data l)) by (done || lia). cbn [log_Write sl_pos]. zlen.
Qed.

Lemma removeLastEntry_data l off old :
  log_idle l ->
  removeLastEntry (appendEntry l off old) (zlen old) = mkSafeLog (zeros (sl_pos l)) (sl_pos l + 12 + zlen old).
Proof.
  intros Hl. destruct (appendEntry_data l off old Hl) as [E1 E2]. destruct Hl as [Hl _].
  unfold removeLastEntry, log_Truncate, safeHdrSize. cbn zeta. rewrite E1, E2.
  assert (Hs : zlen (zeros (sl_pos l) ++ record off old) - (12 + zlen old) = sl_pos l) by zlen.
  rewrite Hs, (proj2 (Z.ltb_ge _ 0)) by lia.
  f_equal. rewrite sub_app_l by zlen. rewrite zeros_split by lia. apply grow_id. zlen.
Qed.

Lemma recover_empty (k : nat) inner rest :
  dev_ok inner -> 0 < zlen (dev_content inner) ->
  exists inner', recover_entries inner (replicate k empty_entry ++ rest) = recover_entries inner' rest /\
    dev_ok inner' /\ dev_content inner' = dev_content inner.
Proof.
  revert inner. induction k as [|k IH]; intros inner Hok Hpos; cbn [replicate app recover_entries]; [eauto|].
  destruct (dev_write inner 0 []) as (inner' & E & Hok' & Hc); [done|lia|change (@zlen byte []) with 0; lia|].
  rewrite put_nil in Hc. cbn [empty_entry se_Offset se_Data]. rewrite E.
  destruct (IH inner') as (inner2 & -> & ? & ?); [done|congruence|]. exists inner2. split; [done|]. split; congruence.
Qed.

(** Recovery from a log that is a cut of a hole and one record. *)
Lemma NewSafeDevice_prefix inner h off old m :
  dev_ok inner -> (12 | h) -> 0 <= h -> 0 <= off < 2 ^ 63 -> 0 < zlen old < 2 ^ 32 ->
  off + zlen old <= zlen (dev_content inner) ->
  0 <= m <= h + 12 + zlen old ->
  exists d', NewSafeDevice inner (Some (sub (zeros h ++ record off old) 0 m)) = (sd_inner d', Ok d') /\
    dev_ok (sd_inner d') /\
    dev_content (sd_inner d') =
      if m =? h + 12 + zlen old then put (dev_content inner) off old else dev_content inner.
Proof.
  intros Hok Hdiv Hh Ho Hold Hfit Hm. unfold NewSafeDevice.
  destruct (readPending_prefix h off old m) as [k ->]; try (done || lia).
  destruct (recover_empty k inner (if m =? h + 12 + zlen old then [mkSafeEntry off old] else []))
    as (inner' & -> & Hok' & Hc); [done|lia|].
  destruct (m =? h + 12 + zlen old); cbn [recover_entries].
  - cbn [se_Offset se_Data]. destruct (dev_write inner' off old) as (i2 & -> & ? & Hc2); rewrite ?Hc; [done|lia..|].
    eexists (mkSafeDevice _ _ _). split; [reflexivity|]. cbn. split; [done|]. congruence.
  - eexists (mkSafeDevice _ _ _). split; [reflexivity|]. cbn. done.
Qed.
End crash.

(** ** Cache coherence

    The cache never splits or drops a block that a write overlaps in part, so
    it is coherent for I/O whose ranges are pairwise nested or disjoint
    (blocks, sectors and structures inside them). *)
Definition within (o1 n1 o2 n2 : Z) : Prop := o2 <= o1 /\ o1 + n1 <= o2 + n2.
Definition apart (o1 n1 o2 n2 : Z) : Prop := o1 + n1 <= o2 \/ o2 + n2 <= o1.
Definition laminar (F : Z -> Z -> Prop) : Prop := forall o1 n1 o2 n2,
  F o1 n1 -> F o2 n2 -> apart o1 n1 o2 n2 \/ within o1 n1 o2 n2 \/ within o2 n2 o1 n1.

Section coherence.
Variable F : Z -> Z -> Prop.
Hypothesis F_laminar : laminar F.

Definition b_len (b : cacheBlock) : Z := zlen (cb_data b).
Definition block_wf (c : list byte) (b : cacheBlock) : Prop :=
  0 <= cb_offset b /\ 0 < b_len b /\ cb_offset b + b_len b <= zlen c /\ F (cb_offset b) (b_len b).
Definition fresh (c : list byte) (b : cacheBlock) : Prop := sub c (cb_offset b) (b_len b) = cb_data b.
Definition bigger (b b' : cacheBlock) : Prop :=
  within (cb_offset b) (b_len b) (cb_offset b') (b_len b') /\ b_len b < b_len b'.
Definition b_ord (b1 b2 : cacheBlock) : Prop :=
  apart (cb_offset b1) (b_len b1) (cb_offset b2) (b_len b2) \/ bigger b2 b1.
Definition cache_inv (c : list byte) (cache : list cacheBlock) : Prop :=
  (forall b, b ∈ cache -> block_wf c b) /\
  StronglySorted b_ord cache /\
  (forall b, b ∈ cache -> fresh c b \/ exists b', b' ∈ cache /\ bigger b b').

Lemma covers_true b off n : covers b off n = true <-> within off n (cb_offset b) (b_len b).
Proof. unfold covers, within, b_len. rewrite andb_true_iff, !Z.leb_le. done. Qed.

Lemma find_block_Some cache off n i b :
  find_block cache off n = Some (i, b) ->
  exists pre post, cache = pre ++ b :: post /\ i = length pre /\ covers b off n = true /\
                   (forall x, x ∈ pre -> covers x off n = false).
Proof.
  revert i. induction cache as [|x cache IH]; intros i; cbn [find_block]; [done|].
  destruct (covers x off n) eqn:E; [intros; simplify_eq|].
  - exists [], cache. repeat split; [done|]. intros y Hy. by apply not_elem_of_nil in Hy.
  - destruct (find_block cache off n) as [[j b']|]; [|done]. cbn. intros; simplify_eq.
    destruct (IH j) as (pre & post & -> & -> & ? & Hpre); [done|].
    exists (x :: pre), post. repeat split; [done|]. intros y [->|Hy]%elem_of_cons; auto.
Qed.

Lemma find_block_None cache off n x :
  find_block cache off n = None -> x ∈ cache -> covers x off n = false.
Proof.
  induction cache as [|y cache IH]; cbn [find_block]; [by intros _ ?%not_elem_of_nil|].
  destruct (covers y off n) eqn:E; [done|].
  destruct (find_block cache off n) as [[j b']|]; [done|]. intros _ [->|Hy]%elem_of_cons; auto.
Qed.

Lemma lookupCache_find cache off n :
  lookupCache cache off n =
  (fun '(_, b) => sub (cb_data b) (off - cb_offset b) n) <$> find_block cache off n.
Proof.
  induction cache as [|x cache IH]; cbn [find_block lookupCache]; [done|].
  destruct (covers x off n); [done|]. rewrite IH. by destruct (find_block cache off n) as [[j b']|].
Qed.

Lemma sorted_after pre b post x :
  StronglySorted b_ord (pre ++ b :: post) ->
  (x ∈ pre -> b_ord x b) /\ (x ∈ post -> b_ord b x).
Proof.
  intros (Hcross & Hpre & Hb)%StronglySorted_app. apply StronglySorted_inv in Hb as [_ Hb].
  rewrite Forall_forall in Hb. split; intros Hx; [|by apply Hb].
  apply Hcross; [done|]. by left.
Qed.

Lemma first_cover_fresh c pre b post off n :
  0 < n -> cache_inv c (pre ++ b :: post) -> covers b off n = true ->
  (forall x, x ∈ pre -> covers x off n = false) -> fresh c b.
Proof.
  intros Hn (Hwf & Hsort & Hfresh) Hb Hpre.
  destruct (Hfresh b) as [?|(b' & Hb' & Hin & Hlt)]; [set_solver|done|]. exfalso.
  apply covers_true in Hb. destruct (sorted_after _ _ _ b' Hsort) as [_ Hafter].
  apply elem_of_app in Hb' as [Hb'|[->|Hb']%elem_of_cons]; [|lia|].
  - apply Hpre in Hb'. apply not_true_iff_false in Hb'. apply Hb'. apply covers_true.
    unfold within in *. lia.
  - destruct (Hafter Hb') as [Ha|[Ha ?]]; unfold apart, within in *; lia.
Qed.

Lemma lookupCache_correct c cache off n p :
  0 < n -> cache_inv c cache -> lookupCache cache off n = Some p -> p = sub c off n.
Proof.
  intros Hn Hinv. rewrite lookupCache_find. destruct (find_block cache off n) as [[i b]|] eqn:E; [|done].
  cbn. intros [= <-]. apply find_block_Some in E as (pre & post & -> & _ & Hc & Hpre).
  pose proof (first_cover_fresh _ _ _ _ _ _ Hn Hinv Hc Hpre) as Hf.
  apply covers_true in Hc. destruct Hinv as (Hwf & _). destruct (Hwf b) as (? & ? & ? & _); [set_solver|].
  unfold fresh, within in *. rewrite <- Hf. rewrite sub_sub by lia. f_equal. lia.
Qed.

(** A block that a write of [p] at [off] overlaps is stale afterwards
    unless it is behind the block [e] that holds the write. *)
Lemma fresh_put c x off p :
  0 <= off -> 0 <= cb_offset x -> apart off (zlen p) (cb_offset x) (b_len x) ->
  fresh c x -> fresh (put c off p) x.
Proof. unfold fresh, apart. intros. rewrite sub_put_disj; [done|lia..]. Qed.

Lemma updated_fresh c off p b :
  block_wf c b -> covers b off (zlen p) = true -> fresh c b ->
  fresh (put c off p) (mkCacheBlock (cb_offset b) (put (cb_data b) (off - cb_offset b) p)).
Proof.
  unfold fresh, block_wf, b_len. cbn. intros (? & ? & ? & _) Hc Hf. apply covers_true in Hc.
  unfold within, b_len in Hc. rewrite zlen_put, sub_put_around by lia. by rewrite Hf.
Qed.

(** The block [e] that holds the bytes of the write moves to the front. *)
Lemma cache_push c e rest off p :
  0 <= off -> block_wf c e -> within off (zlen p) (cb_offset e) (b_len e) -> fresh (put c off p) e ->
  (forall x, x ∈ rest -> block_wf c x /\ b_ord e x /\
     (fresh c x \/ exists b', b' ∈ e :: rest /\ bigger x b')) ->
  StronglySorted b_ord rest -> cache_inv (put c off p) (e :: rest).
Proof.
  intros Ho Hwe Hin Hfe Hrest Hsort. split; [|split].
  - unfold block_wf. rewrite zlen_put. intros b [->|Hb]%elem_of_cons; [done|]. by apply Hrest.
  - constructor; [done|]. apply Forall_forall. intros x Hx. by apply Hrest.
  - intros x [->|Hx]%elem_of_cons; [by left|].
    destruct (Hrest x Hx) as (Hwx & [Ha|Hb] & Hf).
    + destruct Hf as [Hf|?]; [left|by right]. apply fresh_put; [done|apply Hwx| |done].
      unfold apart, within in *. lia.
    + right. exists e. split; [by left|done].
Qed.

Lemma elem_of_mid {A} (pre post : list A) b x : x ∈ pre ++ post -> x ∈ pre ++ b :: post.
Proof. rewrite !elem_of_app, elem_of_cons. tauto. Qed.

Lemma bigger_push c pre b post e x :
  cb_offset e = cb_offset b -> b_len e = b_len b -> cache_inv c (pre ++ b :: post) -> x ∈ pre ++ post ->
  fresh c x \/ exists b', b' ∈ e :: pre ++ post /\ bigger x b'.
Proof.
  intros Eo El (_ & _ & Hf) Hx. destruct (Hf x) as [?|(b' & Hb' & Hbig)]; [by apply elem_of_mid|by left|right].
  apply elem_of_app in Hb' as [?|[->|?]%elem_of_cons]; [exists b'|exists e|exists b'];
    (split; [rewrite elem_of_cons, elem_of_app; tauto|]); [done| |done]. unfold bigger. by rewrite Eo, El.
Qed.

Lemma updateCache_hit c pre b post off p :
  0 <= off -> 0 < zlen p -> covers b off (zlen p) = true ->
  (forall x, x ∈ pre -> covers x off (zlen p) = false) ->
  cache_inv c (pre ++ b :: post) ->
  cache_inv (put c off p) (mkCacheBlock (cb_offset b) (put (cb_data b) (off - cb_offset b) p) :: pre ++ post).
Proof.
  intros Ho Hn Hc Hpre Hinv. pose proof (first_cover_fresh _ _ _ _ _ _ Hn Hinv Hc Hpre) as Hfb.
  set (e := mkCacheBlock _ _). assert (El : b_len e = b_len b) by (unfold b_len; cbn; apply zlen_put).
  destruct Hinv as (Hwf & Hsort & Hf). assert (Hwb : block_wf c b) by (apply Hwf; set_solver).
  apply cache_push; [done|by unfold block_wf; rewrite El|by rewrite El; apply (covers_true b)| | |].
  - by apply updated_fresh.
  - intros x Hx. split; [by apply Hwf, elem_of_mid|].
    split; [|by apply (bigger_push c pre b post e x)].
    unfold b_ord, bigger. rewrite El. change (cb_offset e) with (cb_offset b).
    destruct (sorted_after _ _ _ x Hsort) as [Hbefore Hafter].
    apply elem_of_app in Hx as [Hx|Hx]; [|by apply Hafter].
    destruct (Hbefore Hx) as [Ha|[Hw Hlt]]; [left; unfold apart in *; lia|].
    exfalso. apply Hpre, not_true_iff_false in Hx. apply Hx, covers_true. apply covers_true in Hc.
    unfold within in *. lia.
  - apply StronglySorted_app in Hsort as (H1 & H2 & H3). apply StronglySorted_app.
    apply StronglySorted_inv in H3 as [H3 _]. split; [|split; [done|done]].
    intros x y Hx Hy. apply H1; [done|]. by right.
Qed.

(** Evicting the last block. *)
Lemma cache_inv_evict c cache : cache_inv c cache -> cache_inv c (take (length cache - 1) cache).
Proof.
  induction cache as [|last pre _] using rev_ind; [done|].
  rewrite length_app, take_app_le, take_ge by (cbn; lia).
  intros (Hwf & Hsort & Hf). split; [intros; apply Hwf; set_solver|].
  split; [by apply StronglySorted_app in Hsort as (_ & ? & _)|].
  intros b Hb. destruct (Hf b) as [?|(b' & Hb' & Hin & Hlt)]; [set_solver|by left|].
  apply elem_of_app in Hb' as [?|Hlast]; [right; by exists b'|apply list_elem_of_singleton in Hlast as ->].
  exfalso. destruct (sorted_after _ _ _ b Hsort) as [Hbefore _].
  destruct (Hwf b) as (? & ? & _); [set_solver|].
  destruct (Hbefore Hb) as [Ha|[Ha ?]]; unfold apart, within in *; lia.
Qed.

Lemma updateCache_miss c cache off p :
  0 <= off -> 0 < zlen p -> off + zlen p <= zlen c -> F off (zlen p) ->
  (forall x, x ∈ cache -> covers x off (zlen p) = false) -> cache_inv c cache ->
  cache_inv (put c off p) (mkCacheBlock off p :: cache).
Proof.
  intros Ho Hn Hfit HF Hno (Hwf & Hsort & Hf). apply cache_push; [done|done| | | |done].
  - unfold within, b_len. cbn. lia.
  - unfold fresh, b_len. cbn. apply sub_put_same; lia.
  - intros x Hx. split; [by apply Hwf|]. split.
    + destruct (Hwf x Hx) as (? & ? & ? & HFx).
      destruct (F_laminar _ _ _ _ HF HFx) as [Ha|[Ha|Ha]]; [by left| |right].
      * exfalso. apply Hno, not_true_iff_false in Hx. by apply Hx, covers_true.
      * split; [done|]. apply Hno, not_true_iff_false in Hx. rewrite covers_true in Hx.
        unfold b_len, within in *. cbn in *. lia.
    + destruct (Hf x Hx) as [?|(b' & ? & ?)]; [by left|right]. exists b'. split; [by right|done].
Qed.

Lemma updateCache_inv c cache off p :
  0 <= off -> 0 < zlen p -> off + zlen p <= zlen c -> F off (zlen p) ->
  cache_inv c cache -> cache_inv (put c off p) (updateCache cache p off).
Proof.
  intros Ho Hn Hfit HF Hinv. unfold updateCache. rewrite (proj2 (Z.eqb_neq _ 0)) by lia.
  destruct (find_block cache off (zlen p)) as [[i b]|] eqn:E.
  - apply find_block_Some in E as (pre & post & -> & -> & Hc & Hpre).
    rewrite take_app_le, take_ge, drop_app_ge by lia.
    replace (S (length pre) - length pre)%nat with 1%nat by lia. by apply updateCache_hit.
  - pose proof (fun x => find_block_None cache off (zlen p) x E) as Hno.
    destruct (64 <=? zlen cache); [|by apply updateCache_miss].
    apply updateCache_miss; [done..| |by apply cache_inv_evict].
    intros x Hx%elem_of_take. destruct Hx as (j & Hx & _). apply Hno. by eapply list_elem_of_lookup_2.
Qed.

Lemma updateCache_read c cache off n :
  0 <= off -> 0 < n -> off + n <= zlen c -> F off n ->
  cache_inv c cache -> cache_inv c (updateCache cache (sub c off n) off).
Proof.
  intros Ho Hn Hfit HF Hinv. assert (Hl : zlen (sub c off n) = n) by (apply zlen_sub; lia).
  pose proof (updateCache_inv c cache off (sub c off n)) as Hu. rewrite Hl, put_sub_id in Hu by lia. auto.
Qed.
End coherence.

(** ** Correctness of [SafeDevice] *)
Section safe_theorems.
Context {D : Type} `{Device D}.
Variable F : Z -> Z -> Prop.

Definition safe_inv (d : SafeDevice D) : Prop :=
  dev_ok (sd_inner d) /\ log_idle (sd_log d) /\ cache_inv F (dev_content (sd_inner d)) (sd_cache d).

(** A range the device may be asked for. *)
Definition in_range (d : SafeDevice D) (off n : Z) : Prop :=
  0 <= off < 2 ^ 63 /\ 0 < n < 2 ^ 32 /\ off + n <= zlen (dev_content (sd_inner d)) /\ F off n.

Lemma NewSafeDevice_inv (inner : D) :
  dev_ok inner -> exists d, NewSafeDevice inner None = (inner, Ok d) /\ sd_inner d = inner /\
    sl_pos (sd_log d) = 0 /\ safe_inv d.
Proof.
  intros Hok. eexists. split; [reflexivity|]. split; [done|]. split; [done|]. split; [done|].
  split; [by split|]. split; [intros b Hb; by apply not_elem_of_nil in Hb|].
  split; [constructor|]. intros b Hb. by apply not_elem_of_nil in Hb.
Qed.

Lemma pre_read_spec (d : SafeDevice D) off n :
  laminar F -> safe_inv d -> in_range d off n ->
  exists cache, pre_read d off n = inl (sub (dev_content (sd_inner d)) off n, cache) /\
    cache_inv F (dev_content (sd_inner d)) cache.
Proof.
  intros HF (Hok & _ & Hc) (Ho & Hn & Hfit & HFr). unfold pre_read.
  destruct (lookupCache (sd_cache d) off n) as [old|] eqn:E.
  - exists (sd_cache d). split; [|done]. do 2 f_equal. eapply lookupCache_correct; (done || lia).
  - rewrite dev_read by (done || lia). eexists. split; [done|].
    apply updateCache_read; (done || lia).
Qed.

Lemma Safe_read_ok (d : SafeDevice D) off n :
  laminar F -> safe_inv d -> in_range d off n ->
  exists d', Safe_ReadAt d off n = (d', (sub (dev_content (sd_inner d)) off n, None)) /\
    sd_inner d' = sd_inner d /\ safe_inv d'.
Proof.
  intros HF (Hok & Hl & Hc) (Ho & Hn & Hfit & HFr). unfold Safe_ReadAt.
  destruct (lookupCache (sd_cache d) off n) as [old|] eqn:E.
  - exists d. split; [|done]. do 2 f_equal. eapply lookupCache_correct; (done || lia).
  - rewrite dev_read by (done || lia). eexists. split; [done|]. split; [done|].
    split; [done|]. split; [done|]. apply updateCache_read; (done || lia).
Qed.

Lemma Safe_write_ok (d : SafeDevice D) off p :
  laminar F -> safe_inv d -> in_range d off (zlen p) ->
  exists d', Safe_WriteAt d off p = (d', (zlen p, None)) /\ safe_inv d' /\
    dev_content (sd_inner d') = put (dev_content (sd_inner d)) off p /\
    sd_log d' = mkSafeLog (zeros (sl_pos (sd_log d))) (sl_pos (sd_log d) + 12 + zlen p).
Proof.
  intros HF Hinv Hr. destruct (pre_read_spec d off (zlen p) HF Hinv Hr) as (cache & Ep & Hc).
  destruct Hinv as (Hok & Hl & _), Hr as (Ho & Hn & Hfit & HFr). unfold Safe_WriteAt.
  rewrite (proj2 (Z.eqb_neq _ 0)), Ep by lia.
  destruct (dev_write (sd_inner d) off p) as (inner' & -> & Hok' & Hc'); [done|lia..|].
  set (old := sub _ off _). assert (Hold : zlen old = zlen p) by (apply zlen_sub; lia).
  eexists. split; [done|]. unfold safe_inv. cbn [sd_inner sd_log sd_cache].
  rewrite removeLastEntry_data, Hold, Hc', sub_all by done. destruct Hl as [Hl _].
  split; [|done]. split; [done|]. split.
  - unfold log_idle. cbn. rewrite zlen_zeros by lia. split; [lia|done].
  - apply updateCache_inv; (done || lia).
Qed.

(** C29: With I/O ranges that are pairwise nested or disjoint, [SafeDevice]
    is transparent: a write reaches the device, a following read of any
    range returns the bytes of the updated device even when it is answered
    by the cache, and the cache, the idle log and the device stay
    consistent. *)
Theorem safe_device_coherent (d : SafeDevice D) off p o n :
  laminar F -> safe_inv d -> in_range d off (zlen p) -> in_range d o n ->
  exists d1 d2,
    Safe_WriteAt d off p = (d1, (zlen p, None)) /\
    dev_content (sd_inner d1) = put (dev_content (sd_inner d)) off p /\
    Safe_ReadAt d1 o n = (d2, (sub (put (dev_content (sd_inner d)) off p) o n, None)) /\
    sd_inner d2 = sd_inner d1 /\ safe_inv d2.
Proof.
  intros HF Hinv Hr1 Hr2. destruct (Safe_write_ok d off p HF Hinv Hr1) as (d1 & Hw & Hinv1 & Hc1 & _).
  destruct (Safe_read_ok d1 o n HF Hinv1) as (d2 & Hrd & Hi2 & Hinv2).
  { destruct Hr2 as (? & ? & ? & ?). unfold in_range. rewrite Hc1, zlen_put. done. }
  exists d1, d2. rewrite Hc1 in Hrd. done.
Qed.


End safe_theorems.

(** Sector ranges: four bytes at multiples of four. *)
Definition sectors4 (o n : Z) : Prop := n = 4 /\ (4 | o).
Lemma sectors4_laminar : laminar sectors4.
Proof.
  intros o1 n1 o2 n2 [-> [q1 ->]] [-> [q2 ->]]. unfold apart, within. lia.
Qed.

Definition ex_bytes (z : Z) : list byte := replicate 4 (byte.of_Z z).
Definition ex_file : File := mkFile (zeros 16).
Definition ex_safe : SafeDevice File := mkSafeDevice ex_file (openSafeLog None) [].

Lemma ex_safe_inv : safe_inv sectors4 ex_safe.
Proof. destruct (NewSafeDevice_inv sectors4 ex_file) as (d & [= <-] & _ & _ & Hi); done. Qed.

Lemma ex_in_range : in_range sectors4 ex_safe 4 4 /\ in_range sectors4 ex_safe 8 4.
Proof.
  unfold in_range, sectors4. change (zlen _) with 16.
  split; repeat split; try lia; [by exists 1|by exists 2].
Qed.

Lemma safe_device_coherent_witness :
  exists d1 d2, Safe_WriteAt ex_safe 4 (ex_bytes 7) = (d1, (4, None)) /\
                Safe_ReadAt d1 8 4 = (d2, (zeros 4, None)).
Proof.
  destruct (safe_device_coherent sectors4 ex_safe 4 (ex_bytes 7) 8 4) as (d1 & d2 & Hw & _ & Hr & _).
  - apply sectors4_laminar.
  - apply ex_safe_inv.
  - apply ex_in_range.
  - apply ex_in_range.
  - exists d1, d2. split; [exact Hw|exact Hr].
Defined.

(** A crash after two of the four bytes of the first write. *)
Definition ex_torn : File := mkFile (put (zeros 16) 4 [byte.of_Z 7; byte.of_Z 7]).


(** After a first write whose record is not a multiple of the header size
    the position of the log file is in the middle of a record of the hole:
    the record of a second, interrupted write is not found again and the torn
    write stays. *)
Definition ex_unaligned : SafeDevice File := (Safe_WriteAt ex_safe 0 [byte.of_Z 1]).1.

Lemma second_write_not_recovered :
  exists torn log d',
    crash ex_unaligned 4 (ex_bytes 7) torn log /\
    NewSafeDevice torn (Some log) = (sd_inner d', Ok d') /\
    f_data (sd_inner d') <> f_data (sd_inner ex_unaligned) /\
    f_data (sd_inner d') <> put (f_data (sd_inner ex_unaligned)) 4 (ex_bytes 7).
Proof.
  exists (mkFile (put (f_data (sd_inner ex_unaligned)) 4 [byte.of_Z 7])),
    (sl_data (appendEntry (sd_log ex_unaligned) 4 (zeros 4))).
  eexists (mkSafeDevice _ _ _). split; [|split].
  - apply (crash_writing _ _ _ (zeros 4) [mkCacheBlock 4 (zeros 4); mkCacheBlock 0 [byte.of_Z 1]]).
    + vm_compute. reflexivity.
    + exact I.
    + vm_compute. reflexivity.
    + intros i Hi Hn. cbn [dev_content File_device f_data].
      rewrite lookup_put by lia. rewrite decide_False; [done|].
      change (zlen (ex_bytes 7)) with 4 in Hn. change (zlen [byte.of_Z 7]) with 1. lia.
  - vm_compute. reflexivity.
  - split; vm_compute; discriminate.
Qed.

(** Ranges that overlap in part are not coherent: after a read of bytes 0-3
    and a write of bytes 2-5, a read of bytes 0-3 returns the old bytes. *)
Lemma overlapping_ranges_stale :
  let d1 := (Safe_ReadAt ex_safe 0 4).1 in
  let d2 := (Safe_WriteAt d1 2 (ex_bytes 7)).1 in
  (Safe_ReadAt d2 0 4).2 = (zeros 4, None) /\
  sub (f_data (sd_inner d2)) 0 4 = zeros 2 ++ [byte.of_Z 7; byte.of_Z 7].
Proof. vm_compute. done. Qed.
