(* ===== verification/Layout.v ===== *)
(** On-disk structures of ext4: the superblock ([src/vfs/super.go]), group
    descriptors ([src/vfs/bgdesc.go]), inodes ([src/vfs/inodes.go]) and extent
    nodes ([src/vfs/extents.go]), with the layout [encoding/binary] gives them
    and the accessors of their fields. *)
From S2P Require Export Bytes.

(** ** [SuperBlock] *)
Record SuperBlock := mkSuperBlock {
  S_inodes_count : Z;
  S_blocks_count_lo : Z;
  S_r_blocks_count_lo : Z;
  S_free_blocks_count_lo : Z;
  S_free_inodes_count : Z;
  S_first_data_block : Z;
  S_log_block_size : Z;
  S_log_cluster_size : Z;
  S_blocks_per_group : Z;
  S_clusters_per_group : Z;
  S_inodes_per_group : Z;
  S_mtime : Z;
  S_wtime : Z;
  S_mnt_count : Z;
  S_max_mnt_count : Z;
  S_magic : Z;
  S_state : Z;
  S_errors : Z;
  S_minor_rev_level : Z;
  S_lastcheck : Z;
  S_checkinterval : Z;
  S_creator_os : Z;
  S_rev_level : Z;
  S_def_resuid : Z;
  S_def_resgid : Z;
  S_first_ino : Z;
  S_inode_size : Z;
  S_block_group_nr : Z;
  S_feature_compat : Z;
  S_feature_incompat : Z;
  S_feature_ro_compat : Z;
  S_uuid : list byte;
  S_volume_name : list byte;
  S_last_mounted : list byte;
  S_algorithm_usage_bitmap : Z;
  S_prealloc_blocks : Z;
  S_prealloc_dir_blocks : Z;
  S_reserved_gdt_blocks : Z;
  S_journal_uuid : list byte;
  S_journal_inum : Z;
  S_journal_dev : Z;
  S_last_orphan : Z;
  S_hash_seed : list Z;
  S_def_hash_version : Z;
  S_jnl_backup_type : Z;
  S_desc_size : Z;
  S_default_mount_opts : Z;
  S_first_meta_bg : Z;
  S_mkfs_time : Z;
  S_jnl_blocks : list Z;
  S_blocks_count_hi : Z;
  S_r_blocks_count_hi : Z;
  S_free_blocks_count_hi : Z;
  S_min_extra_isize : Z;
  S_want_extra_isize : Z;
  S_flags : Z;
  S_raid_stride : Z;
  S_mmp_interval : Z;
  S_mmp_block : Z;
  S_raid_stripe_width : Z;
  S_log_groups_per_flex : Z;
  S_checksum_type : Z;
  S_encryption_level : Z;
  S_reserved_pad : Z;
  S_kbytes_written : Z;
  S_snapshot_inum : Z;
  S_snapshot_id : Z;
  S_snapshot_r_blocks_count : Z;
  S_snapshot_list : Z;
  S_error_count : Z;
  S_first_error_time : Z;
  S_first_error_ino : Z;
  S_first_error_block : Z;
  S_first_error_func : list byte;
  S_first_error_line : Z;
  S_last_error_time : Z;
  S_last_error_ino : Z;
  S_last_error_line : Z;
  S_last_error_block : Z;
  S_last_error_func : list byte;
  S_mount_opts : list byte;
  S_usr_quota_inum : Z;
  S_grp_quota_inum : Z;
  S_overhead_blocks : Z;
  S_backup_bgs : list Z;
  S_encrypt_algos : list Z;
  S_encrypt_pw_salt : list byte;
  S_lpf_ino : Z;
  S_prj_quota_inum : Z;
  S_checksum_seed : Z;
  S_wtime_hi : Z;
  S_mtime_hi : Z;
  S_mkfs_time_hi : Z;
  S_lastcheck_hi : Z;
  S_first_error_time_hi : Z;
  S_last_error_time_hi : Z;
  S_first_error_errcode : Z;
  S_last_error_errcode : Z;
  S_encoding : Z;
  S_encoding_flags : Z;
  S_orphan_file_inum : Z;
  S_reserved : list Z;
  S_checksum : Z
}.

#[export] Instance SuperBlock_binary : Binary SuperBlock :=
  c_struct
    (c_uint 4 ⊗ c_uint 4 ⊗ c_uint 4 ⊗ c_uint 4 ⊗ c_uint 4 ⊗ c_uint 4 ⊗ c_uint 4 ⊗ c_uint 4 ⊗
    c_uint 4 ⊗ c_uint 4 ⊗ c_uint 4 ⊗ c_uint 4 ⊗ c_uint 4 ⊗ c_uint 2 ⊗ c_uint 2 ⊗ c_uint 2 ⊗
    c_uint 2 ⊗ c_uint 2 ⊗ c_uint 2 ⊗ c_uint 4 ⊗ c_uint 4 ⊗ c_uint 4 ⊗ c_uint 4 ⊗ c_uint 2 ⊗
    c_uint 2 ⊗ c_uint 4 ⊗ c_uint 2 ⊗ c_uint 2 ⊗ c_uint 4 ⊗ c_uint 4 ⊗ c_uint 4 ⊗ c_bytes 16 ⊗
    c_bytes 16 ⊗ c_bytes 64 ⊗ c_uint 4 ⊗ c_uint 1 ⊗ c_uint 1 ⊗ c_uint 2 ⊗ c_bytes 16 ⊗ c_uint 4
    ⊗ c_uint 4 ⊗ c_uint 4 ⊗ c_array 4 (c_uint 4) ⊗ c_uint 1 ⊗ c_uint 1 ⊗ c_uint 2 ⊗ c_uint 4 ⊗
    c_uint 4 ⊗ c_uint 4 ⊗ c_array 17 (c_uint 4) ⊗ c_uint 4 ⊗ c_uint 4 ⊗ c_uint 4 ⊗ c_uint 2 ⊗
    c_uint 2 ⊗ c_uint 4 ⊗ c_uint 2 ⊗ c_uint 2 ⊗ c_uint 8 ⊗ c_uint 4 ⊗ c_uint 1 ⊗ c_uint 1 ⊗
    c_uint 1 ⊗ c_uint 1 ⊗ c_uint 8 ⊗ c_uint 4 ⊗ c_uint 4 ⊗ c_uint 8 ⊗ c_uint 4 ⊗ c_uint 4 ⊗
    c_uint 4 ⊗ c_uint 4 ⊗ c_uint 8 ⊗ c_bytes 32 ⊗ c_uint 4 ⊗ c_uint 4 ⊗ c_uint 4 ⊗ c_uint 4 ⊗
    c_uint 8 ⊗ c_bytes 32 ⊗ c_bytes 64 ⊗ c_uint 4 ⊗ c_uint 4 ⊗ c_uint 4 ⊗ c_array 2 (c_uint 4)
    ⊗ c_array 4 (c_uint 1) ⊗ c_bytes 16 ⊗ c_uint 4 ⊗ c_uint 4 ⊗ c_uint 4 ⊗ c_uint 1 ⊗ c_uint 1
    ⊗ c_uint 1 ⊗ c_uint 1 ⊗ c_uint 1 ⊗ c_uint 1 ⊗ c_uint 1 ⊗ c_uint 1 ⊗ c_uint 2 ⊗ c_uint 2 ⊗
    c_uint 4 ⊗ c_array 94 (c_uint 4) ⊗ c_uint 4)
    (fun '(x0 ⊙ x1 ⊙ x2 ⊙ x3 ⊙ x4 ⊙ x5 ⊙ x6 ⊙ x7 ⊙ x8 ⊙ x9 ⊙ x10 ⊙ x11 ⊙ x12 ⊙ x13 ⊙ x14 ⊙ x15 ⊙
       x16 ⊙ x17 ⊙ x18 ⊙ x19 ⊙ x20 ⊙ x21 ⊙ x22 ⊙ x23 ⊙ x24 ⊙ x25 ⊙ x26 ⊙ x27 ⊙ x28 ⊙ x29 ⊙ x30
       ⊙ x31 ⊙ x32 ⊙ x33 ⊙ x34 ⊙ x35 ⊙ x36 ⊙ x37 ⊙ x38 ⊙ x39 ⊙ x40 ⊙ x41 ⊙ x42 ⊙ x43 ⊙ x44 ⊙
       x45 ⊙ x46 ⊙ x47 ⊙ x48 ⊙ x49 ⊙ x50 ⊙ x51 ⊙ x52 ⊙ x53 ⊙ x54 ⊙ x55 ⊙ x56 ⊙ x57 ⊙ x58 ⊙ x59
       ⊙ x60 ⊙ x61 ⊙ x62 ⊙ x63 ⊙ x64 ⊙ x65 ⊙ x66 ⊙ x67 ⊙ x68 ⊙ x69 ⊙ x70 ⊙ x71 ⊙ x72 ⊙ x73 ⊙
       x74 ⊙ x75 ⊙ x76 ⊙ x77 ⊙ x78 ⊙ x79 ⊙ x80 ⊙ x81 ⊙ x82 ⊙ x83 ⊙ x84 ⊙ x85 ⊙ x86 ⊙ x87 ⊙ x88
       ⊙ x89 ⊙ x90 ⊙ x91 ⊙ x92 ⊙ x93 ⊙ x94 ⊙ x95 ⊙ x96 ⊙ x97 ⊙ x98 ⊙ x99 ⊙ x100 ⊙ x101 ⊙ x102) =>
       mkSuperBlock x0 x1 x2 x3 x4 x5 x6 x7 x8 x9 x10 x11 x12 x13 x14 x15 x16 x17 x18 x19 x20
       x21 x22 x23 x24 x25 x26 x27 x28 x29 x30 x31 x32 x33 x34 x35 x36 x37 x38 x39 x40 x41 x42
       x43 x44 x45 x46 x47 x48 x49 x50 x51 x52 x53 x54 x55 x56 x57 x58 x59 x60 x61 x62 x63 x64
       x65 x66 x67 x68 x69 x70 x71 x72 x73 x74 x75 x76 x77 x78 x79 x80 x81 x82 x83 x84 x85 x86
       x87 x88 x89 x90 x91 x92 x93 x94 x95 x96 x97 x98 x99 x100 x101 x102)
    (fun s =>
       S_inodes_count s ⊙ S_blocks_count_lo s ⊙ S_r_blocks_count_lo s ⊙ S_free_blocks_count_lo
       s ⊙ S_free_inodes_count s ⊙ S_first_data_block s ⊙ S_log_block_size s ⊙
       S_log_cluster_size s ⊙ S_blocks_per_group s ⊙ S_clusters_per_group s ⊙
       S_inodes_per_group s ⊙ S_mtime s ⊙ S_wtime s ⊙ S_mnt_count s ⊙ S_max_mnt_count s ⊙
       S_magic s ⊙ S_state s ⊙ S_errors s ⊙ S_minor_rev_level s ⊙ S_lastcheck s ⊙
       S_checkinterval s ⊙ S_creator_os s ⊙ S_rev_level s ⊙ S_def_resuid s ⊙ S_def_resgid s ⊙
       S_first_ino s ⊙ S_inode_size s ⊙ S_block_group_nr s ⊙ S_feature_compat s ⊙
       S_feature_incompat s ⊙ S_feature_ro_compat s ⊙ S_uuid s ⊙ S_volume_name s ⊙
       S_last_mounted s ⊙ S_algorithm_usage_bitmap s ⊙ S_prealloc_blocks s ⊙
       S_prealloc_dir_blocks s ⊙ S_reserved_gdt_blocks s ⊙ S_journal_uuid s ⊙ S_journal_inum s
       ⊙ S_journal_dev s ⊙ S_last_orphan s ⊙ S_hash_seed s ⊙ S_def_hash_version s ⊙
       S_jnl_backup_type s ⊙ S_desc_size s ⊙ S_default_mount_opts s ⊙ S_first_meta_bg s ⊙
       S_mkfs_time s ⊙ S_jnl_blocks s ⊙ S_blocks_count_hi s ⊙ S_r_blocks_count_hi s ⊙
       S_free_blocks_count_hi s ⊙ S_min_extra_isize s ⊙ S_want_extra_isize s ⊙ S_flags s ⊙
       S_raid_stride s ⊙ S_mmp_interval s ⊙ S_mmp_block s ⊙ S_raid_stripe_width s ⊙
       S_log_groups_per_flex s ⊙ S_checksum_type s ⊙ S_encryption_level s ⊙ S_reserved_pad s ⊙
       S_kbytes_written s ⊙ S_snapshot_inum s ⊙ S_snapshot_id s ⊙ S_snapshot_r_blocks_count s ⊙
       S_snapshot_list s ⊙ S_error_count s ⊙ S_first_error_time s ⊙ S_first_error_ino s ⊙
       S_first_error_block s ⊙ S_first_error_func s ⊙ S_first_error_line s ⊙ S_last_error_time
       s ⊙ S_last_error_ino s ⊙ S_last_error_line s ⊙ S_last_error_block s ⊙ S_last_error_func
       s ⊙ S_mount_opts s ⊙ S_usr_quota_inum s ⊙ S_grp_quota_inum s ⊙ S_overhead_blocks s ⊙
       S_backup_bgs s ⊙ S_encrypt_algos s ⊙ S_encrypt_pw_salt s ⊙ S_lpf_ino s ⊙
       S_prj_quota_inum s ⊙ S_checksum_seed s ⊙ S_wtime_hi s ⊙ S_mtime_hi s ⊙ S_mkfs_time_hi s
       ⊙ S_lastcheck_hi s ⊙ S_first_error_time_hi s ⊙ S_last_error_time_hi s ⊙
       S_first_error_errcode s ⊙ S_last_error_errcode s ⊙ S_encoding s ⊙ S_encoding_flags s ⊙
       S_orphan_file_inum s ⊙ S_reserved s ⊙ S_checksum s)
    ltac:(by intros []) ltac:(reflexivity).

Definition set_S_free_blocks_count_lo (v : Z) (s : SuperBlock) : SuperBlock :=
  mkSuperBlock (S_inodes_count s) (S_blocks_count_lo s) (S_r_blocks_count_lo s) v
  (S_free_inodes_count s) (S_first_data_block s) (S_log_block_size s) (S_log_cluster_size s)
  (S_blocks_per_group s) (S_clusters_per_group s) (S_inodes_per_group s) (S_mtime s) (S_wtime
  s) (S_mnt_count s) (S_max_mnt_count s) (S_magic s) (S_state s) (S_errors s)
  (S_minor_rev_level s) (S_lastcheck s) (S_checkinterval s) (S_creator_os s) (S_rev_level s)
  (S_def_resuid s) (S_def_resgid s) (S_first_ino s) (S_inode_size s) (S_block_group_nr s)
  (S_feature_compat s) (S_feature_incompat s) (S_feature_ro_compat s) (S_uuid s) (S_volume_name
  s) (S_last_mounted s) (S_algorithm_usage_bitmap s) (S_prealloc_blocks s)
  (S_prealloc_dir_blocks s) (S_reserved_gdt_blocks s) (S_journal_uuid s) (S_journal_inum s)
  (S_journal_dev s) (S_last_orphan s) (S_hash_seed s) (S_def_hash_version s) (S_jnl_backup_type
  s) (S_desc_size s) (S_default_mount_opts s) (S_first_meta_bg s) (S_mkfs_time s) (S_jnl_blocks
  s) (S_blocks_count_hi s) (S_r_blocks_count_hi s) (S_free_blocks_count_hi s)
  (S_min_extra_isize s) (S_want_extra_isize s) (S_flags s) (S_raid_stride s) (S_mmp_interval s)
  (S_mmp_block s) (S_raid_stripe_width s) (S_log_groups_per_flex s) (S_checksum_type s)
  (S_encryption_level s) (S_reserved_pad s) (S_kbytes_written s) (S_snapshot_inum s)
  (S_snapshot_id s) (S_snapshot_r_blocks_count s) (S_snapshot_list s) (S_error_count s)
  (S_first_error_time s) (S_first_error_ino s) (S_first_error_block s) (S_first_error_func s)
  (S_first_error_line s) (S_last_error_time s) (S_last_error_ino s) (S_last_error_line s)
  (S_last_error_block s) (S_last_error_func s) (S_mount_opts s) (S_usr_quota_inum s)
  (S_grp_quota_inum s) (S_overhead_blocks s) (S_backup_bgs s) (S_encrypt_algos s)
  (S_encrypt_pw_salt s) (S_lpf_ino s) (S_prj_quota_inum s) (S_checksum_seed s) (S_wtime_hi s)
  (S_mtime_hi s) (S_mkfs_time_hi s) (S_lastcheck_hi s) (S_first_error_time_hi s)
  (S_last_error_time_hi s) (S_first_error_errcode s) (S_last_error_errcode s) (S_encoding s)
  (S_encoding_flags s) (S_orphan_file_inum s) (S_reserved s) (S_checksum s).

Definition set_S_free_inodes_count (v : Z) (s : SuperBlock) : SuperBlock :=
  mkSuperBlock (S_inodes_count s) (S_blocks_count_lo s) (S_r_blocks_count_lo s)
  (S_free_blocks_count_lo s) v (S_first_data_block s) (S_log_block_size s) (S_log_cluster_size
  s) (S_blocks_per_group s) (S_clusters_per_group s) (S_inodes_per_group s) (S_mtime s)
  (S_wtime s) (S_mnt_count s) (S_max_mnt_count s) (S_magic s) (S_state s) (S_errors s)
  (S_minor_rev_level s) (S_lastcheck s) (S_checkinterval s) (S_creator_os s) (S_rev_level s)
  (S_def_resuid s) (S_def_resgid s) (S_first_ino s) (S_inode_size s) (S_block_group_nr s)
  (S_feature_compat s) (S_feature_incompat s) (S_feature_ro_compat s) (S_uuid s) (S_volume_name
  s) (S_last_mounted s) (S_algorithm_usage_bitmap s) (S_prealloc_blocks s)
  (S_prealloc_dir_blocks s) (S_reserved_gdt_blocks s) (S_journal_uuid s) (S_journal_inum s)
  (S_journal_dev s) (S_last_orphan s) (S_hash_seed s) (S_def_hash_version s) (S_jnl_backup_type
  s) (S_desc_size s) (S_default_mount_opts s) (S_first_meta_bg s) (S_mkfs_time s) (S_jnl_blocks
  s) (S_blocks_count_hi s) (S_r_blocks_count_hi s) (S_free_blocks_count_hi s)
  (S_min_extra_isize s) (S_want_extra_isize s) (S_flags s) (S_raid_stride s) (S_mmp_interval s)
  (S_mmp_block s) (S_raid_stripe_width s) (S_log_groups_per_flex s) (S_checksum_type s)
  (S_encryption_level s) (S_reserved_pad s) (S_kbytes_written s) (S_snapshot_inum s)
  (S_snapshot_id s) (S_snapshot_r_blocks_count s) (S_snapshot_list s) (S_error_count s)
  (S_first_error_time s) (S_first_error_ino s) (S_first_error_block s) (S_first_error_func s)
  (S_first_error_line s) (S_last_error_time s) (S_last_error_ino s) (S_last_error_line s)
  (S_last_error_block s) (S_last_error_func s) (S_mount_opts s) (S_usr_quota_inum s)
  (S_grp_quota_inum s) (S_overhead_blocks s) (S_backup_bgs s) (S_encrypt_algos s)
  (S_encrypt_pw_salt s) (S_lpf_ino s) (S_prj_quota_inum s) (S_checksum_seed s) (S_wtime_hi s)
  (S_mtime_hi s) (S_mkfs_time_hi s) (S_lastcheck_hi s) (S_first_error_time_hi s)
  (S_last_error_time_hi s) (S_first_error_errcode s) (S_last_error_errcode s) (S_encoding s)
  (S_encoding_flags s) (S_orphan_file_inum s) (S_reserved s) (S_checksum s).

Definition set_S_state (v : Z) (s : SuperBlock) : SuperBlock :=
  mkSuperBlock (S_inodes_count s) (S_blocks_count_lo s) (S_r_blocks_count_lo s)
  (S_free_blocks_count_lo s) (S_free_inodes_count s) (S_first_data_block s) (S_log_block_size
  s) (S_log_cluster_size s) (S_blocks_per_group s) (S_clusters_per_group s) (S_inodes_per_group
  s) (S_mtime s) (S_wtime s) (S_mnt_count s) (S_max_mnt_count s) (S_magic s) v (S_errors s)
  (S_minor_rev_level s) (S_lastcheck s) (S_checkinterval s) (S_creator_os s) (S_rev_level s)
  (S_def_resuid s) (S_def_resgid s) (S_first_ino s) (S_inode_size s) (S_block_group_nr s)
  (S_feature_compat s) (S_feature_incompat s) (S_feature_ro_compat s) (S_uuid s) (S_volume_name
  s) (S_last_mounted s) (S_algorithm_usage_bitmap s) (S_prealloc_blocks s)
  (S_prealloc_dir_blocks s) (S_reserved_gdt_blocks s) (S_journal_uuid s) (S_journal_inum s)
  (S_journal_dev s) (S_last_orphan s) (S_hash_seed s) (S_def_hash_version s) (S_jnl_backup_type
  s) (S_desc_size s) (S_default_mount_opts s) (S_first_meta_bg s) (S_mkfs_time s) (S_jnl_blocks
  s) (S_blocks_count_hi s) (S_r_blocks_count_hi s) (S_free_blocks_count_hi s)
  (S_min_extra_isize s) (S_want_extra_isize s) (S_flags s) (S_raid_stride s) (S_mmp_interval s)
  (S_mmp_block s) (S_raid_stripe_width s) (S_log_groups_per_flex s) (S_checksum_type s)
  (S_encryption_level s) (S_reserved_pad s) (S_kbytes_written s) (S_snapshot_inum s)
  (S_snapshot_id s) (S_snapshot_r_blocks_count s) (S_snapshot_list s) (S_error_count s)
  (S_first_error_time s) (S_first_error_ino s) (S_first_error_block s) (S_first_error_func s)
  (S_first_error_line s) (S_last_error_time s) (S_last_error_ino s) (S_last_error_line s)
  (S_last_error_block s) (S_last_error_func s) (S_mount_opts s) (S_usr_quota_inum s)
  (S_grp_quota_inum s) (S_overhead_blocks s) (S_backup_bgs s) (S_encrypt_algos s)
  (S_encrypt_pw_salt s) (S_lpf_ino s) (S_prj_quota_inum s) (S_checksum_seed s) (S_wtime_hi s)
  (S_mtime_hi s) (S_mkfs_time_hi s) (S_lastcheck_hi s) (S_first_error_time_hi s)
  (S_last_error_time_hi s) (S_first_error_errcode s) (S_last_error_errcode s) (S_encoding s)
  (S_encoding_flags s) (S_orphan_file_inum s) (S_reserved s) (S_checksum s).

Definition set_S_feature_incompat (v : Z) (s : SuperBlock) : SuperBlock :=
  mkSuperBlock (S_inodes_count s) (S_blocks_count_lo s) (S_r_blocks_count_lo s)
  (S_free_blocks_count_lo s) (S_free_inodes_count s) (S_first_data_block s) (S_log_block_size
  s) (S_log_cluster_size s) (S_blocks_per_group s) (S_clusters_per_group s) (S_inodes_per_group
  s) (S_mtime s) (S_wtime s) (S_mnt_count s) (S_max_mnt_count s) (S_magic s) (S_state s)
  (S_errors s) (S_minor_rev_level s) (S_lastcheck s) (S_checkinterval s) (S_creator_os s)
  (S_rev_level s) (S_def_resuid s) (S_def_resgid s) (S_first_ino s) (S_inode_size s)
  (S_block_group_nr s) (S_feature_compat s) v (S_feature_ro_compat s) (S_uuid s) (S_volume_name
  s) (S_last_mounted s) (S_algorithm_usage_bitmap s) (S_prealloc_blocks s)
  (S_prealloc_dir_blocks s) (S_reserved_gdt_blocks s) (S_journal_uuid s) (S_journal_inum s)
  (S_journal_dev s) (S_last_orphan s) (S_hash_seed s) (S_def_hash_version s) (S_jnl_backup_type
  s) (S_desc_size s) (S_default_mount_opts s) (S_first_meta_bg s) (S_mkfs_time s) (S_jnl_blocks
  s) (S_blocks_count_hi s) (S_r_blocks_count_hi s) (S_free_blocks_count_hi s)
  (S_min_extra_isize s) (S_want_extra_isize s) (S_flags s) (S_raid_stride s) (S_mmp_interval s)
  (S_mmp_block s) (S_raid_stripe_width s) (S_log_groups_per_flex s) (S_checksum_type s)
  (S_encryption_level s) (S_reserved_pad s) (S_kbytes_written s) (S_snapshot_inum s)
  (S_snapshot_id s) (S_snapshot_r_blocks_count s) (S_snapshot_list s) (S_error_count s)
  (S_first_error_time s) (S_first_error_ino s) (S_first_error_block s) (S_first_error_func s)
  (S_first_error_line s) (S_last_error_time s) (S_last_error_ino s) (S_last_error_line s)
  (S_last_error_block s) (S_last_error_func s) (S_mount_opts s) (S_usr_quota_inum s)
  (S_grp_quota_inum s) (S_overhead_blocks s) (S_backup_bgs s) (S_encrypt_algos s)
  (S_encrypt_pw_salt s) (S_lpf_ino s) (S_prj_quota_inum s) (S_checksum_seed s) (S_wtime_hi s)
  (S_mtime_hi s) (S_mkfs_time_hi s) (S_lastcheck_hi s) (S_first_error_time_hi s)
  (S_last_error_time_hi s) (S_first_error_errcode s) (S_last_error_errcode s) (S_encoding s)
  (S_encoding_flags s) (S_orphan_file_inum s) (S_reserved s) (S_checksum s).

Definition set_S_last_orphan (v : Z) (s : SuperBlock) : SuperBlock :=
  mkSuperBlock (S_inodes_count s) (S_blocks_count_lo s) (S_r_blocks_count_lo s)
  (S_free_blocks_count_lo s) (S_free_inodes_count s) (S_first_data_block s) (S_log_block_size
  s) (S_log_cluster_size s) (S_blocks_per_group s) (S_clusters_per_group s) (S_inodes_per_group
  s) (S_mtime s) (S_wtime s) (S_mnt_count s) (S_max_mnt_count s) (S_magic s) (S_state s)
  (S_errors s) (S_minor_rev_level s) (S_lastcheck s) (S_checkinterval s) (S_creator_os s)
  (S_rev_level s) (S_def_resuid s) (S_def_resgid s) (S_first_ino s) (S_inode_size s)
  (S_block_group_nr s) (S_feature_compat s) (S_feature_incompat s) (S_feature_ro_compat s)
  (S_uuid s) (S_volume_name s) (S_last_mounted s) (S_algorithm_usage_bitmap s)
  (S_prealloc_blocks s) (S_prealloc_dir_blocks s) (S_reserved_gdt_blocks s) (S_journal_uuid s)
  (S_journal_inum s) (S_journal_dev s) v (S_hash_seed s) (S_def_hash_version s)
  (S_jnl_backup_type s) (S_desc_size s) (S_default_mount_opts s) (S_first_meta_bg s)
  (S_mkfs_time s) (S_jnl_blocks s) (S_blocks_count_hi s) (S_r_blocks_count_hi s)
  (S_free_blocks_count_hi s) (S_min_extra_isize s) (S_want_extra_isize s) (S_flags s)
  (S_raid_stride s) (S_mmp_interval s) (S_mmp_block s) (S_raid_stripe_width s)
  (S_log_groups_per_flex s) (S_checksum_type s) (S_encryption_level s) (S_reserved_pad s)
  (S_kbytes_written s) (S_snapshot_inum s) (S_snapshot_id s) (S_snapshot_r_blocks_count s)
  (S_snapshot_list s) (S_error_count s) (S_first_error_time s) (S_first_error_ino s)
  (S_first_error_block s) (S_first_error_func s) (S_first_error_line s) (S_last_error_time s)
  (S_last_error_ino s) (S_last_error_line s) (S_last_error_block s) (S_last_error_func s)
  (S_mount_opts s) (S_usr_quota_inum s) (S_grp_quota_inum s) (S_overhead_blocks s)
  (S_backup_bgs s) (S_encrypt_algos s) (S_encrypt_pw_salt s) (S_lpf_ino s) (S_prj_quota_inum s)
  (S_checksum_seed s) (S_wtime_hi s) (S_mtime_hi s) (S_mkfs_time_hi s) (S_lastcheck_hi s)
  (S_first_error_time_hi s) (S_last_error_time_hi s) (S_first_error_errcode s)
  (S_last_error_errcode s) (S_encoding s) (S_encoding_flags s) (S_orphan_file_inum s)
  (S_reserved s) (S_checksum s).

Definition SUPERBLOCK_OFFSET : Z := 1024.
Definition MAGIC_NUMBER : Z := 0xEF53.
Definition SUPERBLOCK_STATE_CLEAN : Z := 0x0001.

Definition SuperBlock_BlockSize (sb : SuperBlock) : Z := w64 (Z.shiftl 1024 (S_log_block_size sb)).
Definition SuperBlock_InodeSize (sb : SuperBlock) : Z :=
  if 0 <? S_rev_level sb then S_inode_size sb else 128.
Definition BlockGroupCount (sb : SuperBlock) : res Z :=
  if S_blocks_per_group sb =? 0 then Panic
  else
    let groups := S_blocks_count_lo sb / S_blocks_per_group sb in
    Ok (if S_blocks_count_lo sb mod S_blocks_per_group sb =? 0 then groups else w32 (groups + 1)).
Definition GroupDescriptorSize (sb : SuperBlock) : Z :=
  if S_desc_size sb =? 0 then 32 else S_desc_size sb.
Definition BlockGroupDescriptorCount (sb : SuperBlock) : res Z := BlockGroupCount sb.

(** ** [GroupDescriptor] *)
Record GroupDescriptor := mkGroupDescriptor {
  BG_block_bitmap_lo : Z;
  BG_inode_bitmap_lo : Z;
  BG_inode_table_lo : Z;
  BG_free_blocks_count_lo : Z;
  BG_free_inodes_count_lo : Z;
  BG_used_dirs_count_lo : Z;
  BG_flags : Z;
  BG_exclude_bitmap_lo : Z;
  BG_block_bitmap_csum_lo : Z;
  BG_inode_bitmap_csum_lo : Z;
  BG_itable_unused_lo : Z;
  BG_checksum : Z;
  BG_block_bitmap_hi : Z;
  BG_inode_bitmap_hi : Z;
  BG_inode_table_hi : Z;
  BG_free_blocks_count_hi : Z;
  BG_free_inodes_count_hi : Z;
  BG_used_dirs_count_hi : Z;
  BG_itable_unused_hi : Z;
  BG_exclude_bitmap_hi : Z;
  BG_block_bitmap_csum_hi : Z;
  BG_inode_bitmap_csum_hi : Z;
  BG_reserved : Z
}.

#[export] Instance GroupDescriptor_binary : Binary GroupDescriptor :=
  c_struct
    (c_uint 4 ⊗ c_uint 4 ⊗ c_uint 4 ⊗ c_uint 2 ⊗ c_uint 2 ⊗ c_uint 2 ⊗ c_uint 2 ⊗ c_uint 4 ⊗
    c_uint 2 ⊗ c_uint 2 ⊗ c_uint 2 ⊗ c_uint 2 ⊗ c_uint 4 ⊗ c_uint 4 ⊗ c_uint 4 ⊗ c_uint 2 ⊗
    c_uint 2 ⊗ c_uint 2 ⊗ c_uint 2 ⊗ c_uint 4 ⊗ c_uint 2 ⊗ c_uint 2 ⊗ c_uint 4)
    (fun '(x0 ⊙ x1 ⊙ x2 ⊙ x3 ⊙ x4 ⊙ x5 ⊙ x6 ⊙ x7 ⊙ x8 ⊙ x9 ⊙ x10 ⊙ x11 ⊙ x12 ⊙ x13 ⊙ x14 ⊙ x15 ⊙
       x16 ⊙ x17 ⊙ x18 ⊙ x19 ⊙ x20 ⊙ x21 ⊙ x22) =>
       mkGroupDescriptor x0 x1 x2 x3 x4 x5 x6 x7 x8 x9 x10 x11 x12 x13 x14 x15 x16 x17 x18 x19
       x20 x21 x22)
    (fun s =>
       BG_block_bitmap_lo s ⊙ BG_inode_bitmap_lo s ⊙ BG_inode_table_lo s ⊙
       BG_free_blocks_count_lo s ⊙ BG_free_inodes_count_lo s ⊙ BG_used_dirs_count_lo s ⊙
       BG_flags s ⊙ BG_exclude_bitmap_lo s ⊙ BG_block_bitmap_csum_lo s ⊙
       BG_inode_bitmap_csum_lo s ⊙ BG_itable_unused_lo s ⊙ BG_checksum s ⊙ BG_block_bitmap_hi s
       ⊙ BG_inode_bitmap_hi s ⊙ BG_inode_table_hi s ⊙ BG_free_blocks_count_hi s ⊙
       BG_free_inodes_count_hi s ⊙ BG_used_dirs_count_hi s ⊙ BG_itable_unused_hi s ⊙
       BG_exclude_bitmap_hi s ⊙ BG_block_bitmap_csum_hi s ⊙ BG_inode_bitmap_csum_hi s ⊙
       BG_reserved s)
    ltac:(by intros []) ltac:(reflexivity).

Definition set_BG_free_blocks_count_lo (v : Z) (s : GroupDescriptor) : GroupDescriptor :=
  mkGroupDescriptor (BG_block_bitmap_lo s) (BG_inode_bitmap_lo s) (BG_inode_table_lo s) v
  (BG_free_inodes_count_lo s) (BG_used_dirs_count_lo s) (BG_flags s) (BG_exclude_bitmap_lo s)
  (BG_block_bitmap_csum_lo s) (BG_inode_bitmap_csum_lo s) (BG_itable_unused_lo s) (BG_checksum
  s) (BG_block_bitmap_hi s) (BG_inode_bitmap_hi s) (BG_inode_table_hi s)
  (BG_free_blocks_count_hi s) (BG_free_inodes_count_hi s) (BG_used_dirs_count_hi s)
  (BG_itable_unused_hi s) (BG_exclude_bitmap_hi s) (BG_block_bitmap_csum_hi s)
  (BG_inode_bitmap_csum_hi s) (BG_reserved s).

Definition set_BG_free_inodes_count_lo (v : Z) (s : GroupDescriptor) : GroupDescriptor :=
  mkGroupDescriptor (BG_block_bitmap_lo s) (BG_inode_bitmap_lo s) (BG_inode_table_lo s)
  (BG_free_blocks_count_lo s) v (BG_used_dirs_count_lo s) (BG_flags s) (BG_exclude_bitmap_lo s)
  (BG_block_bitmap_csum_lo s) (BG_inode_bitmap_csum_lo s) (BG_itable_unused_lo s) (BG_checksum
  s) (BG_block_bitmap_hi s) (BG_inode_bitmap_hi s) (BG_inode_table_hi s)
  (BG_free_blocks_count_hi s) (BG_free_inodes_count_hi s) (BG_used_dirs_count_hi s)
  (BG_itable_unused_hi s) (BG_exclude_bitmap_hi s) (BG_block_bitmap_csum_hi s)
  (BG_inode_bitmap_csum_hi s) (BG_reserved s).

(** ** [Inode] *)
Record Inode := mkInode {
  I_mode : Z;
  I_uid : Z;
  I_size_lo : Z;
  I_atime : Z;
  I_ctime : Z;
  I_mtime : Z;
  I_dtime : Z;
  I_gid : Z;
  I_links_count : Z;
  I_blocks_lo : Z;
  I_flags : Z;
  L_i_version : Z;
  I_block : list byte;
  I_generation : Z;
  I_file_acl_lo : Z;
  I_size_high : Z;
  I_obso_faddr : Z;
  L_i_blocks_high : Z;
  L_i_file_acl_high : Z;
  L_i_uid_high : Z;
  L_i_gid_high : Z;
  L_i_checksum_lo : Z;
  L_i_reserved : Z;
  I_extra_isize : Z;
  I_checksum_hi : Z;
  I_ctime_extra : Z;
  I_mtime_extra : Z;
  I_atime_extra : Z;
  I_crtime : Z;
  I_crtime_extra : Z;
  I_version_hi : Z;
  I_projid : Z
}.

#[export] Instance Inode_binary : Binary Inode :=
  c_struct
    (c_uint 2 ⊗ c_uint 2 ⊗ c_uint 4 ⊗ c_uint 4 ⊗ c_uint 4 ⊗ c_uint 4 ⊗ c_uint 4 ⊗ c_uint 2 ⊗
    c_uint 2 ⊗ c_uint 4 ⊗ c_uint 4 ⊗ c_uint 4 ⊗ c_bytes 60 ⊗ c_uint 4 ⊗ c_uint 4 ⊗ c_uint 4 ⊗
    c_uint 4 ⊗ c_uint 2 ⊗ c_uint 2 ⊗ c_uint 2 ⊗ c_uint 2 ⊗ c_uint 2 ⊗ c_uint 2 ⊗ c_uint 2 ⊗
    c_uint 2 ⊗ c_uint 4 ⊗ c_uint 4 ⊗ c_uint 4 ⊗ c_uint 4 ⊗ c_uint 4 ⊗ c_uint 4 ⊗ c_uint 4)
    (fun '(x0 ⊙ x1 ⊙ x2 ⊙ x3 ⊙ x4 ⊙ x5 ⊙ x6 ⊙ x7 ⊙ x8 ⊙ x9 ⊙ x10 ⊙ x11 ⊙ x12 ⊙ x13 ⊙ x14 ⊙ x15 ⊙
       x16 ⊙ x17 ⊙ x18 ⊙ x19 ⊙ x20 ⊙ x21 ⊙ x22 ⊙ x23 ⊙ x24 ⊙ x25 ⊙ x26 ⊙ x27 ⊙ x28 ⊙ x29 ⊙ x30
       ⊙ x31) =>
       mkInode x0 x1 x2 x3 x4 x5 x6 x7 x8 x9 x10 x11 x12 x13 x14 x15 x16 x17 x18 x19 x20 x21
       x22 x23 x24 x25 x26 x27 x28 x29 x30 x31)
    (fun s =>
       I_mode s ⊙ I_uid s ⊙ I_size_lo s ⊙ I_atime s ⊙ I_ctime s ⊙ I_mtime s ⊙ I_dtime s ⊙ I_gid
       s ⊙ I_links_count s ⊙ I_blocks_lo s ⊙ I_flags s ⊙ L_i_version s ⊙ I_block s ⊙
       I_generation s ⊙ I_file_acl_lo s ⊙ I_size_high s ⊙ I_obso_faddr s ⊙ L_i_blocks_high s ⊙
       L_i_file_acl_high s ⊙ L_i_uid_high s ⊙ L_i_gid_high s ⊙ L_i_checksum_lo s ⊙ L_i_reserved
       s ⊙ I_extra_isize s ⊙ I_checksum_hi s ⊙ I_ctime_extra s ⊙ I_mtime_extra s ⊙
       I_atime_extra s ⊙ I_crtime s ⊙ I_crtime_extra s ⊙ I_version_hi s ⊙ I_projid s)
    ltac:(by intros []) ltac:(reflexivity).

Definition set_I_mode (v : Z) (s : Inode) : Inode :=
  mkInode v (I_uid s) (I_size_lo s) (I_atime s) (I_ctime s) (I_mtime s) (I_dtime s) (I_gid s)
  (I_links_count s) (I_blocks_lo s) (I_flags s) (L_i_version s) (I_block s) (I_generation s)
  (I_file_acl_lo s) (I_size_high s) (I_obso_faddr s) (L_i_blocks_high s) (L_i_file_acl_high s)
  (L_i_uid_high s) (L_i_gid_high s) (L_i_checksum_lo s) (L_i_reserved s) (I_extra_isize s)
  (I_checksum_hi s) (I_ctime_extra s) (I_mtime_extra s) (I_atime_extra s) (I_crtime s)
  (I_crtime_extra s) (I_version_hi s) (I_projid s).

Definition set_I_uid (v : Z) (s : Inode) : Inode :=
  mkInode (I_mode s) v (I_size_lo s) (I_atime s) (I_ctime s) (I_mtime s) (I_dtime s) (I_gid s)
  (I_links_count s) (I_blocks_lo s) (I_flags s) (L_i_version s) (I_block s) (I_generation s)
  (I_file_acl_lo s) (I_size_high s) (I_obso_faddr s) (L_i_blocks_high s) (L_i_file_acl_high s)
  (L_i_uid_high s) (L_i_gid_high s) (L_i_checksum_lo s) (L_i_reserved s) (I_extra_isize s)
  (I_checksum_hi s) (I_ctime_extra s) (I_mtime_extra s) (I_atime_extra s) (I_crtime s)
  (I_crtime_extra s) (I_version_hi s) (I_projid s).

Definition set_I_gid (v : Z) (s : Inode) : Inode :=
  mkInode (I_mode s) (I_uid s) (I_size_lo s) (I_atime s) (I_ctime s) (I_mtime s) (I_dtime s) v
  (I_links_count s) (I_blocks_lo s) (I_flags s) (L_i_version s) (I_block s) (I_generation s)
  (I_file_acl_lo s) (I_size_high s) (I_obso_faddr s) (L_i_blocks_high s) (L_i_file_acl_high s)
  (L_i_uid_high s) (L_i_gid_high s) (L_i_checksum_lo s) (L_i_reserved s) (I_extra_isize s)
  (I_checksum_hi s) (I_ctime_extra s) (I_mtime_extra s) (I_atime_extra s) (I_crtime s)
  (I_crtime_extra s) (I_version_hi s) (I_projid s).

Definition set_I_size_lo (v : Z) (s : Inode) : Inode :=
  mkInode (I_mode s) (I_uid s) v (I_atime s) (I_ctime s) (I_mtime s) (I_dtime s) (I_gid s)
  (I_links_count s) (I_blocks_lo s) (I_flags s) (L_i_version s) (I_block s) (I_generation s)
  (I_file_acl_lo s) (I_size_high s) (I_obso_faddr s) (L_i_blocks_high s) (L_i_file_acl_high s)
  (L_i_uid_high s) (L_i_gid_high s) (L_i_checksum_lo s) (L_i_reserved s) (I_extra_isize s)
  (I_checksum_hi s) (I_ctime_extra s) (I_mtime_extra s) (I_atime_extra s) (I_crtime s)
  (I_crtime_extra s) (I_version_hi s) (I_projid s).

Definition set_I_size_high (v : Z) (s : Inode) : Inode :=
  mkInode (I_mode s) (I_uid s) (I_size_lo s) (I_atime s) (I_ctime s) (I_mtime s) (I_dtime s)
  (I_gid s) (I_links_count s) (I_blocks_lo s) (I_flags s) (L_i_version s) (I_block s)
  (I_generation s) (I_file_acl_lo s) v (I_obso_faddr s) (L_i_blocks_high s) (L_i_file_acl_high
  s) (L_i_uid_high s) (L_i_gid_high s) (L_i_checksum_lo s) (L_i_reserved s) (I_extra_isize s)
  (I_checksum_hi s) (I_ctime_extra s) (I_mtime_extra s) (I_atime_extra s) (I_crtime s)
  (I_crtime_extra s) (I_version_hi s) (I_projid s).

Definition set_I_ctime (v : Z) (s : Inode) : Inode :=
  mkInode (I_mode s) (I_uid s) (I_size_lo s) (I_atime s) v (I_mtime s) (I_dtime s) (I_gid s)
  (I_links_count s) (I_blocks_lo s) (I_flags s) (L_i_version s) (I_block s) (I_generation s)
  (I_file_acl_lo s) (I_size_high s) (I_obso_faddr s) (L_i_blocks_high s) (L_i_file_acl_high s)
  (L_i_uid_high s) (L_i_gid_high s) (L_i_checksum_lo s) (L_i_reserved s) (I_extra_isize s)
  (I_checksum_hi s) (I_ctime_extra s) (I_mtime_extra s) (I_atime_extra s) (I_crtime s)
  (I_crtime_extra s) (I_version_hi s) (I_projid s).

Definition set_I_mtime (v : Z) (s : Inode) : Inode :=
  mkInode (I_mode s) (I_uid s) (I_size_lo s) (I_atime s) (I_ctime s) v (I_dtime s) (I_gid s)
  (I_links_count s) (I_blocks_lo s) (I_flags s) (L_i_version s) (I_block s) (I_generation s)
  (I_file_acl_lo s) (I_size_high s) (I_obso_faddr s) (L_i_blocks_high s) (L_i_file_acl_high s)
  (L_i_uid_high s) (L_i_gid_high s) (L_i_checksum_lo s) (L_i_reserved s) (I_extra_isize s)
  (I_checksum_hi s) (I_ctime_extra s) (I_mtime_extra s) (I_atime_extra s) (I_crtime s)
  (I_crtime_extra s) (I_version_hi s) (I_projid s).

Definition set_I_dtime (v : Z) (s : Inode) : Inode :=
  mkInode (I_mode s) (I_uid s) (I_size_lo s) (I_atime s) (I_ctime s) (I_mtime s) v (I_gid s)
  (I_links_count s) (I_blocks_lo s) (I_flags s) (L_i_version s) (I_block s) (I_generation s)
  (I_file_acl_lo s) (I_size_high s) (I_obso_faddr s) (L_i_blocks_high s) (L_i_file_acl_high s)
  (L_i_uid_high s) (L_i_gid_high s) (L_i_checksum_lo s) (L_i_reserved s) (I_extra_isize s)
  (I_checksum_hi s) (I_ctime_extra s) (I_mtime_extra s) (I_atime_extra s) (I_crtime s)
  (I_crtime_extra s) (I_version_hi s) (I_projid s).

Definition set_I_links_count (v : Z) (s : Inode) : Inode :=
  mkInode (I_mode s) (I_uid s) (I_size_lo s) (I_atime s) (I_ctime s) (I_mtime s) (I_dtime s)
  (I_gid s) v (I_blocks_lo s) (I_flags s) (L_i_version s) (I_block s) (I_generation s)
  (I_file_acl_lo s) (I_size_high s) (I_obso_faddr s) (L_i_blocks_high s) (L_i_file_acl_high s)
  (L_i_uid_high s) (L_i_gid_high s) (L_i_checksum_lo s) (L_i_reserved s) (I_extra_isize s)
  (I_checksum_hi s) (I_ctime_extra s) (I_mtime_extra s) (I_atime_extra s) (I_crtime s)
  (I_crtime_extra s) (I_version_hi s) (I_projid s).

Definition set_I_blocks_lo (v : Z) (s : Inode) : Inode :=
  mkInode (I_mode s) (I_uid s) (I_size_lo s) (I_atime s) (I_ctime s) (I_mtime s) (I_dtime s)
  (I_gid s) (I_links_count s) v (I_flags s) (L_i_version s) (I_block s) (I_generation s)
  (I_file_acl_lo s) (I_size_high s) (I_obso_faddr s) (L_i_blocks_high s) (L_i_file_acl_high s)
  (L_i_uid_high s) (L_i_gid_high s) (L_i_checksum_lo s) (L_i_reserved s) (I_extra_isize s)
  (I_checksum_hi s) (I_ctime_extra s) (I_mtime_extra s) (I_atime_extra s) (I_crtime s)
  (I_crtime_extra s) (I_version_hi s) (I_projid s).

Definition set_I_flags (v : Z) (s : Inode) : Inode :=
  mkInode (I_mode s) (I_uid s) (I_size_lo s) (I_atime s) (I_ctime s) (I_mtime s) (I_dtime s)
  (I_gid s) (I_links_count s) (I_blocks_lo s) v (L_i_version s) (I_block s) (I_generation s)
  (I_file_acl_lo s) (I_size_high s) (I_obso_faddr s) (L_i_blocks_high s) (L_i_file_acl_high s)
  (L_i_uid_high s) (L_i_gid_high s) (L_i_checksum_lo s) (L_i_reserved s) (I_extra_isize s)
  (I_checksum_hi s) (I_ctime_extra s) (I_mtime_extra s) (I_atime_extra s) (I_crtime s)
  (I_crtime_extra s) (I_version_hi s) (I_projid s).

Definition set_I_block (v : list byte) (s : Inode) : Inode :=
  mkInode (I_mode s) (I_uid s) (I_size_lo s) (I_atime s) (I_ctime s) (I_mtime s) (I_dtime s)
  (I_gid s) (I_links_count s) (I_blocks_lo s) (I_flags s) (L_i_version s) v (I_generation s)
  (I_file_acl_lo s) (I_size_high s) (I_obso_faddr s) (L_i_blocks_high s) (L_i_file_acl_high s)
  (L_i_uid_high s) (L_i_gid_high s) (L_i_checksum_lo s) (L_i_reserved s) (I_extra_isize s)
  (I_checksum_hi s) (I_ctime_extra s) (I_mtime_extra s) (I_atime_extra s) (I_crtime s)
  (I_crtime_extra s) (I_version_hi s) (I_projid s).

Definition set_I_file_acl_lo (v : Z) (s : Inode) : Inode :=
  mkInode (I_mode s) (I_uid s) (I_size_lo s) (I_atime s) (I_ctime s) (I_mtime s) (I_dtime s)
  (I_gid s) (I_links_count s) (I_blocks_lo s) (I_flags s) (L_i_version s) (I_block s)
  (I_generation s) v (I_size_high s) (I_obso_faddr s) (L_i_blocks_high s) (L_i_file_acl_high s)
  (L_i_uid_high s) (L_i_gid_high s) (L_i_checksum_lo s) (L_i_reserved s) (I_extra_isize s)
  (I_checksum_hi s) (I_ctime_extra s) (I_mtime_extra s) (I_atime_extra s) (I_crtime s)
  (I_crtime_extra s) (I_version_hi s) (I_projid s).

Definition set_L_i_blocks_high (v : Z) (s : Inode) : Inode :=
  mkInode (I_mode s) (I_uid s) (I_size_lo s) (I_atime s) (I_ctime s) (I_mtime s) (I_dtime s)
  (I_gid s) (I_links_count s) (I_blocks_lo s) (I_flags s) (L_i_version s) (I_block s)
  (I_generation s) (I_file_acl_lo s) (I_size_high s) (I_obso_faddr s) v (L_i_file_acl_high s)
  (L_i_uid_high s) (L_i_gid_high s) (L_i_checksum_lo s) (L_i_reserved s) (I_extra_isize s)
  (I_checksum_hi s) (I_ctime_extra s) (I_mtime_extra s) (I_atime_extra s) (I_crtime s)
  (I_crtime_extra s) (I_version_hi s) (I_projid s).

Definition set_L_i_file_acl_high (v : Z) (s : Inode) : Inode :=
  mkInode (I_mode s) (I_uid s) (I_size_lo s) (I_atime s) (I_ctime s) (I_mtime s) (I_dtime s)
  (I_gid s) (I_links_count s) (I_blocks_lo s) (I_flags s) (L_i_version s) (I_block s)
  (I_generation s) (I_file_acl_lo s) (I_size_high s) (I_obso_faddr s) (L_i_blocks_high s) v
  (L_i_uid_high s) (L_i_gid_high s) (L_i_checksum_lo s) (L_i_reserved s) (I_extra_isize s)
  (I_checksum_hi s) (I_ctime_extra s) (I_mtime_extra s) (I_atime_extra s) (I_crtime s)
  (I_crtime_extra s) (I_version_hi s) (I_projid s).

Definition set_L_i_uid_high (v : Z) (s : Inode) : Inode :=
  mkInode (I_mode s) (I_uid s) (I_size_lo s) (I_atime s) (I_ctime s) (I_mtime s) (I_dtime s)
  (I_gid s) (I_links_count s) (I_blocks_lo s) (I_flags s) (L_i_version s) (I_block s)
  (I_generation s) (I_file_acl_lo s) (I_size_high s) (I_obso_faddr s) (L_i_blocks_high s)
  (L_i_file_acl_high s) v (L_i_gid_high s) (L_i_checksum_lo s) (L_i_reserved s) (I_extra_isize
  s) (I_checksum_hi s) (I_ctime_extra s) (I_mtime_extra s) (I_atime_extra s) (I_crtime s)
  (I_crtime_extra s) (I_version_hi s) (I_projid s).

Definition set_L_i_gid_high (v : Z) (s : Inode) : Inode :=
  mkInode (I_mode s) (I_uid s) (I_size_lo s) (I_atime s) (I_ctime s) (I_mtime s) (I_dtime s)
  (I_gid s) (I_links_count s) (I_blocks_lo s) (I_flags s) (L_i_version s) (I_block s)
  (I_generation s) (I_file_acl_lo s) (I_size_high s) (I_obso_faddr s) (L_i_blocks_high s)
  (L_i_file_acl_high s) (L_i_uid_high s) v (L_i_checksum_lo s) (L_i_reserved s) (I_extra_isize
  s) (I_checksum_hi s) (I_ctime_extra s) (I_mtime_extra s) (I_atime_extra s) (I_crtime s)
  (I_crtime_extra s) (I_version_hi s) (I_projid s).

Definition RootInodeNum : Z := 2.
Definition S_IFIFO : Z := 0x1000.
Definition S_IFCHR : Z := 0x2000.
Definition S_IFDIR : Z := 0x4000.
Definition S_IFBLK : Z := 0x6000.
Definition S_IFREG : Z := 0x8000.
Definition S_IFLNK : Z := 0xA000.
Definition S_IFSOCK : Z := 0xC000.
Definition EXT4_INDEX_FL : Z := 0x1000.
Definition EXT4_EXTENTS_FL : Z := 0x80000.
Definition ifmt : Z := 0xF000.

Definition IsDir (i : Inode) : bool := Z.land (I_mode i) ifmt =? S_IFDIR.
Definition IsRegular (i : Inode) : bool := Z.land (I_mode i) ifmt =? S_IFREG.
Definition IsSymlink (i : Inode) : bool := Z.land (I_mode i) ifmt =? S_IFLNK.
Definition Size (i : Inode) : Z :=
  if IsDir i then I_size_lo i else Z.lor (Z.shiftl (I_size_high i) 32) (I_size_lo i).
Definition UsesExtents (i : Inode) : bool := negb (Z.land (I_flags i) EXT4_EXTENTS_FL =? 0).

(** ** Extent nodes *)
Record ExtentHeader := mkExtentHeader {
  EH_magic : Z;
  EH_entries : Z;
  EH_max : Z;
  EH_depth : Z;
  EH_generation : Z
}.

#[export] Instance ExtentHeader_binary : Binary ExtentHeader :=
  c_struct
    (c_uint 2 ⊗ c_uint 2 ⊗ c_uint 2 ⊗ c_uint 2 ⊗ c_uint 4)
    (fun '(x0 ⊙ x1 ⊙ x2 ⊙ x3 ⊙ x4) =>
       mkExtentHeader x0 x1 x2 x3 x4)
    (fun s =>
       EH_magic s ⊙ EH_entries s ⊙ EH_max s ⊙ EH_depth s ⊙ EH_generation s)
    ltac:(by intros []) ltac:(reflexivity).

Definition set_EH_entries (v : Z) (s : ExtentHeader) : ExtentHeader :=
  mkExtentHeader (EH_magic s) v (EH_max s) (EH_depth s) (EH_generation s).

Record Extent := mkExtent {
  EE_block : Z;
  EE_len : Z;
  EE_start_hi : Z;
  EE_start_lo : Z
}.

#[export] Instance Extent_binary : Binary Extent :=
  c_struct
    (c_uint 4 ⊗ c_uint 2 ⊗ c_uint 2 ⊗ c_uint 4)
    (fun '(x0 ⊙ x1 ⊙ x2 ⊙ x3) =>
       mkExtent x0 x1 x2 x3)
    (fun s =>
       EE_block s ⊙ EE_len s ⊙ EE_start_hi s ⊙ EE_start_lo s)
    ltac:(by intros []) ltac:(reflexivity).

Definition set_EE_len (v : Z) (s : Extent) : Extent :=
  mkExtent (EE_block s) v (EE_start_hi s) (EE_start_lo s).

Record ExtentIdx := mkExtentIdx {
  EI_block : Z;
  EI_leaf_lo : Z;
  EI_leaf_hi : Z;
  EI_unused : Z
}.

#[export] Instance ExtentIdx_binary : Binary ExtentIdx :=
  c_struct
    (c_uint 4 ⊗ c_uint 4 ⊗ c_uint 2 ⊗ c_uint 2)
    (fun '(x0 ⊙ x1 ⊙ x2 ⊙ x3) =>
       mkExtentIdx x0 x1 x2 x3)
    (fun s =>
       EI_block s ⊙ EI_leaf_lo s ⊙ EI_leaf_hi s ⊙ EI_unused s)
    ltac:(by intros []) ltac:(reflexivity).

Definition EXT4_EXT_MAGIC : Z := 0xF30A.
Definition extentHeaderSize : Z := 12.
Definition extentEntrySize : Z := 12.
