(* ===== verification/Core.v ===== *)
(** The file-system object ([src/vfs/core.go]) and the device of a running
    transaction ([TxDevice], [src/vfs/journal_writer.go]).

    Every operation of the driver reads and writes through [fs.dev], which is
    the mounted device or, between [BeginTransaction] and the end of the
    transaction, a [TxDevice] that keeps the written blocks in memory.  The
    block size of the [TxDevice] is the one of the file system it belongs
    to. *)
From S2P Require Export Device Layout.

(** ** [TxDevice] *)
Definition maxVal (a b : Z) : Z := if b <? a then a else b.
Definition minVal (a b : Z) : Z := if a <? b then a else b.

Section tx_device.
Context {D : Type} `{ReadWriterAt D}.
Variable blockSize : Z.

(** One round of the loop of [ReadAt]: the part of the dirty block that lies
    in the buffer. *)
Definition tx_overlay_block (off : Z) (p : list byte) (entry : Z * list byte) : list byte :=
  let '(blockNum, blockData) := entry in
  let readEnd := off + zlen p in
  let blockStart := blockNum * blockSize in
  let blockEnd := blockStart + blockSize in
  let overlapStart := maxVal off blockStart in
  let overlapEnd := minVal readEnd blockEnd in
  if overlapStart <? overlapEnd then
    put p (overlapStart - off) (sub blockData (overlapStart - blockStart) (overlapEnd - overlapStart))
  else p.

Definition Tx_ReadAt (inner : D) (dirty : gmap Z (list byte)) (off n : Z) : list byte * option error :=
  let '(got, err) := ReadAt inner off n in
  if match err with Some e => bool_decide (e <> Sentinel io_EOF) | None => false end
  then (got, err)
  else (foldl (tx_overlay_block off) got (map_to_list dirty), err).

Fixpoint tx_write_blocks (inner : D) (blocks : list Z) (dirty : gmap Z (list byte)) (off : Z)
    (p : list byte) : gmap Z (list byte) * option error :=
  match blocks with
  | [] => (dirty, None)
  | blockNum :: blocks' =>
      let writeEnd := off + zlen p in
      let blockStart := blockNum * blockSize in
      let blockEnd := blockStart + blockSize in
      let loaded :=
        match dirty !! blockNum with
        | Some blockData => inl blockData
        | None =>
            let '(got, err) := ReadAt inner blockStart blockSize in
            match err with
            | Some e =>
                if bool_decide (e <> Sentinel io_EOF) then inr e else inl (put (zeros blockSize) 0 got)
            | None => inl (put (zeros blockSize) 0 got)
            end
        end in
      match loaded with
      | inr e => (dirty, Some e)
      | inl blockData =>
          let overlapStart := maxVal off blockStart in
          let overlapEnd := minVal writeEnd blockEnd in
          let blockData :=
            put blockData (overlapStart - blockStart) (sub p (overlapStart - off) (overlapEnd - overlapStart)) in
          tx_write_blocks inner blocks' (<[blockNum := blockData]> dirty) off p
      end
  end.

Definition Tx_WriteAt (inner : D) (dirty : gmap Z (list byte)) (off : Z) (p : list byte)
    : gmap Z (list byte) * (Z * option error) :=
  if zlen p =? 0 then (dirty, (0, None))
  else
    let startBlock := w64 (Z.quot off blockSize) in
    let endBlock := w64 (Z.quot (off + zlen p - 1) blockSize) in
    let '(dirty, err) :=
      tx_write_blocks inner (seqZ startBlock (endBlock - startBlock + 1)) dirty off p in
    match err with
    | Some e => (dirty, (0, Some e))
    | None => (dirty, (zlen p, None))
    end.
End tx_device.

(** ** [FileSystem] *)
Inductive fs_dev (D : Type) :=
  | Direct (device : D)
  | InTx (inner : D) (dirty : gmap Z (list byte)).
Arguments Direct {D} _.
Arguments InTx {D} _ _.

Record DirEntry2 := mkDirEntry2 {
  de_Inode : Z;
  de_RecLen : Z;
  de_NameLen : Z;
  de_FileType : Z;
  de_Name : list byte
}.

(** [Superblock] is the field [sb] ([None] for a nil pointer); the keys of
    [dirCache] are the [I_block] arrays of directories. *)
Record FileSystem (D : Type) := mkFileSystem {
  dev : fs_dev D;
  Superblock : option SuperBlock;
  Bgds : list GroupDescriptor;
  BlockSize : Z;
  InodeSize : Z;
  GroupCount : Z;
  DescSize : Z;
  dirCache : gmap (list byte) (list DirEntry2)
}.
Arguments mkFileSystem {D} _ _ _ _ _ _ _ _.
Arguments dev {D} _.
Arguments Superblock {D} _.
Arguments Bgds {D} _.
Arguments BlockSize {D} _.
Arguments InodeSize {D} _.
Arguments GroupCount {D} _.
Arguments DescSize {D} _.
Arguments dirCache {D} _.

Definition NewFileSystem {D} (device : D) : FileSystem D :=
  mkFileSystem (Direct device) None [] 0 0 0 0 ∅.

Section setters.
Context {D : Type}.
Implicit Types fs : FileSystem D.

Definition set_dev (v : fs_dev D) fs : FileSystem D :=
  mkFileSystem v (Superblock fs) (Bgds fs) (BlockSize fs) (InodeSize fs) (GroupCount fs) (DescSize fs) (dirCache fs).
Definition set_sb (v : SuperBlock) fs : FileSystem D :=
  mkFileSystem (dev fs) (Some v) (Bgds fs) (BlockSize fs) (InodeSize fs) (GroupCount fs) (DescSize fs) (dirCache fs).
Definition set_Bgds (v : list GroupDescriptor) fs : FileSystem D :=
  mkFileSystem (dev fs) (Superblock fs) v (BlockSize fs) (InodeSize fs) (GroupCount fs) (DescSize fs) (dirCache fs).
Definition set_dirCache (v : gmap (list byte) (list DirEntry2)) fs : FileSystem D :=
  mkFileSystem (dev fs) (Superblock fs) (Bgds fs) (BlockSize fs) (InodeSize fs) (GroupCount fs) (DescSize fs) v.
End setters.

(** Computations over the file system. *)
Abbreviation FS D := (M (FileSystem D)).

Section fs_device.
Context {D : Type} `{ReadWriterAt D}.

(** [buf := make([]byte, n); _, err := fs.dev.ReadAt(buf, off)] *)
Definition fs_ReadAt (off n : Z) : FS D (list byte) := fun fs =>
  let '(got, err) :=
    match dev fs with
    | Direct d => ReadAt d off n
    | InTx d dirty => Tx_ReadAt (BlockSize fs) d dirty off n
    end in
  match err with
  | Some e => (Err e, fs)
  | None => (Ok (put (zeros n) 0 got), fs)
  end.

(** [_, err := fs.dev.WriteAt(p, off)]; the division by a zero block size
    in [TxDevice.WriteAt] panics. *)
Definition fs_WriteAt (off : Z) (p : list byte) : FS D unit := fun fs =>
  match dev fs with
  | Direct d =>
      let '(d', (_, err)) := WriteAt d off p in
      (match err with Some e => Err e | None => Ok tt end, set_dev (Direct d') fs)
  | InTx d dirty =>
      if (BlockSize fs =? 0) && negb (zlen p =? 0) then (Panic, fs)
      else
        let '(dirty', (_, err)) := Tx_WriteAt (BlockSize fs) d dirty off p in
        (match err with Some e => Err e | None => Ok tt end, set_dev (InTx d dirty') fs)
  end.

(** [fs.sb] where the code dereferences it. *)
Definition deref_sb : FS D SuperBlock := fun fs =>
  match Superblock fs with
  | Some sb => (Ok sb, fs)
  | None => (Panic, fs)
  end.

(** [bgd := &fs.Bgds[groupIdx]] and the store through it. *)
Definition get_bgd (groupIdx : Z) : FS D GroupDescriptor :=
  fs <- get ;; lift (index (Bgds fs) groupIdx).
Definition put_bgd (groupIdx : Z) (bgd : GroupDescriptor) : FS D unit :=
  modify (fun fs => set_Bgds (<[Z.to_nat groupIdx := bgd]> (Bgds fs)) fs).

Definition GetSuperblock : FS D SuperBlock := fun fs =>
  match Superblock fs with
  | Some sb => (Ok sb, fs)
  | None => (Err (Errorf "superblock not read yet - call ReadSuperBlock first"), fs)
  end.

(** ** Transactions *)
Definition BeginTransaction : FS D unit :=
  modify (fun fs => match dev fs with
                    | Direct d => set_dev (InTx d ∅) fs
                    | InTx _ _ => fs
                    end).

Definition RollbackTransaction : FS D unit :=
  modify (fun fs => match dev fs with
                    | Direct _ => fs
                    | InTx d _ => set_dev (Direct d) fs
                    end).

(** The argument lists the map [dirty] in the order of its iteration. *)
Fixpoint writeDirtyBlocksDirectly (dirty : list (Z * list byte)) : FS D unit :=
  match dirty with
  | [] => mret tt
  | (blockNum, blockData) :: dirty' =>
      fs <- get ;;
      fs_WriteAt (i64 (w64 (blockNum * BlockSize fs))) blockData ;;
      writeDirtyBlocksDirectly dirty'
  end.
End fs_device.

(** ** Operations that only read

    They leave the file system as it is and do not look at the directory
    cache. *)
Section reads.
Context {D : Type} `{ReadWriterAt D} {env : Env}.
Implicit Types fs : FileSystem D.

Definition reads {A} (m : FS D A) : Prop :=
  forall fs, (m fs).2 = fs /\ forall c, m (set_dirCache c fs) = ((m fs).1, set_dirCache c fs).

Lemma reads_state {A} (m : FS D A) fs r fs' : reads m -> m fs = (r, fs') -> fs' = fs.
Proof. intros Hm E. destruct (Hm fs) as [E' _]. by rewrite E in E'. Qed.

Lemma reads_cache {A} (m : FS D A) fs r fs' c :
  reads m -> m fs = (r, fs') -> m (set_dirCache c fs) = (r, set_dirCache c fs).
Proof. intros Hm E. destruct (Hm fs) as [_ E']. by rewrite E', E. Qed.

Lemma reads_lift {A} (r : res A) : reads (lift r).
Proof. done. Qed.
Lemma reads_fail {A} e : reads (fail (A := A) e).
Proof. done. Qed.
Lemma reads_ret {A} (a : A) : reads (mret a).
Proof. done. Qed.

Lemma reads_bind {A B} (m : FS D A) (k : A -> FS D B) :
  reads m -> (forall a, reads (k a)) -> reads (mbind k m).
Proof.
  intros Hm Hk fs. unfold mbind, M_bind. destruct (Hm fs) as [E1 E2].
  destruct (m fs) as [r fs'] eqn:Em. cbn in E1. subst fs'. destruct r as [a|e| |].
  - destruct (Hk a fs) as [Ek1 Ek2]. split; [done|]. intros c. rewrite E2. cbn. by rewrite Ek2.
  - split; [done|]. intros c. by rewrite E2.
  - split; [done|]. intros c. by rewrite E2.
  - split; [done|]. intros c. by rewrite E2.
Qed.

Lemma reads_get {B} (k : FileSystem D -> FS D B) :
  (forall fs, reads (k fs)) -> (forall fs c, k (set_dirCache c fs) = k fs) -> reads (mbind k get).
Proof.
  intros Hk Hc fs. rewrite get_bind. destruct (Hk fs fs) as [E1 E2]. split; [done|]. intros c.
  rewrite get_bind, Hc. apply E2.
Qed.

Lemma reads_wrap {A} msg (m : FS D A) : reads m -> reads (wrap msg m).
Proof.
  intros Hm fs. unfold wrap. destruct (Hm fs) as [E1 E2]. destruct (m fs) as [r fs'] eqn:Em. cbn in E1. subst fs'.
  split; [by destruct r|]. intros c. rewrite E2. by destruct r.
Qed.

Lemma reads_forM {A B} (l : list A) (acc : B) (body : A -> B -> FS D B) :
  (forall x a, reads (body x a)) -> reads (forM l acc body).
Proof.
  intros Hb. revert acc. induction l as [|x l IH]; intros acc; [apply reads_ret|].
  cbn [forM]. apply reads_bind; [done|]. intros. apply IH.
Qed.

Lemma reads_forB {A B} (l : list A) (acc : B) (body : A -> B -> FS D (B + B)) :
  (forall x a, reads (body x a)) -> reads (forB l acc body).
Proof.
  intros Hb. revert acc. induction l as [|x l IH]; intros acc; [apply reads_ret|].
  cbn [forB]. apply reads_bind; [done|]. intros [a|a]; [apply IH|apply reads_ret].
Qed.

Lemma reads_ReadAt off n : reads (fs_ReadAt (D := D) off n).
Proof.
  intros fs. unfold fs_ReadAt. cbn [dev BlockSize set_dirCache].
  destruct (match dev fs with Direct _ => _ | InTx _ _ => _ end) as [got [e|]]; done.
Qed.

Lemma reads_deref_sb : reads (deref_sb (D := D)).
Proof. intros fs. unfold deref_sb. cbn [Superblock set_dirCache]. by destruct (Superblock fs). Qed.
End reads.

Create HintDb reads.
#[export] Hint Resolve reads_lift reads_fail reads_ret reads_ReadAt reads_deref_sb : reads.

(** Decompose a computation; conditionals and pattern matches split. *)
Ltac reads_tac :=
  repeat
    match goal with
    | |- reads (mbind _ get) => apply reads_get; [intros ?fs | intros; reflexivity]
    | |- reads (mbind _ _) => apply reads_bind; [ | intros ?]
    | |- reads (wrap _ _) => apply reads_wrap
    | |- reads (forM _ _ _) => apply reads_forM; intros ? ?
    | |- reads (forB _ _ _) => apply reads_forB; intros ? ?
    | |- reads (if ?b then _ else _) => destruct b
    | |- reads (match ?x with _ => _ end) => destruct x
    | |- reads (let _ := _ in _) => cbn zeta
    | |- reads _ => solve [auto with reads]
    end.

(** ** The transaction device is an overlay *)
Section overlay.
Context {D : Type} `{Device D}.
Variable bs : Z.

(** The bytes a reader of the transaction sees. *)
Definition overlay (c : list byte) (dirty : gmap Z (list byte)) : list byte :=
  imap (fun i x =>
    match dirty !! (Z.of_nat i / bs) with
    | Some b => default x (b !! Z.to_nat (Z.of_nat i mod bs))
    | None => x
    end) c.

Definition dirty_ok (c : list byte) (dirty : gmap Z (list byte)) : Prop :=
  forall k b, dirty !! k = Some b -> 0 <= k /\ zlen b = bs /\ (k + 1) * bs <= zlen c.

Lemma zlen_overlay c dirty : zlen (overlay c dirty) = zlen c.
Proof. unfold zlen, overlay. by rewrite length_imap. Qed.

Lemma lookup_overlay c dirty (i : nat) :
  overlay c dirty !! i =
  match dirty !! (Z.of_nat i / bs) with
  | Some b => x ← c !! i; Some (default x (b !! Z.to_nat (Z.of_nat i mod bs)))
  | None => c !! i
  end.
Proof.
  unfold overlay. rewrite list_lookup_imap. destruct (dirty !! _); destruct (c !! i); done.
Qed.

Lemma overlay_empty c : overlay c ∅ = c.
Proof. apply list_eq. intros i. rewrite lookup_overlay. by rewrite lookup_empty. Qed.

(** Position [i] of the device is byte [i mod bs] of block [i / bs]. *)
Lemma block_of_position k i : 0 < bs -> k * bs <= i < k * bs + bs -> i / bs = k /\ i mod bs = i - k * bs.
Proof.
  intros Hbs Hi. assert (E : i / bs = k) by (symmetry; apply (Z.div_unique _ _ _ (i - k * bs)); lia).
  split; [done|]. rewrite Z.mod_eq, E; lia.
Qed.

Lemma maxVal_max a b : maxVal a b = Z.max a b.
Proof. unfold maxVal. destruct (Z.ltb_spec b a); lia. Qed.
Lemma minVal_min a b : minVal a b = Z.min a b.
Proof. unfold minVal. destruct (Z.ltb_spec a b); lia. Qed.

Lemma lookup_overlay_block off p k b (i : nat) :
  0 < bs -> 0 <= off -> 0 <= k -> zlen b = bs ->
  tx_overlay_block bs off p (k, b) !! i =
    if decide ((off + Z.of_nat i) / bs = k /\ (i < length p)%nat)
    then b !! Z.to_nat ((off + Z.of_nat i) mod bs) else p !! i.
Proof.
  intros Hbs Ho Hk Hb. unfold tx_overlay_block. rewrite maxVal_max, minVal_min.
  pose proof (Z.div_mod (off + Z.of_nat i) bs ltac:(lia)) as Hdm.
  pose proof (Z.mod_pos_bound (off + Z.of_nat i) bs Hbs) as Hmod.
  destruct (Z.ltb_spec (Z.max off (k * bs)) (Z.min (off + zlen p) (k * bs + bs))).
  - rewrite lookup_put by lia. rewrite zlen_sub by lia. unfold zlen in *.
    case_decide as Hin; case_decide as Hblk; [|..].
    + rewrite lookup_sub by lia. rewrite decide_True by lia. f_equal. destruct Hblk as [<- _]. lia.
    + exfalso. apply Hblk. split; [|lia]. symmetry. apply (Z.div_unique _ _ _ (off + Z.of_nat i - k * bs)); lia.
    + exfalso. apply Hin. destruct Hblk as [<- ?]. lia.
    + done.
  - unfold zlen in *. case_decide as Hblk; [|done]. exfalso. destruct Hblk as [<- ?]. lia.
Qed.

Lemma length_overlay_block off p e : length (tx_overlay_block bs off p e) = length p.
Proof. unfold tx_overlay_block. destruct e. case_match; [apply length_put|done]. Qed.

Lemma lookup_overlay_fold off l p (i : nat) :
  0 < bs -> 0 <= off -> NoDup l.*1 -> (forall k b, (k, b) ∈ l -> 0 <= k /\ zlen b = bs) ->
  foldl (tx_overlay_block bs off) p l !! i =
    match list_to_map (M := gmap Z (list byte)) l !! ((off + Z.of_nat i) / bs) with
    | Some b => x ← p !! i; Some (default x (b !! Z.to_nat ((off + Z.of_nat i) mod bs)))
    | None => p !! i
    end.
Proof.
  intros Hbs Ho. revert p. induction l as [|[k b] l IH]; intros p Hnd Hl; cbn [foldl].
  { done. }
  apply NoDup_cons in Hnd as [Hk Hnd]. destruct (Hl k b) as [Hk0 Hb]; [by left|].
  rewrite IH; [|done|intros; apply Hl; by right].
  cbn [list_to_map foldr]. pose proof (Z.mod_pos_bound (off + Z.of_nat i) bs Hbs).
  rewrite lookup_overlay_block by done. destruct (decide ((off + Z.of_nat i) / bs = k)) as [E|E].
  - rewrite E. rewrite not_elem_of_list_to_map_1 by done. cbn. rewrite lookup_insert_eq.
    case_decide as Hd.
    + destruct (lookup_lt_is_Some_2 p i) as [x ->]; [tauto|]. cbn.
      destruct (lookup_lt_is_Some_2 b (Z.to_nat ((off + Z.of_nat i) mod bs))) as [y ->]; [|done].
      unfold zlen in Hb. lia.
    + rewrite lookup_ge_None_2 by (destruct (decide (i < length p)%nat); [tauto|lia]). done.
  - cbn. rewrite lookup_insert_ne by done. rewrite decide_False by tauto. done.
Qed.

Lemma overlay_read d c dirty off n :
  0 < bs -> dirty_ok c dirty -> dev_ok d -> dev_content d = c ->
  0 <= off -> 0 < n -> off + n <= zlen c ->
  Tx_ReadAt bs d dirty off n = (sub (overlay c dirty) off n, None).
Proof.
  intros Hbs Hdirty Hok <- Ho Hn Hb. unfold Tx_ReadAt. rewrite dev_read by done.
  f_equal. apply list_eq. intros i.
  rewrite lookup_overlay_fold; [|done|done|apply NoDup_fst_map_to_list|].
  - rewrite list_to_map_to_list, !lookup_sub by done. case_decide.
    + rewrite lookup_overlay, Z2Nat.id by lia. done.
    + by destruct (dirty !! _).
  - intros k b Hkb%elem_of_map_to_list. destruct (Hdirty k b Hkb) as (? & ? & _). done.
Qed.

(** The buffer of block [k] before the write: the dirty block or the block
    of the device. *)
Definition tx_block (c : list byte) (dirty : gmap Z (list byte)) (k : Z) : list byte :=
  match dirty !! k with Some b => b | None => sub c (k * bs) bs end.

Lemma tx_block_overlay c dirty k (j : nat) :
  0 < bs -> dirty_ok c dirty -> 0 <= k -> (k + 1) * bs <= zlen c -> Z.of_nat j < bs ->
  tx_block c dirty k !! j = overlay c dirty !! Z.to_nat (k * bs + Z.of_nat j).
Proof.
  intros Hbs Hdirty Hk Hfit Hj. rewrite lookup_overlay. unfold tx_block.
  destruct (block_of_position k (Z.of_nat (Z.to_nat (k * bs + Z.of_nat j)))) as [-> ->]; [done|lia|].
  destruct (dirty !! k) as [b|] eqn:E.
  - destruct (Hdirty k b E) as (_ & Hb & _).
    destruct (lookup_lt_is_Some_2 c (Z.to_nat (k * bs + Z.of_nat j))) as [x ->]; [unfold zlen in *; lia|].
    cbn. replace (Z.to_nat (Z.of_nat (Z.to_nat (k * bs + Z.of_nat j)) - k * bs)) with j by lia.
    destruct (lookup_lt_is_Some_2 b j) as [y ->]; [unfold zlen in *; lia|done].
  - rewrite lookup_sub by lia. by rewrite decide_True by lia.
Qed.

Lemma zlen_tx_block c dirty k :
  0 < bs -> dirty_ok c dirty -> 0 <= k -> (k + 1) * bs <= zlen c -> zlen (tx_block c dirty k) = bs.
Proof.
  intros Hbs Hdirty Hk Hfit. unfold tx_block. destruct (dirty !! k) eqn:E; [by apply (Hdirty k)|].
  apply zlen_sub; lia.
Qed.

Lemma tx_write_step c dirty k off p (i : nat) :
  0 < bs -> dirty_ok c dirty -> 0 <= k -> (k + 1) * bs <= zlen c -> 0 <= off ->
  let lo := Z.max off (k * bs) in
  let hi := Z.min (off + zlen p) (k * bs + bs) in
  let b' := put (tx_block c dirty k) (lo - k * bs) (sub p (lo - off) (hi - lo)) in
  zlen b' = bs /\
  overlay c (<[k := b']> dirty) !! i =
    if decide (Z.of_nat i / bs = k /\ off <= Z.of_nat i < off + zlen p)
    then p !! Z.to_nat (Z.of_nat i - off) else overlay c dirty !! i.
Proof.
  intros Hbs Hdirty Hk Hfit Ho lo hi b'.
  pose proof (zlen_tx_block c dirty k Hbs Hdirty Hk Hfit) as Hlen.
  split; [unfold b'; by rewrite zlen_put|].
  pose proof (Z.mod_pos_bound (Z.of_nat i) bs Hbs) as Hmod.
  pose proof (Z.div_mod (Z.of_nat i) bs ltac:(lia)) as Hdm.
  destruct (decide (Z.of_nat i / bs = k)) as [E|E].
  - rewrite lookup_overlay, E, lookup_insert_eq.
    assert (Hi : (i < length c)%nat) by (unfold zlen in *; rewrite E in Hdm; lia).
    destruct (lookup_lt_is_Some_2 c i Hi) as [x Hx].
    assert (Hb' : b' !! Z.to_nat (Z.of_nat i mod bs) =
      if decide (off <= Z.of_nat i < off + zlen p) then p !! Z.to_nat (Z.of_nat i - off) else overlay c dirty !! i).
    { unfold b'. rewrite lookup_put by lia.
      destruct (decide (off <= Z.of_nat i < off + zlen p)) as [Hin|Hout].
      - assert (Hz : zlen (sub p (lo - off) (hi - lo)) = hi - lo) by (apply zlen_sub; lia).
        rewrite Hz. rewrite decide_True by (unfold zlen in *; lia).
        rewrite lookup_sub by lia. rewrite decide_True by lia. f_equal. lia.
      - destruct (decide (lo < hi)) as [Hlt|Hge].
        + assert (Hz : zlen (sub p (lo - off) (hi - lo)) = hi - lo) by (apply zlen_sub; lia).
          rewrite Hz, decide_False by lia. rewrite tx_block_overlay by (done || lia). f_equal. lia.
        + assert (Hz : sub p (lo - off) (hi - lo) = []).
          { unfold sub. replace (Z.to_nat (hi - lo)) with 0%nat by lia. done. }
          rewrite Hz, decide_False by (change (@zlen byte []) with 0; lia).
          rewrite tx_block_overlay by (done || lia). f_equal. lia. }
    rewrite Hb', Hx. cbn.
    destruct (decide (off <= Z.of_nat i < off + zlen p)) as [Hin|Hout].
    + rewrite decide_True by tauto.
      destruct (lookup_lt_is_Some_2 p (Z.to_nat (Z.of_nat i - off))) as [y ->]; [unfold zlen in *; lia|done].
    + rewrite decide_False by tauto.
      destruct (lookup_lt_is_Some_2 (overlay c dirty) i) as [y ->]; [|done].
      unfold overlay. by rewrite length_imap.
  - rewrite decide_False by tauto. rewrite !lookup_overlay. by rewrite lookup_insert_ne by done.
Qed.

Lemma tx_write_blocks_spec d c blocks dirty off p :
  0 < bs -> dev_ok d -> dev_content d = c -> dirty_ok c dirty -> 0 <= off ->
  Forall (fun k => 0 <= k /\ (k + 1) * bs <= zlen c) blocks ->
  exists dirty', tx_write_blocks bs d blocks dirty off p = (dirty', None) /\ dirty_ok c dirty' /\
    forall i : nat, overlay c dirty' !! i =
      if decide (Z.of_nat i / bs ∈ blocks /\ off <= Z.of_nat i < off + zlen p)
      then p !! Z.to_nat (Z.of_nat i - off) else overlay c dirty !! i.
Proof.
  intros Hbs Hok Hc Hdirty Ho Hblocks. revert dirty Hdirty.
  induction Hblocks as [|k blocks [Hk Hfit] Hblocks IH]; intros dirty Hdirty; cbn [tx_write_blocks].
  { exists dirty. split; [done|]. split; [done|]. intros i. rewrite decide_False; [done|].
    intros [?%not_elem_of_nil _]. done. }
  assert (Hload : match dirty !! k with
    | Some blockData => inl blockData
    | None =>
        let '(got, err) := ReadAt d (k * bs) bs in
        match err with
        | Some e => if bool_decide (e <> Sentinel io_EOF) then inr e else inl (put (zeros bs) 0 got)
        | None => inl (put (zeros bs) 0 got)
        end
    end = inl (B := error) (tx_block c dirty k)).
  { unfold tx_block. destruct (dirty !! k); [done|]. rewrite dev_read by (rewrite ?Hc; done || nia).
    rewrite Hc, put_all; [done|]. rewrite zlen_zeros, zlen_sub; nia. }
  rewrite Hload. rewrite maxVal_max, minVal_min.
  destruct (tx_write_step c dirty k off p 0 Hbs Hdirty Hk Hfit Ho) as [Hlen _].
  set (b' := put _ _ _) in *.
  destruct (IH (<[k := b']> dirty)) as (dirty' & -> & Hd' & Hov).
  { intros k' b Hb. apply lookup_insert_Some in Hb as [[<- <-]|[_ Hb]]; [done|]. by apply Hdirty. }
  exists dirty'. split; [done|]. split; [done|]. intros i. rewrite Hov.
  destruct (tx_write_step c dirty k off p i Hbs Hdirty Hk Hfit Ho) as [_ Hstep]. fold b' in Hstep.
  rewrite Hstep. repeat case_decide; try done; rewrite elem_of_cons in *; tauto.
Qed.

Lemma overlay_write d c dirty off p :
  0 < bs -> (bs | zlen c) -> dirty_ok c dirty -> dev_ok d -> dev_content d = c ->
  0 <= off < zlen c -> off + zlen p <= zlen c < 2 ^ 63 ->
  exists dirty', Tx_WriteAt bs d dirty off p = (dirty', (zlen p, None)) /\
    dirty_ok c dirty' /\ overlay c dirty' = put (overlay c dirty) off p.
Proof.
  intros Hbs [q Hq] Hdirty Hok Hc Ho Hfit. unfold Tx_WriteAt.
  destruct (Z.eqb_spec (zlen p) 0) as [Hp|Hp].
  { destruct p; [|done]. exists dirty. by rewrite put_nil. }
  assert (Hpos : 0 < zlen p) by (pose proof (zlen_nonneg p); lia).
  rewrite !Z.quot_div_nonneg by lia.
  assert (Hq1 : 0 <= off / bs) by (apply Z.div_pos; lia).
  assert (Hq2 : (off + zlen p - 1) / bs < q) by (apply Z.div_lt_upper_bound; lia).
  assert (Hq3 : off / bs <= (off + zlen p - 1) / bs) by (apply Z.div_le_mono; lia).
  assert (q * 1 <= q * bs) by (apply Z.mul_le_mono_nonneg_l; lia).
  rewrite !w64_id by lia. set (blocks := seqZ _ _).
  destruct (tx_write_blocks_spec d c blocks dirty off p) as (dirty' & -> & Hd' & Hov); try done; [lia| |].
  { apply Forall_forall. intros k Hk%elem_of_seqZ. nia. }
  exists dirty'. split; [done|]. split; [done|]. apply list_eq. intros i. rewrite Hov, lookup_put by lia.
  assert (Hl : length (overlay c dirty) = length c) by (pose proof (zlen_overlay c dirty); unfold zlen in *; lia).
  rewrite Hl. case_decide as E1; case_decide as E2; try done.
  - f_equal. lia.
  - exfalso. apply E2. unfold zlen in *. lia.
  - exfalso. apply E1. split; [|lia]. apply elem_of_seqZ.
    assert (off / bs <= Z.of_nat i / bs <= (off + zlen p - 1) / bs) by (split; apply Z.div_le_mono; lia).
    lia.
Qed.
End overlay.

(** ** The file system as an array of bytes

    What the operations below rely on: [fs.dev] answers in-range requests
    from [fs_content], and a write changes nothing of the object but
    [fs.dev]. *)
Section fs_contract.
Context {D : Type} `{Device D}.
Implicit Types fs : FileSystem D.

Definition dev_view (bs : Z) (v : fs_dev D) : list byte :=
  match v with
  | Direct d => dev_content d
  | InTx d dirty => overlay bs (dev_content d) dirty
  end.

Definition dev_view_ok (bs : Z) (v : fs_dev D) : Prop :=
  match v with
  | Direct d => dev_ok d
  | InTx d dirty => dev_ok d /\ dirty_ok bs (dev_content d) dirty
  end.

Definition fs_content fs : list byte := dev_view (BlockSize fs) (dev fs).

Definition fs_ok fs : Prop :=
  0 < BlockSize fs /\ (BlockSize fs | zlen (fs_content fs)) /\ zlen (fs_content fs) < 2 ^ 63 /\
  dev_view_ok (BlockSize fs) (dev fs).

(** The device under a transaction; a write never changes it. *)
Definition tx_inner (v : fs_dev D) : option D :=
  match v with Direct _ => None | InTx d _ => Some d end.

Lemma fs_read fs off n :
  fs_ok fs -> 0 <= off -> 0 < n -> off + n <= zlen (fs_content fs) ->
  fs_ReadAt off n fs = (Ok (sub (fs_content fs) off n), fs).
Proof.
  intros (Hbs & _ & _ & Hok) Ho Hn Hfit. unfold fs_ReadAt, fs_content in *.
  destruct (dev fs) as [d|d dirty]; cbn [dev_view dev_view_ok] in *.
  - rewrite dev_read by done. rewrite put_all; [done|]. rewrite zlen_zeros, zlen_sub; lia.
  - destruct Hok as [Hd Hdirty]. rewrite zlen_overlay in Hfit.
    rewrite (overlay_read _ _ (dev_content d)) by done. rewrite put_all; [done|].
    rewrite zlen_zeros, zlen_sub; rewrite ?zlen_overlay; lia.
Qed.

Lemma fs_write fs off p :
  fs_ok fs -> 0 <= off < zlen (fs_content fs) -> off + zlen p <= zlen (fs_content fs) ->
  exists v, fs_WriteAt off p fs = (Ok tt, set_dev v fs) /\ fs_ok (set_dev v fs) /\
    fs_content (set_dev v fs) = put (fs_content fs) off p /\ tx_inner v = tx_inner (dev fs).
Proof.
  intros (Hbs & Hdiv & Hmax & Hok) Ho Hfit. unfold fs_WriteAt, fs_ok, fs_content in *.
  destruct (dev fs) as [d|d dirty]; cbn [dev_view dev_view_ok] in *.
  - destruct (dev_write d off p) as (d' & -> & Hd' & Hc'); [done..|].
    exists (Direct d'). cbn. rewrite Hc', zlen_put. done.
  - destruct Hok as [Hd Hdirty]. rewrite zlen_overlay in *.
    destruct (overlay_write (BlockSize fs) d (dev_content d) dirty off p) as (dirty' & E & Hd' & Hc'); try done.
    rewrite (proj2 (Z.eqb_neq _ 0)), E by lia. cbn [andb].
    exists (InTx d dirty'). cbn. rewrite Hc', zlen_put, zlen_overlay. done.
Qed.

(** The contract does not look at the other fields. *)
Lemma fs_ok_ext fs fs' :
  dev fs' = dev fs -> BlockSize fs' = BlockSize fs -> fs_ok fs -> fs_ok fs' /\ fs_content fs' = fs_content fs.
Proof. unfold fs_ok, fs_content. by intros -> ->. Qed.

(** C20: A transaction is isolated from the device: a write inside it
    succeeds, is seen by every later read of the transaction and leaves the
    device as it was, so rolling back gives back the file system as it was
    before [BeginTransaction]. *)
Theorem transaction_isolated fs off p :
  fs_ok fs -> (exists d, dev fs = Direct d) ->
  0 <= off < zlen (fs_content fs) -> off + zlen p <= zlen (fs_content fs) ->
  exists fs1,
    (BeginTransaction ;; fs_WriteAt off p) fs = (Ok tt, fs1) /\
    (forall o n, 0 <= o -> 0 < n -> o + n <= zlen (fs_content fs) ->
       fs_ReadAt o n fs1 = (Ok (sub (put (fs_content fs) off p) o n), fs1)) /\
    RollbackTransaction fs1 = (Ok tt, fs).
Proof.
  intros Hok [d Hd] Ho Hfit.
  assert (Hbegin : BeginTransaction fs = (Ok tt, set_dev (InTx d ∅) fs)).
  { unfold BeginTransaction, modify. by rewrite Hd. }
  assert (Hok1 : fs_ok (set_dev (InTx d ∅) fs) /\ fs_content (set_dev (InTx d ∅) fs) = fs_content fs).
  { unfold fs_ok, fs_content in *. rewrite Hd in *. cbn in *. rewrite overlay_empty.
    destruct Hok as (? & ? & ? & ?). repeat split; try done; unfold dirty_ok in *; by intros. }
  destruct Hok1 as [Hok1 Hc1]. rewrite <- Hc1 in Ho, Hfit.
  destruct (fs_write _ off p Hok1 Ho Hfit) as (v & Hw & Hok2 & Hc2 & Hin).
  rewrite (bind_ok _ _ _ _ _ Hbegin), Hw. eexists. split; [done|]. split.
  - intros o n Ho' Hn' Hfit'. rewrite fs_read; rewrite ?Hc2, ?zlen_put, ?Hc1; done.
  - unfold RollbackTransaction, modify. do 2 f_equal. destruct v as [|d' dirty']; [done|].
    injection Hin as ->. destruct fs. cbn in *. by subst.
Qed.

(** Writing back: each dirty block replaces its block of the device. *)
Definition apply_blocks (bs : Z) (c : list byte) (l : list (Z * list byte)) : list byte :=
  foldl (fun c '(k, b) => put c (k * bs) b) c l.

Lemma zlen_apply_blocks bs c l : zlen (apply_blocks bs c l) = zlen c.
Proof.
  revert c. induction l as [|[k b] l IH]; intros c; [done|].
  unfold apply_blocks in *. cbn [foldl]. rewrite IH. apply zlen_put.
Qed.

Lemma lookup_apply_blocks bs c l (i : nat) :
  0 < bs -> NoDup l.*1 ->
  (forall k b, (k, b) ∈ l -> 0 <= k /\ zlen b = bs /\ (k + 1) * bs <= zlen c) ->
  apply_blocks bs c l !! i =
    match list_to_map (M := gmap Z (list byte)) l !! (Z.of_nat i / bs) with
    | Some b => x ← c !! i; Some (default x (b !! Z.to_nat (Z.of_nat i mod bs)))
    | None => c !! i
    end.
Proof.
  intros Hbs. revert c. induction l as [|[k b] l IH]; intros c Hnd Hl; [done|].
  apply NoDup_cons in Hnd as [Hk Hnd]. destruct (Hl k b) as (Hk0 & Hb & Hfit); [by left|].
  cbn [apply_blocks foldl]. fold (apply_blocks bs (put c (k * bs) b) l).
  rewrite IH; [|done|intros k' b' Hin; rewrite zlen_put; apply Hl; by right].
  cbn [list_to_map foldr]. rewrite lookup_put by nia.
  pose proof (Z.div_mod (Z.of_nat i) bs ltac:(lia)) as Hdm.
  pose proof (Z.mod_pos_bound (Z.of_nat i) bs Hbs) as Hmod.
  destruct (decide (Z.of_nat i / bs = k)) as [E|E].
  - rewrite E. rewrite not_elem_of_list_to_map_1 by done. cbn. rewrite lookup_insert_eq.
    assert (Hi : (i < length c)%nat) by (unfold zlen in *; nia).
    rewrite decide_True by (rewrite Hb; nia).
    destruct (lookup_lt_is_Some_2 c i Hi) as [x ->]. cbn.
    replace (i - Z.to_nat (k * bs))%nat with (Z.to_nat (Z.of_nat i mod bs)) by nia.
    destruct (lookup_lt_is_Some_2 b (Z.to_nat (Z.of_nat i mod bs))) as [y ->]; [unfold zlen in *; lia|done].
  - cbn. rewrite lookup_insert_ne by done. rewrite decide_False; [done|].
    rewrite Hb. intros [Hi _]. apply E. symmetry.
    apply (Z.div_unique _ _ _ (Z.of_nat i - k * bs)); lia.
Qed.

Lemma apply_blocks_overlay bs c dirty l :
  0 < bs -> dirty_ok bs c dirty -> l ≡ₚ map_to_list dirty -> apply_blocks bs c l = overlay bs c dirty.
Proof.
  intros Hbs Hdirty Hl.
  assert (Hnd : NoDup l.*1) by (rewrite Hl; apply NoDup_fst_map_to_list).
  apply list_eq. intros i. rewrite lookup_apply_blocks, lookup_overlay; [|done|done|].
  - by rewrite (list_to_map_proper l (map_to_list dirty)), list_to_map_to_list.
  - intros k b Hkb. rewrite Hl in Hkb. apply elem_of_map_to_list in Hkb. by apply Hdirty.
Qed.

Lemma writeDirtyBlocksDirectly_ok fs l :
  fs_ok fs ->
  (forall k b, (k, b) ∈ l -> 0 <= k /\ zlen b = BlockSize fs /\ (k + 1) * BlockSize fs <= zlen (fs_content fs)) ->
  exists v, writeDirtyBlocksDirectly l fs = (Ok tt, set_dev v fs) /\ fs_ok (set_dev v fs) /\
    fs_content (set_dev v fs) = apply_blocks (BlockSize fs) (fs_content fs) l /\
    tx_inner v = tx_inner (dev fs).
Proof.
  revert fs. induction l as [|[k b] l IH]; intros fs Hok Hl.
  { exists (dev fs). by destruct fs. }
  destruct (Hl k b) as (Hk & Hb & Hfit); [by left|].
  pose proof Hok as (Hbs & _ & Hmax & _).
  destruct (fs_write fs (k * BlockSize fs) b) as (v & Hw & Hok' & Hc' & Hin); [done|nia|nia|].
  cbn [writeDirtyBlocksDirectly]. rewrite get_bind.
  rewrite (w64_id (k * _)), i64_id by nia. rewrite (bind_ok _ _ _ _ _ Hw).
  destruct (IH (set_dev v fs) Hok') as (v' & -> & Hok2 & Hc2 & Hin2).
  { intros k' b' Hkb. rewrite Hc', zlen_put. apply Hl. by right. }
  exists v'. split; [done|]. split; [done|]. split; [|by rewrite <- Hin].
  rewrite Hc' in Hc2. exact Hc2.
Qed.

(** C21: Writing the dirty blocks back makes the device exactly what the
    transaction saw, in whatever order the map is iterated. *)
Theorem writeback_is_overlay fs d dirty order :
  fs_ok fs -> dev fs = InTx d dirty -> order ≡ₚ map_to_list dirty ->
  exists d', writeDirtyBlocksDirectly order (set_dev (Direct d) fs) = (Ok tt, set_dev (Direct d') fs) /\
    dev_content d' = fs_content fs.
Proof.
  intros Hok Hd Horder. unfold fs_ok, fs_content in *. rewrite Hd in *. cbn [dev_view dev_view_ok] in *.
  destruct Hok as (Hbs & Hdiv & Hmax & Hdok & Hdirty). rewrite zlen_overlay in *.
  destruct (writeDirtyBlocksDirectly_ok (set_dev (Direct d) fs) order) as (v & Hw & Hok' & Hc' & Hin).
  - unfold fs_ok, fs_content. done.
  - intros k b Hkb. rewrite Horder in Hkb. apply elem_of_map_to_list in Hkb. by apply Hdirty.
  - rewrite Hw. destruct v as [d'|]; [|done]. exists d'. split; [done|].
    rewrite <- (apply_blocks_overlay _ _ dirty order) by done. exact Hc'.
Qed.
End fs_contract.

Definition ex_fs : FileSystem File := mkFileSystem (Direct (mkFile (zeros 64))) None [] 16 0 0 0 ∅.

Lemma ex_fs_ok : fs_ok ex_fs.
Proof.
  split; [done|]. split; [by exists 4|]. by split.
Qed.

Lemma transaction_isolated_witness :
  exists fs1, (BeginTransaction ;; fs_WriteAt 20 [Byte.x01; Byte.x02]) ex_fs = (Ok tt, fs1) /\
    RollbackTransaction fs1 = (Ok tt, ex_fs).
Proof.
  destruct (transaction_isolated ex_fs 20 [Byte.x01; Byte.x02]) as (fs1 & E & _ & R).
  - apply ex_fs_ok.
  - by eexists.
  - vm_compute. done.
  - vm_compute. done.
  - exists fs1. split; [exact E|exact R].
Defined.

Lemma writeback_is_overlay_witness :
  exists d', writeDirtyBlocksDirectly [(2, replicate 16 Byte.x07)] ex_fs = (Ok tt, set_dev (Direct d') ex_fs) /\
    f_data d' = zeros 32 ++ replicate 16 Byte.x07 ++ zeros 16.
Proof.
  set (dirty := {[ 2 := replicate 16 Byte.x07 ]} : gmap Z (list byte)).
  set (d := mkFile (zeros 64)).
  destruct (writeback_is_overlay (set_dev (InTx d dirty) ex_fs) d dirty [(2, replicate 16 Byte.x07)])
    as (d' & E & Hc).
  - split; [done|]. split; [by exists 4|]. split; [done|]. split; [done|].
    intros k b [<- <-]%lookup_singleton_Some. done.
  - done.
  - unfold dirty. by rewrite map_to_list_singleton.
  - exists d'. split; [exact E|]. etransitivity; [exact Hc|]. vm_compute. reflexivity.
Defined.
