(* ===== verification/Meta.v ===== *)
(** Reading and writing the metadata structures: superblock
    ([src/vfs/super.go], [src/vfs/reclaim.go]), group descriptors
    ([src/vfs/bgdesc.go], [src/vfs/allocate.go]) and inodes
    ([src/vfs/inodes.go], [src/vfs/allocate.go], [src/vfs/xattr.go]).

    Messages of [log.Printf] are not modelled. *)
From S2P Require Export Core.

Definition MaxInt64 : Z := 2 ^ 63 - 1.

(** [uint64(lo) | uint64(hi) << 32] when the descriptors are 64 bytes. *)
Definition lo_hi (descSize lo hi : Z) : Z :=
  if 32 <? descSize then Z.lor lo (Z.shiftl hi 32) else lo.

Section metadata.
Context {D : Type} `{ReadWriterAt D} `{Env}.

(** ** Superblock *)
Definition decodeSuperBlock (data : list byte) : res SuperBlock :=
  match binary_Read (A := SuperBlock) data with
  | Ok sb =>
      if S_magic sb =? MAGIC_NUMBER then Ok sb
      else Err (Errorf "invalid ext4 magic number: expected 0x%X, got 0x%X")
  | Err e => Err (Wrapf "failed to parse superblock binary data: %w" e)
  | r => r
  end.

Definition ReadSuperBlock : FS D SuperBlock :=
  buf <- wrap "failed to read superblock from device: %w" (fs_ReadAt SUPERBLOCK_OFFSET 1024) ;;
  sb <- lift (decodeSuperBlock buf) ;;
  modify (fun fs => mkFileSystem (dev fs) (Superblock fs) (Bgds fs) (SuperBlock_BlockSize sb)
                      (SuperBlock_InodeSize sb) (GroupCount fs) (DescSize fs) (dirCache fs)) ;;
  groups <- lift (BlockGroupCount sb) ;;
  modify (fun fs => mkFileSystem (dev fs) (Some sb) (Bgds fs) (BlockSize fs)
                      (InodeSize fs) groups (GroupDescriptorSize sb) (dirCache fs)) ;;
  mret sb.

Definition writeSuperBlock : FS D unit :=
  fs <- get ;;
  match Superblock fs with
  | None => mret tt
  | Some sb =>
      let raw := binary_Write sb in
      let raw := if 1024 <? zlen raw then sub raw 0 1024 else raw in
      catch (fs_WriteAt SUPERBLOCK_OFFSET raw) ;;
      mret tt
  end.

Definition WriteSuperBlockPublic : FS D unit := writeSuperBlock.

Definition updateSuperblockFreeBlocks (delta : Z) : FS D unit :=
  sb <- deref_sb ;;
  let total := S_free_blocks_count_lo sb + delta in
  let total := if total <? 0 then 0 else total in
  modify (set_sb (set_S_free_blocks_count_lo (w32 total) sb)) ;;
  writeSuperBlock.

Definition updateSuperblockFreeInodes (delta : Z) : FS D unit :=
  sb <- deref_sb ;;
  let total := S_free_inodes_count sb + delta in
  let total := if total <? 0 then 0 else total in
  modify (set_sb (set_S_free_inodes_count (w32 total) sb)) ;;
  writeSuperBlock.

Definition ClearSuperblockErrors : FS D unit :=
  fs <- get ;;
  match Superblock fs with
  | None => mret tt
  | Some sb => modify (set_sb (set_S_state SUPERBLOCK_STATE_CLEAN sb)) ;; writeSuperBlock
  end.

(** ** Group descriptors *)
Definition descTableStart (sb : SuperBlock) : Z :=
  if SuperBlock_BlockSize sb =? 1024 then 2048 else SuperBlock_BlockSize sb.

Definition ReadGroupDescriptor (groupNum : Z) : FS D GroupDescriptor :=
  fs <- get ;;
  match Superblock fs with
  | None => fail (Errorf "failed to read superblock")
  | Some sb =>
      groups <- lift (BlockGroupCount sb) ;;
      if groups <=? groupNum
      then fail (Errorf "group number %d out of range (total groups: %d)")
      else
        let descSize := GroupDescriptorSize sb in
        let descOffset := w64 (descTableStart sb + w64 (groupNum * descSize)) in
        if MaxInt64 <? descOffset then fail (Errorf "descriptor offset %d overflows int64")
        else
          buf <- wrap "failed to read group descriptor: %w" (fs_ReadAt descOffset descSize) ;;
          wrap "failed to decode group descriptor: %w" (lift (binary_Read (A := GroupDescriptor) buf))
  end.

Definition ReadGroupDescriptors : FS D unit :=
  fs <- get ;;
  match Superblock fs with
  | None => fail (Errorf "superblock not read yet")
  | Some sb =>
      groups <- lift (BlockGroupCount sb) ;;
      forM (seqZ 0 groups) tt (fun i _ =>
        gd <- ReadGroupDescriptor i ;;
        modify (fun fs => set_Bgds (Bgds fs ++ [gd]) fs))
  end.

Definition WriteGroupDescriptor (groupNum : Z) (bgd : GroupDescriptor) : FS D unit :=
  sb <- deref_sb ;;
  let descSize := GroupDescriptorSize sb in
  let descOffset := i64 (i64 (descTableStart sb) + groupNum * descSize) in
  let raw := binary_Write bgd in
  let raw := if descSize <? zlen raw then sub raw 0 descSize else raw in
  wrap "WriteGroupDescriptor: failed to write descriptor %d: %w" (fs_WriteAt descOffset raw).

(** ** Inodes *)

(** [(inodeNum - 1) / S_inodes_per_group] and the remainder. *)
Definition inode_position (inodeNum : Z) : FS D (Z * Z) :=
  sb <- deref_sb ;;
  if S_inodes_per_group sb =? 0 then lift Panic
  else mret ((inodeNum - 1) / S_inodes_per_group sb, (inodeNum - 1) mod S_inodes_per_group sb).

Definition ReadInode (inodeNum : Z) : FS D Inode :=
  if inodeNum <? 1 then fail (Errorf "invalid inode number: %d (inodes start at 1)")
  else
    let! (groupIndex, localInodeIndex) := inode_position inodeNum in
    fs <- get ;;
    if GroupCount fs <=? groupIndex
    then fail (Errorf "inode %d belongs to group %d, but we only have %d groups")
    else
      bgd <- get_bgd groupIndex ;;
      if BG_inode_table_lo bgd =? 0 then fail (Errorf "inode table not found in group %d")
      else
        let tableBlock := lo_hi (DescSize fs) (BG_inode_table_lo bgd) (BG_inode_table_hi bgd) in
        let offset := w64 (w64 (tableBlock * BlockSize fs) + w64 (localInodeIndex * InodeSize fs)) in
        if MaxInt64 <? offset then fail (Errorf "inode offset %d overflows int64")
        else
          buf <- wrap "failed to read inode %d at offset %d: %w" (fs_ReadAt offset (InodeSize fs)) ;;
          wrap "failed to decode inode %d: %w" (lift (binary_Read (A := Inode) buf)).

Definition ReadRootInode : FS D Inode := ReadInode RootInodeNum.

Definition WriteInode (inodeNum : Z) (inode : Inode) : FS D unit :=
  if inodeNum <? 1 then fail (Errorf "WriteInode: invalid inode number: %d")
  else
    let! (groupIndex, localInodeIndex) := inode_position inodeNum in
    fs <- get ;;
    if GroupCount fs <=? groupIndex
    then fail (Errorf "WriteInode: inode %d group %d out of range")
    else
      bgd <- get_bgd groupIndex ;;
      let tableBlock := lo_hi (DescSize fs) (BG_inode_table_lo bgd) (BG_inode_table_hi bgd) in
      let offset := i64 (i64 (w64 (tableBlock * BlockSize fs)) + localInodeIndex * InodeSize fs) in
      raw <- wrap "WriteInode: failed to read current inode %d data: %w" (fs_ReadAt offset (InodeSize fs)) ;;
      let inodeBytes := binary_Write inode in
      let inodeBytes := if InodeSize fs <? zlen inodeBytes then sub inodeBytes 0 (InodeSize fs) else inodeBytes in
      wrap "WriteInode: failed to write inode %d: %w" (fs_WriteAt offset (put raw 0 inodeBytes)).

Definition ReadRawInode (inodeNum : Z) : FS D (list byte) :=
  if inodeNum <? 1 then fail (Errorf "invalid inode number: %d")
  else
    let! (groupIndex, localInodeIndex) := inode_position inodeNum in
    fs <- get ;;
    if GroupCount fs <=? groupIndex then fail (Errorf "inode %d group out of range")
    else
      bgd <- get_bgd groupIndex ;;
      let tableBlock := lo_hi (DescSize fs) (BG_inode_table_lo bgd) (BG_inode_table_hi bgd) in
      let offset := w64 (w64 (tableBlock * BlockSize fs) + w64 (localInodeIndex * InodeSize fs)) in
      fs_ReadAt (i64 offset) (InodeSize fs).

Definition WriteRawInode (inodeNum : Z) (buf : list byte) : FS D unit :=
  if inodeNum <? 1 then fail (Errorf "invalid inode number: %d")
  else
    let! (groupIndex, localInodeIndex) := inode_position inodeNum in
    fs <- get ;;
    if GroupCount fs <=? groupIndex then fail (Errorf "inode %d group out of range")
    else
      bgd <- get_bgd groupIndex ;;
      let tableBlock := lo_hi (DescSize fs) (BG_inode_table_lo bgd) (BG_inode_table_hi bgd) in
      let offset := w64 (w64 (tableBlock * BlockSize fs) + w64 (localInodeIndex * InodeSize fs)) in
      fs_WriteAt (i64 offset) buf.

Definition InitExtentHeader (inode : Inode) : Inode :=
  let hdr := mkExtentHeader EXT4_EXT_MAGIC 0 4 0 0 in
  set_I_flags (Z.lor (I_flags inode) EXT4_EXTENTS_FL)
    (set_I_block (put (I_block inode) 0 (binary_Write hdr)) inode).

(** The zero value of [Inode] with the fields that [InitNewInode] sets. *)
Definition new_inode (mode : Z) : Inode :=
  let t := w32 now in
  mkInode mode 0 0 t t t 0 0 1 0 0 0 (zeros 60) 0 0 0 0 0 0 0 0 0 0 0 0 0 0 0 0 0 0 0.

Definition InitNewInode (inodeNum mode : Z) : FS D Inode :=
  let inode := InitExtentHeader (new_inode mode) in
  wrap "InitNewInode: %w" (WriteInode inodeNum inode) ;;
  mret inode.

Definition WriteBlock (blockNum : Z) (data : list byte) : FS D unit :=
  fs <- get ;;
  let data := if BlockSize fs <? zlen data then sub data 0 (BlockSize fs) else data in
  fs_WriteAt (i64 (w64 (blockNum * BlockSize fs))) data.
End metadata.

(** ** Structures on the device

    [inode_at fs n off]: inode [n] has its place at byte [off], inside its
    group and inside the device. *)
Section metadata_laws.
Context {D : Type} `{Device D}.
Implicit Types fs : FileSystem D.

Definition inode_at fs (n off : Z) : Prop :=
  exists sb bgd,
    Superblock fs = Some sb /\ 1 <= n < 2 ^ 32 /\ 0 < S_inodes_per_group sb /\
    (n - 1) / S_inodes_per_group sb < GroupCount fs /\
    Bgds fs !! Z.to_nat ((n - 1) / S_inodes_per_group sb) = Some bgd /\
    BG_inode_table_lo bgd <> 0 /\
    0 <= lo_hi (DescSize fs) (BG_inode_table_lo bgd) (BG_inode_table_hi bgd) /\
    off = lo_hi (DescSize fs) (BG_inode_table_lo bgd) (BG_inode_table_hi bgd) * BlockSize fs +
          ((n - 1) mod S_inodes_per_group sb) * InodeSize fs /\
    160 <= InodeSize fs /\ off + InodeSize fs <= zlen (fs_content fs).

Lemma inode_at_range fs n off : fs_ok fs -> inode_at fs n off -> 0 <= off < 2 ^ 63 - 160.
Proof.
  intros (Hbs & _ & Hmax & _) (sb & bgd & _ & Hn & Hipg & _ & _ & _ & Htab & -> & Hisz & Hfit).
  pose proof (Z.mod_pos_bound (n - 1) (S_inodes_per_group sb) Hipg).
  assert (0 <= (n - 1) mod S_inodes_per_group sb * InodeSize fs) by (apply Z.mul_nonneg_nonneg; lia).
  assert (0 <= lo_hi (DescSize fs) (BG_inode_table_lo bgd) (BG_inode_table_hi bgd) * BlockSize fs)
    by (apply Z.mul_nonneg_nonneg; lia).
  lia.
Qed.

(** Setting the device keeps the place of every inode. *)
Lemma inode_at_dev fs v n off :
  zlen (fs_content (set_dev v fs)) = zlen (fs_content fs) -> inode_at fs n off -> inode_at (set_dev v fs) n off.
Proof.
  intros Hlen (sb & bgd & Hat). exists sb, bgd. cbn [Superblock set_dev GroupCount Bgds DescSize BlockSize InodeSize].
  by rewrite Hlen.
Qed.

Lemma inode_position_ok fs sb n :
  Superblock fs = Some sb -> 0 < S_inodes_per_group sb ->
  inode_position n fs = (Ok ((n - 1) / S_inodes_per_group sb, (n - 1) mod S_inodes_per_group sb), fs).
Proof.
  intros Hsb Hipg. unfold inode_position, deref_sb, mbind, M_bind. rewrite Hsb.
  by rewrite (proj2 (Z.eqb_neq _ 0)) by lia.
Qed.

Lemma get_bgd_ok fs g bgd : 0 <= g -> Bgds fs !! Z.to_nat g = Some bgd -> get_bgd g fs = (Ok bgd, fs).
Proof.
  intros Hg Hb. unfold get_bgd, get, lift, mbind, M_bind. by rewrite (index_lookup _ _ bgd).
Qed.

(** The reading operations leave the file system as it is. *)
Lemma inode_position_state n fs : (inode_position n fs).2 = fs.
Proof.
  unfold inode_position, deref_sb, mbind, M_bind. destruct (Superblock fs); [|done].
  by destruct (_ =? _).
Qed.

Lemma get_bgd_state g fs : (get_bgd g fs).2 = fs.
Proof. done. Qed.

Lemma fs_ReadAt_state off n fs r fs' : fs_ReadAt off n fs = (r, fs') -> fs' = fs /\ (0 <= n -> forall buf, r = Ok buf -> zlen buf = n).
Proof.
  unfold fs_ReadAt. set (x := match dev fs with Direct _ => _ | InTx _ _ => _ end).
  destruct x as [got [e|]]; intros [= <- <-]; (split; [done|]); intros ? buf; [done|].
  intros [= <-]. by rewrite zlen_put, zlen_zeros.
Qed.

Lemma binary_Size_Inode : binary_Size Inode = 160. Proof. reflexivity. Qed.
Lemma binary_Size_GroupDescriptor : binary_Size GroupDescriptor = 64. Proof. reflexivity. Qed.
Lemma binary_Size_SuperBlock : binary_Size SuperBlock = 1024. Proof. reflexivity. Qed.

Lemma ReadInode_eval fs n off :
  fs_ok fs -> inode_at fs n off ->
  ReadInode n fs =
    wrap "failed to decode inode %d: %w" (lift (binary_Read (A := Inode) (sub (fs_content fs) off (InodeSize fs)))) fs.
Proof.
  intros Hok Hat. pose proof (inode_at_range fs n off Hok Hat) as Hoff.
  destruct Hat as (sb & bgd & Hsb & Hn & Hipg & Hg & Hbgd & Htlo & Htab & Eoff & Hisz & Hfit).
  pose proof Hok as (Hbs & _ & Hmax & _).
  pose proof (Z.mod_pos_bound (n - 1) (S_inodes_per_group sb) Hipg) as Hmod.
  assert (Hgpos : 0 <= (n - 1) / S_inodes_per_group sb) by (apply Z.div_pos; lia).
  unfold ReadInode. rewrite (proj2 (Z.ltb_ge n 1)) by lia.
  rewrite (bind_ok _ _ _ _ _ (inode_position_ok fs sb n Hsb Hipg)).
  rewrite get_bind. rewrite (proj2 (Z.leb_gt _ _)) by lia.
  rewrite (bind_ok _ _ _ _ _ (get_bgd_ok fs _ bgd Hgpos Hbgd)).
  rewrite (proj2 (Z.eqb_neq _ 0)) by done. cbn zeta.
  set (tab := lo_hi _ _ _) in *.
  rewrite (w64_id (tab * _)), (w64_id (_ * InodeSize fs)), w64_id by nia. rewrite <- Eoff.
  unfold MaxInt64. rewrite (proj2 (Z.ltb_ge _ off)) by lia.
  rewrite (bind_ok _ _ _ _ _ (wrap_ok _ _ _ _ _ (fs_read fs off (InodeSize fs) Hok ltac:(lia) ltac:(lia) Hfit))).
  done.
Qed.

Lemma ReadInode_ok fs n off :
  fs_ok fs -> inode_at fs n off ->
  exists i, ReadInode n fs = (Ok i, fs) /\ struct_wf i /\ binary_Write i = sub (fs_content fs) off 160.
Proof.
  intros Hok Hat. pose proof (inode_at_range fs n off Hok Hat) as Hoff.
  rewrite (ReadInode_eval fs n off Hok Hat).
  destruct Hat as (? & ? & ? & ? & ? & ? & ? & ? & ? & ? & Hisz & Hfit).
  destruct (binary_Read_Ok (A := Inode) (sub (fs_content fs) off (InodeSize fs))) as (i & E & Hwf & Hw).
  { rewrite binary_Size_Inode, zlen_sub; lia. }
  exists i. unfold wrap, lift. rewrite E. split; [done|]. split; [done|].
  rewrite Hw, binary_Size_Inode, sub_sub by lia. f_equal. lia.
Qed.

Lemma binary_Read_sub {A} `{Binary A} (v : A) c off n :
  struct_wf v -> 0 <= off -> binary_Size A <= n -> off + n <= zlen c ->
  sub c off (binary_Size A) = binary_Write v -> binary_Read (sub c off n) = Ok v.
Proof.
  intros Hwf Ho Hn Hfit Hv.
  assert (Hs : sub c off n = binary_Write v ++ sub c (off + binary_Size A) (n - binary_Size A)).
  { rewrite <- Hv. unfold sub. replace (Z.to_nat n) with (Z.to_nat (binary_Size A) + Z.to_nat (n - binary_Size A))%nat
      by (unfold binary_Size in *; lia).
    rewrite <- take_take_drop, drop_drop. do 3 f_equal. unfold binary_Size in *. lia. }
  rewrite Hs. by apply binary_Read_Write.
Qed.

Lemma WriteInode_ok fs n off i :
  fs_ok fs -> inode_at fs n off -> struct_wf i ->
  exists v, WriteInode n i fs = (Ok tt, set_dev v fs) /\ fs_ok (set_dev v fs) /\
    fs_content (set_dev v fs) = put (fs_content fs) off (binary_Write i).
Proof.
  intros Hok Hat Hwf. pose proof (inode_at_range fs n off Hok Hat) as Hoff.
  destruct Hat as (sb & bgd & Hsb & Hn & Hipg & Hg & Hbgd & Htlo & Htab & Eoff & Hisz & Hfit).
  pose proof Hok as (Hbs & _ & Hmax & _).
  pose proof (Z.mod_pos_bound (n - 1) (S_inodes_per_group sb) Hipg) as Hmod.
  assert (Hgpos : 0 <= (n - 1) / S_inodes_per_group sb) by (apply Z.div_pos; lia).
  unfold WriteInode. rewrite (proj2 (Z.ltb_ge n 1)) by lia.
  rewrite (bind_ok _ _ _ _ _ (inode_position_ok fs sb n Hsb Hipg)).
  rewrite get_bind. rewrite (proj2 (Z.leb_gt _ _)) by lia.
  rewrite (bind_ok _ _ _ _ _ (get_bgd_ok fs _ bgd Hgpos Hbgd)). cbn zeta.
  set (tab := lo_hi _ _ _) in *.
  rewrite (w64_id (tab * _)), (i64_id (tab * _)) by nia. rewrite <- Eoff, i64_id by lia.
  rewrite (bind_ok _ _ _ _ _ (wrap_ok _ _ _ _ _ (fs_read fs off (InodeSize fs) Hok ltac:(lia) ltac:(lia) Hfit))).
  assert (Hl : zlen (binary_Write i) = 160) by (rewrite zlen_binary_Write; done).
  rewrite Hl, (proj2 (Z.ltb_ge _ 160)) by lia.
  destruct (fs_write fs off (put (sub (fs_content fs) off (InodeSize fs)) 0 (binary_Write i)))
    as (v & Hw & Hok' & Hc' & _); [done|lia|rewrite zlen_put, zlen_sub; lia|].
  exists v. rewrite (wrap_ok _ _ _ _ _ Hw). split; [done|]. split; [done|]. rewrite Hc'.
  replace 0 with (off - off) at 1 by lia. apply put_put_sub; rewrite ?Hl; lia.
Qed.

(** Writing an inode and reading it back returns it with every field,
    and every other inode whose slot does not overlap reads as before. *)
Theorem inode_roundtrip fs n off i :
  fs_ok fs -> inode_at fs n off -> struct_wf i ->
  exists fs', WriteInode n i fs = (Ok tt, fs') /\ ReadInode n fs' = (Ok i, fs') /\
    forall m off', inode_at fs m off' -> off' + InodeSize fs <= off \/ off + InodeSize fs <= off' ->
      (ReadInode m fs').1 = (ReadInode m fs).1.
Proof.
  intros Hok Hat Hwf. destruct (WriteInode_ok fs n off i Hok Hat Hwf) as (v & Hw & Hok' & Hc').
  pose proof (inode_at_range fs n off Hok Hat) as Hoff.
  assert (Hlen : zlen (fs_content (set_dev v fs)) = zlen (fs_content fs)) by (by rewrite Hc', zlen_put).
  assert (Hl : zlen (binary_Write i) = 160) by (rewrite zlen_binary_Write; done).
  exists (set_dev v fs). split; [done|].
  pose proof Hat as (_ & _ & _ & _ & _ & _ & _ & _ & _ & _ & Hisz & Hfit).
  split.
  - rewrite (ReadInode_eval _ n off Hok') by by apply inode_at_dev.
    rewrite (binary_Read_sub i); [done|done|lia|cbn [InodeSize set_dev]; rewrite binary_Size_Inode; lia| |].
    + rewrite Hlen. cbn [InodeSize set_dev]. lia.
    + rewrite Hc'. rewrite binary_Size_Inode, <- Hl. apply sub_put_same; lia.
  - intros m off' Hat' Hdisj. pose proof (inode_at_range fs m off' Hok Hat').
    rewrite (ReadInode_eval _ m off' Hok'), (ReadInode_eval fs m off' Hok Hat') by by apply inode_at_dev.
    rewrite Hc'. cbn [InodeSize set_dev]. rewrite sub_put_disj by lia. unfold wrap, lift. by case_match.
Qed.

(** A file system whose inodes are shorter than the 160 bytes of the
    inode structure cannot be used: [ReadInode] fails for every inode. *)
Theorem ReadInode_small_inode_fails fs n :
  0 <= InodeSize fs < 160 -> forall i, (ReadInode n fs).1 <> Ok i.
Proof.
  intros Hisz i. unfold ReadInode. destruct (n <? 1); [done|].
  pose proof (inode_position_state n fs) as E1. unfold mbind, M_bind.
  destruct (inode_position n fs) as [[[g l]|?| |] fs1]; cbn in E1; subst fs1; try done. cbn [get].
  destruct (GroupCount fs <=? g); [done|].
  pose proof (get_bgd_state g fs) as E2.
  destruct (get_bgd g fs) as [[bgd|?| |] fs2]; cbn in E2; subst fs2; try done.
  destruct (BG_inode_table_lo bgd =? 0); [done|]. cbn zeta. set (o := w64 _).
  destruct (MaxInt64 <? o); [done|]. unfold wrap at 1.
  destruct (fs_ReadAt o (InodeSize fs) fs) as [[buf|?| |] fs3] eqn:E3; try done.
  apply fs_ReadAt_state in E3 as [-> Hl]. specialize (Hl (proj1 Hisz) buf eq_refl).
  unfold wrap, lift. destruct (binary_Read_short (A := Inode) buf) as [e ->]; [|done].
  rewrite binary_Size_Inode. lia.
Qed.
End metadata_laws.

Section descriptor_laws.
Context {D : Type} `{Device D}.
Implicit Types fs : FileSystem D.

Lemma BlockGroupCount_ok sb :
  0 < S_blocks_per_group sb -> 0 <= S_blocks_count_lo sb < 2 ^ 32 - 1 ->
  exists groups, BlockGroupCount sb = Ok groups /\
    groups = (S_blocks_count_lo sb + S_blocks_per_group sb - 1) / S_blocks_per_group sb.
Proof.
  intros Hb Hc. unfold BlockGroupCount. rewrite (proj2 (Z.eqb_neq _ 0)) by lia.
  eexists. split; [done|].
  set (b := S_blocks_per_group sb) in *. set (c := S_blocks_count_lo sb) in *.
  pose proof (Z.div_mod c b ltac:(lia)) as Hdm. pose proof (Z.mod_pos_bound c b Hb) as Hm.
  assert (c / b <= c) by (apply Z.div_le_upper_bound; nia).
  assert (0 <= c / b) by (apply Z.div_pos; lia).
  destruct (Z.eqb_spec (c mod b) 0) as [E|E].
  - apply (Z.div_unique _ _ _ (b - 1)); lia.
  - rewrite w32_id by lia. apply (Z.div_unique _ _ _ (c mod b - 1)); lia.
Qed.

(** The place of descriptor [g] in the descriptor table. *)
Definition gd_offset (sb : SuperBlock) (g : Z) : Z := descTableStart sb + g * GroupDescriptorSize sb.

Definition gd_at fs (sb : SuperBlock) (g : Z) : Prop :=
  Superblock fs = Some sb /\ 0 <= g /\ 0 < SuperBlock_BlockSize sb /\
  0 <= S_desc_size sb < 2 ^ 16 /\ gd_offset sb g + GroupDescriptorSize sb <= zlen (fs_content fs).

Lemma gd_range fs sb g : fs_ok fs -> gd_at fs sb g ->
  0 < descTableStart sb /\ 0 < GroupDescriptorSize sb /\
  0 <= g * GroupDescriptorSize sb /\ gd_offset sb g < 2 ^ 63.
Proof.
  intros (_ & _ & Hmax & _) (_ & Hg & Hbs & Hds & Hfit).
  assert (Hd : 0 < GroupDescriptorSize sb) by (unfold GroupDescriptorSize; destruct (Z.eqb_spec (S_desc_size sb) 0); lia).
  assert (Ht : 0 < descTableStart sb) by (unfold descTableStart; case_match; lia).
  assert (0 <= g * GroupDescriptorSize sb) by (apply Z.mul_nonneg_nonneg; lia).
  unfold gd_offset in *. lia.
Qed.

Lemma WriteGroupDescriptor_ok fs sb g bgd :
  fs_ok fs -> gd_at fs sb g -> 64 <= GroupDescriptorSize sb -> struct_wf bgd ->
  exists v, WriteGroupDescriptor g bgd fs = (Ok tt, set_dev v fs) /\ fs_ok (set_dev v fs) /\
    fs_content (set_dev v fs) = put (fs_content fs) (gd_offset sb g) (binary_Write bgd).
Proof.
  intros Hok Hat Hds Hwf.
  destruct (gd_range fs sb g Hok Hat) as (Ht & Hd & Hg & Hmax).
  destruct Hat as (Hsb & Hg0 & _ & _ & Hfit).
  unfold WriteGroupDescriptor, deref_sb, mbind, M_bind. rewrite Hsb.
  unfold gd_offset in *. rewrite (i64_id (descTableStart sb)), i64_id by lia.
  assert (Hl : zlen (binary_Write bgd) = 64) by (rewrite zlen_binary_Write; done).
  rewrite Hl, (proj2 (Z.ltb_ge _ 64)) by lia.
  destruct (fs_write fs (descTableStart sb + g * GroupDescriptorSize sb) (binary_Write bgd))
    as (v & Hw & Hok' & Hc' & _); [done|lia|lia|].
  exists v. by rewrite (wrap_ok _ _ _ _ _ Hw).
Qed.

(** Writing a group descriptor and reading it back returns it. *)
Theorem group_descriptor_roundtrip fs sb g bgd :
  fs_ok fs -> gd_at fs sb g -> 64 <= GroupDescriptorSize sb -> struct_wf bgd ->
  0 < S_blocks_per_group sb -> 0 <= S_blocks_count_lo sb < 2 ^ 32 - 1 ->
  g * S_blocks_per_group sb < S_blocks_count_lo sb ->
  exists fs', WriteGroupDescriptor g bgd fs = (Ok tt, fs') /\ ReadGroupDescriptor g fs' = (Ok bgd, fs').
Proof.
  intros Hok Hat Hds Hwf Hbpg Hcnt Hg.
  destruct (gd_range fs sb g Hok Hat) as (Ht & Hd & Hgd & Hmax).
  destruct (WriteGroupDescriptor_ok fs sb g bgd Hok Hat Hds Hwf) as (v & Hw & Hok' & Hc').
  destruct Hat as (Hsb & Hg0 & _ & _ & Hfit).
  exists (set_dev v fs). split; [done|]. unfold ReadGroupDescriptor.
  rewrite (bind_ok get _ _ _ _ eq_refl). cbn [Superblock set_dev]. rewrite Hsb.
  destruct (BlockGroupCount_ok sb Hbpg Hcnt) as (groups & Egroups & Hgroups).
  unfold lift at 1. rewrite Egroups. rewrite (bind_ok _ _ _ (set_dev v fs) groups eq_refl).
  assert (g + 1 <= groups) by (rewrite Hgroups; apply Z.div_le_lower_bound; lia).
  rewrite (proj2 (Z.leb_gt _ _)) by lia. cbn zeta. unfold gd_offset, MaxInt64 in *.
  rewrite (w64_id (g * _)), w64_id by lia. rewrite (proj2 (Z.ltb_ge _ _)) by lia.
  assert (Hlen : zlen (fs_content (set_dev v fs)) = zlen (fs_content fs)) by (by rewrite Hc', zlen_put).
  assert (Hl : zlen (binary_Write bgd) = 64) by (rewrite zlen_binary_Write; done).
  rewrite (bind_ok _ _ _ _ _ (wrap_ok _ _ _ _ _ (fs_read (set_dev v fs) (descTableStart sb + g * GroupDescriptorSize sb)
    (GroupDescriptorSize sb) Hok' ltac:(lia) Hd ltac:(lia)))).
  apply wrap_ok. unfold lift. f_equal. apply binary_Read_sub; [done|lia|done|lia|].
  rewrite Hc', binary_Size_GroupDescriptor, <- Hl. apply sub_put_same; lia.
Qed.

(** With the 32-byte descriptors of a file system without the 64bit
    feature no descriptor can be read: the decoder asks for the 64 bytes of
    the structure. *)
Theorem ReadGroupDescriptor_32_fails fs sb g :
  Superblock fs = Some sb -> 0 <= GroupDescriptorSize sb < 64 ->
  forall bgd, (ReadGroupDescriptor g fs).1 <> Ok bgd.
Proof.
  intros Hsb Hds bgd. unfold ReadGroupDescriptor, mbind, M_bind, get. rewrite Hsb.
  unfold lift at 1. destruct (BlockGroupCount sb) as [groups|?| |]; try done.
  destruct (groups <=? g); [done|]. cbn zeta. set (o := w64 _). destruct (MaxInt64 <? o); [done|].
  unfold wrap at 1. destruct (fs_ReadAt o (GroupDescriptorSize sb) fs) as [[buf|?| |] fs3] eqn:E3; try done.
  apply fs_ReadAt_state in E3 as [-> Hl]. specialize (Hl (proj1 Hds) buf eq_refl).
  unfold wrap, lift. destruct (binary_Read_short (A := GroupDescriptor) buf) as [e ->]; [|done].
  rewrite binary_Size_GroupDescriptor. lia.
Qed.

Lemma writeSuperBlock_ok fs sb :
  fs_ok fs -> Superblock fs = Some sb -> struct_wf sb -> 2048 <= zlen (fs_content fs) ->
  exists v, writeSuperBlock fs = (Ok tt, set_dev v fs) /\ fs_ok (set_dev v fs) /\
    fs_content (set_dev v fs) = put (fs_content fs) 1024 (binary_Write sb).
Proof.
  intros Hok Hsb Hwf Hfit. unfold writeSuperBlock. rewrite get_bind, Hsb.
  assert (Hl : zlen (binary_Write sb) = 1024) by (rewrite zlen_binary_Write; done).
  rewrite Hl. cbn [Z.ltb]. change (1024 <? 1024) with false.
  destruct (fs_write fs 1024 (binary_Write sb)) as (v & Hw & Hok' & Hc' & _); [done|lia|lia|].
  exists v. split; [|done]. unfold catch, mbind, M_bind. unfold SUPERBLOCK_OFFSET. by rewrite Hw.
Qed.

(** Writing the superblock and mounting again gives the same superblock
    and the geometry derived from it. *)
Theorem superblock_roundtrip fs sb :
  fs_ok fs -> Superblock fs = Some sb -> struct_wf sb -> 2048 <= zlen (fs_content fs) ->
  S_magic sb = MAGIC_NUMBER -> 0 < S_blocks_per_group sb -> 0 <= S_blocks_count_lo sb < 2 ^ 32 - 1 ->
  exists fs' fs'', writeSuperBlock fs = (Ok tt, fs') /\ ReadSuperBlock fs' = (Ok sb, fs'') /\
    dev fs'' = dev fs' /\ Superblock fs'' = Some sb /\
    BlockSize fs'' = SuperBlock_BlockSize sb /\ InodeSize fs'' = SuperBlock_InodeSize sb /\
    GroupCount fs'' = (S_blocks_count_lo sb + S_blocks_per_group sb - 1) / S_blocks_per_group sb /\
    DescSize fs'' = GroupDescriptorSize sb.
Proof.
  intros Hok Hsb Hwf Hfit Hmagic Hbpg Hcnt.
  destruct (writeSuperBlock_ok fs sb Hok Hsb Hwf Hfit) as (v & Hw & Hok' & Hc').
  assert (Hl : zlen (binary_Write sb) = 1024) by (rewrite zlen_binary_Write; done).
  assert (Hlen : zlen (fs_content (set_dev v fs)) = zlen (fs_content fs)) by (by rewrite Hc', zlen_put).
  destruct (BlockGroupCount_ok sb Hbpg Hcnt) as (groups & Egroups & <-).
  exists (set_dev v fs). eexists. split; [done|].
  unfold ReadSuperBlock, SUPERBLOCK_OFFSET.
  rewrite (bind_ok _ _ _ _ _ (wrap_ok _ _ _ _ _ (fs_read (set_dev v fs) 1024 1024 Hok' ltac:(lia) ltac:(lia) ltac:(lia)))).
  assert (Hdec : decodeSuperBlock (sub (fs_content (set_dev v fs)) 1024 1024) = Ok sb).
  { unfold decodeSuperBlock. rewrite (binary_Read_sub sb); [by rewrite Hmagic|done|lia|done|lia|].
    rewrite Hc', binary_Size_SuperBlock, <- Hl. apply sub_put_same; lia. }
  unfold lift at 1. rewrite Hdec. rewrite (bind_ok _ _ _ (set_dev v fs) sb eq_refl).
  unfold modify, lift. rewrite Egroups. cbn. done.
Qed.
End descriptor_laws.

(** ** A small volume

    48 blocks of 64 bytes: the superblock at byte 1024, one descriptor at
    byte 2048, the block bitmap in block 33, the inode bitmap in block 34,
    four inodes from block 35 on and three free blocks 45 to 47; the bits of
    the bitmap behind the last block are set, as [mkfs] sets them. *)
Definition poke (n : nat) (off v : Z) (b : list byte) : list byte := put b off (le_split n v).

Definition ex_sb_bytes : list byte :=
  poke 4 0 4 $ poke 4 4 48 $ poke 4 12 3 $ poke 4 16 2 $ poke 4 32 48 $ poke 4 40 4 $
  poke 2 56 MAGIC_NUMBER $ poke 4 76 1 $ poke 2 88 160 $ poke 2 254 64 $ zeros 1024.
Definition ex_sb : SuperBlock := c_dec binary ex_sb_bytes.

Definition ex_gd_bytes : list byte :=
  poke 4 0 33 $ poke 4 4 34 $ poke 4 8 35 $ poke 2 12 3 $ poke 2 14 2 $ zeros 64.
Definition ex_gd : GroupDescriptor := c_dec binary ex_gd_bytes.

Definition ex_image : list byte :=
  zeros 1024 ++ ex_sb_bytes ++ ex_gd_bytes ++
  (byte.of_Z <$> [255; 255; 255; 255; 255; 31]) ++ replicate 58 Byte.xff ++ (byte.of_Z <$> [3]) ++ zeros 63 ++ zeros 832.

Definition ex_ext4 : FileSystem File :=
  mkFileSystem (Direct (mkFile ex_image)) (Some ex_sb) [ex_gd] 64 160 1 64 ∅.

Lemma ex_image_len : zlen ex_image = 3072.
Proof. vm_compute. reflexivity. Qed.
Lemma ex_ext4_len : zlen (fs_content ex_ext4) = 3072.
Proof. exact ex_image_len. Qed.
Lemma ex_ext4_ok : fs_ok ex_ext4.
Proof.
  unfold fs_ok. rewrite ex_ext4_len. split; [done|]. split; [by exists 48|]. by split.
Qed.

Lemma ex_sb_wf : struct_wf ex_sb.
Proof. apply c_dec_wf. vm_compute. lia. Qed.
Lemma ex_gd_wf : struct_wf ex_gd.
Proof. apply c_dec_wf. vm_compute. lia. Qed.

(** The fields the examples need, computed once. *)
Lemma ex_sb_fields :
  S_inodes_per_group ex_sb = 4 /\ S_blocks_per_group ex_sb = 48 /\ S_blocks_count_lo ex_sb = 48 /\
  S_magic ex_sb = MAGIC_NUMBER /\ GroupDescriptorSize ex_sb = 64 /\ SuperBlock_BlockSize ex_sb = 1024 /\
  S_desc_size ex_sb = 64 /\ descTableStart ex_sb = 2048 /\ S_free_blocks_count_lo ex_sb = 3.
Proof. vm_compute. done. Qed.
Lemma ex_gd_fields :
  BG_inode_table_lo ex_gd = 35 /\ BG_inode_table_hi ex_gd = 0 /\ BG_block_bitmap_lo ex_gd = 33 /\
  BG_block_bitmap_hi ex_gd = 0 /\ BG_free_blocks_count_lo ex_gd = 3 /\ BG_free_blocks_count_hi ex_gd = 0.
Proof. vm_compute. done. Qed.

Lemma ex_inode_at n : 1 <= n <= 4 -> inode_at ex_ext4 n (2240 + (n - 1) * 160).
Proof.
  intros Hn. destruct ex_sb_fields as (Eipg & _), ex_gd_fields as (Et & Eth & _).
  exists ex_sb, ex_gd. rewrite Eipg, Et, Eth, ex_ext4_len. cbn [ex_ext4 Superblock GroupCount Bgds DescSize BlockSize InodeSize].
  assert (E : (n - 1) / 4 = 0) by (apply Z.div_small; lia). rewrite E, Z.mod_small by lia.
  change (lo_hi 64 35 0) with 35. repeat split; try lia.
Qed.

Definition ex_env : Env := mkEnv 1000 8.
#[local] Existing Instance ex_env.
Definition ex_inode : Inode := InitExtentHeader (new_inode S_IFREG).
Lemma ex_inode_wf : struct_wf ex_inode.
Proof. vm_compute. repeat split; try done; lia. Qed.

Lemma inode_roundtrip_witness :
  exists fs', WriteInode 3 ex_inode ex_ext4 = (Ok tt, fs') /\ ReadInode 3 fs' = (Ok ex_inode, fs').
Proof.
  destruct (inode_roundtrip ex_ext4 3 (2240 + (3 - 1) * 160) ex_inode) as (fs' & Hw & Hr & _).
  - apply ex_ext4_ok.
  - by apply ex_inode_at.
  - apply ex_inode_wf.
  - exists fs'. split; [exact Hw|exact Hr].
Defined.

Lemma ReadInode_small_inode_fails_witness : (ReadInode 2 ex_fs).1 <> Ok ex_inode.
Proof. apply (ReadInode_small_inode_fails ex_fs 2). vm_compute. done. Defined.

Lemma ex_gd_at : gd_at ex_ext4 ex_sb 0.
Proof.
  destruct ex_sb_fields as (_ & _ & _ & _ & Eds & Ebs & Eraw & Est & _).
  unfold gd_at, gd_offset. rewrite Eds, Ebs, Eraw, Est, ex_ext4_len. split; [reflexivity|lia].
Qed.

Lemma group_descriptor_roundtrip_witness :
  exists fs', WriteGroupDescriptor 0 ex_gd ex_ext4 = (Ok tt, fs') /\ ReadGroupDescriptor 0 fs' = (Ok ex_gd, fs').
Proof.
  destruct ex_sb_fields as (_ & Ebpg & Ecnt & _ & Eds & _).
  apply (group_descriptor_roundtrip ex_ext4 ex_sb 0 ex_gd).
  - apply ex_ext4_ok.
  - apply ex_gd_at.
  - rewrite Eds. lia.
  - apply ex_gd_wf.
  - rewrite Ebpg. lia.
  - rewrite Ecnt. lia.
  - rewrite Ebpg, Ecnt. lia.
Defined.

Definition ex_sb32 : SuperBlock := c_dec binary (poke 2 254 0 ex_sb_bytes).
Lemma ReadGroupDescriptor_32_fails_witness :
  (ReadGroupDescriptor 0 (set_sb ex_sb32 ex_ext4)).1 <> Ok ex_gd.
Proof.
  apply (ReadGroupDescriptor_32_fails (set_sb ex_sb32 ex_ext4) ex_sb32 0).
  - reflexivity.
  - vm_compute. done.
Defined.

Lemma superblock_roundtrip_witness :
  exists fs' fs'', writeSuperBlock ex_ext4 = (Ok tt, fs') /\ ReadSuperBlock fs' = (Ok ex_sb, fs'').
Proof.
  destruct ex_sb_fields as (_ & Ebpg & Ecnt & Em & _).
  destruct (superblock_roundtrip ex_ext4 ex_sb) as (fs' & fs'' & Hw & Hr & _).
  - apply ex_ext4_ok.
  - reflexivity.
  - apply ex_sb_wf.
  - by rewrite ex_ext4_len.
  - exact Em.
  - rewrite Ebpg. lia.
  - rewrite Ecnt. lia.
  - exists fs', fs''. split; [exact Hw|exact Hr].
Defined.
