(* ===== verification/Alloc.v ===== *)
(** Block and inode allocation: [AllocateBlock] and [AllocateInode] of
    [src/vfs/allocate.go], [FreeBlock], [FreeInode] and [FreeExtents] of
    [src/vfs/reclaim.go]. *)
From S2P Require Export Meta.

(** ** Bitmaps *)

(** The first bit of [bits] that is clear in [b]. *)
Fixpoint find_clear_bit (b : Z) (bits : list Z) : option Z :=
  match bits with
  | [] => None
  | bit :: bits' => if Z.land b (Z.shiftl 1 bit) =? 0 then Some bit else find_clear_bit b bits'
  end.

(** The scan of a bitmap from byte [byteIdx] on; only the first byte starts
    at [minBit]. *)
Fixpoint scan_bitmap (bytes : list byte) (byteIdx minBit : Z) : option (Z * Z) :=
  match bytes with
  | [] => None
  | b :: bytes' =>
      if byte.unsigned b =? 0xFF then scan_bitmap bytes' (byteIdx + 1) 0
      else match find_clear_bit (byte.unsigned b) (seqZ minBit (8 - minBit)) with
           | Some bit => Some (byteIdx, bit)
           | None => scan_bitmap bytes' (byteIdx + 1) 0
           end
  end.

Definition get_byte (l : list byte) (i : Z) : Z :=
  match l !! Z.to_nat i with Some b => byte.unsigned b | None => 0 end.

Definition set_bit (bitmap : list byte) (byteIdx bit : Z) : list byte :=
  <[Z.to_nat byteIdx := byte.of_Z (Z.lor (get_byte bitmap byteIdx) (Z.shiftl 1 bit))]> bitmap.
Definition clear_bit (bitmap : list byte) (byteIdx bit : Z) : list byte :=
  <[Z.to_nat byteIdx := byte.of_Z (Z.ldiff (get_byte bitmap byteIdx) (Z.shiftl 1 bit))]> bitmap.

(** [uint64(lo) | uint64(hi) << 16] when the descriptors are 64 bytes. *)
Definition lo_hi16 (descSize lo hi : Z) : Z :=
  if 32 <? descSize then Z.lor lo (Z.shiftl hi 16) else lo.

Definition block_offset (bs blockNum : Z) : Z := i64 (w64 (blockNum * bs)).

Section allocation.
Context {D : Type} `{ReadWriterAt D}.

(** ** Allocation *)
Definition alloc_block_in_group (blocksPerGroup groupIdx : Z) : FS D (option Z) :=
  bgd <- get_bgd groupIdx ;;
  fs <- get ;;
  let freeBlocks := lo_hi16 (DescSize fs) (BG_free_blocks_count_lo bgd) (BG_free_blocks_count_hi bgd) in
  if freeBlocks =? 0 then mret None
  else
    let bitmapBlock := lo_hi (DescSize fs) (BG_block_bitmap_lo bgd) (BG_block_bitmap_hi bgd) in
    bitmap <- wrap "AllocateBlock: failed to read block bitmap for group %d: %w"
                (fs_ReadAt (block_offset (BlockSize fs) bitmapBlock) (BlockSize fs)) ;;
    match scan_bitmap bitmap 0 0 with
    | None => mret None
    | Some (byteIdx, bit) =>
        wrap "AllocateBlock: failed to write block bitmap for group %d: %w"
          (fs_WriteAt (block_offset (BlockSize fs) bitmapBlock) (set_bit bitmap byteIdx bit)) ;;
        let blockNum := w64 (w64 (w64 (groupIdx * blocksPerGroup) + byteIdx * 8) + bit) in
        let bgd := set_BG_free_blocks_count_lo (w16 (BG_free_blocks_count_lo bgd - 1)) bgd in
        put_bgd groupIdx bgd ;;
        wrap "AllocateBlock: %w" (WriteGroupDescriptor groupIdx bgd) ;;
        updateSuperblockFreeBlocks (-1) ;;
        mret (Some blockNum)
    end.

Definition AllocateBlock : FS D Z :=
  sb <- deref_sb ;;
  fs <- get ;;
  r <- firstM (seqZ 0 (GroupCount fs)) (alloc_block_in_group (S_blocks_per_group sb)) ;;
  match r with
  | Some blockNum => mret blockNum
  | None => fail (Errorf "AllocateBlock: no free blocks available")
  end.

Definition alloc_inode_in_group (inodesPerGroup groupIdx : Z) : FS D (option Z) :=
  bgd <- get_bgd groupIdx ;;
  fs <- get ;;
  let freeInodes := lo_hi16 (DescSize fs) (BG_free_inodes_count_lo bgd) (BG_free_inodes_count_hi bgd) in
  if freeInodes =? 0 then mret None
  else
    let bitmapBlock := lo_hi (DescSize fs) (BG_inode_bitmap_lo bgd) (BG_inode_bitmap_hi bgd) in
    bitmap <- wrap "AllocateInode: failed to read inode bitmap for group %d: %w"
                (fs_ReadAt (block_offset (BlockSize fs) bitmapBlock) (BlockSize fs)) ;;
    let startBit := if groupIdx =? 0 then 11 else 0 in
    match scan_bitmap (drop (Z.to_nat (startBit / 8)) bitmap) (startBit / 8) (startBit mod 8) with
    | None => mret None
    | Some (byteIdx, bit) =>
        wrap "AllocateInode: failed to write bitmap for group %d: %w"
          (fs_WriteAt (block_offset (BlockSize fs) bitmapBlock) (set_bit bitmap byteIdx bit)) ;;
        let inodeNum := w32 (groupIdx * inodesPerGroup + byteIdx * 8 + bit + 1) in
        let bgd := set_BG_free_inodes_count_lo (w16 (BG_free_inodes_count_lo bgd - 1)) bgd in
        put_bgd groupIdx bgd ;;
        wrap "AllocateInode: %w" (WriteGroupDescriptor groupIdx bgd) ;;
        updateSuperblockFreeInodes (-1) ;;
        mret (Some inodeNum)
    end.

Definition AllocateInode : FS D Z :=
  sb <- deref_sb ;;
  fs <- get ;;
  r <- firstM (seqZ 0 (GroupCount fs)) (alloc_inode_in_group (S_inodes_per_group sb)) ;;
  match r with
  | Some inodeNum => mret inodeNum
  | None => fail (Errorf "AllocateInode: no free inodes available")
  end.

(** ** Release *)
Definition FreeBlock (blockNum : Z) : FS D unit :=
  sb <- deref_sb ;;
  let blocksPerGroup := S_blocks_per_group sb in
  if blocksPerGroup =? 0 then lift Panic
  else
    let groupIdx := w32 (blockNum / blocksPerGroup) in
    let localIndex := blockNum mod blocksPerGroup in
    fs <- get ;;
    if GroupCount fs <=? groupIdx then fail (Errorf "FreeBlock: block %d group %d out of range")
    else
      bgd <- get_bgd groupIdx ;;
      let bitmapBlock := lo_hi (DescSize fs) (BG_block_bitmap_lo bgd) (BG_block_bitmap_hi bgd) in
      bitmap <- wrap "FreeBlock: failed to read block bitmap for group %d: %w"
                  (fs_ReadAt (block_offset (BlockSize fs) bitmapBlock) (BlockSize fs)) ;;
      let byteIdx := localIndex / 8 in
      let bit := localIndex mod 8 in
      b <- lift (index bitmap byteIdx) ;;
      if Z.land (byte.unsigned b) (Z.shiftl 1 bit) =? 0
      then fail (Errorf "FreeBlock: block %d is already free")
      else
        wrap "FreeBlock: failed to write block bitmap for group %d: %w"
          (fs_WriteAt (block_offset (BlockSize fs) bitmapBlock) (clear_bit bitmap byteIdx bit)) ;;
        let bgd := set_BG_free_blocks_count_lo (w16 (BG_free_blocks_count_lo bgd + 1)) bgd in
        put_bgd groupIdx bgd ;;
        wrap "FreeBlock: %w" (WriteGroupDescriptor groupIdx bgd) ;;
        updateSuperblockFreeBlocks 1.

Definition FreeInode (inodeNum : Z) : FS D unit :=
  if inodeNum <? 1 then fail (Errorf "FreeInode: invalid inode number %d")
  else
    sb <- deref_sb ;;
    let inodesPerGroup := S_inodes_per_group sb in
    if inodesPerGroup =? 0 then lift Panic
    else
      let groupIdx := w32 ((inodeNum - 1) / inodesPerGroup) in
      let localIndex := (inodeNum - 1) mod inodesPerGroup in
      fs <- get ;;
      if GroupCount fs <=? groupIdx then fail (Errorf "FreeInode: inode %d group %d out of range")
      else
        bgd <- get_bgd groupIdx ;;
        let bitmapBlock := lo_hi (DescSize fs) (BG_inode_bitmap_lo bgd) (BG_inode_bitmap_hi bgd) in
        bitmap <- wrap "FreeInode: failed to read inode bitmap for group %d: %w"
                    (fs_ReadAt (block_offset (BlockSize fs) bitmapBlock) (BlockSize fs)) ;;
        let byteIdx := localIndex / 8 in
        let bit := localIndex mod 8 in
        b <- lift (index bitmap byteIdx) ;;
        if Z.land (byte.unsigned b) (Z.shiftl 1 bit) =? 0
        then fail (Errorf "FreeInode: inode %d is already free")
        else
          wrap "FreeInode: failed to write inode bitmap for group %d: %w"
            (fs_WriteAt (block_offset (BlockSize fs) bitmapBlock) (clear_bit bitmap byteIdx bit)) ;;
          let bgd := set_BG_free_inodes_count_lo (w16 (BG_free_inodes_count_lo bgd + 1)) bgd in
          put_bgd groupIdx bgd ;;
          wrap "FreeInode: %w" (WriteGroupDescriptor groupIdx bgd) ;;
          updateSuperblockFreeInodes 1.

(** [uint64(ext.EE_start_hi) << 32 | uint64(ext.EE_start_lo)] *)
Definition ext_start (ext : Extent) : Z := Z.lor (Z.shiftl (EE_start_hi ext) 32) (EE_start_lo ext).
Definition ext_uninit (ext : Extent) : bool := negb (Z.land (EE_len ext) 0x8000 =? 0).
Definition ext_count (ext : Extent) : Z := Z.land (EE_len ext) 0x7FFF.

(** [for i := 0; i < n; i++ { FreeBlock(start + i) }], stopping at the
    first error. *)
Definition free_run (msg : string) (start n : Z) : FS D unit :=
  forM (seqZ 0 n) tt (fun i _ => wrap msg (FreeBlock (w64 (start + i)))).

Definition FreeExtents (extents : list Extent) : FS D unit :=
  forM extents tt (fun ext _ =>
    if ext_uninit ext then mret tt
    else free_run "FreeExtents: %w" (ext_start ext) (ext_count ext)).
End allocation.

(** ** Bits of a bitmap *)
Definition bit_at (bm : list byte) (i : Z) : bool := Z.testbit (get_byte bm (i / 8)) (i mod 8).

Lemma land_bit b k : 0 <= k -> (Z.land b (Z.shiftl 1 k) =? 0) = negb (Z.testbit b k).
Proof.
  intros Hk. rewrite Z.shiftl_1_l.
  destruct (Z.testbit b k) eqn:E; cbn.
  - apply Z.eqb_neq. intros Hz. apply (f_equal (fun z => Z.testbit z k)) in Hz.
    rewrite Z.land_spec, E, Z.pow2_bits_true, Z.bits_0 in Hz by done. done.
  - apply Z.eqb_eq. apply Z.bits_inj'. intros i Hi. rewrite Z.land_spec, Z.bits_0.
    destruct (Z.eq_dec k i) as [->|Hne]; [by rewrite E|].
    rewrite Z.pow2_bits_false by done. apply andb_false_r.
Qed.

Lemma find_clear_bit_spec b m n :
  0 <= m -> 0 <= n ->
  match find_clear_bit b (seqZ m n) with
  | Some k => m <= k < m + n /\ Z.testbit b k = false /\ forall i, m <= i < k -> Z.testbit b i = true
  | None => forall i, m <= i < m + n -> Z.testbit b i = true
  end.
Proof.
  intros Hm Hn. rewrite <- (Z2Nat.id n) by done. generalize (Z.to_nat n) as k. clear n Hn. intros k.
  revert m Hm. induction k as [|k IH]; intros m Hm; [intros i Hi; cbn in Hi; lia|].
  rewrite seqZ_cons by lia. cbn [find_clear_bit]. rewrite land_bit by done.
  destruct (Z.testbit b m) eqn:E; cbn [negb].
  - replace (Z.pred (Z.of_nat (S k))) with (Z.of_nat k) by lia. specialize (IH (Z.succ m) ltac:(lia)).
    assert (Hext : forall i, m <= i -> i <> m -> Z.succ m <= i) by lia.
    destruct (find_clear_bit b (seqZ (Z.succ m) (Z.of_nat k))).
    + destruct IH as (? & ? & Hb). repeat split; try lia; [done|].
      intros i Hi. destruct (Z.eq_dec i m) as [->|]; [done|]. apply Hb. lia.
    + intros i Hi. destruct (Z.eq_dec i m) as [->|]; [done|]. apply IH. lia.
  - repeat split; try lia; done.
Qed.

Lemma get_byte_range l i : 0 <= get_byte l i < 256.
Proof. unfold get_byte. destruct (_ !! _); [apply byte.unsigned_range|lia]. Qed.

Lemma bit_at_cons_0 b l i : 0 <= i < 8 -> bit_at (b :: l) i = Z.testbit (byte.unsigned b) i.
Proof. intros. unfold bit_at. by rewrite Z.div_small, Z.mod_small by lia. Qed.

Lemma bit_at_cons_S b l i : 8 <= i -> bit_at (b :: l) i = bit_at l (i - 8).
Proof.
  intros. unfold bit_at. replace i with (i - 8 + 1 * 8) at 1 2 by lia.
  rewrite Z.div_add, Z_mod_plus_full by lia. f_equal. unfold get_byte.
  replace (Z.to_nat ((i - 8) / 8 + 1)) with (S (Z.to_nat ((i - 8) / 8)))
    by (assert (0 <= (i - 8) / 8) by (apply Z.div_pos; lia); lia).
  done.
Qed.

Lemma full_byte b i : byte.unsigned b = 255 -> 0 <= i < 8 -> Z.testbit (byte.unsigned b) i = true.
Proof. intros -> Hi. change 255 with (Z.ones 8). apply Z.ones_spec_low. lia. Qed.

(** The scan finds the first clear bit. *)
Lemma scan_bitmap_spec bytes j0 m :
  0 <= m < 8 ->
  match scan_bitmap bytes j0 m with
  | Some (j, k) =>
      j0 <= j < j0 + zlen bytes /\ 0 <= k < 8 /\ bit_at bytes (8 * (j - j0) + k) = false /\
      m <= 8 * (j - j0) + k /\
      forall i, m <= i < 8 * (j - j0) + k -> bit_at bytes i = true
  | None => forall i, m <= i < 8 * zlen bytes -> bit_at bytes i = true
  end.
Proof.
  revert j0 m. induction bytes as [|b bytes IH]; intros j0 m Hm; [intros i Hi; change (@zlen byte []) with 0 in Hi; lia|].
  assert (Hz : zlen (b :: bytes) = 1 + zlen bytes) by (unfold zlen; cbn; lia). rewrite Hz.
  assert (Hrest : (forall i, m <= i < 8 -> Z.testbit (byte.unsigned b) i = true) ->
    match scan_bitmap bytes (j0 + 1) 0 with
    | Some (j, k) =>
        j0 <= j < j0 + (1 + zlen bytes) /\ 0 <= k < 8 /\ bit_at (b :: bytes) (8 * (j - j0) + k) = false /\
        m <= 8 * (j - j0) + k /\
        forall i, m <= i < 8 * (j - j0) + k -> bit_at (b :: bytes) i = true
    | None => forall i, m <= i < 8 * (1 + zlen bytes) -> bit_at (b :: bytes) i = true
    end).
  { intros Hfull. specialize (IH (j0 + 1) 0 ltac:(lia)).
    destruct (scan_bitmap bytes (j0 + 1) 0) as [[j k]|].
    - destruct IH as (Hj & Hk & Hc & _ & Hall). repeat split; try lia.
      + rewrite bit_at_cons_S by lia. rewrite <- Hc. f_equal. lia.
      + intros i Hi. destruct (Z.lt_ge_cases i 8).
        * rewrite bit_at_cons_0 by lia. apply Hfull. lia.
        * rewrite bit_at_cons_S by lia. apply Hall. lia.
    - intros i Hi. destruct (Z.lt_ge_cases i 8).
      + rewrite bit_at_cons_0 by lia. apply Hfull. lia.
      + rewrite bit_at_cons_S by lia. apply IH. lia. }
  cbn [scan_bitmap]. destruct (Z.eqb_spec (byte.unsigned b) 255) as [E|E].
  { apply Hrest. intros i Hi. apply full_byte; [done|lia]. }
  pose proof (find_clear_bit_spec (byte.unsigned b) m (8 - m) ltac:(lia) ltac:(lia)) as Hf.
  destruct (find_clear_bit _ _) as [k|].
  - destruct Hf as (Hk & Hc & Hall). rewrite Z.sub_diag, Z.mul_0_r, Z.add_0_l.
    pose proof (zlen_nonneg bytes). repeat split; try lia.
    + by rewrite bit_at_cons_0 by lia.
    + intros i Hi. rewrite bit_at_cons_0 by lia. apply Hall. lia.
  - apply Hrest. intros i Hi. apply Hf. lia.
Qed.

Lemma get_byte_insert l j b : 0 <= j < zlen l -> get_byte (<[Z.to_nat j := b]> l) j = byte.unsigned b.
Proof. intros. unfold get_byte. rewrite list_lookup_insert_eq; [done|]. unfold zlen in *. lia. Qed.

Lemma get_byte_insert_ne l j j' b :
  0 <= j -> 0 <= j' -> j <> j' -> get_byte (<[Z.to_nat j := b]> l) j' = get_byte l j'.
Proof. intros. unfold get_byte. rewrite list_lookup_insert_ne; [done|]. lia. Qed.

Lemma byte_of_Z_small x : 0 <= x < 256 -> byte.unsigned (byte.of_Z x) = x.
Proof. intros. rewrite byte.unsigned_of_Z. apply Z.mod_small. done. Qed.

Lemma lor_byte b k : 0 <= b < 256 -> 0 <= k < 8 -> 0 <= Z.lor b (Z.shiftl 1 k) < 256.
Proof.
  intros Hb Hk. rewrite Z.shiftl_1_l. assert (0 < 2 ^ k) by (apply Z.pow_pos_nonneg; lia).
  split; [apply Z.lor_nonneg; lia|]. change 256 with (2 ^ 8).
  destruct (Z.eq_dec (Z.lor b (2 ^ k)) 0) as [->|Hne]; [done|].
  apply Z.log2_lt_pow2; [|].
  { assert (Hnn : 0 <= Z.lor b (2 ^ k)) by (apply Z.lor_nonneg; lia). lia. }
  rewrite Z.log2_lor by lia. apply Z.max_lub_lt.
  - destruct (Z.eq_dec b 0) as [->|]; [done|]. apply Z.log2_lt_pow2; lia.
  - rewrite Z.log2_pow2; lia.
Qed.

Lemma ldiff_byte b m : 0 <= b < 256 -> 0 <= Z.ldiff b m < 256.
Proof.
  intros Hb. assert (E : Z.ldiff b m = Z.land (Z.ldiff b m) (Z.ones 8)).
  { apply Z.bits_inj'. intros i Hi. rewrite Z.land_spec, Z.ldiff_spec.
    destruct (Z.lt_ge_cases i 8).
    - rewrite Z.ones_spec_low by lia. by rewrite andb_true_r.
    - rewrite Z.ones_spec_high, andb_false_r by lia.
      destruct (Z.eq_dec b 0) as [->|Hb0]; [by rewrite Z.bits_0|].
      assert (Z.log2 b < 8) by (apply Z.log2_lt_pow2; lia).
      by rewrite (Z.bits_above_log2 b i) by lia. }
  rewrite E, Z.land_ones by lia. change 256 with (2 ^ 8). by apply Z.mod_pos_bound.
Qed.

(** [i] is bit [i mod 8] of byte [i / 8]. *)
Lemma bit_position j k i : 0 <= k < 8 -> i = 8 * j + k -> i / 8 = j /\ i mod 8 = k.
Proof.
  intros Hk ->. split.
  - symmetry. apply (Z.div_unique _ _ _ k); lia.
  - symmetry. apply (Z.mod_unique _ _ j); lia.
Qed.

Lemma bit_at_set bm j k i :
  0 <= j < zlen bm -> 0 <= k < 8 -> 0 <= i ->
  bit_at (set_bit bm j k) i = (i =? 8 * j + k) || bit_at bm i.
Proof.
  intros Hj Hk Hi. unfold bit_at, set_bit. pose proof (get_byte_range bm j) as Hb.
  pose proof (Z.div_mod i 8 ltac:(lia)). pose proof (Z.mod_pos_bound i 8 ltac:(lia)).
  destruct (Z.eq_dec (i / 8) j) as [Ej|Ej].
  - rewrite Ej, get_byte_insert, byte_of_Z_small by (done || by apply lor_byte).
    rewrite Z.lor_spec, Z.shiftl_1_l. destruct (Z.eqb_spec i (8 * j + k)) as [E|E].
    + replace (i mod 8) with k by lia. rewrite Z.pow2_bits_true by lia. apply orb_true_r.
    + rewrite Z.pow2_bits_false by lia. rewrite orb_false_r. done.
  - rewrite get_byte_insert_ne by (lia || (try apply Z.div_pos; lia)).
    rewrite (proj2 (Z.eqb_neq i _)) by lia. done.
Qed.

Lemma clear_set_bit bm j k :
  0 <= j < zlen bm -> 0 <= k < 8 -> bit_at bm (8 * j + k) = false ->
  clear_bit (set_bit bm j k) j k = bm.
Proof.
  intros Hj Hk Hc. unfold clear_bit. pose proof (get_byte_range bm j) as Hb.
  destruct (bit_position j k (8 * j + k) Hk eq_refl) as [E1 E2].
  unfold bit_at in Hc. rewrite E1, E2 in Hc.
  unfold set_bit at 1. rewrite get_byte_insert, byte_of_Z_small by (done || by apply lor_byte).
  unfold set_bit. rewrite list_insert_insert_eq.
  assert (Hld : Z.ldiff (Z.lor (get_byte bm j) (Z.shiftl 1 k)) (Z.shiftl 1 k) = get_byte bm j).
  { apply Z.bits_inj'. intros i Hi. rewrite Z.ldiff_spec, Z.lor_spec, Z.shiftl_1_l.
    destruct (Z.eq_dec k i) as [<-|Hne].
    - rewrite Z.pow2_bits_true by lia. rewrite Hc. apply andb_false_r.
    - rewrite Z.pow2_bits_false by lia. rewrite orb_false_r. apply andb_true_r. }
  rewrite Hld. apply list_insert_id. unfold get_byte.
  destruct (lookup_lt_is_Some_2 bm (Z.to_nat j)) as [b Hbj]; [unfold zlen in *; lia|].
  rewrite Hbj. by rewrite byte.of_Z_unsigned.
Qed.

Lemma zlen_set_bit bm j k : zlen (set_bit bm j k) = zlen bm.
Proof. unfold set_bit. apply zlen_insert. Qed.
Lemma zlen_clear_bit bm j k : zlen (clear_bit bm j k) = zlen bm.
Proof. unfold clear_bit. apply zlen_insert. Qed.

(** ** The effect of an allocation *)
Section allocation_laws.
Context {D : Type} `{Device D}.
Implicit Types fs : FileSystem D.

Definition bitmap_block fs (bgd : GroupDescriptor) : Z :=
  lo_hi (DescSize fs) (BG_block_bitmap_lo bgd) (BG_block_bitmap_hi bgd).
Definition block_bitmap fs (bgd : GroupDescriptor) : list byte :=
  sub (fs_content fs) (bitmap_block fs bgd * BlockSize fs) (BlockSize fs).

(** Group [g] is described by [bgd], and its descriptor and its block
    bitmap lie on the device. *)
Definition group_ok fs (sb : SuperBlock) (g : Z) (bgd : GroupDescriptor) : Prop :=
  Superblock fs = Some sb /\ struct_wf sb /\ 2048 <= zlen (fs_content fs) /\
  Bgds fs !! Z.to_nat g = Some bgd /\ struct_wf bgd /\ gd_at fs sb g /\ 64 <= GroupDescriptorSize sb /\
  0 <= bitmap_block fs bgd /\ (bitmap_block fs bgd + 1) * BlockSize fs <= zlen (fs_content fs) /\
  0 < S_blocks_per_group sb /\ g * S_blocks_per_group sb + 8 * BlockSize fs < 2 ^ 64.

(** The state after bitmap, descriptor and superblock were rewritten. *)
Definition rewritten fs fs' (sb : SuperBlock) (g : Z) (bgd : GroupDescriptor) (off : Z) (bm : list byte) : Prop :=
  (exists v, fs' = set_dev v (set_sb sb (set_Bgds (<[Z.to_nat g := bgd]> (Bgds fs)) fs))) /\ fs_ok fs' /\
  fs_content fs' =
    put (put (put (fs_content fs) off bm) (gd_offset sb g) (binary_Write bgd)) 1024 (binary_Write sb).

Lemma free_blocks_wf (sb : SuperBlock) v :
  struct_wf sb -> 0 <= v < 2 ^ 32 -> struct_wf (set_S_free_blocks_count_lo v sb).
Proof. intros (H1 & H2 & H3 & _ & Hrest) Hv. exact (conj H1 (conj H2 (conj H3 (conj Hv Hrest)))). Qed.

Lemma bgd_free_blocks_wf (bgd : GroupDescriptor) v :
  struct_wf bgd -> 0 <= v < 2 ^ 16 -> struct_wf (set_BG_free_blocks_count_lo v bgd).
Proof. intros (H1 & H2 & H3 & _ & Hrest) Hv. exact (conj H1 (conj H2 (conj H3 (conj Hv Hrest)))). Qed.

Lemma block_offset_id fs b :
  fs_ok fs -> 0 <= b -> (b + 1) * BlockSize fs <= zlen (fs_content fs) ->
  block_offset (BlockSize fs) b = b * BlockSize fs.
Proof.
  intros (Hbs & _ & Hmax & _) Hb Hfit. unfold block_offset. rewrite w64_id, i64_id; nia.
Qed.

(** Reading and writing a whole block of the device. *)
Lemma read_block fs b :
  fs_ok fs -> 0 <= b -> (b + 1) * BlockSize fs <= zlen (fs_content fs) ->
  fs_ReadAt (block_offset (BlockSize fs) b) (BlockSize fs) fs =
    (Ok (sub (fs_content fs) (b * BlockSize fs) (BlockSize fs)), fs).
Proof.
  intros Hok Hb Hfit. rewrite (block_offset_id fs b Hok Hb Hfit). pose proof Hok as (Hbs & _).
  apply fs_read; [done|nia|done|nia].
Qed.

Lemma write_block fs b p :
  fs_ok fs -> 0 <= b -> (b + 1) * BlockSize fs <= zlen (fs_content fs) -> zlen p = BlockSize fs ->
  exists v, fs_WriteAt (block_offset (BlockSize fs) b) p fs = (Ok tt, set_dev v fs) /\ fs_ok (set_dev v fs) /\
    fs_content (set_dev v fs) = put (fs_content fs) (b * BlockSize fs) p.
Proof.
  intros Hok Hb Hfit Hp. rewrite (block_offset_id fs b Hok Hb Hfit). pose proof Hok as (Hbs & _).
  destruct (fs_write fs (b * BlockSize fs) p) as (v & ? & ? & ? & _); [done|nia|nia|by exists v].
Qed.

Lemma updateSuperblockFreeBlocks_ok fs sb delta :
  fs_ok fs -> Superblock fs = Some sb -> struct_wf sb -> 2048 <= zlen (fs_content fs) ->
  let sb' := set_S_free_blocks_count_lo (w32 (Z.max 0 (S_free_blocks_count_lo sb + delta))) sb in
  exists v, updateSuperblockFreeBlocks delta fs = (Ok tt, set_dev v (set_sb sb' fs)) /\
    fs_ok (set_dev v (set_sb sb' fs)) /\ struct_wf sb' /\
    fs_content (set_dev v (set_sb sb' fs)) = put (fs_content fs) 1024 (binary_Write sb').
Proof.
  intros Hok Hsb Hwf Hfit sb'.
  assert (Hwf' : struct_wf sb') by (apply free_blocks_wf; [done|apply w32_range]).
  destruct (writeSuperBlock_ok (set_sb sb' fs) sb' Hok eq_refl Hwf' Hfit) as (v & Hw & Hok' & Hc').
  exists v. split; [|done]. unfold updateSuperblockFreeBlocks, deref_sb, modify, mbind, M_bind. rewrite Hsb.
  assert (Em : (if S_free_blocks_count_lo sb + delta <? 0 then 0 else S_free_blocks_count_lo sb + delta)
               = Z.max 0 (S_free_blocks_count_lo sb + delta)).
  { destruct (Z.ltb_spec (S_free_blocks_count_lo sb + delta) 0); lia. }
  rewrite Em. fold sb'. exact Hw.
Qed.

(** The common tail of [AllocateBlock] and [FreeBlock]. *)
Lemma commit_group {A} fs sb g bgd bgd' bm m1 m2 delta (k : FS D A) :
  fs_ok fs -> group_ok fs sb g bgd -> struct_wf bgd' -> zlen bm = BlockSize fs ->
  let off := bitmap_block fs bgd * BlockSize fs in
  let sb' := set_S_free_blocks_count_lo (w32 (Z.max 0 (S_free_blocks_count_lo sb + delta))) sb in
  exists fs',
    (wrap m1 (fs_WriteAt (block_offset (BlockSize fs) (bitmap_block fs bgd)) bm) ;;
     put_bgd g bgd' ;;
     wrap m2 (WriteGroupDescriptor g bgd') ;;
     updateSuperblockFreeBlocks delta ;; k) fs = k fs' /\
    rewritten fs fs' sb' g bgd' off bm.
Proof.
  intros Hok (Hsb & Hwf & Hfit & Hbgd & Hbwf & Hgd & Hds & Hb & Hbfit & Hbpg & _) Hbwf' Hbm off sb'.
  destruct (write_block fs _ bm Hok Hb Hbfit Hbm) as (v1 & Hw1 & Hok1 & Hc1).
  rewrite (bind_ok _ _ _ _ _ (wrap_ok m1 _ _ _ _ Hw1)).
  set (fs1 := set_Bgds (<[Z.to_nat g := bgd']> (Bgds fs)) (set_dev v1 fs)).
  rewrite (bind_ok (put_bgd g bgd') _ (set_dev v1 fs) fs1 tt eq_refl).
  assert (Hok1' : fs_ok fs1) by exact Hok1.
  assert (Hc1' : fs_content fs1 = put (fs_content fs) off bm) by exact Hc1.
  assert (Hgd1 : gd_at fs1 sb g).
  { destruct Hgd as (? & ? & ? & ? & ?). unfold gd_at. rewrite Hc1', zlen_put. done. }
  destruct (WriteGroupDescriptor_ok fs1 sb g bgd' Hok1' Hgd1 Hds Hbwf') as (v2 & Hw2 & Hok2 & Hc2).
  rewrite (bind_ok _ _ _ _ _ (wrap_ok m2 _ _ _ _ Hw2)).
  destruct (updateSuperblockFreeBlocks_ok (set_dev v2 fs1) sb delta Hok2) as (v3 & Hw3 & Hok3 & Hwf3 & Hc3);
    [done|done|rewrite Hc2, Hc1', !zlen_put; done|].
  rewrite (bind_ok _ _ _ _ _ Hw3). eexists. split; [done|]. split; [by exists v3|]. split; [exact Hok3|].
  rewrite Hc3, Hc2, Hc1'. done.
Qed.

(** Group [g] offers bit [i]: its count is not zero and [i] is the first
    clear bit of its bitmap. *)
Definition first_free fs (bgd : GroupDescriptor) (i : Z) : Prop :=
  lo_hi16 (DescSize fs) (BG_free_blocks_count_lo bgd) (BG_free_blocks_count_hi bgd) <> 0 /\
  0 <= i < 8 * BlockSize fs /\ bit_at (block_bitmap fs bgd) i = false /\
  forall i', 0 <= i' < i -> bit_at (block_bitmap fs bgd) i' = true.
Definition no_free fs (bgd : GroupDescriptor) : Prop :=
  lo_hi16 (DescSize fs) (BG_free_blocks_count_lo bgd) (BG_free_blocks_count_hi bgd) = 0 \/
  forall i, 0 <= i < 8 * BlockSize fs -> bit_at (block_bitmap fs bgd) i = true.

Definition alloc_bgd (bgd : GroupDescriptor) : GroupDescriptor :=
  set_BG_free_blocks_count_lo (w16 (BG_free_blocks_count_lo bgd - 1)) bgd.
Definition alloc_sb (sb : SuperBlock) : SuperBlock :=
  set_S_free_blocks_count_lo (w32 (Z.max 0 (S_free_blocks_count_lo sb + -1))) sb.

(** What allocating bit [i] of group [g] does. *)
Definition allocated fs fs' (sb : SuperBlock) (g : Z) (bgd : GroupDescriptor) (i : Z) : Prop :=
  rewritten fs fs' (alloc_sb sb) g (alloc_bgd bgd) (bitmap_block fs bgd * BlockSize fs)
    (set_bit (block_bitmap fs bgd) (i / 8) (i mod 8)).

Lemma zlen_block_bitmap fs sb g bgd :
  fs_ok fs -> group_ok fs sb g bgd -> zlen (block_bitmap fs bgd) = BlockSize fs.
Proof.
  intros (Hbs & _) (_ & _ & _ & _ & _ & _ & _ & Hb & Hfit & _). unfold block_bitmap. apply zlen_sub; nia.
Qed.

Lemma alloc_block_in_group_spec fs sb g bgd :
  fs_ok fs -> group_ok fs sb g bgd ->
  (alloc_block_in_group (S_blocks_per_group sb) g fs = (Ok None, fs) /\ no_free fs bgd) \/
  (exists i fs', alloc_block_in_group (S_blocks_per_group sb) g fs = (Ok (Some (g * S_blocks_per_group sb + i)), fs') /\
     first_free fs bgd i /\ allocated fs fs' sb g bgd i).
Proof.
  intros Hok Hg. pose proof (zlen_block_bitmap fs sb g bgd Hok Hg) as Hbl.
  pose proof Hok as (Hbs & _).
  pose proof Hg as (Hsb & Hwf & Hfit & Hbgd & Hbwf & Hgd & Hds & Hb & Hbfit & Hbpg & Hmax).
  assert (Hg0 : 0 <= g) by apply Hgd.
  unfold alloc_block_in_group. rewrite (bind_ok _ _ _ _ _ (get_bgd_ok fs g bgd Hg0 Hbgd)).
  rewrite get_bind. cbn zeta. fold (bitmap_block fs bgd).
  destruct (Z.eqb_spec (lo_hi16 (DescSize fs) (BG_free_blocks_count_lo bgd) (BG_free_blocks_count_hi bgd)) 0)
    as [Ez|Ez]; [left; split; [done|by left]|].
  rewrite (bind_ok _ _ _ _ _ (wrap_ok _ _ _ _ _ (read_block fs _ Hok Hb Hbfit))).
  fold (block_bitmap fs bgd).
  pose proof (scan_bitmap_spec (block_bitmap fs bgd) 0 0 ltac:(lia)) as Hscan. rewrite Hbl in Hscan.
  destruct (scan_bitmap (block_bitmap fs bgd) 0 0) as [[j k]|]; [right|left; split; [done|by right]].
  rewrite Z.sub_0_r in Hscan. destruct Hscan as (Hj & Hk & Hc & _ & Hall).
  set (i := 8 * j + k) in *. destruct (bit_position j k i Hk eq_refl) as [E1 E2].
  destruct (commit_group fs sb g bgd (alloc_bgd bgd) (set_bit (block_bitmap fs bgd) j k)
    "AllocateBlock: failed to write block bitmap for group %d: %w" "AllocateBlock: %w" (-1)
    (mret (Some (w64 (w64 (w64 (g * S_blocks_per_group sb) + j * 8) + k)))))
    as (fs' & E & Hr); [done|done| |by rewrite zlen_set_bit|].
  { apply bgd_free_blocks_wf; [done|apply w16_range]. }
  exists i, fs'. split; [|split].
  - unfold alloc_bgd in E. etransitivity; [exact E|]. unfold mret, M_ret. do 3 f_equal.
    assert (0 <= g * S_blocks_per_group sb) by (apply Z.mul_nonneg_nonneg; lia).
    rewrite (w64_id (g * _)), (w64_id (_ + j * 8)), w64_id by lia. lia.
  - split; [done|]. split; [lia|]. split; [done|]. intros i' Hi'. apply Hall. lia.
  - unfold allocated. rewrite E1, E2. exact Hr.
Qed.

Lemma deref_sb_ok fs sb : Superblock fs = Some sb -> deref_sb fs = (Ok sb, fs).
Proof. intros E. unfold deref_sb. by rewrite E. Qed.

Lemma AllocateBlock_spec fs sb :
  fs_ok fs -> Superblock fs = Some sb ->
  (forall g, 0 <= g < GroupCount fs -> exists bgd, group_ok fs sb g bgd) ->
  (exists g bgd i fs',
     AllocateBlock fs = (Ok (g * S_blocks_per_group sb + i), fs') /\
     0 <= g < GroupCount fs /\ group_ok fs sb g bgd /\ first_free fs bgd i /\
     (forall g' bgd', 0 <= g' < g -> Bgds fs !! Z.to_nat g' = Some bgd' -> no_free fs bgd') /\
     allocated fs fs' sb g bgd i) \/
  (AllocateBlock fs = (Err (Errorf "AllocateBlock: no free blocks available"), fs) /\
   forall g' bgd', 0 <= g' < GroupCount fs -> Bgds fs !! Z.to_nat g' = Some bgd' -> no_free fs bgd').
Proof.
  intros Hok Hsb Hgroups. unfold AllocateBlock.
  rewrite (bind_ok _ _ _ _ _ (deref_sb_ok fs sb Hsb)), get_bind.
  set (body := alloc_block_in_group (S_blocks_per_group sb)).
  assert (Hnone : forall g bgd, 0 <= g < GroupCount fs -> Bgds fs !! Z.to_nat g = Some bgd ->
    body g fs = (Ok None, fs) -> no_free fs bgd).
  { intros g bgd Hg Hbgd Eb. destruct (Hgroups g Hg) as [bgd' Hgok].
    assert (bgd' = bgd) as -> by (destruct Hgok as (_ & _ & _ & E & _); congruence).
    destruct (alloc_block_in_group_spec fs sb g bgd Hok Hgok) as [[_ ?]|(i & fs' & E & _)]; [done|].
    unfold body in Eb. congruence. }
  destruct (firstM_first (seqZ 0 (GroupCount fs)) body fs) as [(l1 & g & l2 & v & fs' & El & H1 & H2 & H3)|[H1 H2]].
  - intros g Hg%elem_of_seqZ. destruct (Hgroups g) as [bgd Hgok]; [lia|].
    destruct (alloc_block_in_group_spec fs sb g bgd Hok Hgok) as [[? _]|(i & fs' & E & _)]; [by left|].
    right. by exists (g * S_blocks_per_group sb + i), fs'.
  - left. assert (Hg : g ∈ seqZ 0 (GroupCount fs)) by (rewrite El; set_solver).
    apply elem_of_seqZ in Hg. destruct (Hgroups g) as [bgd Hgok]; [lia|].
    destruct (alloc_block_in_group_spec fs sb g bgd Hok Hgok) as [[E _]|(i & fs2 & E & Hf & Ha)];
      unfold body in H2; rewrite E in H2; [done|].
    injection H2 as <- <-. exists g, bgd, i, fs2. rewrite (bind_ok _ _ _ _ _ H3).
    split; [done|]. split; [lia|]. split; [done|]. split; [done|]. split; [|done].
    intros g' bgd' Hg' Hbgd'. apply (Hnone g'); [lia|done|]. apply H1.
    assert (Hin : g' ∈ seqZ 0 (GroupCount fs)) by (apply elem_of_seqZ; lia).
    rewrite El in Hin. apply elem_of_app in Hin as [?|Hin]; [done|]. exfalso.
    apply list_elem_of_lookup in Hin as [n Hn].
    assert (Hlt : seqZ 0 (GroupCount fs) !! (length l1 + n)%nat = Some g').
    { rewrite El, lookup_app_r by lia. by replace (length l1 + n - length l1)%nat with n by lia. }
    assert (Hgt : seqZ 0 (GroupCount fs) !! (length l1)%nat = Some g).
    { rewrite El, lookup_app_r, Nat.sub_diag by lia. done. }
    apply lookup_seqZ in Hlt, Hgt. lia.
  - right. rewrite (bind_ok _ _ _ _ _ H1). split; [done|]. intros g' bgd' Hg' Hbgd'.
    apply (Hnone g'); [done|done|]. apply H2. apply elem_of_seqZ. lia.
Qed.
(** C18: [AllocateBlock] takes the first free block of the volume: the first
    clear bit of the first group that has both a non-zero count and a clear
    bit; it sets that bit, decrements the group count and the volume count
    (which stays at zero) and rewrites exactly the bitmap, the descriptor and
    the superblock.  It fails, and changes nothing, exactly when no group
    offers a block. *)
Theorem AllocateBlock_first_free fs sb :
  fs_ok fs -> Superblock fs = Some sb ->
  (forall g, 0 <= g < GroupCount fs -> exists bgd, group_ok fs sb g bgd) ->
  (exists g bgd i fs',
     AllocateBlock fs = (Ok (g * S_blocks_per_group sb + i), fs') /\
     0 <= g < GroupCount fs /\ group_ok fs sb g bgd /\ first_free fs bgd i /\
     (forall g' bgd', 0 <= g' < g -> Bgds fs !! Z.to_nat g' = Some bgd' -> no_free fs bgd') /\
     allocated fs fs' sb g bgd i) \/
  (AllocateBlock fs = (Err (Errorf "AllocateBlock: no free blocks available"), fs) /\
   forall g' bgd', 0 <= g' < GroupCount fs -> Bgds fs !! Z.to_nat g' = Some bgd' -> no_free fs bgd').
Proof. intros Hok Hsb Hgroups. by apply AllocateBlock_spec. Qed.

(** ** Releasing a block *)
Definition free_bgd (bgd : GroupDescriptor) : GroupDescriptor :=
  set_BG_free_blocks_count_lo (w16 (BG_free_blocks_count_lo bgd + 1)) bgd.
Definition free_sb (sb : SuperBlock) : SuperBlock :=
  set_S_free_blocks_count_lo (w32 (Z.max 0 (S_free_blocks_count_lo sb + 1))) sb.

(** Block [n] is bit [i] of group [g]. *)
Definition block_at fs (sb : SuperBlock) (n g i : Z) : Prop :=
  n = g * S_blocks_per_group sb + i /\ 0 <= g < GroupCount fs /\ GroupCount fs < 2 ^ 32 /\
  0 <= i < S_blocks_per_group sb /\ i < 8 * BlockSize fs.

Lemma FreeBlock_spec fs sb n g i bgd :
  fs_ok fs -> group_ok fs sb g bgd -> block_at fs sb n g i ->
  if bit_at (block_bitmap fs bgd) i then
    exists fs', FreeBlock n fs = (Ok tt, fs') /\
      rewritten fs fs' (free_sb sb) g (free_bgd bgd) (bitmap_block fs bgd * BlockSize fs)
        (clear_bit (block_bitmap fs bgd) (i / 8) (i mod 8))
  else FreeBlock n fs = (Err (Errorf "FreeBlock: block %d is already free"), fs).
Proof.
  intros Hok Hg (-> & Hgc & Hmaxg & Hi & Hi8).
  pose proof (zlen_block_bitmap fs sb g bgd Hok Hg) as Hbl.
  pose proof Hg as (Hsb & Hwf & Hfit & Hbgd & Hbwf & Hgd & Hds & Hb & Hbfit & Hbpg & Hmax).
  pose proof (Z.mod_pos_bound i 8 ltac:(lia)) as Hm. pose proof (Z.div_mod i 8 ltac:(lia)) as Hdm.
  unfold FreeBlock. rewrite (bind_ok _ _ _ _ _ (deref_sb_ok fs sb Hsb)). cbn zeta.
  rewrite (proj2 (Z.eqb_neq _ 0)) by lia. rewrite get_bind.
  assert (Ed : (g * S_blocks_per_group sb + i) / S_blocks_per_group sb = g)
    by (symmetry; apply (Z.div_unique _ _ _ i); lia).
  assert (Em : (g * S_blocks_per_group sb + i) mod S_blocks_per_group sb = i)
    by (symmetry; apply (Z.mod_unique _ _ g); lia).
  rewrite Ed, Em, w32_id by lia. rewrite (proj2 (Z.leb_gt _ _)) by lia.
  rewrite (bind_ok _ _ _ _ _ (get_bgd_ok fs g bgd (proj1 Hgc) Hbgd)). cbn zeta. fold (bitmap_block fs bgd).
  rewrite (bind_ok _ _ _ _ _ (wrap_ok _ _ _ _ _ (read_block fs _ Hok Hb Hbfit))).
  fold (block_bitmap fs bgd). assert (Hj : 0 <= i / 8 < BlockSize fs) by lia.
  destruct (index_in (block_bitmap fs bgd) (i / 8)) as (b & Hlb & Eb); [lia|].
  rewrite Eb, lift_ok_bind.
  assert (Hbit : bit_at (block_bitmap fs bgd) i = Z.testbit (byte.unsigned b) (i mod 8)).
  { unfold bit_at, get_byte. by rewrite Hlb. }
  rewrite Hbit, land_bit by lia. destruct (Z.testbit (byte.unsigned b) (i mod 8)); cbn [negb]; [|done].
  destruct (commit_group fs sb g bgd (free_bgd bgd) (clear_bit (block_bitmap fs bgd) (i / 8) (i mod 8))
    "FreeBlock: failed to write block bitmap for group %d: %w" "FreeBlock: %w" 1 (mret tt))
    as (fs' & E & Hr); [done|done| |by rewrite zlen_clear_bit|].
  { apply bgd_free_blocks_wf; [done|apply w16_range]. }
  exists fs'. split; [|exact Hr]. etransitivity; [|exact E].
  do 3 (apply bind_ext; intros). symmetry. apply M_right_unit.
Qed.

(** Freeing a block that is already free is reported and changes
    nothing, neither on the device nor in memory. *)
Theorem FreeBlock_double_free fs sb n g i bgd :
  fs_ok fs -> group_ok fs sb g bgd -> block_at fs sb n g i ->
  bit_at (block_bitmap fs bgd) i = false ->
  FreeBlock n fs = (Err (Errorf "FreeBlock: block %d is already free"), fs).
Proof.
  intros Hok Hg Hat Hbit. pose proof (FreeBlock_spec fs sb n g i bgd Hok Hg Hat) as Hf. by rewrite Hbit in Hf.
Qed.

(** The bitmap block is neither in the superblock nor in the descriptor. *)
Definition bitmap_apart fs (sb : SuperBlock) (g : Z) (bgd : GroupDescriptor) : Prop :=
  let o := bitmap_block fs bgd * BlockSize fs in
  (o + BlockSize fs <= 1024 \/ 2048 <= o) /\
  (o + BlockSize fs <= gd_offset sb g \/ gd_offset sb g + 64 <= o).

Lemma rewritten_bitmap fs fs' sb sb' g bgd bgd' bm :
  fs_ok fs -> group_ok fs sb g bgd -> bitmap_apart fs sb g bgd -> struct_wf bgd' -> struct_wf sb' ->
  bitmap_block fs bgd' = bitmap_block fs bgd ->
  zlen bm = BlockSize fs -> rewritten fs fs' sb' g bgd' (bitmap_block fs bgd * BlockSize fs) bm ->
  gd_offset sb' g = gd_offset sb g ->
  block_bitmap fs' bgd' = bm.
Proof.
  intros (Hbs & _) Hg [Ha1 Ha2] Hwb Hws Hbb Hl ([v Hv] & _ & Hc) Hgd.
  destruct Hg as (_ & _ & Hfit & _ & _ & Hat & Hds & Hb & Hbfit & _).
  assert (Ebs : BlockSize fs' = BlockSize fs) by by rewrite Hv.
  assert (Ebb : bitmap_block fs' bgd' = bitmap_block fs bgd) by (by rewrite <- Hbb, Hv).
  unfold block_bitmap. rewrite Ebs, Ebb, Hc.
  destruct Hat as (_ & Hg0 & Hbs0 & Hdsz & Hgfit).
  assert (H0off : 0 <= gd_offset sb' g).
  { rewrite Hgd. unfold gd_offset, descTableStart.
    assert (0 <= g * GroupDescriptorSize sb) by (apply Z.mul_nonneg_nonneg; lia). case_match; lia. }
  assert (Hlg : zlen (binary_Write bgd') = 64) by by rewrite zlen_binary_Write.
  assert (Hls : zlen (binary_Write sb') = 1024) by by rewrite zlen_binary_Write.
  assert (0 <= bitmap_block fs bgd * BlockSize fs) by (apply Z.mul_nonneg_nonneg; lia).
  rewrite sub_put_disj by lia. rewrite sub_put_disj by (rewrite ?Hlg, ?Hgd in *; lia).
  rewrite <- Hl. apply sub_put_same; [lia|]. rewrite Hl. lia.
Qed.

Lemma rewritten_group_ok fs fs' sb g bgd off bm nf nb :
  group_ok fs sb g bgd -> 0 <= nf < 2 ^ 32 -> 0 <= nb < 2 ^ 16 ->
  rewritten fs fs' (set_S_free_blocks_count_lo nf sb) g (set_BG_free_blocks_count_lo nb bgd) off bm ->
  group_ok fs' (set_S_free_blocks_count_lo nf sb) g (set_BG_free_blocks_count_lo nb bgd).
Proof.
  intros (Hsb & Hwf & Hfit & Hbgd & Hbwf & Hgd & Hds & Hb & Hbfit & Hbpg & Hmax) Hnf Hnb ([v Hv] & _ & Hc).
  assert (Hlen : zlen (fs_content fs') = zlen (fs_content fs)) by by rewrite Hc, !zlen_put.
  unfold group_ok, gd_at, gd_offset. rewrite Hlen.
  split; [by rewrite Hv|]. split; [by apply free_blocks_wf|]. split; [done|].
  split. { rewrite Hv. cbn. rewrite list_lookup_insert_eq; [done|]. by eapply lookup_lt_Some. }
  split; [by apply bgd_free_blocks_wf|].
  destruct Hgd as (_ & Hgd). split; [split; [by rewrite Hv|exact Hgd]|].
  rewrite Hv. done.
Qed.

(** The bits behind the last block of the group are set. *)
Definition bitmap_padded fs (sb : SuperBlock) (bgd : GroupDescriptor) : Prop :=
  forall i, S_blocks_per_group sb <= i < 8 * BlockSize fs -> bit_at (block_bitmap fs bgd) i = true.

(** The group of a block that has been allocated. *)
Lemma allocated_group fs fs' sb g bgd i :
  fs_ok fs -> group_ok fs sb g bgd -> bitmap_apart fs sb g bgd -> 0 <= i < 8 * BlockSize fs ->
  allocated fs fs' sb g bgd i ->
  group_ok fs' (alloc_sb sb) g (alloc_bgd bgd) /\
  block_bitmap fs' (alloc_bgd bgd) = set_bit (block_bitmap fs bgd) (i / 8) (i mod 8).
Proof.
  intros Hok Hg Hap Hi Ha. unfold allocated in Ha. pose proof (zlen_block_bitmap fs sb g bgd Hok Hg) as Hbl.
  assert (Hg1 : group_ok fs' (alloc_sb sb) g (alloc_bgd bgd)).
  { eapply rewritten_group_ok; [done|apply w32_range|apply w16_range|exact Ha]. }
  split; [done|]. destruct Hg1 as (_ & Hw1 & _ & _ & Hw2 & _).
  eapply (rewritten_bitmap fs fs' sb (alloc_sb sb) g bgd); try done. by rewrite zlen_set_bit.
Qed.

(** Counting down and up again. *)
Lemma free_alloc_bgd bgd : struct_wf bgd -> free_bgd (alloc_bgd bgd) = bgd.
Proof.
  intros (_ & _ & _ & Hx & _). change (0 <= BG_free_blocks_count_lo bgd < 2 ^ 16) in Hx.
  unfold free_bgd, alloc_bgd. destruct bgd. cbn in *. by rewrite w16_pred_succ.
Qed.
Lemma free_alloc_sb sb : struct_wf sb -> 1 <= S_free_blocks_count_lo sb -> free_sb (alloc_sb sb) = sb.
Proof.
  intros (_ & _ & _ & Hx & _) Hne. change (0 <= S_free_blocks_count_lo sb < 2 ^ 32) in Hx.
  assert (En : w32 (Z.max 0 (w32 (Z.max 0 (S_free_blocks_count_lo sb + -1)) + 1)) = S_free_blocks_count_lo sb).
  { rewrite (w32_id (Z.max 0 (S_free_blocks_count_lo sb + -1))), w32_id; lia. }
  unfold free_sb, alloc_sb. destruct sb. cbn in *. by rewrite En.
Qed.

(** The descriptor of group [g] and the superblock on the device are the ones
    in memory. *)
Definition tables_stored fs (sb : SuperBlock) (g : Z) (bgd : GroupDescriptor) : Prop :=
  sub (fs_content fs) (gd_offset sb g) 64 = binary_Write bgd /\ sub (fs_content fs) 1024 1024 = binary_Write sb.

(** Setting and clearing a bit with the tables written along. *)
Lemma rewritten_twice fs fs1 fs2 sb sb1 g bgd bgd1 bm :
  fs_ok fs -> group_ok fs sb g bgd -> bitmap_apart fs sb g bgd -> zlen bm = BlockSize fs ->
  struct_wf bgd1 -> struct_wf sb1 -> gd_offset sb1 g = gd_offset sb g ->
  rewritten fs fs1 sb1 g bgd1 (bitmap_block fs bgd * BlockSize fs) bm ->
  rewritten fs1 fs2 sb g bgd (bitmap_block fs bgd * BlockSize fs) (block_bitmap fs bgd) ->
  (exists v, fs2 = set_dev v fs) /\
  fs_content fs2 = put (put (fs_content fs) (gd_offset sb g) (binary_Write bgd)) 1024 (binary_Write sb) /\
  (tables_stored fs sb g bgd -> fs_content fs2 = fs_content fs).
Proof.
  intros Hok Hg [Ha1 Ha2] Hbm Hw1 Hs1 Egd ([v1 Hv1] & _ & Hc1) ([v2 Hv2] & _ & Hc2). pose proof Hok as (Hbs & _).
  destruct Hg as (Hsb & Hws & _ & Hbgd & Hwb & Hat & Hds & Hb & Hbfit & _).
  assert (0 <= bitmap_block fs bgd * BlockSize fs) by nia.
  assert (Ho : 0 <= gd_offset sb g).
  { destruct Hat as (_ & Hg0 & Hbs0 & Hdsz & _). unfold gd_offset, descTableStart.
    assert (0 <= g * GroupDescriptorSize sb) by (apply Z.mul_nonneg_nonneg; lia). case_match; lia. }
  assert (Hc : fs_content fs2 = put (put (fs_content fs) (gd_offset sb g) (binary_Write bgd)) 1024 (binary_Write sb)).
  { rewrite Hc2, Hc1, Egd. unfold block_bitmap. apply put_restore; rewrite ?zlen_binary_Write; try done; lia. }
  split; [|split; [exact Hc|]].
  - exists v2. rewrite Hv2, Hv1. cbn. rewrite list_insert_insert_eq, (list_insert_id (Bgds fs)) by exact Hbgd.
    destruct fs. cbn in *. by subst.
  - intros [E1 E2]. rewrite Hc, <- E1, put_sub_id, <- E2 by lia. by apply put_sub_id.
Qed.

(** C30: Freeing the block that [AllocateBlock] has just returned succeeds
    and undoes the allocation: the file system is the one before but for its
    device, where nothing has changed but the descriptor of the group and
    the superblock, which are now the ones in memory.  If they were before,
    the device reads as before byte for byte. *)
Theorem FreeBlock_undoes_AllocateBlock fs fs' sb n :
  fs_ok fs -> Superblock fs = Some sb -> GroupCount fs < 2 ^ 32 -> 1 <= S_free_blocks_count_lo sb ->
  (forall g, 0 <= g < GroupCount fs -> exists bgd,
     group_ok fs sb g bgd /\ bitmap_apart fs sb g bgd /\ bitmap_padded fs sb bgd) ->
  AllocateBlock fs = (Ok n, fs') ->
  exists v, FreeBlock n fs' = (Ok tt, set_dev v fs) /\
    forall g bgd, n / S_blocks_per_group sb = g -> Bgds fs !! Z.to_nat g = Some bgd ->
      block_bitmap (set_dev v fs) bgd = block_bitmap fs bgd /\
      fs_content (set_dev v fs) = put (put (fs_content fs) (gd_offset sb g) (binary_Write bgd)) 1024 (binary_Write sb) /\
      (tables_stored fs sb g bgd -> fs_content (set_dev v fs) = fs_content fs).
Proof.
  intros Hok Hsb Hgc Hcnt Hgroups Halloc.
  destruct (AllocateBlock_spec fs sb Hok Hsb) as [(g & bgd & i & fs1 & E & Hg & Hgok & Hff & _ & Ha)|[E _]];
    [|rewrite E in Halloc; injection Halloc as <- <-|congruence].
  { intros g Hg. destruct (Hgroups g Hg) as (bgd & ? & _). by exists bgd. }
  assert (Hap : bitmap_apart fs sb g bgd /\ bitmap_padded fs sb bgd).
  { destruct (Hgroups g Hg) as (bgd' & (_ & _ & _ & E' & _) & Hap).
    destruct Hgok as (_ & _ & _ & E2 & _). by simplify_eq. }
  destruct Hap as [Hapart Hpad]. destruct Hff as (Hne & Hi & Hclear & _).
  assert (Hibpg : i < S_blocks_per_group sb).
  { destruct (Z.lt_ge_cases i (S_blocks_per_group sb)); [done|].
    rewrite Hpad in Hclear by lia. done. }
  pose proof (zlen_block_bitmap fs sb g bgd Hok Hgok) as Hbl.
  pose proof (Z.mod_pos_bound i 8 ltac:(lia)) as Hm. pose proof (Z.div_mod i 8 ltac:(lia)) as Hdm.
  destruct (allocated_group fs fs1 sb g bgd i Hok Hgok Hapart Hi Ha) as [Hg1 Hbm1]. unfold allocated in Ha.
  pose proof Ha as ([v Hv] & Hok1 & Hc1).
  assert (Hat : block_at fs1 (alloc_sb sb) (g * S_blocks_per_group sb + i) g i).
  { unfold block_at. rewrite Hv. cbn [GroupCount BlockSize set_dev set_sb set_Bgds].
    change (S_blocks_per_group (alloc_sb sb)) with (S_blocks_per_group sb). lia. }
  pose proof (FreeBlock_spec fs1 (alloc_sb sb) _ g i (alloc_bgd bgd) Hok1 Hg1 Hat) as Hfree.
  rewrite Hbm1, bit_at_set in Hfree by lia.
  rewrite (proj2 (Z.eqb_eq i _)) in Hfree by lia. cbn [orb] in Hfree.
  rewrite clear_set_bit in Hfree; [|lia|lia|by replace (8 * (i / 8) + i mod 8) with i by lia].
  destruct Hfree as (fs'' & Ef & Hr).
  assert (Hbwf : struct_wf bgd) by apply Hgok. assert (Hswf : struct_wf sb) by apply Hgok.
  assert (Ebgd : free_bgd (alloc_bgd bgd) = bgd) by by apply free_alloc_bgd.
  assert (Esb : free_sb (alloc_sb sb) = sb) by by apply free_alloc_sb.
  assert (Hbgd : Bgds fs !! Z.to_nat g = Some bgd) by apply Hgok.
  assert (Hap1 : bitmap_apart fs1 (alloc_sb sb) g (alloc_bgd bgd)) by (unfold bitmap_apart; rewrite Hv; exact Hapart).
  rewrite Ebgd, Esb in Hr.
  assert (Hr' : rewritten fs1 fs'' sb g bgd (bitmap_block fs bgd * BlockSize fs) (block_bitmap fs bgd)) by (by rewrite Hv in Hr |- *).
  destruct (rewritten_twice fs fs1 fs'' sb (alloc_sb sb) g bgd (alloc_bgd bgd) _ Hok Hgok Hapart
    (eq_trans (zlen_set_bit _ _ _) Hbl) (proj1 (proj2 (proj2 (proj2 (proj2 Hg1))))) (proj1 (proj2 Hg1)) eq_refl Ha Hr')
    as ([v2 Hv2] & Hc & Hst).
  exists v2. rewrite <- Hv2. split; [exact Ef|]. intros g' bgd' Hn Hbgd'.
  assert (g' = g) as ->. { rewrite <- Hn. symmetry. apply (Z.div_unique _ _ _ i); lia. }
  assert (bgd' = bgd) as -> by congruence. split; [|by split].
  eapply (rewritten_bitmap fs1 fs'' (alloc_sb sb) sb g (alloc_bgd bgd)); try done. rewrite Hv. exact Hbl.
Qed.
End allocation_laws.

(** ** Examples *)
Lemma ex_block_bitmap :
  bitmap_block ex_ext4 ex_gd = 33 /\
  block_bitmap ex_ext4 ex_gd = (byte.of_Z <$> [255; 255; 255; 255; 255; 31]) ++ replicate 58 Byte.xff.
Proof. vm_compute. split; reflexivity. Qed.

Lemma ex_group_ok g : 0 <= g < 1 -> exists bgd,
  group_ok ex_ext4 ex_sb g bgd /\ bitmap_apart ex_ext4 ex_sb g bgd /\ bitmap_padded ex_ext4 ex_sb bgd.
Proof.
  intros Hg. assert (g = 0) as -> by lia. exists ex_gd.
  destruct ex_sb_fields as (Eipg & Ebpg & Ecnt & Em & Eds & Ebs & Eraw & Est & Efree).
  destruct ex_block_bitmap as [Ebb Ebm]. split; [|split].
  - unfold group_ok. rewrite ex_ext4_len, Ebpg, Eds, Ebb. change (BlockSize ex_ext4) with 64.
    split; [reflexivity|]. split; [apply ex_sb_wf|]. split; [lia|]. split; [reflexivity|].
    split; [apply ex_gd_wf|]. split; [apply ex_gd_at|]. lia.
  - unfold bitmap_apart, gd_offset. rewrite Ebb, Est. change (BlockSize ex_ext4) with 64. lia.
  - unfold bitmap_padded. rewrite Ebpg, Ebm. change (BlockSize ex_ext4) with 64. intros i Hi.
    set (bm := _ ++ _).
    assert (Hall : forallb (bit_at bm) (seqZ 48 464) = true) by (vm_compute; reflexivity).
    rewrite forallb_forall in Hall. apply Hall, list_elem_of_In, elem_of_seqZ. lia.
Qed.

Lemma ex_groups g : 0 <= g < GroupCount ex_ext4 -> exists bgd, group_ok ex_ext4 ex_sb g bgd.
Proof. intros Hg. destruct (ex_group_ok g Hg) as (bgd & ? & _). by exists bgd. Qed.

Lemma AllocateBlock_first_free_witness : exists n fs', AllocateBlock ex_ext4 = (Ok n, fs').
Proof.
  destruct (AllocateBlock_first_free ex_ext4 ex_sb ex_ext4_ok eq_refl ex_groups)
    as [(g & bgd & i & fs' & E & _)|[_ Hnone]]; [eexists; eexists; exact E|exfalso].
  destruct (Hnone 0 ex_gd ltac:(change (GroupCount ex_ext4) with 1; lia) eq_refl) as [Hz|Hfull].
  - vm_compute in Hz. discriminate Hz.
  - specialize (Hfull 45 ltac:(change (BlockSize ex_ext4) with 64; lia)).
    vm_compute in Hfull. discriminate Hfull.
Defined.

Lemma ex_block_46 : block_at ex_ext4 ex_sb 46 0 46.
Proof.
  destruct ex_sb_fields as (_ & Ebpg & _). unfold block_at. rewrite Ebpg.
  change (GroupCount ex_ext4) with 1. change (BlockSize ex_ext4) with 64. lia.
Qed.

Lemma ex_group_0 : group_ok ex_ext4 ex_sb 0 ex_gd.
Proof.
  destruct (ex_groups 0) as (bgd & Hg); [change (GroupCount ex_ext4) with 1; lia|].
  pose proof Hg as (_ & _ & _ & E & _). by injection E as <-.
Qed.

Lemma FreeBlock_double_free_witness :
  FreeBlock 46 ex_ext4 = (Err (Errorf "FreeBlock: block %d is already free"), ex_ext4).
Proof.
  apply (FreeBlock_double_free ex_ext4 ex_sb 46 0 46 ex_gd).
  - apply ex_ext4_ok.
  - apply ex_group_0.
  - apply ex_block_46.
  - vm_compute. reflexivity.
Defined.

Lemma ex_alloc : AllocateBlock ex_ext4 = (Ok 45, (AllocateBlock ex_ext4).2).
Proof.
  assert (E : (AllocateBlock ex_ext4).1 = Ok 45) by (vm_compute; reflexivity).
  destruct (AllocateBlock ex_ext4) as [r fs']. cbn in *. by rewrite E.
Qed.

Lemma ex_tables_stored : tables_stored ex_ext4 ex_sb 0 ex_gd.
Proof. split; vm_compute; reflexivity. Qed.

Lemma FreeBlock_undoes_AllocateBlock_witness :
  exists v, FreeBlock 45 (AllocateBlock ex_ext4).2 = (Ok tt, set_dev v ex_ext4) /\
    fs_content (set_dev v ex_ext4) = fs_content ex_ext4.
Proof.
  destruct ex_sb_fields as (_ & Ebpg & _ & _ & _ & _ & _ & _ & Efree).
  destruct (FreeBlock_undoes_AllocateBlock ex_ext4 (AllocateBlock ex_ext4).2 ex_sb 45) as (v & E & Hc).
  - apply ex_ext4_ok.
  - reflexivity.
  - change (GroupCount ex_ext4) with 1. lia.
  - rewrite Efree. lia.
  - intros g Hg. by apply ex_group_ok.
  - apply ex_alloc.
  - exists v. split; [exact E|]. apply (Hc 0 ex_gd); [by rewrite Ebpg|reflexivity|apply ex_tables_stored].
Defined.
