(* ===== verification/Extents.v ===== *)
(** Extent trees: [src/vfs/extents.go] and the insertion of extents of
    [src/vfs/allocate.go]. *)
From S2P Require Export Alloc.

(** ** Reading *)
Fixpoint parseLeafEntries_loop (data : list byte) (slots : list Z) (extents : list Extent)
    : res (list Extent) :=
  match slots with
  | [] => Ok extents
  | i :: slots' =>
      let offset := i * extentEntrySize in
      if zlen data <? offset + extentEntrySize
      then Err (Errorf "extent entry %d extends beyond leaf node data")
      else
        match binary_Read (A := Extent) (sub data offset extentEntrySize) with
        | Ok ext => parseLeafEntries_loop data slots' (extents ++ [ext])
        | Err e => Err (Wrapf "failed to decode extent entry %d: %w" e)
        | Panic => Panic
        | OutOfFuel => OutOfFuel
        end
  end.

Definition parseLeafEntries (data : list byte) (count : Z) : res (list Extent) :=
  parseLeafEntries_loop data (seqZ 0 count) [].

Definition idx_leaf (idx : ExtentIdx) : Z := Z.lor (Z.shiftl (EI_leaf_hi idx) 32) (EI_leaf_lo idx).

(** [copy(buf[12 + i*12:], encoded entry)] for the entries from slot [i] on. *)
Fixpoint write_entries {A} `{Binary A} (buf : list byte) (i : Z) (l : list A) : res (list byte) :=
  match l with
  | [] => Ok buf
  | x :: l' =>
      buf <- copy_at buf (extentHeaderSize + i * extentEntrySize) (binary_Write x) ;;
      write_entries buf (i + 1) l'
  end.

(** The entries in the slots of a node, each sliced and decoded. *)
Fixpoint read_entries {A} `{Binary A} (data : list byte) (slots : list Z) : res (list A) :=
  match slots with
  | [] => Ok []
  | i :: slots' =>
      let off := extentHeaderSize + i * extentEntrySize in
      raw <- slice data off (off + extentEntrySize) ;;
      x <- binary_Read raw ;;
      l <- read_entries data slots' ;;
      Ok (x :: l)
  end.

(** A fresh node: header and entries in a zeroed buffer. *)
Definition new_node {A} `{Binary A} (size : Z) (hdr : ExtentHeader) (l : list A) : res (list byte) :=
  _ <- slice (zeros size) 0 extentHeaderSize ;;
  write_entries (put (zeros size) 0 (binary_Write hdr)) 0 l.

(** [insertIdx]: the first entry that is not before the new one. *)
Fixpoint insert_index (blocks : list Z) (block : Z) : nat :=
  match blocks with
  | [] => O
  | b :: blocks' => if block <=? b then O else S (insert_index blocks' block)
  end.

Definition insert_at {A} (i : nat) (x : A) (l : list A) : list A := take i l ++ x :: drop i l.

(** Both append functions first try to extend the last extent. *)
Definition merge_extents (lastExt newExt : Extent) : option Extent :=
  let lastBlockEnd := EE_block lastExt + ext_count lastExt in
  let lastPhysEnd := EE_start_lo lastExt + ext_count lastExt in
  if (EE_start_hi lastExt =? EE_start_hi newExt) && (lastBlockEnd =? EE_block newExt) &&
     (lastPhysEnd =? EE_start_lo newExt) && negb (ext_uninit lastExt) && negb (ext_uninit newExt)
  then
    let combinedLen := ext_count lastExt + ext_count newExt in
    if combinedLen <=? 0x7FFF
    then Some (set_EE_len (Z.lor (Z.land (EE_len lastExt) 0x8000) (w16 combinedLen)) lastExt)
    else None
  else None.

(** The node after the extent has been appended: merged into the last entry
    or put behind it with the count of the header increased. *)
Definition append_entry (data : list byte) (hdr : ExtentHeader) (newExt : Extent) : res (list byte) :=
  let entries := EH_entries hdr in
  let lastOff := extentHeaderSize + (entries - 1) * extentEntrySize in
  merged <-
    (if 0 <? entries then
       raw <- slice data lastOff (lastOff + extentEntrySize) ;;
       lastExt <- binary_Read (A := Extent) raw ;;
       Ok (merge_extents lastExt newExt)
     else Ok None) ;;
  match merged with
  | Some ext => copy_at data lastOff (binary_Write ext)
  | None =>
      data <- copy_at data (extentHeaderSize + entries * extentEntrySize) (binary_Write newExt) ;;
      _ <- slice data 0 extentHeaderSize ;;
      Ok (put data 0 (binary_Write (set_EH_entries (w16 (entries + 1)) hdr)))
  end.

Section extents.
Context {D : Type} `{ReadWriterAt D} `{Env}.

Fixpoint parseExtentNode (depth : nat) (data : list byte) : FS D (list Extent) :=
  match depth with
  | O => lift OutOfFuel
  | S depth =>
      if zlen data <? extentHeaderSize
      then fail (Errorf "extent node too small: %d bytes (need at least %d)")
      else
        hdr <- wrap "failed to decode extent header: %w"
                 (lift (binary_Read (A := ExtentHeader) (sub data 0 extentHeaderSize))) ;;
        if negb (EH_magic hdr =? EXT4_EXT_MAGIC)
        then fail (Errorf "bad extent magic: expected 0x%04X, got 0x%04X")
        else if EH_depth hdr =? 0
        then lift (parseLeafEntries (drop (Z.to_nat extentHeaderSize) data) (EH_entries hdr))
        else
          forM (seqZ 0 (EH_entries hdr)) [] (fun i all =>
            let entryOffset := extentHeaderSize + i * extentEntrySize in
            if zlen data <? entryOffset + extentEntrySize
            then fail (Errorf "extent index %d extends beyond node data")
            else
              idx <- wrap "failed to decode extent index %d: %w"
                       (lift (binary_Read (A := ExtentIdx) (sub data entryOffset extentEntrySize))) ;;
              fs <- get ;;
              childBuf <- wrap "failed to read extent index block %d (offset %d): %w"
                            (fs_ReadAt (block_offset (BlockSize fs) (idx_leaf idx)) (BlockSize fs)) ;;
              childExtents <- wrap "failed to parse child extent node at block %d: %w"
                                (parseExtentNode depth childBuf) ;;
              mret (all ++ childExtents))
  end.

Definition ReadExtents (inode : Inode) : FS D (list Extent) :=
  if negb (UsesExtents inode)
  then fail (Errorf "inode uses legacy indirect block addressing (EXT4_EXTENTS_FL not set in I_flags=0x%08x); indirect block scheme is not yet supported")
  else parseExtentNode fuel (I_block inode).

(** ** Inserting

    The functions that store through the inode return the updated inode. *)
Definition appendExtentToLeaf (inode : Inode) (hdr : ExtentHeader) (newExt : Extent) : FS D Inode :=
  data <- lift (append_entry (I_block inode) hdr newExt) ;;
  mret (set_I_mtime (w32 now) (set_I_block data inode)).

Definition splitRootLeafAndAppend (inode : Inode) (hdr : ExtentHeader) (newExt : Extent) : FS D Inode :=
  leafBlock <- wrap "splitRootLeaf: failed to allocate leaf block: %w" AllocateBlock ;;
  extents <- lift (read_entries (A := Extent) (I_block inode) (seqZ 0 (EH_entries hdr))) ;;
  fs <- get ;;
  let entries := w16 (zlen extents) in
  let max := w16 (w64 (BlockSize fs - extentHeaderSize) / extentEntrySize) in
  childBuf <- lift (new_node (BlockSize fs) (mkExtentHeader EXT4_EXT_MAGIC entries max 0 0) extents) ;;
  let childBuf := put childBuf 0 (binary_Write (mkExtentHeader EXT4_EXT_MAGIC (w16 (entries + 1)) max 0 0)) in
  childBuf <- lift (copy_at childBuf (extentHeaderSize + entries * extentEntrySize) (binary_Write newExt)) ;;
  wrap "splitRootLeaf: failed to write child leaf block: %w"
    (fs_WriteAt (block_offset (BlockSize fs) leafBlock) childBuf) ;;
  first <- lift (index extents 0) ;;
  let rootHdr := mkExtentHeader EXT4_EXT_MAGIC 1 4 1 0 in
  let rootIdx := mkExtentIdx (EE_block first) (w32 leafBlock) (w16 (Z.shiftr leafBlock 32)) 0 in
  let data := put (put (zeros 60) 0 (binary_Write rootHdr)) extentHeaderSize (binary_Write rootIdx) in
  mret (set_I_mtime (w32 now) (set_I_block data inode)).

Definition appendExtentToLeafBlock (blockNum : Z) (buf : list byte) (hdr : ExtentHeader)
    (newExt : Extent) : FS D unit :=
  buf <- lift (append_entry buf hdr newExt) ;;
  fs <- get ;;
  fs_WriteAt (block_offset (BlockSize fs) blockNum) buf.

(** The whole tree moves into a new block below the root. *)
Definition grow_root (inode : Inode) (idx : ExtentIdx) : FS D Inode :=
  rootBlock <- AllocateBlock ;;
  let data := I_block inode in
  hdr <- lift (binary_Read (A := ExtentHeader) (sub data 0 extentHeaderSize)) ;;
  fs <- get ;;
  _ <- lift (slice (zeros (BlockSize fs)) 0 extentHeaderSize) ;;
  let max := w16 (w64 (BlockSize fs - extentHeaderSize) / extentEntrySize) in
  body <- lift (slice data extentHeaderSize (extentHeaderSize + EH_entries hdr * extentEntrySize)) ;;
  let childBuf := put (zeros (BlockSize fs)) extentHeaderSize body in
  let childHdr := mkExtentHeader EXT4_EXT_MAGIC (w16 (EH_entries hdr + 1)) max (EH_depth hdr) 0 in
  let childBuf := put childBuf 0 (binary_Write childHdr) in
  childBuf <- lift (copy_at childBuf (extentHeaderSize + EH_entries hdr * extentEntrySize) (binary_Write idx)) ;;
  fs_WriteAt (block_offset (BlockSize fs) rootBlock) childBuf ;;
  firstRaw <- lift (slice childBuf extentHeaderSize (extentHeaderSize + extentEntrySize)) ;;
  firstIdx <- lift (binary_Read (A := ExtentIdx) firstRaw) ;;
  let rootHdr := mkExtentHeader EXT4_EXT_MAGIC 1 4 (w16 (EH_depth hdr + 1)) 0 in
  let newIdx := mkExtentIdx (EI_block firstIdx) (w32 rootBlock) (w16 (Z.shiftr rootBlock 32)) 0 in
  mret (set_I_block (put (put data 0 (binary_Write rootHdr)) extentHeaderSize (binary_Write newIdx)) inode).

(** Store an index node that has become too large as two nodes; the result
    is the index entry of the right one. *)
Definition split_index_node (parentBlock : Z) (pHdr : ExtentHeader) (newIdxs : list ExtentIdx)
    : FS D ExtentIdx :=
  newParentBlock <- AllocateBlock ;;
  fs <- get ;;
  let mid := (length newIdxs / 2)%nat in
  let leftIdxs := take mid newIdxs in
  let rightIdxs := drop mid newIdxs in
  leftBuf <- lift (new_node (BlockSize fs)
    (mkExtentHeader EXT4_EXT_MAGIC (w16 (zlen leftIdxs)) (EH_max pHdr) (EH_depth pHdr) 0) leftIdxs) ;;
  fs_WriteAt (block_offset (BlockSize fs) parentBlock) leftBuf ;;
  rightBuf <- lift (new_node (BlockSize fs)
    (mkExtentHeader EXT4_EXT_MAGIC (w16 (zlen rightIdxs)) (EH_max pHdr) (EH_depth pHdr) 0) rightIdxs) ;;
  fs_WriteAt (block_offset (BlockSize fs) newParentBlock) rightBuf ;;
  first <- lift (index rightIdxs 0) ;;
  mret (mkExtentIdx (EI_block first) (w32 newParentBlock) (w16 (Z.shiftr newParentBlock 32)) 0).

(** [path] is the path of the source read from its end: the last block
    first. *)
Fixpoint insertIdxIntoParent (inode : Inode) (path : list Z) (idx : ExtentIdx) : FS D Inode :=
  match path with
  | [] => grow_root inode idx
  | parentBlock :: path' =>
      fs <- get ;;
      parentBuf <- fs_ReadAt (block_offset (BlockSize fs) parentBlock) (BlockSize fs) ;;
      hdrRaw <- lift (slice parentBuf 0 extentHeaderSize) ;;
      pHdr <- lift (binary_Read (A := ExtentHeader) hdrRaw) ;;
      idxs <- lift (read_entries (A := ExtentIdx) parentBuf (seqZ 0 (EH_entries pHdr))) ;;
      let newIdxs := insert_at (insert_index (EI_block <$> idxs) (EI_block idx)) idx idxs in
      if zlen newIdxs <=? EH_max pHdr then
        let parentBuf := put parentBuf 0 (binary_Write (set_EH_entries (w16 (zlen newIdxs)) pHdr)) in
        parentBuf <- lift (write_entries parentBuf 0 newIdxs) ;;
        fs_WriteAt (block_offset (BlockSize fs) parentBlock) parentBuf ;;
        mret inode
      else
        parentIdx <- split_index_node parentBlock pHdr newIdxs ;;
        insertIdxIntoParent inode path' parentIdx
  end.

Definition splitLeafBlockAndAppend (inode : Inode) (path : list Z) (leafBlock : Z) (buf : list byte)
    (hdr : ExtentHeader) (newExt : Extent) : FS D Inode :=
  newLeafBlock <- AllocateBlock ;;
  extents <- lift (read_entries (A := Extent) buf (seqZ 0 (EH_entries hdr))) ;;
  let allExtents := insert_at (insert_index (EE_block <$> extents) (EE_block newExt)) newExt extents in
  let mid := (length allExtents / 2)%nat in
  let leftExtents := take mid allExtents in
  let rightExtents := drop mid allExtents in
  fs <- get ;;
  leftBuf <- lift (new_node (BlockSize fs)
    (mkExtentHeader EXT4_EXT_MAGIC (w16 (zlen leftExtents)) (EH_max hdr) 0 0) leftExtents) ;;
  fs_WriteAt (block_offset (BlockSize fs) leafBlock) leftBuf ;;
  rightBuf <- lift (new_node (BlockSize fs)
    (mkExtentHeader EXT4_EXT_MAGIC (w16 (zlen rightExtents)) (EH_max hdr) 0 0) rightExtents) ;;
  fs_WriteAt (block_offset (BlockSize fs) newLeafBlock) rightBuf ;;
  first <- lift (index rightExtents 0) ;;
  let rightIdx := mkExtentIdx (EE_block first) (w32 newLeafBlock) (w16 (Z.shiftr newLeafBlock 32)) 0 in
  insertIdxIntoParent inode path rightIdx.

(** The walk to the last leaf; the blocks visited are kept last first. *)
Fixpoint descend (rounds : nat) (path : list Z) (currBlock : Z) (currData : list byte) (currHdr : ExtentHeader)
    : FS D (list Z * Z * list byte * ExtentHeader) :=
  if EH_depth currHdr =? 0 then mret (path, currBlock, currData, currHdr)
  else
    match rounds with
    | O => lift OutOfFuel
    | S rounds =>
        if EH_entries currHdr =? 0 then fail (Errorf "appendExtentToTree: empty index node")
        else
          let off := extentHeaderSize + (EH_entries currHdr - 1) * extentEntrySize in
          raw <- lift (slice currData off (off + extentEntrySize)) ;;
          idx <- lift (binary_Read (A := ExtentIdx) raw) ;;
          let childBlock := idx_leaf idx in
          fs <- get ;;
          childBuf <- fs_ReadAt (block_offset (BlockSize fs) childBlock) (BlockSize fs) ;;
          hdrRaw <- lift (slice childBuf 0 extentHeaderSize) ;;
          hdr <- lift (binary_Read (A := ExtentHeader) hdrRaw) ;;
          descend rounds (childBlock :: path) childBlock childBuf hdr
    end.

Definition appendExtentToTree (inode : Inode) (hdr : ExtentHeader) (newExt : Extent) : FS D Inode :=
  let! (path, currBlock, currData, currHdr) := descend fuel [] 0 (I_block inode) hdr in
  if EH_entries currHdr <? EH_max currHdr then
    appendExtentToLeafBlock currBlock currData currHdr newExt ;;
    mret (set_I_mtime (w32 now) inode)
  else splitLeafBlockAndAppend inode path currBlock currData currHdr newExt.

Definition AppendExtent (inode : Inode) (newExt : Extent) : FS D Inode :=
  if negb (UsesExtents inode) then fail (Errorf "AppendExtent: inode does not use extents")
  else
    let data := I_block inode in
    hdr <- wrap "AppendExtent: failed to decode header: %w"
             (lift (binary_Read (A := ExtentHeader) (sub data 0 extentHeaderSize))) ;;
    if negb (EH_magic hdr =? EXT4_EXT_MAGIC) then fail (Errorf "AppendExtent: bad extent magic: 0x%04x")
    else if EH_depth hdr =? 0 then
      if EH_entries hdr <? EH_max hdr then appendExtentToLeaf inode hdr newExt
      else splitRootLeafAndAppend inode hdr newExt
    else appendExtentToTree inode hdr newExt.
End extents.

(** ** Nodes and the lists they hold *)
Lemma binary_Size_ExtentHeader : binary_Size ExtentHeader = 12. Proof. reflexivity. Qed.
Lemma binary_Size_Extent : binary_Size Extent = 12. Proof. reflexivity. Qed.
Lemma binary_Size_ExtentIdx : binary_Size ExtentIdx = 12. Proof. reflexivity. Qed.

Lemma binary_Read_exact {A} `{Binary A} (v : A) raw :
  struct_wf v -> raw = binary_Write v -> binary_Read raw = Ok v.
Proof. intros Hwf ->. rewrite <- (app_nil_r (binary_Write v)). by apply binary_Read_Write. Qed.

Lemma ExtentHeader_wf n max depth :
  0 <= n < 2 ^ 16 -> 0 <= max < 2 ^ 16 -> 0 <= depth < 2 ^ 16 ->
  struct_wf (mkExtentHeader EXT4_EXT_MAGIC n max depth 0).
Proof. intros. unfold struct_wf, EXT4_EXT_MAGIC. cbn. repeat split; lia. Qed.

Lemma ExtentIdx_wf block lo hi :
  0 <= block < 2 ^ 32 -> 0 <= lo < 2 ^ 32 -> 0 <= hi < 2 ^ 16 -> struct_wf (mkExtentIdx block lo hi 0).
Proof. intros. repeat split; cbn; lia. Qed.

(** The slots of a node hold the entries [l]. *)
Definition entries_in {A} `{Binary A} (data : list byte) (l : list A) : Prop :=
  Forall struct_wf l /\ 12 + 12 * zlen l <= zlen data /\
  forall (i : nat) x, l !! i = Some x -> sub data (12 + 12 * Z.of_nat i) 12 = binary_Write x.

Definition header_in (data : list byte) (hdr : ExtentHeader) : Prop :=
  struct_wf hdr /\ 12 <= zlen data /\ sub data 0 12 = binary_Write hdr.

Definition leaf_holds (data : list byte) (hdr : ExtentHeader) (l : list Extent) : Prop :=
  header_in data hdr /\ EH_magic hdr = EXT4_EXT_MAGIC /\ EH_depth hdr = 0 /\ EH_entries hdr = zlen l /\
  entries_in data l.

Lemma header_read data hdr : header_in data hdr -> binary_Read (sub data 0 12) = Ok hdr.
Proof. intros (Hwf & _ & E). by apply binary_Read_exact. Qed.

Lemma entry_read {A} `{Binary A} data (l : list A) (i : nat) x :
  entries_in data l -> l !! i = Some x -> binary_Read (sub data (12 + 12 * Z.of_nat i) 12) = Ok x.
Proof.
  intros (Hwf & _ & Hl) Hi. apply binary_Read_exact; [|by apply Hl].
  rewrite Forall_forall in Hwf. apply Hwf. by eapply list_elem_of_lookup_2.
Qed.

Section nodes.
Context {D : Type} `{ReadWriterAt D} `{Env}.
Implicit Types fs : FileSystem D.

Lemma parseLeafEntries_gen data (l : list Extent) (k n : nat) acc :
  entries_in data l -> (k + n = length l)%nat ->
  parseLeafEntries_loop (drop 12 data) (seqZ (Z.of_nat k) (Z.of_nat n)) acc = Ok (acc ++ drop k l).
Proof.
  intros Hl. revert k acc. induction n as [|n IH]; intros k acc Hk.
  { rewrite (drop_ge l) by lia. by rewrite app_nil_r. }
  rewrite seqZ_cons by lia. cbn [parseLeafEntries_loop].
  destruct (lookup_lt_is_Some_2 l k) as [x Hx]; [lia|].
  assert (Hlen : zlen (drop 12 data) = zlen data - 12).
  { destruct Hl as (_ & Hl & _). unfold zlen in *. rewrite length_drop. lia. }
  unfold extentEntrySize. rewrite Hlen. destruct Hl as (Hwf & Hfit & Hin).
  rewrite (proj2 (Z.ltb_ge _ _)) by (unfold zlen in *; lia).
  assert (Es : sub (drop 12 data) (Z.of_nat k * 12) 12 = sub data (12 + 12 * Z.of_nat k) 12).
  { unfold sub. rewrite drop_drop. do 2 f_equal. lia. }
  rewrite Es, (entry_read data l k x) by done.
  replace (Z.pred (Z.of_nat (S n))) with (Z.of_nat n) by lia.
  replace (Z.succ (Z.of_nat k)) with (Z.of_nat (S k)) by lia.
  rewrite IH by lia. rewrite <- app_assoc. by rewrite (drop_S l x k) by done.
Qed.

(** Reading a leaf gives its entries. *)
Lemma parse_leaf depth data hdr l fs :
  leaf_holds data hdr l -> parseExtentNode (S depth) data fs = (Ok l, fs).
Proof.
  intros (Hh & Hmagic & Hdepth & Hn & Hl). pose proof Hh as (_ & H12 & _).
  cbn [parseExtentNode]. unfold extentHeaderSize. rewrite (proj2 (Z.ltb_ge _ _)) by lia.
  rewrite (header_read data hdr Hh). rewrite (bind_ok _ _ fs fs hdr eq_refl).
  rewrite Hmagic, Hdepth, Hn. cbn [negb Z.eqb]. rewrite Z.eqb_refl. cbn [negb].
  unfold lift, parseLeafEntries. change (Z.to_nat 12) with 12%nat. f_equal.
  exact (parseLeafEntries_gen data l 0 (length l) [] Hl eq_refl).
Qed.

Lemma read_entries_gen {A} `{Binary A} data (l : list A) (k n : nat) :
  entries_in data l -> (k + n = length l)%nat ->
  read_entries (A := A) data (seqZ (Z.of_nat k) (Z.of_nat n)) = Ok (drop k l).
Proof.
  intros Hl. revert k. induction n as [|n IH]; intros k Hk.
  { by rewrite drop_ge by lia. }
  rewrite seqZ_cons by lia. cbn [read_entries]. unfold extentHeaderSize, extentEntrySize.
  destruct (lookup_lt_is_Some_2 l k) as [x Hx]; [lia|].
  pose proof Hl as (_ & Hfit & _).
  rewrite slice_in by (unfold zlen in *; lia). cbn [mbind res_bind].
  replace (12 + Z.of_nat k * 12 + 12 - (12 + Z.of_nat k * 12)) with 12 by lia.
  replace (12 + Z.of_nat k * 12) with (12 + 12 * Z.of_nat k) by lia.
  rewrite (entry_read data l k x) by done. cbn [mbind res_bind].
  replace (Z.pred (Z.of_nat (S n))) with (Z.of_nat n) by lia.
  replace (Z.succ (Z.of_nat k)) with (Z.of_nat (S k)) by lia.
  rewrite IH by lia. cbn [mbind res_bind]. by rewrite (drop_S l x k) by done.
Qed.

Lemma read_entries_all {A} `{Binary A} data (l : list A) :
  entries_in data l -> read_entries (A := A) data (seqZ 0 (zlen l)) = Ok l.
Proof. intros Hl. exact (read_entries_gen data l 0 (length l) Hl eq_refl). Qed.

(** Storing an entry behind the others, or over one of them. *)
Lemma entries_in_put {A} `{Binary A} data (l : list A) (k : nat) x :
  binary_Size A = 12 -> entries_in data l -> struct_wf x -> (k <= length l)%nat ->
  12 + 12 * Z.of_nat k + 12 <= zlen data ->
  entries_in (put data (12 + 12 * Z.of_nat k) (binary_Write x)) (take k l ++ x :: drop (S k) l).
Proof.
  intros Hsz (Hwf & Hfit & Hin) Hx Hk Hroom.
  assert (Hw : zlen (binary_Write x) = 12) by (rewrite zlen_binary_Write; done).
  split; [|split].
  - apply Forall_app. split; [by apply Forall_take|]. constructor; [done|by apply Forall_drop].
  - rewrite zlen_put. unfold zlen in *. rewrite length_app, length_take. cbn. rewrite length_drop. lia.
  - intros i y Hi. destruct (Nat.lt_trichotomy i k) as [Hlt|[->|Hgt]].
    + rewrite sub_put_disj by lia. apply Hin. rewrite lookup_app_l in Hi by (rewrite length_take; lia).
      by rewrite lookup_take_lt in Hi by lia.
    + rewrite lookup_app_r, length_take, Nat.min_l, Nat.sub_diag in Hi by (rewrite ?length_take; lia).
      injection Hi as <-. apply sub_put_eq; lia.
    + rewrite sub_put_disj by lia. apply Hin. rewrite lookup_app_r in Hi by (rewrite length_take; lia).
      rewrite length_take, Nat.min_l in Hi by lia. destruct (i - k)%nat as [|m] eqn:Em; [lia|].
      change (drop (S k) l !! m = Some y) in Hi. rewrite lookup_drop in Hi. by replace (S k + m)%nat with i in Hi by lia.
Qed.

Lemma entries_in_header {A} `{Binary A} data (l : list A) p :
  entries_in data l -> zlen p = 12 -> entries_in (put data 0 p) l.
Proof.
  intros (Hwf & Hfit & Hin) Hp. split; [done|]. rewrite zlen_put. split; [done|].
  intros i x Hi. rewrite sub_put_disj by lia. by apply Hin.
Qed.

Lemma header_in_put data hdr : struct_wf hdr -> 12 <= zlen data -> header_in (put data 0 (binary_Write hdr)) hdr.
Proof.
  intros Hwf Hl. assert (Hw : zlen (binary_Write hdr) = 12) by by rewrite zlen_binary_Write.
  split; [done|]. rewrite zlen_put. split; [done|]. apply sub_put_eq; lia.
Qed.

Lemma header_in_keep data hdr off p :
  header_in data hdr -> 12 <= off -> header_in (put data off p) hdr.
Proof.
  intros (Hwf & Hl & E) Ho. split; [done|]. rewrite zlen_put. split; [done|]. by rewrite sub_put_disj by lia.
Qed.
End nodes.

(** ** Appending

    The list of extents after an extent has been appended to a leaf. *)
Definition append_list (l : list Extent) (newExt : Extent) : list Extent :=
  match last l with
  | Some lastExt =>
      match merge_extents lastExt newExt with
      | Some ext => take (length l - 1) l ++ [ext]
      | None => l ++ [newExt]
      end
  | None => l ++ [newExt]
  end.

Section append_laws.
Context {D : Type} `{Device D} `{Env}.
Implicit Types fs : FileSystem D.

Lemma ext_count_range ext : 0 <= EE_len ext -> 0 <= ext_count ext < 2 ^ 15.
Proof.
  intros He. unfold ext_count. change 0x7FFF with (Z.ones 15). rewrite Z.land_ones by lia.
  by apply Z.mod_pos_bound.
Qed.

Lemma init_len ext : 0 <= EE_len ext < 2 ^ 16 -> ext_uninit ext = false -> Z.land (EE_len ext) 0x8000 = 0.
Proof. unfold ext_uninit. intros _ Hi. apply negb_false_iff, Z.eqb_eq in Hi. done. Qed.

Lemma merge_extents_wf lastExt newExt ext :
  struct_wf lastExt -> struct_wf newExt -> merge_extents lastExt newExt = Some ext -> struct_wf ext.
Proof.
  intros (F1 & F2 & F3 & F4) _ Hm. unfold merge_extents in Hm.
  destruct (_ && _) eqn:E; [|done]. destruct (Z.leb_spec (ext_count lastExt + ext_count newExt) 0x7FFF); [|done].
  injection Hm as <-. apply andb_prop in E as [[_ Eu]%andb_prop _]. apply negb_true_iff in Eu.
  unfold ext_uninit in Eu. apply negb_false_iff, Z.eqb_eq in Eu. rewrite Eu, Z.lor_0_l.
  split; [exact F1|]. split; [apply w16_range|]. exact (conj F3 F4).
Qed.

Lemma header_entries_wf hdr n : struct_wf hdr -> 0 <= n < 2 ^ 16 -> struct_wf (set_EH_entries n hdr).
Proof. intros (F1 & _ & F3) Hn. exact (conj F1 (conj Hn F3)). Qed.

Lemma last_lookup_length {A} (l : list A) x : last l = Some x -> l !! (length l - 1)%nat = Some x.
Proof. rewrite last_lookup. by replace (Nat.pred (length l)) with (length l - 1)%nat by lia. Qed.

Lemma zlen_append_list l e : zlen l <= zlen (append_list l e) <= zlen l + 1.
Proof.
  unfold append_list. destruct (last l) as [x|] eqn:E; [destruct (merge_extents x e)|];
    unfold zlen; rewrite ?length_app, ?length_take; cbn; try lia.
Qed.

(** Both appending functions keep the node well formed. *)
Lemma append_entry_ok data hdr l newExt :
  leaf_holds data hdr l -> struct_wf newExt -> 24 + 12 * zlen l <= zlen data -> zlen l < 2 ^ 16 - 1 ->
  exists data' hdr', append_entry data hdr newExt = Ok data' /\ zlen data' = zlen data /\
    leaf_holds data' hdr' (append_list l newExt).
Proof.
  intros (Hh & Hmagic & Hdepth & Hn & Hl) Hwf Hroom Hmax.
  pose proof (zlen_nonneg l) as Hl0. pose proof Hh as (Hhwf & H12 & _).
  unfold append_entry, extentHeaderSize, extentEntrySize. rewrite Hn.
  (* nothing to merge with *)
  assert (Happ : exists data' hdr',
    (data0 <- copy_at data (12 + zlen l * 12) (binary_Write newExt) ;;
     _ <- slice data0 0 12 ;;
     Ok (put data0 0 (binary_Write (set_EH_entries (w16 (zlen l + 1)) hdr)))) = Ok data' /\
    zlen data' = zlen data /\ leaf_holds data' hdr' (l ++ [newExt])).
  { rewrite copy_at_in by lia. cbn [mbind res_bind]. rewrite slice_in by zlen. cbn [mbind res_bind].
    eexists _, (set_EH_entries (w16 (zlen l + 1)) hdr). split; [done|]. split; [by rewrite !zlen_put|].
    assert (Hwf' : struct_wf (set_EH_entries (w16 (zlen l + 1)) hdr)) by (apply header_entries_wf; [done|apply w16_range]).
    split; [apply header_in_put; [done|zlen]|]. split; [done|]. split; [done|].
    split. { cbn. rewrite w16_id by lia. unfold zlen. rewrite length_app. cbn. lia. }
    apply entries_in_header; [|by rewrite zlen_binary_Write].
    replace (12 + zlen l * 12) with (12 + 12 * Z.of_nat (length l)) by (unfold zlen; lia).
    replace (l ++ [newExt]) with (take (length l) l ++ newExt :: drop (S (length l)) l)
      by (by rewrite take_ge, drop_ge by lia).
    apply entries_in_put; [done|done|done|lia|unfold zlen in *; lia]. }
  unfold append_list. destruct (last l) as [lastExt|] eqn:Elast.
  - pose proof (last_lookup_length l lastExt Elast) as Hlast.
    assert (Hpos : (0 < length l)%nat) by (apply lookup_lt_Some in Hlast; lia).
    assert (Hwl : struct_wf lastExt).
    { destruct Hl as (Hf & _). rewrite Forall_forall in Hf. apply Hf. by eapply list_elem_of_lookup_2. }
    rewrite (proj2 (Z.ltb_lt 0 (zlen l))) by (unfold zlen; lia).
    rewrite slice_in by lia. cbn [mbind res_bind].
    replace (12 + (zlen l - 1) * 12 + 12 - (12 + (zlen l - 1) * 12)) with 12 by lia.
    replace (12 + (zlen l - 1) * 12) with (12 + 12 * Z.of_nat (length l - 1)) by (unfold zlen; lia).
    rewrite (entry_read data l _ lastExt) by done. cbn [mbind res_bind].
    destruct (merge_extents lastExt newExt) as [ext|] eqn:Em; [|exact Happ].
    rewrite copy_at_in by (unfold zlen in *; lia). eexists _, hdr. split; [done|]. split; [apply zlen_put|].
    split; [apply header_in_keep; [done|lia]|]. split; [done|]. split; [done|].
    assert (El : take (length l - 1) l ++ [ext] = take (length l - 1) l ++ ext :: drop (S (length l - 1)) l).
    { by rewrite drop_ge by lia. }
    rewrite El. split.
    { unfold zlen in *. rewrite length_app, length_take. cbn. rewrite length_drop. lia. }
    apply entries_in_put; [done|done|exact (merge_extents_wf _ _ _ Hwl Hwf Em)|lia|unfold zlen in *; lia].
  - apply last_None in Elast as ->. change (@zlen Extent []) with 0 in *. cbn [Z.ltb Z.compare mbind res_bind].
    exact Happ.
Qed.

Lemma AppendExtent_header inode hdr fs (e : Extent) :
  UsesExtents inode = true -> header_in (I_block inode) hdr -> EH_magic hdr = EXT4_EXT_MAGIC ->
  AppendExtent inode e fs =
    (if EH_depth hdr =? 0 then
       if EH_entries hdr <? EH_max hdr then appendExtentToLeaf inode hdr e
       else splitRootLeafAndAppend inode hdr e
     else appendExtentToTree inode hdr e) fs.
Proof.
  intros Hu Hh Hm. unfold AppendExtent. rewrite Hu. cbn [negb]. unfold extentHeaderSize.
  rewrite (header_read _ hdr Hh). rewrite (bind_ok _ _ fs fs hdr eq_refl).
  rewrite Hm, Z.eqb_refl. done.
Qed.

(** Appending to the extent list in the inode itself: the inode that
    [AppendExtent] returns reads back as the old list with the new extent
    behind it, or merged into the last one when it continues it on the disk
    and in the file; the device is not touched. *)
Theorem AppendExtent_inline inode hdr l e fs :
  UsesExtents inode = true -> leaf_holds (I_block inode) hdr l -> struct_wf e -> (0 < fuel)%nat ->
  zlen (I_block inode) = 60 -> zlen l < EH_max hdr <= 4 ->
  exists inode', AppendExtent inode e fs = (Ok inode', fs) /\
    ReadExtents inode' fs = (Ok (append_list l e), fs).
Proof.
  intros Hu Hleaf Hwf Hfuel Hb Hmax. pose proof Hleaf as (Hh & Hm & Hd & Hn & _).
  destruct (append_entry_ok (I_block inode) hdr l e Hleaf Hwf) as (data & hdr' & Ea & Hlen & Hleaf'); [lia|lia|].
  rewrite (AppendExtent_header inode hdr fs e Hu Hh Hm), Hd, Hn. cbn [Z.eqb].
  rewrite (proj2 (Z.ltb_lt _ _)) by lia. unfold appendExtentToLeaf. rewrite Ea, lift_ok_bind.
  eexists. split; [reflexivity|]. unfold ReadExtents.
  change (UsesExtents (set_I_mtime (w32 now) (set_I_block data inode))) with (UsesExtents inode).
  rewrite Hu. cbn [negb]. destruct fuel as [|depth]; [lia|]. by eapply parse_leaf.
Qed.
End append_laws.

Section split_laws.
Context {D : Type} `{Device D} `{Env}.
Implicit Types fs : FileSystem D.

Lemma write_entries_gen {A} `{Binary A} (l : list A) (k n : nat) data :
  binary_Size A = 12 -> Forall struct_wf l -> (k + n = length l)%nat ->
  12 + 12 * zlen l <= zlen data -> entries_in data (take k l) ->
  exists data', write_entries data (Z.of_nat k) (drop k l) = Ok data' /\ zlen data' = zlen data /\
    entries_in data' l /\ forall hdr, header_in data hdr -> header_in data' hdr.
Proof.
  intros Hsz Hwf. revert k data. induction n as [|n IH]; intros k data Hk Hroom Hin.
  { rewrite drop_ge by lia. rewrite take_ge in Hin by lia. exists data. done. }
  destruct (lookup_lt_is_Some_2 l k) as [x Hx]; [lia|].
  assert (Hwx : struct_wf x).
  { rewrite Forall_forall in Hwf. apply Hwf. by eapply list_elem_of_lookup_2. }
  rewrite (drop_S l x k) by done. cbn [write_entries]. unfold extentHeaderSize, extentEntrySize.
  replace (12 + Z.of_nat k * 12) with (12 + 12 * Z.of_nat k) by lia.
  rewrite copy_at_in by (unfold zlen in *; lia). cbn [mbind res_bind].
  replace (Z.of_nat k + 1) with (Z.of_nat (S k)) by lia.
  destruct (IH (S k) (put data (12 + 12 * Z.of_nat k) (binary_Write x))) as (data' & E & Hlen & Hin' & Hh).
  - lia.
  - by rewrite zlen_put.
  - rewrite (take_S_r l k x) by done.
    assert (El : take k l ++ [x] = take k (take k l) ++ x :: drop (S k) (take k l)).
    { rewrite take_take, Nat.min_id. rewrite drop_ge; [done|]. rewrite length_take. lia. }
    rewrite El. apply entries_in_put; [done|done|done|rewrite length_take; lia|unfold zlen in *; lia].
  - exists data'. split; [done|]. split; [by rewrite Hlen, zlen_put|]. split; [done|].
    intros hdr Hhdr. apply Hh. apply header_in_keep; [done|lia].
Qed.

Lemma new_node_ok {A} `{Binary A} size hdr (l : list A) :
  binary_Size A = 12 -> struct_wf hdr -> Forall struct_wf l -> 12 + 12 * zlen l <= size ->
  exists data, new_node size hdr l = Ok data /\ zlen data = size /\ header_in data hdr /\ entries_in data l.
Proof.
  intros Hsz Hwf Hl Hroom. pose proof (zlen_nonneg l).
  assert (Hz : zlen (zeros size) = size) by (apply zlen_zeros; lia).
  unfold new_node, extentHeaderSize. rewrite slice_in by lia. cbn [mbind res_bind].
  destruct (write_entries_gen l 0 (length l) (put (zeros size) 0 (binary_Write hdr)) Hsz Hl)
    as (data & E & Hlen & Hin & Hh).
  - done.
  - by rewrite zlen_put, Hz.
  - rewrite take_0. split; [constructor|]. rewrite zlen_put, Hz. split; [change (@zlen A []) with 0; lia|]. done.
  - exists data. split; [done|]. rewrite Hlen, zlen_put, Hz. split; [done|]. split; [|done].
    apply Hh. apply header_in_put; [done|lia].
Qed.

Lemma idx_leaf_split block b : 0 <= b < 2 ^ 48 ->
  idx_leaf (mkExtentIdx block (w32 b) (w16 (Z.shiftr b 32)) 0) = b.
Proof. intros Hb. unfold idx_leaf. cbn [EI_leaf_hi EI_leaf_lo]. by apply hi_lo_48. Qed.

(** A root of depth one with a single index reads as the leaf it names. *)
Lemma parse_root_single depth data hdr idx leaf hdr' l fs :
  header_in data hdr -> EH_magic hdr = EXT4_EXT_MAGIC -> EH_depth hdr = 1 -> EH_entries hdr = 1 ->
  entries_in data [idx] -> fs_ok fs -> 0 <= idx_leaf idx -> (idx_leaf idx + 1) * BlockSize fs <= zlen (fs_content fs) ->
  leaf = sub (fs_content fs) (idx_leaf idx * BlockSize fs) (BlockSize fs) -> leaf_holds leaf hdr' l ->
  parseExtentNode (S (S depth)) data fs = (Ok l, fs).
Proof.
  intros Hh Hm Hd Hn Hin Hok Hb Hfit -> Hleaf. pose proof Hh as (_ & H12 & _).
  remember (S depth) as d eqn:Ed. cbn [parseExtentNode]. unfold extentHeaderSize.
  rewrite (proj2 (Z.ltb_ge _ _)) by lia. rewrite (header_read data hdr Hh).
  rewrite (bind_ok _ _ fs fs hdr eq_refl). rewrite Hm, Hd, Hn, Z.eqb_refl. cbn [negb Z.eqb].
  change (seqZ 0 1) with [0]. cbn [forM]. unfold extentEntrySize.
  pose proof Hin as (_ & Hroom & _). change (zlen [idx]) with 1 in Hroom.
  rewrite (proj2 (Z.ltb_ge _ _)) by lia.
  change (12 + 0 * 12) with (12 + 12 * Z.of_nat 0). rewrite (entry_read data [idx] 0 idx Hin eq_refl).
  rewrite M_assoc. rewrite (bind_ok _ _ fs fs idx eq_refl). rewrite M_assoc, get_bind.
  rewrite M_assoc. rewrite (bind_ok _ _ _ _ _ (wrap_ok _ _ _ _ _ (read_block fs _ Hok Hb Hfit))).
  rewrite M_assoc. subst d.
  rewrite (bind_ok _ _ _ _ _ (wrap_ok _ _ _ _ _ (parse_leaf depth _ hdr' l fs Hleaf))). done.
Qed.

(** A leaf with one entry more, and the root over one leaf. *)
Lemma leaf_holds_snoc node hdr (l : list Extent) e :
  entries_in node l -> struct_wf hdr -> EH_magic hdr = EXT4_EXT_MAGIC -> EH_depth hdr = 0 -> EH_entries hdr = zlen l + 1 ->
  24 + 12 * zlen l <= zlen node -> struct_wf e ->
  leaf_holds (put (put node 0 (binary_Write hdr)) (12 + zlen l * 12) (binary_Write e)) hdr (l ++ [e]).
Proof.
  intros Hnode Hwf Hm Hd Hn Hroom He. pose proof (zlen_nonneg l).
  split; [apply header_in_keep; [apply header_in_put; [done|lia]|lia]|]. split; [done|]. split; [done|].
  split; [rewrite zlen_app; done|].
  replace (12 + zlen l * 12) with (12 + 12 * Z.of_nat (length l)) by (unfold zlen; lia).
  replace (l ++ [e]) with (take (length l) l ++ e :: drop (S (length l)) l) by (by rewrite take_ge, drop_ge by lia).
  apply entries_in_put; [done| |done|lia|rewrite zlen_put; unfold zlen in *; lia].
  apply entries_in_header; [done|by rewrite zlen_binary_Write].
Qed.

Lemma single_idx_in hdr idx :
  struct_wf hdr -> struct_wf idx ->
  let root := put (put (zeros 60) 0 (binary_Write hdr)) 12 (binary_Write idx) in
  header_in root hdr /\ entries_in root [idx].
Proof.
  intros Hh Hi root. split; [apply header_in_keep; [by apply header_in_put|lia]|].
  change [idx] with (take 0 (@nil ExtentIdx) ++ idx :: drop 1 (@nil ExtentIdx)).
  apply (entries_in_put (put (zeros 60) 0 (binary_Write hdr)) [] 0 idx); [done| |done|cbn; lia|done].
  split; [constructor|]. split; [done|]. by intros i x Hx.
Qed.

(** C32: When the list in the inode is full, [AppendExtent] moves it with
    the new extent to a leaf block of its own: the returned inode reads back
    as the old list with the new extent behind it, and besides the
    allocation only that block is written. *)
Theorem AppendExtent_split_root inode hdr l e fs b fs1 :
  UsesExtents inode = true -> leaf_holds (I_block inode) hdr l -> struct_wf e -> (2 <= fuel)%nat ->
  zlen (I_block inode) = 60 -> EH_max hdr <= zlen l -> l <> [] ->
  AllocateBlock fs = (Ok b, fs1) -> fs_ok fs1 -> 0 <= b < 2 ^ 48 ->
  (b + 1) * BlockSize fs1 <= zlen (fs_content fs1) -> 24 + 12 * zlen l <= BlockSize fs1 ->
  exists inode' fs2, AppendExtent inode e fs = (Ok inode', fs2) /\
    ReadExtents inode' fs2 = (Ok (l ++ [e]), fs2) /\
    exists leaf, zlen leaf = BlockSize fs1 /\ fs_content fs2 = put (fs_content fs1) (b * BlockSize fs1) leaf.
Proof.
  intros Hu Hleaf Hwf Hfuel Hb60 Hmax Hne Halloc Hok1 Hb Hfit Hroom.
  pose proof Hleaf as (Hh & Hm & Hd & Hn & Hin). pose proof Hin as (Hwfl & Hfit60 & _).
  rewrite (AppendExtent_header inode hdr fs e Hu Hh Hm), Hd, Hn. cbn [Z.eqb].
  rewrite (proj2 (Z.ltb_ge _ _)) by lia. unfold splitRootLeafAndAppend, extentHeaderSize, extentEntrySize.
  rewrite (bind_ok _ _ _ _ _ (wrap_ok _ _ _ _ _ Halloc)). rewrite Hn, (read_entries_all _ l Hin), lift_ok_bind, get_bind.
  cbn zeta. assert (Hl : 0 < zlen l <= 4).
  { split; [|lia]. destruct l; [done|]. unfold zlen. cbn. lia. }
  rewrite (w16_id (zlen l)), (w16_id (zlen l + 1)) by lia. set (max := w16 (_ / 12)).
  assert (Hwmax : 0 <= max < 2 ^ 16) by apply w16_range.
  destruct (new_node_ok (BlockSize fs1) (mkExtentHeader EXT4_EXT_MAGIC (zlen l) max 0 0) l) as (node & -> & Hlen & _ & Hnode);
    [done|by apply ExtentHeader_wf; lia|done|lia|].
  rewrite lift_ok_bind. set (hdr1 := mkExtentHeader EXT4_EXT_MAGIC (zlen l + 1) max 0 0).
  assert (Hwf1 : struct_wf hdr1) by (apply ExtentHeader_wf; lia).
  rewrite copy_at_in, lift_ok_bind by (rewrite zlen_put; lia).
  set (leaf := put (put node 0 (binary_Write hdr1)) (12 + zlen l * 12) (binary_Write e)).
  assert (Hll : zlen leaf = BlockSize fs1) by (unfold leaf; rewrite !zlen_put; lia).
  assert (Hnew : leaf_holds leaf hdr1 (l ++ [e])) by (apply leaf_holds_snoc; try done; lia).
  destruct (write_block fs1 b leaf Hok1 (proj1 Hb) Hfit Hll) as (v & Hw & Hok2 & Hc2).
  rewrite (bind_ok _ _ _ _ _ (wrap_ok _ _ _ _ _ Hw)).
  destruct (index_in l 0) as (first & Hfirst & ->); [lia|]. rewrite lift_ok_bind.
  eexists _, (set_dev v fs1). split; [reflexivity|]. split; [|by exists leaf].
  set (rootHdr := mkExtentHeader EXT4_EXT_MAGIC 1 4 1 0). set (idx := mkExtentIdx _ _ _ _).
  set (root := put (put (zeros 60) 0 (binary_Write rootHdr)) 12 (binary_Write idx)).
  unfold ReadExtents. change (UsesExtents (set_I_mtime (w32 now) (set_I_block root inode))) with (UsesExtents inode).
  rewrite Hu. cbn [negb]. destruct fuel as [|[|depth]]; [lia|lia|].
  assert (Hidx : idx_leaf idx = b) by by apply idx_leaf_split.
  assert (Hwr : struct_wf rootHdr) by (apply ExtentHeader_wf; lia).
  pose proof Hok1 as (Hbs & _).
  assert (Hwi : struct_wf idx).
  { apply ExtentIdx_wf; [|apply w32_range|apply w16_range].
    assert (Hwff : struct_wf first) by (rewrite Forall_forall in Hwfl; apply Hwfl; by eapply list_elem_of_lookup_2). apply Hwff. }
  destruct (single_idx_in rootHdr idx Hwr Hwi) as [Hhr Hin1].
  apply (parse_root_single depth root rootHdr idx leaf hdr1); rewrite ?Hidx; try done; try lia.
  - rewrite Hc2, zlen_put. done.
  - rewrite Hc2. symmetry. change (BlockSize (set_dev v fs1)) with (BlockSize fs1).
    apply sub_put_eq; [done|nia|nia].
Qed.
End split_laws.

(** ** Examples *)
#[local] Existing Instance ex_env.

Lemma ex_alloc_state :
  fs_ok (AllocateBlock ex_ext4).2 /\ BlockSize (AllocateBlock ex_ext4).2 = 64 /\
  zlen (fs_content (AllocateBlock ex_ext4).2) = 3072.
Proof.
  destruct (AllocateBlock_spec ex_ext4 ex_sb ex_ext4_ok eq_refl ex_groups)
    as [(g & bgd & i & fs' & E & _ & _ & _ & _ & [v Hv] & Hok & Hc)|[E _]];
    rewrite ex_alloc in E; [|discriminate E].
  apply (f_equal snd) in E. cbn [snd] in E. rewrite E. split; [done|]. split; [by rewrite Hv|].
  by rewrite Hc, !zlen_put, ex_ext4_len.
Qed.

Definition ex_extent (block start : Z) : Extent := mkExtent block 1 0 start.
Lemma ex_extent_wf block start : 0 <= block < 2 ^ 32 -> 0 <= start < 2 ^ 32 -> struct_wf (ex_extent block start).
Proof. intros. unfold struct_wf. cbn. repeat split; lia. Qed.

Definition ex_leaf_header (n max : Z) : ExtentHeader := mkExtentHeader EXT4_EXT_MAGIC n max 0 0.
Definition ex_leaf (max : Z) (l : list Extent) : list byte :=
  match new_node 60 (ex_leaf_header (zlen l) max) l with Ok b => b | _ => [] end.
Definition ex_leaf_inode (max : Z) (l : list Extent) : Inode := set_I_block (ex_leaf max l) ex_inode.

Lemma ex_leaf_holds max l :
  Forall struct_wf l -> zlen l <= 4 -> 0 <= max < 2 ^ 16 ->
  zlen (ex_leaf max l) = 60 /\ leaf_holds (ex_leaf max l) (ex_leaf_header (zlen l) max) l.
Proof.
  intros Hl Hlen Hmax. pose proof (zlen_nonneg l).
  destruct (new_node_ok 60 (ex_leaf_header (zlen l) max) l) as (data & E & Hd & Hh & Hin);
    [done|apply ExtentHeader_wf; lia|done|lia|].
  unfold ex_leaf. rewrite E. done.
Qed.

Definition ex_extents : list Extent := [ex_extent 0 40; ex_extent 1 42; ex_extent 2 44].
Lemma ex_extents_wf : Forall struct_wf ex_extents.
Proof. repeat constructor; cbn; lia. Qed.

Lemma AppendExtent_inline_witness :
  exists inode', AppendExtent (ex_leaf_inode 4 ex_extents) (ex_extent 3 45) ex_ext4 = (Ok inode', ex_ext4) /\
    ReadExtents inode' ex_ext4 = (Ok [ex_extent 0 40; ex_extent 1 42; mkExtent 2 2 0 44], ex_ext4).
Proof.
  destruct (ex_leaf_holds 4 ex_extents ex_extents_wf) as [Hlen Hleaf]; [done|done|].
  apply (AppendExtent_inline (ex_leaf_inode 4 ex_extents) (ex_leaf_header 3 4) ex_extents (ex_extent 3 45) ex_ext4).
  - reflexivity.
  - exact Hleaf.
  - apply ex_extent_wf; lia.
  - cbn. lia.
  - exact Hlen.
  - done.
Defined.

Lemma AppendExtent_split_root_witness :
  exists inode' fs2, AppendExtent (ex_leaf_inode 3 ex_extents) (ex_extent 7 46) ex_ext4 = (Ok inode', fs2) /\
    ReadExtents inode' fs2 = (Ok (ex_extents ++ [ex_extent 7 46]), fs2).
Proof.
  destruct (ex_leaf_holds 3 ex_extents ex_extents_wf) as [Hlen Hleaf]; [done|done|].
  destruct ex_alloc_state as (Hok & Ebs & Elen).
  destruct (AppendExtent_split_root (ex_leaf_inode 3 ex_extents) (ex_leaf_header 3 3) ex_extents (ex_extent 7 46)
    ex_ext4 45 (AllocateBlock ex_ext4).2) as (inode' & fs2 & Ea & Er & _).
  - reflexivity.
  - exact Hleaf.
  - apply ex_extent_wf; lia.
  - cbn. lia.
  - exact Hlen.
  - done.
  - done.
  - apply ex_alloc.
  - exact Hok.
  - lia.
  - rewrite Ebs, Elen. lia.
  - rewrite Ebs. change (zlen ex_extents) with 3. lia.
  - exists inode', fs2. split; [exact Ea|exact Er].
Defined.
