(* ===== verification/FileIO.v ===== *)
(** File data: [src/vfs/reader.go], [src/vfs/writer.go],
    [src/vfs/symlinks.go] and [TruncateInode] of [src/vfs/reclaim.go]. *)
From S2P Require Export Extents.

(** The first initialised extent that contains the logical block. *)
Fixpoint findPhysicalBlock (extents : list Extent) (logicalBlock : Z) : option Z :=
  match extents with
  | [] => None
  | ext :: extents' =>
      if ext_uninit ext then findPhysicalBlock extents' logicalBlock
      else if (EE_block ext <=? logicalBlock) && (logicalBlock <? w32 (EE_block ext + ext_count ext))
      then Some (w64 (ext_start ext + (logicalBlock - EE_block ext)))
      else findPhysicalBlock extents' logicalBlock
  end.

(** [inode.I_size_lo, inode.I_size_high = n] *)
Definition set_file_size (n : Z) (inode : Inode) : Inode :=
  if IsDir inode then set_I_size_lo (w32 n) inode
  else set_I_size_high (w32 (Z.shiftr n 32)) (set_I_size_lo (w32 n) inode).

(** The sector count of a file of [n] bytes. *)
Definition set_file_blocks (bs n : Z) (inode : Inode) : Inode :=
  let newBlocks := w64 (w64 (n + bs) - 1) / bs in
  let sectorCount := w64 (newBlocks * (bs / 512)) in
  let inode := set_I_blocks_lo (w32 sectorCount) inode in
  if 0xFFFFFFFF <? sectorCount then set_L_i_blocks_high (w16 (Z.shiftr sectorCount 32)) inode else inode.

Section file_io.
Context {D : Type} `{ReadWriterAt D} `{Env}.

(** ** Reading *)
Definition ReadFile (inode : Inode) : FS D (list byte) :=
  if negb (IsRegular inode)
  then fail (Errorf "ReadFile: inode has I_mode=0x%04x - only regular files (S_IFREG) are supported")
  else if negb (UsesExtents inode)
  then fail (Errorf "ReadFile: inode uses legacy indirect block addressing (EXT4_EXTENTS_FL not set, I_flags=0x%08x); indirect block scheme is not yet supported")
  else
    extents <- wrap "ReadFile: failed to walk extent tree: %w" (ReadExtents inode) ;;
    let fileSize := Size inode in
    if fileSize =? 0 then mret []
    else
      fs <- get ;;
      let bs := BlockSize fs in
      let! (out, _) :=
        forB extents (zeros fileSize, 0) (fun ext acc =>
          let '(out, written) := acc in
          if fileSize <=? written then mret (inr acc)
          else if ext_uninit ext then
            let zeroes := w64 (ext_count ext * bs) in
            let zeroes := if fileSize <? w64 (written + zeroes) then fileSize - written else zeroes in
            mret (inl (out, w64 (written + zeroes)))
          else
            acc <- forB (seqZ 0 (ext_count ext)) (out, written) (fun i acc =>
              let '(out, written) := acc in
              if fileSize <=? written then mret (inr acc)
              else
                let physBlock := w64 (ext_start ext + i) in
                blockBuf <- wrap "ReadFile: failed to read block %d at byte offset %d: %w"
                              (fs_ReadAt (block_offset bs physBlock) bs) ;;
                let remaining := fileSize - written in
                let toCopy := if remaining <? bs then remaining else bs in
                mret (inl (put out written (sub blockBuf 0 toCopy), written + toCopy))) ;;
            mret (inl acc)) in
      mret out.

(** [copy] of the part of one block that lies in [start, end). *)
Definition copy_block (bs start end_ blockStart : Z) (blockBuf buf : list byte) : list byte :=
  let blockEnd := w64 (blockStart + bs) in
  let srcStart := if blockStart <? start then start - blockStart else 0 in
  let srcEnd := if end_ <? blockEnd then end_ - blockStart else bs in
  let dstStart := w64 (w64 (blockStart + srcStart) - start) in
  put buf dstStart (sub blockBuf srcStart (srcEnd - srcStart)).

(** Block [i] of the extent whose first byte is the file's byte
    [logicalPos]; the caller's buffer is threaded through. *)
Definition read_file_block (start end_ : Z) (ext : Extent) (logicalPos i : Z) (buf : list byte)
    : FS D (list byte + list byte) :=
  fs <- get ;;
  let bs := BlockSize fs in
  let blockStart := w64 (logicalPos + w64 (i * bs)) in
  let blockEnd := w64 (blockStart + bs) in
  if blockEnd <=? start then mret (inl buf)
  else if end_ <=? blockStart then mret (inr buf)
  else
    let physBlock := w64 (ext_start ext + i) in
    blockBuf <- wrap "ReadFileAt: block %d: %w" (fs_ReadAt (block_offset bs physBlock) bs) ;;
    mret (inl (copy_block bs start end_ blockStart blockBuf buf)).

Definition read_file_extent (start end_ : Z) (ext : Extent) (acc : list byte * Z)
    : FS D (list byte * Z + list byte * Z) :=
  let '(buf, logicalPos) := acc in
  fs <- get ;;
  let extentEnd := w64 (logicalPos + w64 (ext_count ext * BlockSize fs)) in
  if extentEnd <=? start then mret (inl (buf, extentEnd))
  else if end_ <=? logicalPos then mret (inr acc)
  else if ext_uninit ext then mret (inl (buf, extentEnd))
  else
    buf <- forB (seqZ 0 (ext_count ext)) buf (read_file_block start end_ ext logicalPos) ;;
    mret (inl (buf, extentEnd)).

Definition ReadFileAt (extents : list Extent) (fileSize : Z) (buf : list byte) (ofst : Z)
    : FS D (list byte * Z) :=
  if (ofst <? 0) || (fileSize <=? ofst) then mret (buf, 0)
  else
    let start := ofst in
    let end_ := w64 (start + zlen buf) in
    let end_ := if fileSize <? end_ then fileSize else end_ in
    let totalToRead := end_ - start in
    let buf := put buf 0 (zeros totalToRead) in
    let! (buf, _) := forB extents (buf, 0) (read_file_extent start end_) in
    mret (buf, totalToRead).

Definition ReadSymlink (inode : Inode) : FS D (list byte) :=
  if negb (IsSymlink inode)
  then fail (Errorf "ReadSymlink: inode has I_mode=0x%04x - expected S_IFLNK (0xA000)")
  else
    let size := Size inode in
    if size =? 0 then mret []
    else if negb (UsesExtents inode) && (size <=? 60) then lift (slice (I_block inode) 0 size)
    else
      extents <- wrap "ReadSymlink: failed to walk extent tree: %w" (ReadExtents inode) ;;
      fs <- get ;;
      let bs := BlockSize fs in
      let! (buf, _) :=
        forB extents (zeros size, 0) (fun ext acc =>
          let '(buf, written) := acc in
          if size <=? written then mret (inr acc)
          else if ext_uninit ext then mret (inl (buf, w64 (written + w64 (ext_count ext * bs))))
          else
            acc <- forB (seqZ 0 (EE_len ext)) (buf, written) (fun i acc =>
              let '(buf, written) := acc in
              if size <=? written then mret (inr acc)
              else
                let physBlock := w64 (ext_start ext + i) in
                blockBuf <- wrap "ReadSymlink: failed to read block %d: %w"
                              (fs_ReadAt (block_offset bs physBlock) bs) ;;
                let remaining := size - written in
                let toCopy := if remaining <? bs then remaining else bs in
                mret (inl (put buf written (sub blockBuf 0 toCopy), written + toCopy))) ;;
            mret (inl acc)) in
      mret buf.

(** ** Writing *)

(** One round of the loop of [WriteFileAt]. *)
Definition write_file_block (extents : list Extent) (buf : list byte) (start end_ : Z)
    (logicalBlock : Z) (inode : Inode) : FS D Inode :=
  fs <- get ;;
  let blockSize := BlockSize fs in
  let blockStart := w64 (logicalBlock * blockSize) in
  let blockEnd := w64 (blockStart + blockSize) in
  let readStart := if blockStart <? start then start - blockStart else 0 in
  let readEnd := if end_ <? blockEnd then end_ - blockStart else blockSize in
  let! (inode, physBlock) :=
    match findPhysicalBlock extents (w32 logicalBlock) with
    | Some physBlock => mret (inode, physBlock)
    | None =>
        newPhysBlock <- wrap "WriteFileAt: %w" AllocateBlock ;;
        let newExt := mkExtent (w32 logicalBlock) 1 (w16 (Z.shiftr newPhysBlock 32)) (w32 newPhysBlock) in
        inode <- wrap "WriteFileAt: %w" (AppendExtent inode newExt) ;;
        mret (inode, newPhysBlock)
    end in
  blockData <- wrap "WriteFileAt: failed to read block %d: %w"
                 (fs_ReadAt (block_offset blockSize physBlock) blockSize) ;;
  let srcStart := w64 (blockStart - start) in
  _ <- lift (slice blockData readStart readEnd) ;;
  src <- lift (slice buf srcStart (w64 (srcStart + (readEnd - readStart)))) ;;
  wrap "WriteFileAt: failed to write block %d: %w"
    (fs_WriteAt (block_offset blockSize physBlock) (put blockData readStart src)) ;;
  mret inode.

(** The result is the updated inode with the count. *)
Definition WriteFileAt (inode : Inode) (buf : list byte) (ofst : Z) : FS D (Inode * Z) :=
  if negb (IsRegular inode) then fail (Errorf "WriteFileAt: not a regular file")
  else if negb (UsesExtents inode) then fail (Errorf "WriteFileAt: extents required")
  else if zlen buf =? 0 then mret (inode, 0)
  else
    let fileSize := Size inode in
    if ofst <? 0 then fail (Errorf "WriteFileAt: negative offset %d")
    else
      let start := ofst in
      let end_ := w64 (start + zlen buf) in
      extents <- wrap "WriteFileAt: failed to read extents: %w" (ReadExtents inode) ;;
      fs <- get ;;
      let blockSize := BlockSize fs in
      if blockSize =? 0 then lift Panic
      else
        let firstBlock := start / blockSize in
        let lastBlock := w64 (end_ - 1) / blockSize in
        inode <- forM (seqZ firstBlock (lastBlock - firstBlock + 1)) inode
                   (write_file_block extents buf start end_) ;;
        let inode :=
          if fileSize <? end_ then set_file_blocks blockSize end_ (set_file_size end_ inode) else inode in
        mret (set_I_ctime (w32 now) (set_I_mtime (w32 now) inode), zlen buf).

(** ** Truncating *)

(** One extent of the shortening of a file to the blocks up to
    [newLastBlock]: the extents kept so far. *)
Definition truncate_extent (newLastBlock : Z) (ext : Extent) (kept : list Extent) : FS D (list Extent) :=
  let blockCount := ext_count ext in
  let startBlock := EE_block ext in
  let endBlock := w64 (startBlock + blockCount - 1) in
  if endBlock <=? newLastBlock then mret (kept ++ [ext])
  else if newLastBlock <? startBlock then
    free_run "TruncateInode: %w" (ext_start ext) blockCount ;;
    mret kept
  else
    let keepCount := newLastBlock - startBlock + 1 in
    free_run "TruncateInode: %w" (w64 (ext_start ext + keepCount)) (w64 (blockCount - keepCount)) ;;
    mret (kept ++ [set_EE_len (Z.lor (Z.land (EE_len ext) 0x8000) (w16 keepCount)) ext]).

(** The entries that fit into the inode. *)
Fixpoint write_kept (data : list byte) (i : Z) (kept : list Extent) : list byte :=
  match kept with
  | [] => data
  | ext :: kept' =>
      let off := extentHeaderSize + i * extentEntrySize in
      if zlen data <? off + extentEntrySize then data
      else write_kept (put data off (binary_Write ext)) (i + 1) kept'
  end.

Definition TruncateInode (inode : Inode) (newSize : Z) : FS D Inode :=
  if Size inode <=? newSize then mret inode
  else if negb (UsesExtents inode) then fail (Errorf "TruncateInode: extents required")
  else
    extents <- wrap "TruncateInode: failed to read extents: %w" (ReadExtents inode) ;;
    fs <- get ;;
    let blockSize := BlockSize fs in
    if blockSize =? 0 then lift Panic
    else
      kept <-
        (if newSize =? 0 then
           forM extents tt (fun ext _ =>
             if ext_uninit ext then mret tt
             else free_run "TruncateInode: %w" (ext_start ext) (ext_count ext)) ;;
           mret []
         else
           let newLastBlock := newSize / blockSize in
           let newLastBlock := if newSize mod blockSize =? 0 then newLastBlock - 1 else newLastBlock in
           forM extents [] (truncate_extent newLastBlock)) ;;
      let hdr := mkExtentHeader EXT4_EXT_MAGIC (w16 (zlen kept)) 4 0 0 in
      let data := write_kept (put (I_block inode) 0 (binary_Write hdr)) 0 kept in
      let inode := set_file_blocks blockSize newSize (set_file_size newSize (set_I_block data inode)) in
      mret (set_I_ctime (w32 now) (set_I_mtime (w32 now) inode)).
End file_io.

(** ** The bytes of a file

    The block map of a file sends the byte at [pos] to a byte of the
    device, or to zero where no initialised extent has its block. *)
Definition file_byte (c : list byte) (bs : Z) (extents : list Extent) (pos : Z) : byte :=
  match findPhysicalBlock extents (pos / bs) with
  | Some p => default Byte.x00 (c !! Z.to_nat (p * bs + pos mod bs))
  | None => Byte.x00
  end.

Definition blocks_of (extents : list Extent) : Z := foldr (fun e n => ext_count e + n) 0 extents.

(** The extents cover the blocks from [b] on, one after the other. *)
Fixpoint dense (b : Z) (extents : list Extent) : Prop :=
  match extents with
  | [] => True
  | ext :: extents' => EE_block ext = b /\ dense (b + ext_count ext) extents'
  end.

(** The blocks of an initialised extent lie on the device. *)
Definition extent_on (c : list byte) (bs : Z) (ext : Extent) : Prop :=
  struct_wf ext /\ (ext_uninit ext = false -> (ext_start ext + ext_count ext) * bs <= zlen c).

Lemma Extent_range ext :
  struct_wf ext -> 0 <= EE_block ext < 2 ^ 32 /\ 0 <= EE_len ext < 2 ^ 16 /\
    0 <= EE_start_hi ext < 2 ^ 16 /\ 0 <= EE_start_lo ext < 2 ^ 32.
Proof. intros (F1 & F2 & F3 & F4). exact (conj F1 (conj F2 (conj F3 F4))). Qed.

Lemma wf_count ext : struct_wf ext -> 0 <= ext_count ext < 2 ^ 15.
Proof. intros Hwf. apply ext_count_range, (Extent_range ext Hwf). Qed.

Lemma wf_start ext : struct_wf ext -> 0 <= ext_start ext < 2 ^ 48.
Proof.
  intros (_ & _ & Hhi & Hlo)%Extent_range. unfold ext_start. apply (lor_range 48); [lia| |lia].
  by apply (shiftl_range 16 32).
Qed.

Section block_map.
Implicit Types l : list Extent.

Lemma blocks_of_cons e l : blocks_of (e :: l) = ext_count e + blocks_of l.
Proof. done. Qed.

Lemma blocks_of_nonneg l : Forall struct_wf l -> 0 <= blocks_of l.
Proof. induction 1 as [|e l He Hl IH]; [done|]. rewrite blocks_of_cons. pose proof (wf_count e He). lia. Qed.

Lemma find_before b l k :
  Forall struct_wf l -> dense b l -> k < b -> findPhysicalBlock l k = None.
Proof.
  intros Hwf. revert b. induction Hwf as [|e l He Hl IH]; intros b Hd Hk; [done|].
  destruct Hd as [Hb Hd]. pose proof (wf_count e He). cbn [findPhysicalBlock].
  rewrite (IH _ Hd) by lia. rewrite (proj2 (Z.leb_gt (EE_block e) k)) by lia. by destruct (ext_uninit e).
Qed.

(** One extent of a dense list decides the lookups of its blocks. *)
Lemma find_dense b e l k :
  Forall struct_wf (e :: l) -> dense b (e :: l) -> 0 <= b -> b + ext_count e < 2 ^ 32 -> b <= k ->
  findPhysicalBlock (e :: l) k =
    if k <? b + ext_count e then (if ext_uninit e then None else Some (ext_start e + (k - b)))
    else findPhysicalBlock l k.
Proof.
  intros Hwf [Hb Hd] Hb0 Hmax Hk. inversion Hwf as [|?? He Hl]; subst.
  pose proof (wf_count e He). pose proof (wf_start e He). cbn [findPhysicalBlock].
  rewrite (proj2 (Z.leb_le _ k)), w32_id by lia. cbn [andb].
  destruct (Z.ltb_spec k (EE_block e + ext_count e)).
  - rewrite (find_before _ _ _ Hl Hd) by lia. destruct (ext_uninit e); [done|]. by rewrite w64_id by lia.
  - by destruct (ext_uninit e).
Qed.

Lemma find_after b l k :
  Forall struct_wf l -> dense b l -> 0 <= b -> b + blocks_of l < 2 ^ 32 -> b + blocks_of l <= k ->
  findPhysicalBlock l k = None.
Proof.
  intros Hwf. revert b. induction Hwf as [|e l He Hl IH]; intros b Hd Hb Hmax Hk; [done|].
  rewrite blocks_of_cons in Hmax, Hk. pose proof (wf_count e He). pose proof (blocks_of_nonneg l Hl).
  rewrite (find_dense b) by (first [by constructor|exact Hd|lia]).
  rewrite (proj2 (Z.ltb_ge _ _)) by lia. destruct Hd as [_ Hd]. apply (IH (b + ext_count e)); [done|lia..].
Qed.
End block_map.

Lemma lookup_copy_block bs start end_ k blockBuf buf (j : nat) :
  0 < bs -> 0 <= start -> start < end_ < 2 ^ 64 -> 0 <= k -> k * bs + bs < 2 ^ 64 ->
  k * bs < end_ -> start < k * bs + bs -> zlen blockBuf = bs -> end_ - start <= zlen buf ->
  copy_block bs start end_ (k * bs) blockBuf buf !! j =
    if decide (k * bs <= start + Z.of_nat j < k * bs + bs /\ start + Z.of_nat j < end_)
    then blockBuf !! Z.to_nat (start + Z.of_nat j - k * bs) else buf !! j.
Proof.
  intros Hbs Hs Hend Hk Hmax Hb1 Hb2 Hlen Hbuf. unfold copy_block.
  rewrite (w64_id (k * bs + bs)) by nia.
  set (srcStart := if k * bs <? start then start - k * bs else 0).
  set (srcEnd := if end_ <? k * bs + bs then end_ - k * bs else bs).
  assert (Hss : srcStart = Z.max 0 (start - k * bs)).
  { unfold srcStart. destruct (Z.ltb_spec (k * bs) start); lia. }
  assert (Hse : srcEnd = Z.min bs (end_ - k * bs)).
  { unfold srcEnd. destruct (Z.ltb_spec end_ (k * bs + bs)); lia. }
  clearbody srcStart srcEnd. assert (0 <= k * bs) by nia.
  rewrite (w64_id (k * bs + srcStart)), w64_id by lia. rewrite lookup_put by lia.
  rewrite zlen_sub by lia. unfold zlen in *. repeat case_decide; try lia; [|done].
  rewrite lookup_sub by lia. rewrite decide_True by lia. f_equal. lia.
Qed.

Section read.
Context {D : Type} `{Device D} {env : Env}.
Implicit Types fs : FileSystem D.

(** The first [n] bytes of [buf] are those of the file from [start] on as
    far as they lie before [lim], and zero from there; the rest is [buf0]. *)
Definition filled (c : list byte) (bs : Z) (extents : list Extent) (start n lim : Z) (buf0 buf : list byte) : Prop :=
  zlen buf = zlen buf0 /\
  forall j : nat, buf !! j =
    if decide (Z.of_nat j < n)
    then Some (if decide (start + Z.of_nat j < lim) then file_byte c bs extents (start + Z.of_nat j) else Byte.x00)
    else buf0 !! j.

Lemma filled_skip c bs extents start n lim lim' buf0 buf :
  lim <= lim' ->
  (forall p, start <= p < start + n -> lim <= p < lim' -> file_byte c bs extents p = Byte.x00) ->
  filled c bs extents start n lim buf0 buf -> filled c bs extents start n lim' buf0 buf.
Proof.
  intros Hlim Hzero [Hl Hb]. split; [done|]. intros j. rewrite Hb.
  destruct (decide (Z.of_nat j < n)); [|done]. f_equal. destruct (decide (start + Z.of_nat j < lim)).
  - by rewrite decide_True by lia.
  - destruct (decide (start + Z.of_nat j < lim')); [|done]. by rewrite Hzero by lia.
Qed.

(** One block copied from the device. *)
Lemma filled_copy c bs extents start n k phys buf0 buf :
  0 < bs -> 0 <= start -> 0 < n <= zlen buf0 -> start + n < 2 ^ 64 -> 0 <= k -> k * bs + bs < 2 ^ 64 ->
  k * bs < start + n -> start < k * bs + bs -> 0 <= phys -> (phys + 1) * bs <= zlen c ->
  findPhysicalBlock extents k = Some phys -> filled c bs extents start n (k * bs) buf0 buf ->
  filled c bs extents start n ((k + 1) * bs) buf0 (copy_block bs start (start + n) (k * bs) (sub c (phys * bs) bs) buf).
Proof.
  intros Hbs Hs Hn Hend Hk Hmax Hlt Hgt Hp Hpc Hfind [Hl1 Hl2]. split; [rewrite <- Hl1; unfold copy_block; apply zlen_put|].
  intros j. rewrite lookup_copy_block by (try lia; rewrite zlen_sub; nia). rewrite Hl2.
  destruct (decide (Z.of_nat j < n)); [|by rewrite decide_False by lia].
  destruct (decide (k * bs <= start + Z.of_nat j < k * bs + bs /\ start + Z.of_nat j < start + n)).
  - rewrite (decide_True (P := start + Z.of_nat j < _)) by lia. unfold file_byte.
    destruct (block_of_position bs k (start + Z.of_nat j)) as [-> ->]; [lia|lia|].
    rewrite Hfind, lookup_sub, decide_True by nia.
    destruct (lookup_lt_is_Some_2 c (Z.to_nat (phys * bs + (start + Z.of_nat j - k * bs)))) as [x Hx]; [unfold zlen in *; nia|].
    rewrite Hx. cbn. rewrite <- Hx. f_equal. lia.
  - f_equal. destruct (decide (start + Z.of_nat j < k * bs)).
    + by rewrite decide_True by lia.
    + by rewrite decide_False by lia.
Qed.

(** One extent, the [b]-th block of the file being its first. *)
Lemma read_file_extent_blocks fs extents ext b start n buf0 buf :
  fs_ok fs -> extent_on (fs_content fs) (BlockSize fs) ext -> ext_uninit ext = false ->
  0 <= start -> 0 < n <= zlen buf0 -> start + n < 2 ^ 64 ->
  0 <= b -> (b + ext_count ext) * BlockSize fs < 2 ^ 64 ->
  (forall k, b <= k < b + ext_count ext -> findPhysicalBlock extents k = Some (ext_start ext + (k - b))) ->
  filled (fs_content fs) (BlockSize fs) extents start n (b * BlockSize fs) buf0 buf ->
  exists buf', forB (seqZ 0 (ext_count ext)) buf
      (read_file_block start (start + n) ext (b * BlockSize fs)) fs = (Ok buf', fs) /\
    filled (fs_content fs) (BlockSize fs) extents start n ((b + ext_count ext) * BlockSize fs) buf0 buf'.
Proof.
  intros Hok [Hwf Hfit] Hi Hs Hn Hend Hb Hmax Hfind Hf. specialize (Hfit Hi). pose proof Hok as (Hbs & _ & Hdev & _).
  set (bs := BlockSize fs) in *. set (c := fs_content fs) in *.
  pose proof (wf_count ext Hwf) as Hc. pose proof (wf_start ext Hwf) as Hst.
  apply (forB_inv (fun l buf => exists i, 0 <= i <= ext_count ext /\ l = seqZ i (ext_count ext - i) /\
                                filled c bs extents start n ((b + i) * bs) buf0 buf)).
  - intros acc (i & Hir & Hl & Hfi). destruct (Z.eq_dec i (ext_count ext)) as [->|]; [done|].
    rewrite seqZ_cons in Hl by lia. done.
  - intros i l acc (i' & Hir & Hl & Hfi). destruct (Z.eq_dec i' (ext_count ext)) as [->|].
    { rewrite Z.sub_diag in Hl. done. }
    rewrite seqZ_cons in Hl by lia. injection Hl as -> ->. unfold read_file_block. rewrite get_bind. fold bs.
    assert (Hm1 : (b + i') * bs + bs <= (b + ext_count ext) * bs).
    { replace ((b + i') * bs + bs) with ((b + i' + 1) * bs) by lia. apply Z.mul_le_mono_nonneg_r; lia. }
    assert (Hm2 : (ext_start ext + i' + 1) * bs <= zlen c).
    { transitivity ((ext_start ext + ext_count ext) * bs); [|done]. apply Z.mul_le_mono_nonneg_r; lia. }
    assert (Hm3 : 0 <= b * bs) by (apply Z.mul_nonneg_nonneg; lia).
    assert (Hm4 : 0 <= i' * bs) by (apply Z.mul_nonneg_nonneg; lia).
    rewrite (w64_id (i' * bs)) by lia.
    replace (b * bs + i' * bs) with ((b + i') * bs) by lia.
    rewrite (w64_id ((b + i') * bs)), (w64_id ((b + i') * bs + bs)) by lia. cbn zeta.
    destruct (Z.leb_spec ((b + i') * bs + bs) start).
    { left. eexists. split; [done|]. exists (i' + 1). split; [lia|]. split; [f_equal; lia|].
      apply (filled_skip _ _ _ _ _ ((b + i') * bs)); [lia|lia|done]. }
    destruct (Z.leb_spec (start + n) ((b + i') * bs)).
    { right. eexists. split; [done|]. apply (filled_skip _ _ _ _ _ ((b + i') * bs)); [lia|lia|done]. }
    left. rewrite (w64_id (ext_start ext + i')) by lia.
    unfold bs at 1 2. rewrite (bind_ok _ _ _ _ _ (wrap_ok _ _ _ _ _ (read_block fs (ext_start ext + i') Hok ltac:(lia) ltac:(done)))).
    eexists. split; [done|]. exists (i' + 1). split; [lia|]. split; [f_equal; lia|].
    fold bs. fold c. replace (b + (i' + 1)) with (b + i' + 1) by lia. apply filled_copy; try done; try lia.
    rewrite Hfind by lia. f_equal. lia.
  - exists 0. split; [lia|]. split; [f_equal; lia|]. by rewrite Z.add_0_r.
Qed.

(** What the loop over the extents keeps: the extents to come continue the
    map at block [b]. *)
Definition read_state (c : list byte) (bs : Z) (extents : list Extent) (start n : Z) (buf0 : list byte)
    (l : list Extent) (acc : list byte * Z) : Prop :=
  exists b, acc.2 = b * bs /\ 0 <= b /\ dense b l /\ Forall (extent_on c bs) l /\
    b + blocks_of l < 2 ^ 32 /\ (b + blocks_of l) * bs < 2 ^ 64 /\
    (forall k, b <= k -> findPhysicalBlock extents k = findPhysicalBlock l k) /\
    filled c bs extents start n (b * bs) buf0 acc.1.

Definition read_done (c : list byte) (bs : Z) (extents : list Extent) (start n : Z) (buf0 buf : list byte) : Prop :=
  zlen buf = zlen buf0 /\
  forall j : nat, buf !! j =
    if decide (Z.of_nat j < n) then Some (file_byte c bs extents (start + Z.of_nat j)) else buf0 !! j.

Lemma filled_done c bs extents start n lim buf0 buf :
  (forall p, start <= p < start + n -> lim <= p -> file_byte c bs extents p = Byte.x00) ->
  filled c bs extents start n lim buf0 buf -> read_done c bs extents start n buf0 buf.
Proof.
  intros Hz [Hl Hb]. split; [done|]. intros j. rewrite Hb. destruct (decide (Z.of_nat j < n)); [|done].
  f_equal. destruct (decide (start + Z.of_nat j < lim)); [done|]. by rewrite Hz by lia.
Qed.

Lemma file_byte_hole c bs extents p :
  findPhysicalBlock extents (p / bs) = None -> file_byte c bs extents p = Byte.x00.
Proof. unfold file_byte. by intros ->. Qed.

Lemma extents_wf c bs l : Forall (extent_on c bs) l -> Forall struct_wf l.
Proof. intros Hl. apply (Forall_impl _ _ _ Hl). by intros ? []. Qed.

Lemma read_file_extent_step fs extents start n buf0 ext l acc :
  fs_ok fs -> 0 <= start -> 0 < n <= zlen buf0 -> start + n < 2 ^ 64 ->
  read_state (fs_content fs) (BlockSize fs) extents start n buf0 (ext :: l) acc ->
  (exists acc', read_file_extent start (start + n) ext acc fs = (Ok (inl acc'), fs) /\
     read_state (fs_content fs) (BlockSize fs) extents start n buf0 l acc') \/
  (exists acc', read_file_extent start (start + n) ext acc fs = (Ok (inr acc'), fs) /\
     read_done (fs_content fs) (BlockSize fs) extents start n buf0 acc'.1).
Proof.
  intros Hok Hs Hn Hend (b & Hpos & Hb & Hd & Hon & Hmax & Hmax2 & Hfind & Hf).
  destruct acc as [buf pos]. cbn [fst snd] in *. subst pos. pose proof Hok as (Hbs & _).
  inversion Hon as [|?? He Hon']; subst. pose proof (extents_wf _ _ _ Hon) as Hwf.
  rewrite blocks_of_cons in Hmax, Hmax2. pose proof (wf_count ext (proj1 He)) as Hc.
  pose proof (blocks_of_nonneg l (extents_wf _ _ _ Hon')) as Hnn.
  set (bs := BlockSize fs) in *. set (c := fs_content fs) in *.
  assert (Hm : (b + ext_count ext) * bs <= (b + (ext_count ext + blocks_of l)) * bs)
    by (apply Z.mul_le_mono_nonneg_r; lia).
  assert (Hm1 : 0 <= b * bs) by (apply Z.mul_nonneg_nonneg; lia).
  assert (Hm2 : 0 <= ext_count ext * bs) by (apply Z.mul_nonneg_nonneg; lia).
  assert (Hfb : forall k, b <= k < b + ext_count ext ->
    findPhysicalBlock extents k = if ext_uninit ext then None else Some (ext_start ext + (k - b))).
  { intros k Hk. rewrite Hfind, (find_dense b) by (done || lia). by rewrite (proj2 (Z.ltb_lt _ _)) by lia. }
  assert (Hnext : forall buf', filled c bs extents start n ((b + ext_count ext) * bs) buf0 buf' ->
    read_state c bs extents start n buf0 l (buf', (b + ext_count ext) * bs)).
  { intros buf' Hf'. exists (b + ext_count ext). destruct Hd as [Hd0 Hd].
    repeat (split; [first [done|lia|rewrite <- Z.add_assoc; done]|]). split; [|done].
    intros k Hk. rewrite Hfind, (find_dense b) by (done || lia). by rewrite (proj2 (Z.ltb_ge _ _)) by lia. }
  unfold read_file_extent. rewrite get_bind. fold bs. rewrite (w64_id (ext_count ext * bs)) by lia.
  replace (b * bs + ext_count ext * bs) with ((b + ext_count ext) * bs) by lia.
  rewrite w64_id by lia. cbn zeta.
  destruct (Z.leb_spec ((b + ext_count ext) * bs) start).
  { left. eexists. split; [done|]. apply Hnext, (filled_skip _ _ _ _ _ (b * bs)); [lia|lia|done]. }
  destruct (Z.leb_spec (start + n) (b * bs)).
  { right. eexists. split; [done|]. apply (filled_done _ _ _ _ _ (b * bs)); [lia|done]. }
  left. destruct (ext_uninit ext) eqn:Eu.
  { eexists. split; [done|]. apply Hnext, (filled_skip _ _ _ _ _ (b * bs)); [lia| |done].
    intros p _ Hp. apply file_byte_hole, Hfb. split; [apply Z.div_le_lower_bound; lia|].
    apply Z.div_lt_upper_bound; lia. }
  destruct (read_file_extent_blocks fs extents ext b start n buf0 buf) as (buf' & E & Hf'); try done; [fold bs; lia|].
  fold bs in E. rewrite (bind_ok _ _ _ _ _ E). eexists. split; [done|]. by apply Hnext.
Qed.

(** A read returns the bytes of the file: for extents that cover the
    blocks from 0 on without a hole, [ReadFileAt] reports
    [min(len(buf), fileSize - ofst)] and fills exactly that much of the
    buffer with the bytes the block map gives, an uninitialised extent and
    the part behind the last extent reading as zeros. *)
Theorem ReadFileAt_window fs extents fileSize buf ofst :
  fs_ok fs -> Forall (extent_on (fs_content fs) (BlockSize fs)) extents -> dense 0 extents ->
  blocks_of extents < 2 ^ 32 -> blocks_of extents * BlockSize fs < 2 ^ 64 ->
  0 <= ofst < fileSize -> 0 < zlen buf -> ofst + zlen buf < 2 ^ 64 ->
  let n := Z.min (zlen buf) (fileSize - ofst) in
  exists buf', ReadFileAt extents fileSize buf ofst fs = (Ok (buf', n), fs) /\ zlen buf' = zlen buf /\
    forall j : nat, buf' !! j =
      if decide (Z.of_nat j < n)
      then Some (file_byte (fs_content fs) (BlockSize fs) extents (ofst + Z.of_nat j)) else buf !! j.
Proof.
  intros Hok Hon Hd Hmax Hmax2 Ho Hbuf Hend n. unfold ReadFileAt.
  rewrite (proj2 (Z.ltb_ge ofst 0)), (proj2 (Z.leb_gt fileSize ofst)) by lia. cbn [orb]. cbn zeta.
  rewrite (w64_id (ofst + zlen buf)) by lia.
  assert (Ee : (if fileSize <? ofst + zlen buf then fileSize else ofst + zlen buf) = ofst + n).
  { destruct (Z.ltb_spec fileSize (ofst + zlen buf)); lia. }
  rewrite Ee. replace (ofst + n - ofst) with n by lia.
  pose proof (extents_wf _ _ _ Hon) as Hwf. pose proof (blocks_of_nonneg _ Hwf) as Hnn.
  pose proof Hok as (Hbs & _).
  destruct (forB_inv (read_state (fs_content fs) (BlockSize fs) extents ofst n buf)
    (fun acc => read_done (fs_content fs) (BlockSize fs) extents ofst n buf acc.1)
    (read_file_extent ofst (ofst + n)) fs) with (l := extents) (acc := (put buf 0 (zeros n), 0))
    as ([buf' pos] & E & Hl & Hb).
  - intros acc (b & _ & Hb & _ & _ & _ & _ & Hfind & Hf).
    apply (filled_done _ _ _ _ _ (b * BlockSize fs)); [|done]. intros p _ Hp.
    apply file_byte_hole. rewrite Hfind; [done|]. apply Z.div_le_lower_bound; lia.
  - intros ext l acc Hst. apply read_file_extent_step; [done|lia..|done].
  - exists 0. split; [done|]. rewrite Z.add_0_l. repeat (split; [done|]). split; cbn [fst]; [apply zlen_put|].
    intros j. rewrite lookup_put, zlen_zeros by lia. unfold zlen in *.
    repeat case_decide; try lia; try done. unfold zeros. rewrite lookup_replicate_2 by lia. done.
  - exists buf'. rewrite (bind_ok _ _ _ _ _ E). done.
Qed.
End read.

(** ** Writing over mapped blocks *)
Section write.
Context {D : Type} `{Device D} {env : Env}.
Implicit Types fs : FileSystem D.

(** Block [k] of the file is on the device. *)
Definition mapped fs (extents : list Extent) (k : Z) : Prop :=
  exists p, findPhysicalBlock extents k = Some p /\ 0 <= p /\ (p + 1) * BlockSize fs <= zlen (fs_content fs).

(** No device block belongs to two blocks of the file. *)
Definition injective (extents : list Extent) : Prop :=
  forall k k' p, findPhysicalBlock extents k = Some p -> findPhysicalBlock extents k' = Some p -> k = k'.

Lemma write_file_block_mapped fs extents buf start k p inode :
  fs_ok fs -> (BlockSize fs | start) -> 0 <= start <= k * BlockSize fs -> 0 <= k < 2 ^ 32 ->
  k * BlockSize fs < start + zlen buf -> start + zlen buf < 2 ^ 63 ->
  findPhysicalBlock extents k = Some p -> 0 <= p -> (p + 1) * BlockSize fs <= zlen (fs_content fs) ->
  exists v, write_file_block extents buf start (start + zlen buf) k inode fs = (Ok inode, set_dev v fs) /\
    fs_ok (set_dev v fs) /\
    fs_content (set_dev v fs) =
      put (fs_content fs) (p * BlockSize fs)
        (sub buf (k * BlockSize fs - start) (Z.min (BlockSize fs) (start + zlen buf - k * BlockSize fs))).
Proof.
  intros Hok Hdiv Hst Hk Hend Hmax Hfind Hp Hfit. pose proof Hok as (Hbs & _ & Hdev & _).
  set (bs := BlockSize fs) in *. set (c := fs_content fs) in *.
  assert (Hbsmax : bs < 2 ^ 63) by (assert (bs <= (p + 1) * bs) by nia; lia).
  unfold write_file_block. rewrite get_bind. fold bs. cbn zeta.
  assert (Hkb : 0 <= k * bs) by lia.
  rewrite (w64_id (k * bs)), (w64_id (k * bs + bs)), (w32_id k) by lia.
  rewrite (proj2 (Z.ltb_ge (k * bs) start)) by lia. rewrite Hfind, M_left_id. cbn beta iota.
  set (m := Z.min bs (start + zlen buf - k * bs)).
  assert (Em : (if start + zlen buf <? k * bs + bs then start + zlen buf - k * bs else bs) = m).
  { destruct (Z.ltb_spec (start + zlen buf) (k * bs + bs)); lia. }
  rewrite Em. unfold bs at 1 2.
  rewrite (bind_ok _ _ _ _ _ (wrap_ok _ _ _ _ _ (read_block fs p Hok Hp Hfit))). fold bs. fold c.
  assert (Hl : zlen (sub c (p * bs) bs) = bs) by (apply zlen_sub; nia).
  rewrite (slice_in (sub c (p * bs) bs) 0 m) by lia. rewrite lift_ok_bind. rewrite (w64_id (k * bs - start)), Z.sub_0_r, w64_id by lia.
  rewrite slice_in by lia. rewrite lift_ok_bind. replace (k * bs - start + m - (k * bs - start)) with m by lia.
  destruct (write_block fs p (put (sub c (p * bs) bs) 0 (sub buf (k * bs - start) m)) Hok Hp Hfit) as (v & Hw & Hok' & Hc').
  { by rewrite zlen_put. }
  fold bs in Hw. rewrite (bind_ok _ _ _ _ _ (wrap_ok _ _ _ _ _ Hw)). exists v. split; [done|]. split; [done|].
  rewrite Hc'. fold bs. fold c. rewrite <- (put_put_sub c (p * bs) bs (p * bs) (sub buf (k * bs - start) m)), Z.sub_diag; [done|nia|lia| |lia].
  rewrite zlen_sub; lia.
Qed.

Lemma find_nonneg extents k p : findPhysicalBlock extents k = Some p -> 0 <= p.
Proof.
  induction extents as [|e l IH]; cbn [findPhysicalBlock]; [done|].
  destruct (ext_uninit e); [done|]. destruct (_ && _); [|done]. intros [= <-]. apply w64_range.
Qed.

(** How the bytes of the file change when block [k] does. *)
Lemma file_byte_put c bs extents k p s pos :
  0 < bs -> injective extents -> findPhysicalBlock extents k = Some p -> 0 <= p -> (p + 1) * bs <= zlen c ->
  zlen s <= bs -> 0 <= k -> 0 <= pos ->
  file_byte (put c (p * bs) s) bs extents pos =
    if decide (k * bs <= pos < k * bs + zlen s) then default Byte.x00 (s !! Z.to_nat (pos - k * bs))
    else file_byte c bs extents pos.
Proof.
  intros Hbs Hinj Hfind Hp Hfit Hs Hk Hpos. unfold file_byte.
  pose proof (Z.mod_pos_bound pos bs Hbs) as Hm. pose proof (Z.div_mod pos bs) as Hdm.
  destruct (Z.eq_dec (pos / bs) k) as [Ek|Ek].
  - rewrite Ek, Hfind. rewrite lookup_put by nia. case_decide as E1; case_decide as E2.
    + do 2 f_equal. nia.
    + exfalso. apply E2. nia.
    + exfalso. apply E1. unfold zlen in *. nia.
    + done.
  - rewrite decide_False by (intros ?; apply Ek; symmetry; apply (Z.div_unique pos bs k (pos - k * bs)); lia).
    destruct (findPhysicalBlock extents (pos / bs)) as [p'|] eqn:E'; [|done].
    assert (p' <> p) by (intros ->; apply Ek; by eapply Hinj).
    pose proof (find_nonneg _ _ _ E'). f_equal. rewrite lookup_put by nia. rewrite decide_False; [done|].
    intros [Hin _]. assert (p' * bs + pos mod bs < p' * bs + bs) by lia.
    destruct (Z.lt_ge_cases p' p); [assert (p' * bs + bs <= p * bs) by nia|assert (p * bs + bs <= p' * bs) by nia]; nia.
Qed.

Lemma regular_not_dir inode : IsRegular inode = true -> IsDir inode = false.
Proof. unfold IsRegular, IsDir. intros ->%Z.eqb_eq. done. Qed.

Lemma Size_set_file_size n inode : IsDir inode = false -> 0 <= n < 2 ^ 64 -> Size (set_file_size n inode) = n.
Proof. intros Hd Hn. unfold set_file_size. rewrite Hd. unfold Size, IsDir in *. cbn. rewrite Hd. by apply hi_lo_64. Qed.

Lemma Size_set_file_blocks bs n inode : Size (set_file_blocks bs n inode) = Size inode.
Proof. unfold set_file_blocks. by destruct (_ <? _). Qed.

Lemma I_block_written bs n inode :
  I_block (set_file_blocks bs n (set_file_size n inode)) = I_block inode.
Proof. unfold set_file_blocks, set_file_size. by destruct (_ <? _), (IsDir inode). Qed.

(** What [WriteFileAt] keeps from block to block: the bytes up to block [k]
    are written, device blocks of other files are untouched. *)
Definition written fs extents buf start k fs' : Prop :=
  (exists v, fs' = set_dev v fs) /\ fs_ok fs' /\ zlen (fs_content fs') = zlen (fs_content fs) /\
  (forall pos, 0 <= pos -> file_byte (fs_content fs') (BlockSize fs) extents pos =
     if decide (start <= pos < Z.min (start + zlen buf) (k * BlockSize fs))
     then default Byte.x00 (buf !! Z.to_nat (pos - start)) else file_byte (fs_content fs) (BlockSize fs) extents pos) /\
  (forall i : nat, (forall k', start / BlockSize fs <= k' < k ->
      findPhysicalBlock extents k' <> Some (Z.of_nat i / BlockSize fs)) ->
     fs_content fs' !! i = fs_content fs !! i).

Lemma written_step fs extents buf start k inode fs' :
  (BlockSize fs | start) -> 0 <= start <= k * BlockSize fs -> 0 <= k < 2 ^ 32 -> 0 < BlockSize fs ->
  k * BlockSize fs < start + zlen buf -> start + zlen buf < 2 ^ 63 ->
  mapped fs extents k -> injective extents -> written fs extents buf start k fs' ->
  exists fs'', write_file_block extents buf start (start + zlen buf) k inode fs' = (Ok inode, fs'') /\
    written fs extents buf start (k + 1) fs''.
Proof.
  intros Hdiv Hst Hk Hbs Hend Hmax (p & Hfind & Hp & Hfit) Hinj ([v0 ->] & Hok & Hlen & Hbytes & Hframe).
  destruct (write_file_block_mapped (set_dev v0 fs) extents buf start k p inode) as (v & Hw & Hok' & Hc'); try done.
  { by rewrite Hlen. }
  rewrite Hw. eexists. split; [done|]. split; [by exists v|]. split; [done|].
  cbn [BlockSize set_dev] in Hc'. rewrite Hc', zlen_put. split; [done|].
  set (bs := BlockSize fs) in *. set (m := Z.min bs (start + zlen buf - k * bs)) in *.
  assert (Hm : zlen (sub buf (k * bs - start) m) = m) by (apply zlen_sub; lia). split.
  - intros pos Hpos. rewrite (file_byte_put _ bs extents k) by (try done; lia). rewrite Hm, Hbytes by done.
    destruct (decide (k * bs <= pos < k * bs + m)).
    + rewrite decide_True by lia. rewrite lookup_sub, decide_True by lia. do 2 f_equal. lia.
    + destruct (decide (start <= pos < Z.min (start + zlen buf) (k * bs))).
      * by rewrite decide_True by lia.
      * by rewrite decide_False by lia.
  - intros i Hi. rewrite lookup_put by nia. rewrite decide_False.
    { apply Hframe. intros k' Hk'. apply Hi. lia. }
    intros [Hin _]. apply (Hi k); [split; [apply Z.div_le_upper_bound; lia|lia]|].
    rewrite Hfind. f_equal. apply (Z.div_unique _ bs p (Z.of_nat i - p * bs)); lia.
Qed.

(** C4: A write that starts on a block boundary, over blocks the file has,
    succeeds; afterwards the bytes of the file are the old ones with the
    buffer at [ofst], the size is the larger of the old size and the end of
    the write, the block map is the same, and no byte of the device outside
    the file's blocks in that range changed. *)
Theorem WriteFileAt_overwrites fs inode extents buf ofst :
  fs_ok fs -> IsRegular inode = true -> UsesExtents inode = true -> ReadExtents inode fs = (Ok extents, fs) ->
  injective extents -> 0 < zlen buf -> 0 <= ofst -> (BlockSize fs | ofst) -> ofst + zlen buf < 2 ^ 63 ->
  (ofst + zlen buf - 1) / BlockSize fs < 2 ^ 32 ->
  (forall k, ofst / BlockSize fs <= k <= (ofst + zlen buf - 1) / BlockSize fs -> mapped fs extents k) ->
  exists inode' fs', WriteFileAt inode buf ofst fs = (Ok (inode', zlen buf), fs') /\ fs_ok fs' /\
    Size inode' = Z.max (Size inode) (ofst + zlen buf) /\ I_block inode' = I_block inode /\
    (forall pos, 0 <= pos -> file_byte (fs_content fs') (BlockSize fs) extents pos =
       if decide (ofst <= pos < ofst + zlen buf) then default Byte.x00 (buf !! Z.to_nat (pos - ofst))
       else file_byte (fs_content fs) (BlockSize fs) extents pos) /\
    (forall i : nat, (forall k, ofst / BlockSize fs <= k <= (ofst + zlen buf - 1) / BlockSize fs ->
        findPhysicalBlock extents k <> Some (Z.of_nat i / BlockSize fs)) ->
       fs_content fs' !! i = fs_content fs !! i).
Proof.
  intros Hok Hreg Hext Hrd Hinj Hbuf Ho Hdiv Hmax Hk32 Hmap. pose proof Hok as (Hbs & _).
  unfold WriteFileAt. rewrite Hreg, Hext. cbn [negb]. rewrite (proj2 (Z.eqb_neq _ 0)) by lia.
  rewrite (proj2 (Z.ltb_ge ofst 0)) by lia. cbn zeta.
  rewrite (bind_ok _ _ _ _ _ (wrap_ok _ _ _ _ _ Hrd)), get_bind. rewrite (proj2 (Z.eqb_neq (BlockSize fs) 0)) by lia.
  rewrite (w64_id (ofst + zlen buf)), (w64_id (ofst + zlen buf - 1)) by lia.
  set (bs := BlockSize fs) in *. set (k0 := ofst / bs) in *. set (k1 := (ofst + zlen buf - 1) / bs) in *.
  assert (Hk0 : ofst = k0 * bs) by (destruct Hdiv as [q ->]; unfold k0; rewrite Z.div_mul; lia).
  assert (Hk0' : 0 <= k0) by (apply Z.div_pos; lia).
  assert (Hle : k0 <= k1) by (apply Z.div_le_mono; lia).
  assert (Hk1 : k1 * bs < ofst + zlen buf <= (k1 + 1) * bs).
  { pose proof (Z.div_mod (ofst + zlen buf - 1) bs) as Hdm. fold k1 in Hdm.
    pose proof (Z.mod_pos_bound (ofst + zlen buf - 1) bs Hbs). lia. }
  destruct (forM_inv (fun l inode' fs' => exists k, k0 <= k <= k1 + 1 /\ l = seqZ k (k1 - k + 1) /\ inode' = inode /\
      written fs extents buf ofst k fs')
    (write_file_block extents buf ofst (ofst + zlen buf))) with (l := seqZ k0 (k1 - k0 + 1)) (acc := inode) (s := fs)
    as (inode' & fs' & E & k & Hkr & Hl & -> & Hwr).
  - intros k l inode' fs' (k' & Hkr & Hl & -> & Hwr).
    destruct (Z.eq_dec k' (k1 + 1)) as [->|]; [by rewrite Z.sub_add_distr, Z.sub_diag in Hl|].
    rewrite seqZ_cons in Hl by lia. injection Hl as -> ->.
    assert (k' * bs <= k1 * bs) by (apply Z.mul_le_mono_nonneg_r; lia).
    assert (k0 * bs <= k' * bs) by (apply Z.mul_le_mono_nonneg_r; lia).
    destruct (written_step fs extents buf ofst k' inode fs') as (fs'' & E & Hwr'); try done; try lia.
    { apply Hmap. lia. }
    exists inode, fs''. split; [done|]. exists (k' + 1). split; [lia|]. split; [f_equal; lia|done].
  - exists k0. split; [lia|]. split; [done|]. split; [done|]. split; [by exists (dev fs); destruct fs|].
    split; [done|]. split; [done|]. split; [|done]. intros pos _. by rewrite decide_False by lia.
  - assert (k = k1 + 1) as ->.
    { destruct (Z.eq_dec k (k1 + 1)); [done|]. rewrite seqZ_cons in Hl by lia. done. }
    destruct Hwr as (_ & Hok' & _ & Hbytes & Hframe). rewrite (bind_ok _ _ _ _ _ E). eexists _, fs'.
    split; [done|]. split; [done|]. pose proof (regular_not_dir inode Hreg) as Hdir. split; [|split; [|split]].
    + destruct (Z.ltb_spec (Size inode) (ofst + zlen buf)).
      * etransitivity; [apply Size_set_file_blocks|]. rewrite Size_set_file_size; [lia|done|lia].
      * transitivity (Size inode); [done|lia].
    + destruct (Z.ltb_spec (Size inode) (ofst + zlen buf)); [apply I_block_written|done].
    + intros pos Hpos. rewrite Hbytes by done. by rewrite Z.min_l by lia.
    + intros i Hi. apply Hframe. intros k Hkk. apply Hi. fold bs k0 in Hkk. lia.
Qed.
End write.

(** ** Unaligned writes and truncation *)
Section truncate.
Context {D : Type} `{Device D} {env : Env}.
Implicit Types fs : FileSystem D.

(** A write that does not start on a block boundary panics, when the
    file already has the block it starts in: the source offset is computed
    as [blockStart - start] in unsigned arithmetic. *)
Theorem WriteFileAt_unaligned_panics fs inode extents buf ofst :
  fs_ok fs -> IsRegular inode = true -> UsesExtents inode = true -> ReadExtents inode fs = (Ok extents, fs) ->
  0 < zlen buf -> 0 <= ofst -> ofst mod BlockSize fs <> 0 -> ofst + zlen buf < 2 ^ 63 ->
  ofst / BlockSize fs < 2 ^ 32 -> mapped fs extents (ofst / BlockSize fs) ->
  WriteFileAt inode buf ofst fs = (Panic, fs).
Proof.
  intros Hok Hreg Hext Hrd Hbuf Ho Hmod Hmax Hk32 (p & Hfind & Hp & Hfit). pose proof Hok as (Hbs & _).
  unfold WriteFileAt. rewrite Hreg, Hext. cbn [negb]. rewrite (proj2 (Z.eqb_neq _ 0)) by lia.
  rewrite (proj2 (Z.ltb_ge ofst 0)) by lia. cbn zeta.
  rewrite (bind_ok _ _ _ _ _ (wrap_ok _ _ _ _ _ Hrd)), get_bind. rewrite (proj2 (Z.eqb_neq (BlockSize fs) 0)) by lia.
  rewrite (w64_id (ofst + zlen buf)), (w64_id (ofst + zlen buf - 1)) by lia.
  set (bs := BlockSize fs) in *. set (k := ofst / bs) in *.
  pose proof (Z.div_mod ofst bs) as Hdm. fold k in Hdm. pose proof (Z.mod_pos_bound ofst bs Hbs) as Hmr.
  assert (Hk : 0 <= k) by (apply Z.div_pos; lia).
  assert (k <= (ofst + zlen buf - 1) / bs) by (apply Z.div_le_mono; lia).
  rewrite seqZ_cons by lia. cbn [forM]. apply bind_panic, bind_panic.
  unfold write_file_block. rewrite get_bind. fold bs. cbn zeta.
  assert (Hkb : 0 <= k * bs) by (apply Z.mul_nonneg_nonneg; lia).
  assert (Hbig : bs < 2 ^ 63) by (destruct Hok as (_ & _ & ? & _); assert (bs <= (p + 1) * bs) by nia; lia).
  rewrite (w64_id (k * bs)), (w64_id (k * bs + bs)), (w32_id k) by lia.
  rewrite (proj2 (Z.ltb_lt (k * bs) ofst)) by lia. rewrite Hfind, M_left_id. cbn beta iota. unfold bs at 3 4.
  rewrite (bind_ok _ _ _ _ _ (wrap_ok _ _ _ _ _ (read_block fs p Hok Hp Hfit))).
  set (r := if _ <? _ then _ else _).
  destruct (slice _ (ofst - k * bs) r) eqn:Es; [|exfalso|done|exfalso].
  - apply slice_inv in Es as (Hr & Hr2 & _). rewrite lift_ok_bind. apply bind_panic. unfold lift. f_equal. unfold slice.
    assert (Ew : w64 (k * bs - ofst) = 2 ^ 64 + (k * bs - ofst)).
    { rewrite w64_mod. symmetry. apply (Z.mod_unique _ _ (-1)); lia. }
    fold bs. rewrite Ew. destruct (Z.leb_spec (2 ^ 64 + (k * bs - ofst)) (w64 (2 ^ 64 + (k * bs - ofst) + (r - (ofst - k * bs)))));
      [|by rewrite andb_false_r].
    rewrite (proj2 (Z.leb_gt _ (zlen buf))); [by rewrite andb_false_r|]. lia.
  - unfold slice in Es. by destruct (_ && _).
  - unfold slice in Es. by destruct (_ && _).
Qed.

(** The last block a file of [newSize] bytes needs, -1 for none. *)
Definition last_block (bs newSize : Z) : Z := (newSize - 1) / bs.

(** How many blocks of an extent a file keeps whose last block is [last],
    what is left of the extent, and the device blocks given back. *)
Definition ext_keep (last : Z) (ext : Extent) : Z := Z.min (ext_count ext) (Z.max 0 (last + 1 - EE_block ext)).
Definition kept_extent (last : Z) (ext : Extent) : list Extent :=
  if ext_keep last ext =? 0 then []
  else if ext_keep last ext =? ext_count ext then [ext]
  else [set_EE_len (Z.lor (Z.land (EE_len ext) 0x8000) (ext_keep last ext)) ext].
Definition freed_blocks (last : Z) (ext : Extent) : list Z :=
  (fun i => ext_start ext + i) <$> seqZ (ext_keep last ext) (ext_count ext - ext_keep last ext).

(** Truncation to nothing passes over extents that are not initialised. *)
Definition given_back (newSize last : Z) (ext : Extent) : list Z :=
  if (newSize =? 0) && ext_uninit ext then [] else freed_blocks last ext.

Definition extent_sane (ext : Extent) : Prop :=
  struct_wf ext /\ 0 < ext_count ext /\ EE_block ext + ext_count ext < 2 ^ 32.

Definition free_one (b : Z) (_ : unit) : FS D unit := wrap "TruncateInode: %w" (FreeBlock b).

Lemma last_block_code bs n :
  0 < bs -> 0 < n -> (if n mod bs =? 0 then n / bs - 1 else n / bs) = last_block bs n.
Proof.
  intros Hbs Hn. unfold last_block. pose proof (Z.div_mod n bs). pose proof (Z.mod_pos_bound n bs Hbs).
  destruct (Z.eqb_spec (n mod bs) 0).
  - apply (Z.div_unique _ _ _ (bs - 1)); nia.
  - apply (Z.div_unique _ _ _ (n mod bs - 1)); nia.
Qed.

(** [free_run] in terms of the blocks it frees. *)
Lemma free_run_blocks (start i n : Z) fs :
  0 <= start < 2 ^ 48 -> 0 <= i -> 0 <= n -> i + n < 2 ^ 16 ->
  free_run "TruncateInode: %w" (start + i) n fs = forM ((fun i => start + i) <$> seqZ i n) tt free_one fs.
Proof.
  intros Hs Hi Hn Hmax. unfold free_run. rewrite forM_fmap.
  replace (seqZ i n) with (Z.add i <$> seqZ 0 n) by (rewrite fmap_add_seqZ; f_equal; lia).
  rewrite forM_fmap. apply forM_ext.
  intros x [] s Hx%elem_of_seqZ. unfold free_one. do 3 f_equal. rewrite w64_id; lia.
Qed.

Lemma truncate_extent_spec last ext kept fs :
  0 <= last -> extent_sane ext ->
  truncate_extent last ext kept fs =
    (forM (freed_blocks last ext) tt free_one ;; mret (kept ++ kept_extent last ext)) fs.
Proof.
  intros Hlast (Hwf & Hc & Hmax). pose proof (wf_count ext Hwf) as Hc2. pose proof (wf_start ext Hwf) as Hs.
  destruct (Extent_range ext Hwf) as (Hb & _). unfold truncate_extent, freed_blocks, kept_extent. cbn zeta.
  rewrite (w64_id (EE_block ext + ext_count ext - 1)) by lia.
  destruct (Z.leb_spec (EE_block ext + ext_count ext - 1) last).
  { assert (Ek : ext_keep last ext = ext_count ext) by (unfold ext_keep; lia).
    rewrite Ek, Z.sub_diag, Z.eqb_refl. rewrite (proj2 (Z.eqb_neq _ 0)) by lia. done. }
  destruct (Z.ltb_spec last (EE_block ext)).
  { assert (Ek : ext_keep last ext = 0) by (unfold ext_keep; lia). rewrite Ek. cbn [Z.eqb].
    rewrite Z.sub_0_r, app_nil_r. rewrite <- (Z.add_0_r (ext_start ext)) at 1.
    unfold mbind, M_bind. rewrite (free_run_blocks (ext_start ext) 0) by lia. done. }
  assert (Ek : ext_keep last ext = last - EE_block ext + 1) by (unfold ext_keep; lia). rewrite <- Ek.
  rewrite (proj2 (Z.eqb_neq _ 0)), (proj2 (Z.eqb_neq _ (ext_count ext))) by lia.
  rewrite !w64_id, (w16_id (ext_keep last ext)) by lia.
  unfold mbind, M_bind. rewrite free_run_blocks by lia. done.
Qed.

Lemma truncate_all last l kept fs :
  0 <= last -> Forall extent_sane l ->
  forM l kept (truncate_extent last) fs =
    (forM (l ≫= freed_blocks last) tt free_one ;; mret (kept ++ (l ≫= kept_extent last))) fs.
Proof.
  intros Hlast Hl. revert kept fs. induction Hl as [|e l He Hl IH]; intros kept fs.
  { cbn. by rewrite app_nil_r. }
  cbn [forM]. change ((e :: l) ≫= freed_blocks last) with (freed_blocks last e ++ (l ≫= freed_blocks last)).
  change ((e :: l) ≫= kept_extent last) with (kept_extent last e ++ (l ≫= kept_extent last)).
  set (F := l ≫= freed_blocks last) in *. set (K := l ≫= kept_extent last) in *.
  unfold mbind at 1 2, M_bind. rewrite truncate_extent_spec, forM_app by done. unfold mbind, M_bind.
  destruct (forM (freed_blocks last e) tt free_one fs) as [[[]|?| |] fs']; try done. cbn.
  rewrite IH, app_assoc. done.
Qed.

(** Truncation to nothing frees block by block, too. *)
Lemma truncate_none l fs :
  Forall extent_sane l ->
  forM l tt (fun ext _ => if ext_uninit ext then mret tt else free_run "TruncateInode: %w" (ext_start ext) (ext_count ext)) fs =
    forM (l ≫= given_back 0 (-1)) tt free_one fs.
Proof.
  intros Hl. revert fs. induction Hl as [|e l (Hwf & Hc & Hmax) Hl IH]; intros fs; [done|].
  change ((e :: l) ≫= given_back 0 (-1)) with (given_back 0 (-1) e ++ (l ≫= given_back 0 (-1))). set (F := l ≫= _) in *.
  pose proof (wf_count e Hwf). pose proof (wf_start e Hwf). destruct (Extent_range e Hwf) as (Hb & _).
  cbn [forM]. rewrite forM_app. unfold given_back. destruct (ext_uninit e); cbn [Z.eqb andb]; [apply IH|].
  unfold freed_blocks. replace (ext_keep (-1) e) with 0 by (unfold ext_keep; lia). rewrite Z.sub_0_r.
  unfold mbind at 1, M_bind at 1. rewrite <- (Z.add_0_r (ext_start e)) at 1. rewrite (free_run_blocks (ext_start e) 0) by lia.
  unfold mbind, M_bind. destruct (forM _ tt free_one fs) as [[[]|?| |] fs']; done.
Qed.

Lemma trim_extent n ext :
  0 <= n < 2 ^ 15 ->
  let ext' := set_EE_len (Z.lor (Z.land (EE_len ext) 0x8000) n) ext in
  ext_count ext' = n /\ ext_uninit ext' = ext_uninit ext.
Proof.
  intros Hn ext'. unfold ext_count, ext_uninit, ext'. cbn [EE_len set_EE_len].
  rewrite !Z.land_lor_distr_l, <- !Z.land_assoc. change (Z.land 0x8000 0x7FFF) with 0. rewrite Z.land_0_r.
  change 0x7FFF with (Z.ones 15). rewrite Z.land_ones, Z.mod_small by lia. split; [done|].
  change (Z.land 0x8000 0x8000) with 0x8000. replace (Z.land n 0x8000) with 0; [by rewrite Z.lor_0_r|].
  apply Z.bits_inj'. intros i Hi. change 0x8000 with (2 ^ 15). rewrite Z.land_spec, Z.bits_0, Z.pow2_bits_eqb by lia.
  destruct (Z.eqb_spec 15 i) as [<-|]; [|by rewrite andb_false_r].
  rewrite <- (Z.mod_small n (2 ^ 15)) by lia. by rewrite Z.mod_pow2_bits_high by lia.
Qed.

(** An extent in a list of extents, seen by a lookup. *)
Lemma find_cons e l k :
  extent_sane e ->
  findPhysicalBlock (e :: l) k =
    if negb (ext_uninit e) && (EE_block e <=? k) && (k <? EE_block e + ext_count e)
    then Some (ext_start e + (k - EE_block e)) else findPhysicalBlock l k.
Proof.
  intros (Hwf & Hc & Hmax). destruct (Extent_range e Hwf) as (Hb & _).
  pose proof (wf_start e Hwf). pose proof (wf_count e Hwf). cbn [findPhysicalBlock]. rewrite w32_id by lia.
  destruct (ext_uninit e); [done|]. cbn [negb andb].
  destruct (Z.leb_spec (EE_block e) k), (Z.ltb_spec k (EE_block e + ext_count e)); try done.
  cbn [andb]. by rewrite w64_id by lia.
Qed.

(** What the shortened list maps. *)
Lemma find_kept last l k :
  -1 <= last -> Forall extent_sane l ->
  findPhysicalBlock (l ≫= kept_extent last) k = if k <=? last then findPhysicalBlock l k else None.
Proof.
  intros Hlast Hl. induction Hl as [|e l He Hl IH]; [by destruct (k <=? last)|].
  change ((e :: l) ≫= kept_extent last) with (kept_extent last e ++ (l ≫= kept_extent last)).
  rewrite (find_cons e) by done. pose proof He as (Hwf & Hc & Hmax).
  pose proof (wf_count e Hwf) as Hc2. set (K := l ≫= kept_extent last) in *. unfold kept_extent.
  destruct (Z.eqb_spec (ext_keep last e) 0) as [E0|E0]; [|destruct (Z.eqb_spec (ext_keep last e) (ext_count e)) as [E1|E1]];
    cbn [app]; unfold ext_keep in *.
  - rewrite IH. destruct (Z.leb_spec k last); [|done]. rewrite (proj2 (Z.leb_gt _ k)) by lia. by rewrite andb_false_r.
  - rewrite (find_cons e), IH by done. destruct (Z.leb_spec k last); [done|].
    rewrite (proj2 (Z.ltb_ge k _)) by lia. by rewrite andb_false_r.
  - destruct (trim_extent (Z.min (ext_count e) (Z.max 0 (last + 1 - EE_block e))) e) as [Ec Eu]; [lia|].
    rewrite find_cons.
    + rewrite Ec, Eu, IH. change (EE_block (set_EE_len ?v e)) with (EE_block e).
      change (ext_start (set_EE_len ?v e)) with (ext_start e). destruct (ext_uninit e); cbn [negb andb]; [done|].
      destruct (Z.leb_spec (EE_block e) k), (Z.leb_spec k last); cbn [andb]; try done.
      * rewrite (proj2 (Z.ltb_lt k (EE_block e + Z.min _ _))), (proj2 (Z.ltb_lt k _)) by lia. done.
      * rewrite (proj2 (Z.ltb_ge k _)) by lia. done.
    + split; [|rewrite Ec; change (EE_block (set_EE_len ?v e)) with (EE_block e); lia].
      destruct (Extent_range e Hwf) as (F1 & F2 & F3 & F4).
      split; [exact F1|]. split; [|exact (conj F3 F4)].
      apply (lor_range 16); [lia|by apply land_range|lia].
Qed.

Lemma kept_wf last l : -1 <= last -> Forall extent_sane l -> Forall struct_wf (l ≫= kept_extent last).
Proof.
  intros Hlast Hl. induction Hl as [|e l (Hwf & Hc & Hmax) Hl IH]; [constructor|].
  change ((e :: l) ≫= kept_extent last) with (kept_extent last e ++ (l ≫= kept_extent last)).
  apply Forall_app. split; [|done]. unfold kept_extent.
  destruct (ext_keep last e =? 0); [constructor|]. destruct (_ =? _); [by apply Forall_singleton|]. constructor; [|constructor].
  pose proof (wf_count e Hwf). destruct (Extent_range e Hwf) as (F1 & F2 & F3 & F4).
  split; [exact F1|]. split; [|exact (conj F3 F4)].
  apply (lor_range 16); [lia|by apply land_range|unfold ext_keep; lia].
Qed.

Lemma kept_none l : Forall extent_sane l -> (l ≫= kept_extent (-1)) = [].
Proof.
  induction 1 as [|e l (Hwf & Hc & _) Hl IH]; [done|].
  change ((e :: l) ≫= kept_extent (-1)) with (kept_extent (-1) e ++ (l ≫= kept_extent (-1))). rewrite IH, app_nil_r.
  destruct (Extent_range e Hwf) as (Hb & _). unfold kept_extent.
  by replace (ext_keep (-1) e) with 0 by (unfold ext_keep; lia).
Qed.

Lemma zlen_kept last l : zlen (l ≫= kept_extent last) <= zlen l.
Proof.
  induction l as [|e l IH]; [done|].
  change ((e :: l) ≫= kept_extent last) with (kept_extent last e ++ (l ≫= kept_extent last)).
  set (K := l ≫= kept_extent last) in *. rewrite zlen_app. unfold kept_extent. change (zlen (e :: l)) with (Z.of_nat (S (length l))).
  unfold zlen in *. destruct (ext_keep last e =? 0); [|destruct (_ =? _)]; cbn [length]; lia.
Qed.

Lemma write_kept_entries data (i : Z) l :
  Forall struct_wf l -> 0 <= i -> 12 + 12 * (i + zlen l) <= zlen data -> write_entries data i l = Ok (write_kept data i l).
Proof.
  intros Hl. revert data i. induction Hl as [|e l He Hl IH]; intros data i Hi Hfit; [done|].
  change (zlen (e :: l)) with (Z.of_nat (S (length l))) in Hfit. cbn [write_entries write_kept].
  unfold extentHeaderSize, extentEntrySize. rewrite (proj2 (Z.ltb_ge _ _)) by (unfold zlen in *; lia).
  rewrite copy_at_in by (unfold zlen in *; lia). cbn [mbind res_bind].
  apply IH; [lia|rewrite zlen_put; unfold zlen in *; lia].
Qed.

(** The shortened list is what the rewritten root of the inode holds. *)
Lemma truncated_root data l :
  zlen data = 60 -> Forall struct_wf l -> zlen l <= 4 ->
  let hdr := mkExtentHeader EXT4_EXT_MAGIC (w16 (zlen l)) 4 0 0 in
  leaf_holds (write_kept (put data 0 (binary_Write hdr)) 0 l) hdr l.
Proof.
  intros Hd Hl Hn hdr. pose proof (zlen_nonneg l).
  assert (Hwf : struct_wf hdr) by (unfold hdr; rewrite w16_id by lia; apply ExtentHeader_wf; lia).
  assert (Hh : header_in (put data 0 (binary_Write hdr)) hdr) by (apply header_in_put; [done|lia]).
  destruct (write_entries_gen l 0 (length l) (put data 0 (binary_Write hdr))) as (data' & E & Hlen & Hin & Hk);
    [done|done|done|rewrite zlen_put; lia| |].
  { split; [constructor|]. rewrite zlen_put. split; [change (zlen (take 0 l)) with 0; lia|done]. }
  change (drop 0 l) with l in E. change (Z.of_nat 0) with 0 in E.
  rewrite write_kept_entries in E by (try done; rewrite ?zlen_put; lia). injection E as ->.
  split; [by apply Hk|]. split; [done|]. split; [done|]. split; [|done]. cbn. by rewrite w16_id by lia.
Qed.

(** A header that counts more entries than there is room for. *)
Lemma parseLeafEntries_overrun data k n acc :
  0 <= k -> 12 * k <= zlen data < 12 * (k + Z.of_nat n) ->
  parseLeafEntries_loop data (seqZ k (Z.of_nat n)) acc = Err (Errorf "extent entry %d extends beyond leaf node data").
Proof.
  revert k acc. induction n as [|n IH]; intros k acc Hk Hn; [lia|].
  rewrite seqZ_cons by lia. cbn [parseLeafEntries_loop]. unfold extentEntrySize.
  destruct (Z.ltb_spec (zlen data) (k * 12 + 12)); [done|].
  destruct (binary_Read_Ok (A := Extent) (sub data (k * 12) 12)) as (e & -> & _); [rewrite zlen_sub by lia; done|].
  replace (Z.pred (Z.of_nat (S n))) with (Z.of_nat n) by lia. apply IH; lia.
Qed.

Lemma header_in_write_kept data i l hdr :
  0 <= i -> header_in data hdr -> header_in (write_kept data i l) hdr /\ zlen (write_kept data i l) = zlen data.
Proof.
  revert data i. induction l as [|e l IH]; intros data i Hi Hh; [done|]. cbn [write_kept].
  unfold extentHeaderSize, extentEntrySize. destruct (_ <? _); [done|].
  destruct (IH (put data (12 + i * 12) (binary_Write e)) (i + 1)) as [H1 H2]; [lia|apply header_in_keep; [done|lia]|].
  split; [exact H1|]. by rewrite H2, zlen_put.
Qed.

(** What the rewritten root of the inode reads back as. *)
Lemma truncated_reads data l depth fs :
  zlen data = 60 -> Forall struct_wf l -> zlen l < 2 ^ 16 ->
  let hdr := mkExtentHeader EXT4_EXT_MAGIC (w16 (zlen l)) 4 0 0 in
  parseExtentNode (S depth) (write_kept (put data 0 (binary_Write hdr)) 0 l) fs =
    (if zlen l <=? 4 then Ok l else Err (Errorf "extent entry %d extends beyond leaf node data"), fs).
Proof.
  intros Hd Hl Hn hdr. destruct (Z.leb_spec (zlen l) 4) as [H4|H4].
  { apply parse_leaf with hdr. by apply truncated_root. }
  pose proof (zlen_nonneg l). assert (Hwf : struct_wf hdr) by (unfold hdr; rewrite w16_id by lia; apply ExtentHeader_wf; lia).
  assert (Hh : header_in (put data 0 (binary_Write hdr)) hdr) by (apply header_in_put; [done|lia]).
  destruct (header_in_write_kept _ 0 l hdr ltac:(lia) Hh) as [Hh' Hz]. rewrite zlen_put in Hz. set (node := write_kept _ 0 l) in *.
  cbn [parseExtentNode]. unfold extentHeaderSize. rewrite (proj2 (Z.ltb_ge _ _)) by lia.
  rewrite (header_read node hdr Hh'), (bind_ok _ _ fs fs hdr eq_refl).
  change (EH_magic hdr =? EXT4_EXT_MAGIC) with true. change (EH_depth hdr =? 0) with true. change (EH_entries hdr) with (w16 (zlen l)).
  cbn [negb]. rewrite w16_id by lia. unfold lift, parseLeafEntries. f_equal.
  apply (parseLeafEntries_overrun _ 0 (length l)); [lia|]. unfold zlen in *. rewrite length_drop. lia.
Qed.

Lemma ReadExtents_leaf inode hdr l fs :
  UsesExtents inode = true -> leaf_holds (I_block inode) hdr l -> (0 < fuel)%nat ->
  ReadExtents inode fs = (Ok l, fs).
Proof.
  intros Hext Hleaf Hfuel. unfold ReadExtents. rewrite Hext. cbn [negb]. destruct fuel as [|depth]; [lia|].
  by apply parse_leaf with hdr.
Qed.

Lemma UsesExtents_written bs n inode :
  UsesExtents (set_file_blocks bs n (set_file_size n inode)) = UsesExtents inode.
Proof. unfold set_file_blocks, set_file_size. by destruct (_ <? _), (IsDir inode). Qed.

(** C31: Shortening a regular file, to nothing or to a size above 0, frees,
    extent by extent and in order, exactly the device blocks behind the last
    block the new size needs and does nothing else to the device; to nothing,
    the blocks of extents that are not initialised are not freed, and blocks
    of the extent tree itself never are.  When that succeeds the inode has
    the new size, and the kept extents, which map the kept blocks as before
    and nothing behind them, are what it reads back; unless they are more
    than four, which the root of the inode does not hold: then its extents
    cannot be read any more.  (The extents are not empty and end before block
    2^32; there are fewer than 2^16.) *)
Theorem TruncateInode_shrinks fs inode extents newSize :
  0 < BlockSize fs -> IsDir inode = false -> UsesExtents inode = true -> zlen (I_block inode) = 60 ->
  ReadExtents inode fs = (Ok extents, fs) -> Forall extent_sane extents -> zlen extents < 2 ^ 16 ->
  0 <= newSize < Size inode -> Size inode < 2 ^ 64 -> (0 < fuel)%nat ->
  let last := last_block (BlockSize fs) newSize in
  let kept := extents ≫= kept_extent last in
  exists inode',
    TruncateInode inode newSize fs = (forM (extents ≫= given_back newSize last) tt free_one ;; mret inode') fs /\
    Size inode' = newSize /\
    (forall fs', ReadExtents inode' fs' =
       (if zlen kept <=? 4 then Ok kept else Err (Errorf "extent entry %d extends beyond leaf node data"), fs')) /\
    (forall k, findPhysicalBlock kept k = if k <=? last then findPhysicalBlock extents k else None).
Proof.
  intros Hbs Hdir Hext Hlen Hrd Hsane Hmany Hsize Hmax Hfuel last kept.
  assert (Hlast : -1 <= last) by (apply Z.div_le_lower_bound; lia).
  pose proof (kept_wf last extents Hlast Hsane) as Hwf. fold kept in Hwf.
  pose proof (zlen_kept last extents) as Hlk. fold kept in Hlk.
  set (hdr := mkExtentHeader EXT4_EXT_MAGIC (w16 (zlen kept)) 4 0 0).
  set (data := write_kept (put (I_block inode) 0 (binary_Write hdr)) 0 kept).
  set (inode1 := set_file_blocks (BlockSize fs) newSize (set_file_size newSize (set_I_block data inode))).
  exists (set_I_ctime (w32 now) (set_I_mtime (w32 now) inode1)). split; [|split; [|split]].
  - unfold TruncateInode. rewrite (proj2 (Z.leb_gt _ _)), Hext by lia. cbn [negb].
    rewrite (bind_ok _ _ _ _ _ (wrap_ok _ _ _ _ _ Hrd)), get_bind. cbn zeta.
    rewrite (proj2 (Z.eqb_neq (BlockSize fs) 0)) by lia. destruct (Z.eqb_spec newSize 0) as [E0|E0].
    + assert (El : last = -1) by (unfold last, last_block; rewrite E0; symmetry; apply (Z.div_unique _ _ _ (BlockSize fs - 1)); lia).
      assert (Ek : kept = []) by (unfold kept; rewrite El; by apply kept_none).
      unfold mbind at 1, M_bind at 1. unfold mbind at 1, M_bind at 1. rewrite truncate_none by done. rewrite El, E0.
      unfold inode1, data, hdr. rewrite Ek, E0. unfold mbind, M_bind. destruct (forM _ _ _ _) as [[[]|?| |] ?]; reflexivity.
    + assert (0 <= last) by (apply Z.div_pos; lia). rewrite last_block_code by lia. fold last.
      unfold mbind at 1, M_bind at 1. rewrite truncate_all by done. fold kept.
      assert (Eg : (extents ≫= given_back newSize last) = (extents ≫= freed_blocks last)).
      { unfold given_back. by rewrite (proj2 (Z.eqb_neq newSize 0)). }
      rewrite Eg. unfold mbind, M_bind. cbn [app]. destruct (forM _ _ _ _) as [[[]|?| |] ?]; reflexivity.
  - etransitivity; [apply Size_set_file_blocks|]. rewrite Size_set_file_size; [done|done|lia].
  - intros fs'. unfold ReadExtents.
    assert (Eu : UsesExtents (set_I_ctime (w32 now) (set_I_mtime (w32 now) inode1)) = true)
      by (etransitivity; [apply UsesExtents_written|exact Hext]).
    assert (Eb : I_block (set_I_ctime (w32 now) (set_I_mtime (w32 now) inode1)) = data) by apply I_block_written.
    rewrite Eu, Eb. cbn [negb]. destruct fuel as [|depth]; [lia|]. apply truncated_reads; [done|done|lia].
  - intros k. by apply find_kept.
Qed.
End truncate.

(** ** Examples: a file of 150 bytes in three blocks *)
#[local] Existing Instance ex_env.

Definition ex_file : Inode := set_file_size 150 (ex_leaf_inode 4 ex_extents).

Lemma ex_file_extents fs : ReadExtents ex_file fs = (Ok ex_extents, fs).
Proof.
  destruct (ex_leaf_holds 4 ex_extents ex_extents_wf) as [_ Hleaf]; [done|done|].
  apply (ReadExtents_leaf _ (ex_leaf_header 3 4)); [reflexivity|exact Hleaf|cbn; lia].
Qed.

Lemma ex_extent_sane a b : 0 <= a < 2 ^ 31 -> 0 <= b < 2 ^ 32 -> extent_sane (ex_extent a b).
Proof. intros Ha Hb. split; [apply ex_extent_wf; lia|]. change (0 < 1 /\ a + 1 < 2 ^ 32). lia. Qed.

Lemma ex_find k :
  findPhysicalBlock ex_extents k =
    if k =? 0 then Some 40 else if k =? 1 then Some 42 else if k =? 2 then Some 44 else None.
Proof.
  unfold ex_extents. rewrite !find_cons by (apply ex_extent_sane; lia).
  change (ext_uninit (ex_extent ?a ?b)) with false. change (ext_count (ex_extent ?a ?b)) with 1.
  change (EE_block (ex_extent ?a ?b)) with a. change (ext_start (ex_extent ?a ?b)) with b.
  cbn [negb andb findPhysicalBlock].
  destruct (Z.eqb_spec k 0) as [->|]; [done|]. destruct (Z.eqb_spec k 1) as [->|]; [done|].
  destruct (Z.eqb_spec k 2) as [->|]; [done|].
  destruct (Z.leb_spec 0 k), (Z.ltb_spec k (0 + 1)), (Z.leb_spec 1 k), (Z.ltb_spec k (1 + 1)),
    (Z.leb_spec 2 k), (Z.ltb_spec k (2 + 1)); try done; lia.
Qed.

Lemma ex_mapped k : 0 <= k <= 2 -> mapped ex_ext4 ex_extents k.
Proof.
  intros Hk. unfold mapped. rewrite ex_find, ex_ext4_len. change (BlockSize ex_ext4) with 64.
  destruct (Z.eqb_spec k 0); [exists 40; split; [done|lia]|]. destruct (Z.eqb_spec k 1); [exists 42; split; [done|lia]|].
  destruct (Z.eqb_spec k 2); [exists 44; split; [done|lia]|lia].
Qed.

Lemma ex_injective : injective ex_extents.
Proof.
  intros k k' p. rewrite !ex_find.
  destruct (Z.eqb_spec k 0), (Z.eqb_spec k 1), (Z.eqb_spec k 2),
    (Z.eqb_spec k' 0), (Z.eqb_spec k' 1), (Z.eqb_spec k' 2); intros; simplify_eq; lia.
Qed.

Lemma ex_extents_sane : Forall extent_sane ex_extents.
Proof. repeat (constructor; [apply ex_extent_sane; lia|]). constructor. Qed.

Lemma WriteFileAt_overwrites_witness :
  exists inode' fs', WriteFileAt ex_file (replicate 100 Byte.x2a) 64 ex_ext4 = (Ok (inode', 100), fs') /\
    Size inode' = 164.
Proof.
  destruct (WriteFileAt_overwrites ex_ext4 ex_file ex_extents (replicate 100 Byte.x2a) 64)
    as (inode' & fs' & E & _ & Hsz & _).
  - apply ex_ext4_ok.
  - reflexivity.
  - reflexivity.
  - apply ex_file_extents.
  - apply ex_injective.
  - vm_compute; done.
  - lia.
  - exists 1. reflexivity.
  - vm_compute; done.
  - vm_compute; done.
  - intros k Hk. apply ex_mapped. change (64 / BlockSize ex_ext4) with 1 in Hk.
    change ((64 + zlen (replicate 100 Byte.x2a) - 1) / BlockSize ex_ext4) with 2 in Hk. lia.
  - exists inode', fs'. split; [exact E|exact Hsz].
Defined.

Lemma WriteFileAt_unaligned_panics_witness :
  WriteFileAt ex_file (replicate 10 Byte.x2a) 70 ex_ext4 = (Panic, ex_ext4).
Proof.
  apply (WriteFileAt_unaligned_panics ex_ext4 ex_file ex_extents (replicate 10 Byte.x2a) 70).
  - apply ex_ext4_ok.
  - reflexivity.
  - reflexivity.
  - apply ex_file_extents.
  - vm_compute; done.
  - lia.
  - vm_compute; done.
  - vm_compute; done.
  - vm_compute; done.
  - apply (ex_mapped 1). lia.
Defined.

Lemma TruncateInode_shrinks_witness :
  (exists inode', TruncateInode ex_file 65 ex_ext4 = (forM [44] tt free_one ;; mret inode') ex_ext4 /\
     Size inode' = 65 /\ ReadExtents inode' ex_ext4 = (Ok (take 2 ex_extents), ex_ext4)) /\
  exists inode', TruncateInode ex_file 0 ex_ext4 = (forM [40; 42; 44] tt free_one ;; mret inode') ex_ext4 /\
    Size inode' = 0 /\ ReadExtents inode' ex_ext4 = (Ok [], ex_ext4).
Proof.
  assert (Hlen : zlen (I_block ex_file) = 60)
    by exact (proj1 (ex_leaf_holds 4 ex_extents ex_extents_wf ltac:(vm_compute; done) ltac:(lia))).
  assert (Hsz : Size ex_file = 150) by reflexivity. assert (Hx : zlen ex_extents < 2 ^ 16) by by vm_compute.
  split.
  - destruct (TruncateInode_shrinks ex_ext4 ex_file ex_extents 65 ltac:(by vm_compute) eq_refl eq_refl Hlen (ex_file_extents _)
      ex_extents_sane Hx ltac:(rewrite Hsz; lia) ltac:(rewrite Hsz; lia) ltac:(cbn; lia)) as (inode' & E & Hn & Hr & _).
    exists inode'. split_and!; [exact E|exact Hn|exact (Hr ex_ext4)].
  - destruct (TruncateInode_shrinks ex_ext4 ex_file ex_extents 0 ltac:(by vm_compute) eq_refl eq_refl Hlen (ex_file_extents _)
      ex_extents_sane Hx ltac:(rewrite Hsz; lia) ltac:(rewrite Hsz; lia) ltac:(cbn; lia)) as (inode' & E & Hn & Hr & _).
    exists inode'. split_and!; [exact E|exact Hn|exact (Hr ex_ext4)].
Defined.
