(* ===== verification/DirBlock.v ===== *)
(** Directory blocks ([src/vfs/directory.go], [src/vfs/dirent.go]): parsing
    and writing one block, the chain of slots it holds, and what inserting
    and removing an entry do to that chain. *)
From S2P Require Export FileIO.

Definition dirEntryHeaderSize : Z := 8.

Definition minDirRecLen (nameLen : Z) : Z := w16 ((dirEntryHeaderSize + nameLen + 3) / 4 * 4).

(** ** Directory blocks *)

(** The four header fields of the entry at [offset], then its name. *)
Definition put_entry (buf : list byte) (offset inode recLen nameLen fileType : Z) : res (list byte) :=
  buf <- putUint32 buf offset inode ;;
  buf <- putUint16 buf (offset + 4) recLen ;;
  buf <- putUint 1 buf (offset + 6) nameLen ;;
  putUint 1 buf (offset + 7) fileType.

Fixpoint writeDirBlock_loop (buf : list byte) (offset : Z) (entries : list DirEntry2) : res (list byte) :=
  match entries with
  | [] => Ok buf
  | e :: entries' =>
      let nameLen := zlen (de_Name e) in
      let recLen :=
        match entries' with
        | [] => w16 (zlen buf - offset)
        | _ :: _ => minDirRecLen nameLen
        end in
      buf <- put_entry buf offset (de_Inode e) recLen (w8 nameLen) (de_FileType e) ;;
      buf <- put_at buf (offset + dirEntryHeaderSize) (de_Name e) ;;
      writeDirBlock_loop buf (offset + recLen) entries'
  end.

Definition writeDirBlock (entries : list DirEntry2) (blockSize : Z) : res (list byte) :=
  writeDirBlock_loop (zeros blockSize) 0 entries.

(** The entry at [offset], if it is live, and its record length. *)
Definition parse_entry (zeroMsg nameMsg : string) (buf : list byte) (offset : Z) : res (list DirEntry2 * Z) :=
  inode <- getUint32 buf offset ;;
  recLen <- getUint16 buf (offset + 4) ;;
  nameLen <- getUint 1 buf (offset + 6) ;;
  fileType <- getUint 1 buf (offset + 7) ;;
  if recLen =? 0 then Err (Errorf zeroMsg)
  else if negb (inode =? 0) && (0 <? nameLen) then
    let nameStart := offset + dirEntryHeaderSize in
    let nameEnd := nameStart + nameLen in
    if zlen buf <? nameEnd then Err (Errorf nameMsg)
    else
      name <- slice buf nameStart nameEnd ;;
      Ok ([mkDirEntry2 inode recLen nameLen fileType name], recLen)
  else Ok ([], recLen).

Fixpoint parseDirBlockHtreeRoot_loop (rounds : nat) (buf : list byte) (offset : Z) (entries : list DirEntry2)
    : res (list DirEntry2) :=
  match rounds with
  | O => Ok entries
  | S rounds =>
      if zlen buf <? offset + dirEntryHeaderSize then Ok entries
      else
        r <- parse_entry "htree root: entry at offset %d has rec_len=0 (corrupt block)"
               "htree root: entry at offset %d: name extends beyond block boundary (%d > %d)" buf offset ;;
        parseDirBlockHtreeRoot_loop rounds buf (offset + r.2) (entries ++ r.1)
  end.

Definition parseDirBlockHtreeRoot (buf : list byte) : res (list DirEntry2) :=
  parseDirBlockHtreeRoot_loop 2 buf 0 [].

(** Each round moves at least one byte forward, so a round per byte of the
    block is enough. *)
Fixpoint parseDirBlock_loop (rounds : nat) (buf : list byte) (offset : Z) (entries : list DirEntry2)
    : res (list DirEntry2) :=
  if zlen buf <=? offset then Ok entries
  else if zlen buf <? offset + dirEntryHeaderSize then Ok entries
  else
    match rounds with
    | O => OutOfFuel
    | S rounds =>
        r <- parse_entry "directory entry at offset %d has rec_len=0 (corrupt block)"
               "directory entry at offset %d: name extends beyond block boundary (%d > %d)" buf offset ;;
        parseDirBlock_loop rounds buf (offset + r.2) (entries ++ r.1)
    end.

Definition parseDirBlock (buf : list byte) : res (list DirEntry2) :=
  parseDirBlock_loop (length buf) buf 0 [].

(** The search of [AddDirEntry] for an entry with room behind it; [None]
    when the block has none. *)
Fixpoint insert_in_block (rounds : nat) (buf : list byte) (offset : Z) (name : list byte)
    (childInodeNum fileType : Z) : res (option (list byte)) :=
  let blockSize := zlen buf in
  if blockSize <=? offset then Ok None
  else if blockSize <? offset + dirEntryHeaderSize then Ok None
  else
    match rounds with
    | O => OutOfFuel
    | S rounds =>
        recLen <- getUint16 buf (offset + 4) ;;
        if recLen =? 0 then Ok None
        else
          nameLen <- getUint 1 buf (offset + 6) ;;
          let thisMin := minDirRecLen nameLen in
          let slack := recLen - thisMin in
          if minDirRecLen (zlen name) <=? slack then
            buf <- putUint16 buf (offset + 4) thisMin ;;
            let newOff := offset + thisMin in
            let newRecLen :=
              if w16 (w16 offset + recLen) =? w16 blockSize then w16 (blockSize - newOff) else w16 slack in
            buf <- put_entry buf newOff childInodeNum newRecLen (w8 (zlen name)) fileType ;;
            buf <- copy_at buf (newOff + dirEntryHeaderSize) name ;;
            Ok (Some buf)
          else insert_in_block rounds buf (offset + recLen) name childInodeNum fileType
    end.

(** The search of [RemoveDirEntry] for the name. *)
Fixpoint remove_from_block (rounds : nat) (buf : list byte) (offset prevOff : Z) (name : list byte)
    : res (option (list byte)) :=
  let blockSize := zlen buf in
  if blockSize <=? offset then Ok None
  else if blockSize <? offset + dirEntryHeaderSize then Ok None
  else
    match rounds with
    | O => OutOfFuel
    | S rounds =>
        inode <- getUint32 buf offset ;;
        recLen <- getUint16 buf (offset + 4) ;;
        if recLen =? 0 then Ok None
        else
          nameLen <- getUint 1 buf (offset + 6) ;;
          let nameStart := offset + dirEntryHeaderSize in
          let nameEnd := nameStart + nameLen in
          if negb (inode =? 0) && (0 <? nameLen) && (nameEnd <=? blockSize)
             && bool_decide (sub buf nameStart nameLen = name)
          then
            buf <- putUint32 buf offset 0 ;;
            buf <- (if 0 <? prevOff then putUint16 buf (prevOff + 4) (w16 (offset + recLen - prevOff)) else Ok buf) ;;
            Ok (Some buf)
          else remove_from_block rounds buf (offset + recLen) offset name
    end.

(** ** Well-formed blocks

    A directory block is a chain of slots; a slot whose inode is 0 or whose
    name is empty is not in use. *)
Record slot := mkSlot { sl_inode : Z; sl_recLen : Z; sl_type : Z; sl_name : list byte }.

Definition slot_wf (s : slot) : Prop :=
  0 <= sl_inode s < 2 ^ 32 /\ 0 <= sl_recLen s < 2 ^ 16 /\ 0 <= sl_type s < 2 ^ 8 /\
  zlen (sl_name s) < 2 ^ 8 /\ 8 + zlen (sl_name s) <= sl_recLen s.

Definition slot_bytes (s : slot) : list byte :=
  le_split 4 (sl_inode s) ++ le_split 2 (sl_recLen s) ++ le_split 1 (zlen (sl_name s)) ++
  le_split 1 (sl_type s) ++ sl_name s.

Definition slot_at (buf : list byte) (off : Z) (s : slot) : Prop :=
  slot_wf s /\ 0 <= off /\ off + sl_recLen s <= zlen buf /\
  sub buf off (8 + zlen (sl_name s)) = slot_bytes s.

(** The slots between two offsets of a block. *)
Fixpoint slots_in (buf : list byte) (off : Z) (slots : list slot) (end_ : Z) : Prop :=
  match slots with
  | [] => off = end_
  | s :: slots' => slot_at buf off s /\ slots_in buf (off + sl_recLen s) slots' end_
  end.

Definition slot_live (s : slot) : bool := negb (sl_inode s =? 0) && (0 <? zlen (sl_name s)).
Definition slot_entry (s : slot) : DirEntry2 :=
  mkDirEntry2 (sl_inode s) (sl_recLen s) (zlen (sl_name s)) (sl_type s) (sl_name s).
Definition slots_entries (slots : list slot) : list DirEntry2 := slot_entry <$> filter slot_live slots.

Definition set_recLen (v : Z) (s : slot) : slot := mkSlot (sl_inode s) v (sl_type s) (sl_name s).
Definition set_inode (v : Z) (s : slot) : slot := mkSlot v (sl_recLen s) (sl_type s) (sl_name s).

Section slots.
Implicit Types buf : list byte.
Implicit Types slots : list slot.

Lemma zlen_slot_bytes s : zlen (slot_bytes s) = 8 + zlen (sl_name s).
Proof. unfold slot_bytes. rewrite !zlen_app, !zlen_le_split. lia. Qed.

Lemma slots_in_app buf a l1 l2 c :
  slots_in buf a (l1 ++ l2) c <-> exists b, slots_in buf a l1 b /\ slots_in buf b l2 c.
Proof.
  revert a. induction l1 as [|s l1 IH]; intros a; cbn.
  - split; [intros; by exists a|]. by intros (b & -> & ?).
  - rewrite IH. split; [intros (Hs & b & ? & ?); by exists b|]. intros (b & (Hs & ?) & ?). split; [done|by exists b].
Qed.

Lemma slots_in_le buf a l c : slots_in buf a l c -> a <= c.
Proof.
  revert a. induction l as [|s l IH]; intros a; cbn; [lia|].
  intros ((Hwf & _) & Hl). apply IH in Hl. destruct Hwf as (_ & ? & _). lia.
Qed.

Lemma slots_in_end buf a l c : slots_in buf a l c -> l <> [] -> c <= zlen buf.
Proof.
  revert a. induction l as [|s l IH]; intros a; cbn; [done|]. intros ((Hwf & _ & Hfit & _) & Hl) _.
  destruct l as [|s' l]; [cbn in Hl; lia|]. by eapply IH.
Qed.

(** Writes outside of a slot do not change it. *)
Lemma slot_at_put buf off s o p :
  0 <= o -> o + zlen p <= off \/ off + 8 + zlen (sl_name s) <= o ->
  slot_at buf off s -> slot_at (put buf o p) off s.
Proof.
  intros Ho Hdisj (Hwf & Hoff & Hfit & E). split; [done|]. rewrite zlen_put.
  split; [done|]. split; [done|]. rewrite sub_put_disj by lia. done.
Qed.

Lemma slots_in_put buf a l c o p :
  0 <= o -> o + zlen p <= a \/ c <= o -> slots_in buf a l c -> slots_in (put buf o p) a l c.
Proof.
  intros Ho. revert a. induction l as [|s l IH]; intros a Hdisj; cbn; [done|].
  intros [Hs Hl]. pose proof (slots_in_le _ _ _ _ Hl). pose proof Hs as ((_ & Hr & _ & _ & Hn) & _).
  pose proof (zlen_nonneg (sl_name s)).
  split; [apply slot_at_put; [done|lia|done]|]. apply IH; [lia|done].
Qed.

(** Writing a slot, and rewriting its fields. *)
Lemma slot_at_write buf off s :
  slot_wf s -> 0 <= off -> off + sl_recLen s <= zlen buf -> slot_at (put buf off (slot_bytes s)) off s.
Proof.
  intros Hwf Ho Hfit. pose proof Hwf as (_ & _ & _ & _ & Hn). split; [done|]. split; [done|]. rewrite zlen_put.
  split; [done|]. rewrite <- zlen_slot_bytes. apply sub_put_same; [done|]. rewrite zlen_slot_bytes. lia.
Qed.

Lemma slot_bytes_recLen s v :
  put (slot_bytes s) 4 (le_split 2 v) = slot_bytes (set_recLen v s).
Proof.
  unfold slot_bytes. apply (put_mid (le_split 4 (sl_inode s)) (le_split 2 (sl_recLen s))).
  by rewrite !length_le_split.
Qed.

Lemma slot_bytes_inode s v : put (slot_bytes s) 0 (le_split 4 v) = slot_bytes (set_inode v s).
Proof.
  unfold slot_bytes. apply (put_mid [] (le_split 4 (sl_inode s))). by rewrite !length_le_split.
Qed.

Lemma slot_at_recLen buf off s v :
  slot_at buf off s -> slot_wf (set_recLen v s) -> off + v <= zlen buf ->
  slot_at (put buf (off + 4) (le_split 2 v)) off (set_recLen v s).
Proof.
  intros (Hwf & Ho & Hfit & E) Hwf' Hfit'. pose proof Hwf as (_ & _ & _ & _ & Hn).
  pose proof (zlen_nonneg (sl_name s)).
  split; [done|]. rewrite zlen_put. split; [done|]. split; [done|]. change (sl_name (set_recLen v s)) with (sl_name s).
  rewrite sub_put_around by (rewrite ?zlen_le_split; lia).
  replace (off + 4 - off) with 4 by lia. rewrite E. apply slot_bytes_recLen.
Qed.

Lemma slot_at_inode buf off s v :
  slot_at buf off s -> slot_wf (set_inode v s) -> slot_at (put buf off (le_split 4 v)) off (set_inode v s).
Proof.
  intros (Hwf & Ho & Hfit & E) Hwf'. pose proof Hwf as (_ & _ & _ & _ & Hn). pose proof (zlen_nonneg (sl_name s)).
  split; [done|]. rewrite zlen_put. split; [done|]. split; [done|]. change (sl_name (set_inode v s)) with (sl_name s).
  rewrite sub_put_around by (rewrite ?zlen_le_split; lia). rewrite Z.sub_diag, E. apply slot_bytes_inode.
Qed.

(** Reading the fields of a slot. *)
Lemma slot_parts s :
  sub (slot_bytes s) 0 4 = le_split 4 (sl_inode s) /\ sub (slot_bytes s) 4 2 = le_split 2 (sl_recLen s) /\
  sub (slot_bytes s) 6 1 = le_split 1 (zlen (sl_name s)) /\ sub (slot_bytes s) 7 1 = le_split 1 (sl_type s) /\
  sub (slot_bytes s) 8 (zlen (sl_name s)) = sl_name s.
Proof.
  unfold slot_bytes.
  set (a := le_split 4 (sl_inode s)). set (b := le_split 2 (sl_recLen s)).
  set (c := le_split 1 (zlen (sl_name s))). set (d := le_split 1 (sl_type s)). set (n := sl_name s).
  split; [exact (sub_app_mid [] a (b ++ c ++ d ++ n))|]. split; [exact (sub_app_mid a b (c ++ d ++ n))|].
  split; [rewrite (app_assoc a); exact (sub_app_mid (a ++ b) c (d ++ n))|].
  split; [rewrite (app_assoc a), (app_assoc (a ++ b)); exact (sub_app_mid ((a ++ b) ++ c) d n)|].
  pose proof (sub_app_mid (((a ++ b) ++ c) ++ d) n []) as E. rewrite app_nil_r, <- !app_assoc in E. exact E.
Qed.

Lemma slot_field buf off s (n : nat) m k :
  slot_at buf off s -> m = Z.of_nat n -> 0 <= k -> k + m <= 8 + zlen (sl_name s) ->
  getUint n buf (off + k) = Ok (le_combine (sub (slot_bytes s) k m)).
Proof.
  intros Hs ->. revert Hs. intros ((_ & _ & _ & _ & Hn) & Ho & Hfit & E) Hk Hkn. rewrite getUint_in by lia. f_equal. unfold le_get.
  rewrite <- E. by rewrite sub_sub by lia.
Qed.

Lemma slot_reads buf off s :
  slot_at buf off s ->
  getUint32 buf off = Ok (sl_inode s) /\ getUint16 buf (off + 4) = Ok (sl_recLen s) /\
  getUint 1 buf (off + 6) = Ok (zlen (sl_name s)) /\ getUint 1 buf (off + 7) = Ok (sl_type s) /\
  sub buf (off + 8) (zlen (sl_name s)) = sl_name s.
Proof.
  intros Hs. pose proof (zlen_nonneg (sl_name s)). destruct (slot_parts s) as (E1 & E2 & E3 & E4 & E5).
  pose proof Hs as ((H1 & H2 & H3 & H4 & H5) & Ho & Hfit & E).
  split; [rewrite <- (Z.add_0_r off), (slot_field buf off s _ 4) by (done || lia); by rewrite E1, le_combine_le_split|].
  split; [rewrite (slot_field buf off s _ 2) by (done || lia); by rewrite E2, le_combine_le_split|].
  split; [rewrite (slot_field buf off s _ 1) by (done || lia); rewrite E3, le_combine_le_split; [done|]; change (2 ^ (8 * Z.of_nat 1)) with (2 ^ 8); lia|].
  split; [rewrite (slot_field buf off s _ 1) by (done || lia); by rewrite E4, le_combine_le_split|].
  rewrite <- E5 at 2. rewrite <- E. by rewrite sub_sub by lia.
Qed.

(** ** Parsing well-formed blocks *)
Lemma slots_entries_cons s slots :
  slots_entries (s :: slots) = (if slot_live s then [slot_entry s] else []) ++ slots_entries slots.
Proof. unfold slots_entries. rewrite filter_cons. by destruct (slot_live s). Qed.

Lemma slots_entries_app l1 l2 : slots_entries (l1 ++ l2) = slots_entries l1 ++ slots_entries l2.
Proof. unfold slots_entries. by rewrite filter_app, fmap_app. Qed.

Lemma parse_entry_slot m1 m2 buf off s :
  slot_at buf off s ->
  parse_entry m1 m2 buf off = Ok (if slot_live s then [slot_entry s] else [], sl_recLen s).
Proof.
  intros Hs. destruct (slot_reads buf off s Hs) as (E1 & E2 & E3 & E4 & E5).
  pose proof Hs as ((H1 & H2 & H3 & H4 & H5) & Ho & Hfit & E). pose proof (zlen_nonneg (sl_name s)).
  unfold parse_entry. rewrite E1, E2, E3, E4. cbn [mbind res_bind].
  rewrite (proj2 (Z.eqb_neq (sl_recLen s) 0)) by lia. unfold slot_live.
  destruct (_ && _); [|done]. unfold dirEntryHeaderSize. rewrite (proj2 (Z.ltb_ge _ _)) by lia.
  rewrite slice_in by lia. cbn [mbind res_bind].
  replace (off + 8 + zlen (sl_name s) - (off + 8)) with (zlen (sl_name s)) by lia. by rewrite E5.
Qed.

Lemma parse_slots rounds buf off slots acc :
  slots_in buf off slots (zlen buf) -> (length slots <= rounds)%nat ->
  parseDirBlock_loop rounds buf off acc = Ok (acc ++ slots_entries slots).
Proof.
  revert rounds off acc. induction slots as [|s slots IH]; intros rounds off acc Hin Hr; cbn in Hin.
  { subst off. destruct rounds; cbn [parseDirBlock_loop]; rewrite Z.leb_refl, app_nil_r; done. }
  destruct Hin as [Hs Hin]. pose proof Hs as ((H1 & H2 & H3 & H4 & H5) & Ho & Hfit & E).
  pose proof (zlen_nonneg (sl_name s)). destruct rounds as [|rounds]; [cbn in Hr; lia|]. cbn [parseDirBlock_loop].
  unfold dirEntryHeaderSize. rewrite (proj2 (Z.leb_gt _ _)), (proj2 (Z.ltb_ge _ _)) by lia.
  rewrite (parse_entry_slot _ _ buf off s Hs). cbn [mbind res_bind fst snd].
  rewrite IH by (done || (cbn in Hr; lia)). by rewrite slots_entries_cons, app_assoc.
Qed.

(** Slots take at least eight bytes, so there are fewer than bytes. *)
Lemma slots_in_length buf off slots end_ : slots_in buf off slots end_ -> off + 8 * zlen slots <= end_.
Proof.
  revert off. induction slots as [|s slots IH]; intros off; cbn; [unfold zlen; cbn; lia|].
  intros [((_ & _ & _ & _ & H5) & _) Hin]. apply IH in Hin. pose proof (zlen_nonneg (sl_name s)).
  change (zlen (s :: slots)) with (Z.of_nat (S (length slots))). unfold zlen in *. lia.
Qed.

Lemma parseDirBlock_slots buf slots :
  slots_in buf 0 slots (zlen buf) -> parseDirBlock buf = Ok (slots_entries slots).
Proof.
  intros Hin. unfold parseDirBlock. rewrite (parse_slots _ _ _ slots) by (done || (apply slots_in_length in Hin; unfold zlen in *; lia)).
  done.
Qed.

(** ** Writing slots *)
Lemma minDirRecLen_bounds n : 0 <= n < 2 ^ 8 -> 8 + n <= minDirRecLen n <= n + 11.
Proof.
  intros Hn. unfold minDirRecLen, dirEntryHeaderSize. pose proof (Z.div_mod (8 + n + 3) 4).
  pose proof (Z.mod_pos_bound (8 + n + 3) 4). rewrite w16_id; lia.
Qed.

Lemma put_entry_ok buf off s :
  slot_wf s -> 0 <= off -> off + 8 <= zlen buf ->
  put_entry buf off (sl_inode s) (sl_recLen s) (zlen (sl_name s)) (sl_type s) =
    Ok (put buf off (le_split 4 (sl_inode s) ++ le_split 2 (sl_recLen s) ++ le_split 1 (zlen (sl_name s)) ++
                     le_split 1 (sl_type s))).
Proof.
  intros Hwf Ho Hfit. unfold put_entry.
  rewrite putUint_in by lia. cbn [mbind res_bind]. rewrite putUint_in by (rewrite ?zlen_put; lia).
  cbn [mbind res_bind]. rewrite putUint_in by (rewrite ?zlen_put; lia). cbn [mbind res_bind].
  rewrite putUint_in by (rewrite ?zlen_put; lia). f_equal.
  set (a := le_split 4 (sl_inode s)). set (b := le_split 2 (sl_recLen s)).
  set (c := le_split 1 (zlen (sl_name s))). set (d := le_split 1 (sl_type s)).
  assert (Ha : zlen a = 4) by apply zlen_le_split. assert (Hb : zlen b = 2) by apply zlen_le_split.
  assert (Hc : zlen c = 1) by apply zlen_le_split. assert (Hd : zlen d = 1) by apply zlen_le_split.
  rewrite <- Ha at 1. rewrite put_put_app by lia.
  replace (off + 6) with (off + zlen (a ++ b)) by (rewrite zlen_app; lia).
  rewrite put_put_app by (rewrite ?zlen_app; lia).
  replace (off + 7) with (off + zlen ((a ++ b) ++ c)) by (rewrite !zlen_app; lia).
  rewrite put_put_app by (rewrite ?zlen_app; lia). by rewrite <- !app_assoc.
Qed.

Lemma put_name buf off s :
  slot_wf s -> 0 <= off -> off + 8 + zlen (sl_name s) <= zlen buf ->
  put (put buf off (le_split 4 (sl_inode s) ++ le_split 2 (sl_recLen s) ++ le_split 1 (zlen (sl_name s)) ++
                     le_split 1 (sl_type s))) (off + 8) (sl_name s) = put buf off (slot_bytes s).
Proof.
  intros Hwf Ho Hfit.
  set (h := le_split 4 (sl_inode s) ++ le_split 2 (sl_recLen s) ++ le_split 1 (zlen (sl_name s)) ++ le_split 1 (sl_type s)).
  assert (Hh : zlen h = 8) by (unfold h; rewrite !zlen_app, !zlen_le_split; lia).
  rewrite <- Hh. rewrite put_put_app by lia. unfold h, slot_bytes. by rewrite <- !app_assoc.
Qed.

(** ** [writeDirBlock] *)
Definition entry_ok (e : DirEntry2) : Prop :=
  0 < de_Inode e < 2 ^ 32 /\ 0 <= de_FileType e < 2 ^ 8 /\ 0 < zlen (de_Name e) < 2 ^ 8.

Fixpoint entries_fit (room : Z) (entries : list DirEntry2) : Prop :=
  match entries with
  | [] => True
  | e :: entries' =>
      match entries' with
      | [] => 8 + zlen (de_Name e) <= room
      | _ :: _ => entries_fit (room - minDirRecLen (zlen (de_Name e))) entries'
      end
  end.

Fixpoint entry_slots (room : Z) (entries : list DirEntry2) : list slot :=
  match entries with
  | [] => []
  | e :: entries' =>
      match entries' with
      | [] => [mkSlot (de_Inode e) room (de_FileType e) (de_Name e)]
      | _ :: _ =>
          let recLen := minDirRecLen (zlen (de_Name e)) in
          mkSlot (de_Inode e) recLen (de_FileType e) (de_Name e) :: entry_slots (room - recLen) entries'
      end
  end.

Lemma entries_fit_pos room e entries :
  Forall entry_ok (e :: entries) -> entries_fit room (e :: entries) -> 8 + zlen (de_Name e) <= room.
Proof.
  revert room e. induction entries as [|e' entries IH]; intros room e Hok Hfit; cbn in Hfit; [done|].
  inversion Hok as [|?? (_ & _ & Hn) Hok']; subst. apply IH in Hfit; [|done].
  pose proof (minDirRecLen_bounds (zlen (de_Name e))). pose proof (zlen_nonneg (de_Name e')). lia.
Qed.

Lemma writeDirBlock_step buf off e recLen rest :
  entry_ok e -> 8 + zlen (de_Name e) <= recLen < 2 ^ 16 -> 0 <= off -> off + recLen <= zlen buf ->
  let s := mkSlot (de_Inode e) recLen (de_FileType e) (de_Name e) in
  slot_wf s /\
  (buf <- put_entry buf off (de_Inode e) recLen (w8 (zlen (de_Name e))) (de_FileType e) ;;
   buf <- put_at buf (off + dirEntryHeaderSize) (de_Name e) ;;
   writeDirBlock_loop buf (off + recLen) rest)
  = writeDirBlock_loop (put buf off (slot_bytes s)) (off + recLen) rest.
Proof.
  intros (H1 & H2 & H3) Hr Ho Hfit s. assert (Hwf : slot_wf s) by (unfold s, slot_wf; cbn; lia). split; [done|].
  rewrite w8_id by lia. pose proof (put_entry_ok buf off s Hwf Ho ltac:(lia)) as Ep.
  pose proof (put_name buf off s Hwf Ho ltac:(cbn; lia)) as En.
  cbn [s sl_inode sl_recLen sl_name sl_type] in Ep, En. rewrite Ep. cbn [mbind res_bind].
  unfold dirEntryHeaderSize. rewrite put_at_in by (rewrite ?zlen_put; lia). cbn [mbind res_bind]. by rewrite En.
Qed.

Lemma writeDirBlock_slots entries buf pre off :
  entries <> [] -> Forall entry_ok entries -> entries_fit (zlen buf - off) entries -> zlen buf < 2 ^ 16 ->
  0 <= off -> slots_in buf 0 pre off ->
  exists buf', writeDirBlock_loop buf off entries = Ok buf' /\ zlen buf' = zlen buf /\
    slots_in buf' 0 (pre ++ entry_slots (zlen buf - off) entries) (zlen buf).
Proof.
  revert buf pre off. induction entries as [|e entries IH]; intros buf pre off Hne Hok Hfit Hmax Ho Hpre; [done|].
  pose proof (entries_fit_pos _ _ _ Hok Hfit) as Hroom. inversion Hok as [|?? He Hok']; subst.
  pose proof He as (H1 & H2 & H3). destruct entries as [|e' entries].
  - assert (Ew : w16 (zlen buf - off) = zlen buf - off) by (apply w16_id; lia).
    destruct (writeDirBlock_step buf off e (w16 (zlen buf - off)) []) as [Hwf E]; [done|lia|done|lia|].
    change (writeDirBlock_loop buf off [e] = Ok (put buf off (slot_bytes
      (mkSlot (de_Inode e) (w16 (zlen buf - off)) (de_FileType e) (de_Name e))))) in E. rewrite Ew in *. rewrite E.
    eexists. split; [done|]. split; [apply zlen_put|]. apply slots_in_app. exists off.
    set (s := mkSlot _ _ _ _) in *. split; [apply slots_in_put; [done|by right|done]|].
    cbn [entry_slots slots_in]. split; [apply slot_at_write; [done|done|cbn; lia]|cbn; lia].
  - pose proof (minDirRecLen_bounds (zlen (de_Name e)) ltac:(lia)) as Hb.
    cbn [entries_fit] in Hfit. pose proof (entries_fit_pos _ _ _ Hok' Hfit). pose proof (zlen_nonneg (de_Name e')).
    destruct (writeDirBlock_step buf off e (minDirRecLen (zlen (de_Name e))) (e' :: entries)) as [Hwf E]; [done|lia|done|lia|].
    match type of E with _ = ?rhs => change (writeDirBlock_loop buf off (e :: e' :: entries) = rhs) in E end.
    rewrite E. clear E.
    set (s := mkSlot _ _ _ _) in *. set (buf1 := put buf off (slot_bytes s)).
    assert (Hl1 : zlen buf1 = zlen buf) by apply zlen_put.
    destruct (IH buf1 (pre ++ [s]) (off + minDirRecLen (zlen (de_Name e)))) as (buf' & E & Hl & Hin); try done; try lia.
    { rewrite Hl1. by replace (zlen buf - (off + minDirRecLen (zlen (de_Name e))))
        with (zlen buf - off - minDirRecLen (zlen (de_Name e))) by lia. }
    { apply slots_in_app. exists off. split; [apply slots_in_put; [done|by right|done]|].
      split; [apply slot_at_write; [done|done|cbn; lia]|done]. }
    exists buf'. split; [exact E|]. split; [lia|]. rewrite Hl1 in Hin. rewrite <- app_assoc in Hin.
    replace (zlen buf - (off + minDirRecLen (zlen (de_Name e))))
      with (zlen buf - off - minDirRecLen (zlen (de_Name e))) in Hin by lia. exact Hin.
Qed.

(** What a reader of a directory sees of an entry. *)
Definition view (e : DirEntry2) : Z * Z * list byte := (de_Inode e, de_FileType e, de_Name e).

Lemma entry_slots_view room entries :
  Forall entry_ok entries -> view <$> slots_entries (entry_slots room entries) = view <$> entries.
Proof.
  revert room. induction entries as [|e entries IH]; intros room Hok; [done|].
  inversion Hok as [|?? (H1 & H2 & H3) Hok']; subst.
  assert (Hlive : forall r, slot_live (mkSlot (de_Inode e) r (de_FileType e) (de_Name e)) = true).
  { intros r. unfold slot_live. cbn [sl_inode sl_name].
    by rewrite (proj2 (Z.eqb_neq _ 0)), (proj2 (Z.ltb_lt 0 _)) by lia. }
  cbn [entry_slots]. destruct entries as [|e' entries]; rewrite slots_entries_cons, Hlive; [done|].
  rewrite fmap_app, IH by done. done.
Qed.

(** What [writeDirBlock] lays out, [parseDirBlock] reads back: the same
    inodes, types and names in the same order. *)
Theorem writeDirBlock_roundtrip entries blockSize :
  entries <> [] -> Forall entry_ok entries -> entries_fit blockSize entries -> 0 <= blockSize < 2 ^ 16 ->
  exists buf es, writeDirBlock entries blockSize = Ok buf /\ zlen buf = blockSize /\
    parseDirBlock buf = Ok es /\ view <$> es = view <$> entries.
Proof.
  intros Hne Hok Hfit Hbs. assert (Hz : zlen (zeros blockSize) = blockSize) by (apply zlen_zeros; lia).
  destruct (writeDirBlock_slots entries (zeros blockSize) [] 0) as (buf & E & Hl & Hin);
    [done|done|rewrite Hz, Z.sub_0_r; done|lia|lia|done|].
  rewrite Hz in *. rewrite Z.sub_0_r in Hin. exists buf, (slots_entries (entry_slots blockSize entries)).
  split; [done|]. split; [done|]. split; [apply parseDirBlock_slots; rewrite Hl; done|].
  by apply entry_slots_view.
Qed.

(** ** Inserting into and removing from a block *)
Definition slot_room (name : list byte) (s : slot) : bool :=
  minDirRecLen (zlen name) <=? sl_recLen s - minDirRecLen (zlen (sl_name s)).

(** The slot with room is cut to its minimum and the new slot takes the
    rest. *)
Fixpoint insert_slots (name : list byte) (child ftype : Z) (slots : list slot) : option (list slot) :=
  match slots with
  | [] => None
  | s :: slots' =>
      if slot_room name s then
        let thisMin := minDirRecLen (zlen (sl_name s)) in
        Some (set_recLen thisMin s :: mkSlot child (sl_recLen s - thisMin) ftype name :: slots')
      else (cons s) <$> insert_slots name child ftype slots'
  end.

Lemma set_recLen_wf s v : slot_wf s -> 8 + zlen (sl_name s) <= v < 2 ^ 16 -> slot_wf (set_recLen v s).
Proof. intros (H1 & H2 & H3 & H4 & H5) Hv. pose proof (zlen_nonneg (sl_name s)). unfold slot_wf. cbn [set_recLen sl_inode sl_recLen sl_type sl_name]. lia. Qed.

Lemma insert_here buf off s name child ftype :
  slot_at buf off s -> slot_room name s = true -> 0 < zlen name < 2 ^ 8 -> 0 <= child < 2 ^ 32 -> 0 <= ftype < 2 ^ 8 ->
  let thisMin := minDirRecLen (zlen (sl_name s)) in
  let new := mkSlot child (sl_recLen s - thisMin) ftype name in
  let buf1 := put buf (off + 4) (le_split 2 thisMin) in
  slot_wf new /\ slot_at (put buf1 (off + thisMin) (slot_bytes new)) off (set_recLen thisMin s) /\
  slot_at (put buf1 (off + thisMin) (slot_bytes new)) (off + thisMin) new.
Proof.
  intros Hs Hroom Hn Hc Ht thisMin new buf1. pose proof Hs as (Hwf & Ho & Hfit & E).
  pose proof Hwf as (H1 & H2 & H3 & H4 & H5). pose proof (zlen_nonneg (sl_name s)).
  pose proof (minDirRecLen_bounds (zlen (sl_name s)) ltac:(lia)) as Hm1. fold thisMin in Hm1.
  pose proof (minDirRecLen_bounds (zlen name) ltac:(lia)) as Hm2.
  unfold slot_room in Hroom. fold thisMin in Hroom. apply Z.leb_le in Hroom.
  assert (Hwf' : slot_wf new) by (unfold new, slot_wf; cbn; lia). split; [done|]. split.
  - apply slot_at_put; [lia|cbn; lia|]. apply slot_at_recLen; [done|apply set_recLen_wf; [done|lia]|lia].
  - apply slot_at_write; [done|lia|]. unfold buf1. rewrite zlen_put. cbn. lia.
Qed.

(** Both ways of computing the length of the new slot give what is left of
    the old one. *)
Lemma new_recLen off recLen thisMin bs :
  0 <= off -> 0 < recLen < 2 ^ 16 -> 0 <= thisMin <= recLen -> off + recLen <= bs <= 2 ^ 16 ->
  (if w16 (w16 off + recLen) =? w16 bs then w16 (bs - (off + thisMin)) else w16 (recLen - thisMin)) = recLen - thisMin.
Proof.
  intros Ho Hr Hm Hfit. destruct (Z.eqb_spec (w16 (w16 off + recLen)) (w16 bs)) as [Eq|]; [|apply w16_id; lia].
  rewrite !w16_mod, Zplus_mod_idemp_l in Eq. assert (off + recLen = bs); [|rewrite w16_id; lia].
  destruct (Z.eq_dec bs (2 ^ 16)) as [->|]; [|rewrite !Z.mod_small in Eq; lia].
  rewrite Z.mod_same in Eq by lia. destruct (Z.eq_dec (off + recLen) (2 ^ 16)); [lia|].
  rewrite Z.mod_small in Eq; lia.
Qed.

Lemma insert_in_block_spec rounds buf off slots name child ftype :
  slots_in buf off slots (zlen buf) -> (length slots <= rounds)%nat ->
  0 < zlen name < 2 ^ 8 -> 0 <= child < 2 ^ 32 -> 0 <= ftype < 2 ^ 8 -> zlen buf <= 2 ^ 16 ->
  match insert_slots name child ftype slots with
  | None => insert_in_block rounds buf off name child ftype = Ok None
  | Some slots' =>
      exists buf', insert_in_block rounds buf off name child ftype = Ok (Some buf') /\ zlen buf' = zlen buf /\
        slots_in buf' off slots' (zlen buf) /\
        forall pre a, slots_in buf a pre off -> slots_in buf' a pre off
  end.
Proof.
  intros Hin Hr Hn Hc Ht Hmax. revert rounds off Hin Hr.
  induction slots as [|s slots IH]; intros rounds off Hin Hr; cbn in Hin.
  { subst off. destruct rounds; cbn [insert_slots insert_in_block]; by rewrite Z.leb_refl. }
  destruct Hin as [Hs Hin]. pose proof Hs as (Hwf & Ho & Hfit & E). pose proof Hwf as (H1 & H2 & H3 & H4 & H5).
  pose proof (zlen_nonneg (sl_name s)). destruct rounds as [|rounds]; [cbn in Hr; lia|].
  destruct (slot_reads buf off s Hs) as (_ & E2 & E3 & _ & _).
  cbn [insert_slots insert_in_block]. unfold dirEntryHeaderSize.
  rewrite (proj2 (Z.leb_gt _ _)), (proj2 (Z.ltb_ge _ _)) by lia. rewrite E2. cbn [mbind res_bind].
  rewrite (proj2 (Z.eqb_neq (sl_recLen s) 0)) by lia. rewrite E3. cbn [mbind res_bind].
  fold (slot_room name s). destruct (slot_room name s) eqn:Eroom.
  - destruct (insert_here buf off s name child ftype Hs Eroom Hn Hc Ht) as (Hwfn & Hs1 & Hs2).
    pose proof (minDirRecLen_bounds (zlen (sl_name s)) ltac:(lia)) as Hm1.
    unfold slot_room in Eroom. apply Z.leb_le in Eroom. pose proof (minDirRecLen_bounds (zlen name) ltac:(lia)) as Hm2.
    set (thisMin := minDirRecLen (zlen (sl_name s))) in *. set (new := mkSlot _ _ _ _) in *.
    set (buf1 := put buf (off + 4) (le_split 2 thisMin)) in *.
    assert (Hl1 : zlen buf1 = zlen buf) by apply zlen_put.
    rewrite putUint_in by lia. cbn [mbind res_bind]. fold buf1. cbn zeta.
    rewrite new_recLen, w8_id by lia.
    pose proof (put_entry_ok buf1 (off + thisMin) new Hwfn ltac:(lia) ltac:(cbn; lia)) as Ep.
    pose proof (put_name buf1 (off + thisMin) new Hwfn ltac:(lia) ltac:(cbn; lia)) as En.
    cbn [new sl_inode sl_recLen sl_name sl_type] in Ep, En. rewrite Ep. cbn [mbind res_bind].
    unfold dirEntryHeaderSize. rewrite copy_at_in by (rewrite zlen_put; lia). cbn [mbind res_bind]. rewrite En.
    eexists. split; [done|]. rewrite zlen_put. split; [done|]. fold new.
    assert (Hz : zlen (slot_bytes new) = 8 + zlen name) by apply zlen_slot_bytes. split.
    + cbn [slots_in]. split; [exact Hs1|]. split; [exact Hs2|]. cbn [sl_recLen set_recLen new].
      replace (off + thisMin + (sl_recLen s - thisMin)) with (off + sl_recLen s) by lia.
      apply slots_in_put; [lia|lia|]. apply slots_in_put; [lia|rewrite zlen_le_split; lia|done].
    + intros pre a Hpre. apply slots_in_put; [lia|lia|]. apply slots_in_put; [lia|lia|done].
  - specialize (IH rounds (off + sl_recLen s) Hin ltac:(cbn in Hr; lia)).
    destruct (insert_slots name child ftype slots) as [slots'|]; [|exact IH]. cbn [fmap option_fmap option_map].
    destruct IH as (buf' & E' & Hl & Hin' & Hpre). exists buf'. split; [done|]. split; [done|]. split.
    + destruct (Hpre [s] off) as [Hs' _]; [by split|]. by split.
    + intros pre a Hp. assert (Hps : slots_in buf' a (pre ++ [s]) (off + sl_recLen s)).
      { apply Hpre. apply slots_in_app. exists off. split; [done|]. by split. }
      apply slots_in_app in Hps as (b & Hp' & Hb). cbn in Hb. destruct Hb as [_ Hb].
      replace b with off in Hp' by lia. done.
Qed.

Definition slot_matches (name : list byte) (s : slot) : bool := slot_live s && bool_decide (sl_name s = name).

Lemma matches_eq buf off name s :
  slot_at buf off s ->
  negb (sl_inode s =? 0) && (0 <? zlen (sl_name s)) && (off + 8 + zlen (sl_name s) <=? zlen buf)
    && bool_decide (sub buf (off + 8) (zlen (sl_name s)) = name) = slot_matches name s.
Proof.
  intros Hs. destruct (slot_reads buf off s Hs) as (_ & _ & _ & _ & ->). pose proof Hs as ((_ & _ & _ & _ & H5) & Ho & Hfit & _).
  rewrite (proj2 (Z.leb_le _ _)) by lia. by rewrite andb_true_r.
Qed.

Fixpoint prev_off (off prevOff : Z) (slots : list slot) : Z :=
  match slots with [] => prevOff | s :: slots' => prev_off (off + sl_recLen s) off slots' end.

Lemma prev_off_snoc buf off prevOff l p b : slots_in buf off l b -> prev_off off prevOff (l ++ [p]) = b.
Proof.
  revert off prevOff. induction l as [|s l IH]; intros off prevOff Hin; cbn in *; [done|]. destruct Hin. by apply IH.
Qed.

(** The search stops at the first match. *)
Lemma remove_from_block_spec rounds buf off prevOff l1 s l2 o name :
  slots_in buf off l1 o -> slot_at buf o s -> slots_in buf (o + sl_recLen s) l2 (zlen buf) ->
  (length l1 < rounds)%nat -> Forall (fun s => slot_matches name s = false) l1 -> slot_matches name s = true ->
  0 <= prevOff -> (prevOff = 0 \/ prevOff + 8 <= off) ->
  remove_from_block rounds buf off prevOff name =
    Ok (Some (let b := put buf o (le_split 4 0) in
              let po := prev_off off prevOff l1 in
              if 0 <? po then put b (po + 4) (le_split 2 (w16 (o + sl_recLen s - po))) else b)).
Proof.
  intros Hin Hs Hin2 Hr Hno Hm. revert rounds off prevOff Hin Hr.
  induction Hno as [|s1 l1 Hs1 Hno IH]; intros rounds off prevOff Hin Hr Hp0 Hp; cbn in Hin.
  - subst off. destruct rounds as [|rounds]; [cbn in Hr; lia|].
    destruct (slot_reads buf o s Hs) as (E1 & E2 & E3 & _ & _).
    pose proof Hs as ((H1 & H2 & H3 & H4 & H5) & Ho & Hfit & E). pose proof (zlen_nonneg (sl_name s)).
    cbn [remove_from_block prev_off]. unfold dirEntryHeaderSize.
    rewrite (proj2 (Z.leb_gt _ _)), (proj2 (Z.ltb_ge _ _)) by lia. rewrite E1, E2. cbn [mbind res_bind].
    rewrite (proj2 (Z.eqb_neq (sl_recLen s) 0)) by lia. rewrite E3. cbn [mbind res_bind].
    rewrite (matches_eq buf o name s Hs), Hm. rewrite putUint_in by lia. cbn [mbind res_bind].
    destruct (Z.ltb_spec 0 prevOff); [|done].
    rewrite putUint_in by (rewrite ?zlen_put; lia). done.
  - destruct Hin as [Hs0 Hin]. destruct rounds as [|rounds]; [cbn in Hr; lia|].
    destruct (slot_reads buf off s1 Hs0) as (E1 & E2 & E3 & _ & _).
    pose proof Hs0 as ((H1 & H2 & H3 & H4 & H5) & Ho & Hfit & E). pose proof (zlen_nonneg (sl_name s1)).
    cbn [remove_from_block prev_off]. unfold dirEntryHeaderSize.
    rewrite (proj2 (Z.leb_gt _ _)), (proj2 (Z.ltb_ge _ _)) by lia. rewrite E1, E2. cbn [mbind res_bind].
    rewrite (proj2 (Z.eqb_neq (sl_recLen s1) 0)) by lia. rewrite E3. cbn [mbind res_bind].
    rewrite (matches_eq buf off name s1 Hs0), Hs1. apply IH; [done|cbn in Hr; lia|lia|lia].
Qed.

Lemma remove_from_block_none rounds buf off prevOff slots name :
  slots_in buf off slots (zlen buf) -> (length slots <= rounds)%nat ->
  Forall (fun s => slot_matches name s = false) slots -> remove_from_block rounds buf off prevOff name = Ok None.
Proof.
  intros Hin Hr Hno. revert rounds off prevOff Hin Hr.
  induction Hno as [|s slots Hs1 Hno IH]; intros rounds off prevOff Hin Hr; cbn in Hin.
  { subst off. destruct rounds; cbn [remove_from_block]; by rewrite Z.leb_refl. }
  destruct Hin as [Hs0 Hin]. destruct rounds as [|rounds]; [cbn in Hr; lia|].
  destruct (slot_reads buf off s Hs0) as (E1 & E2 & E3 & _ & _).
  pose proof Hs0 as ((H1 & H2 & H3 & H4 & H5) & Ho & Hfit & E). pose proof (zlen_nonneg (sl_name s)).
  cbn [remove_from_block]. unfold dirEntryHeaderSize.
  rewrite (proj2 (Z.leb_gt _ _)), (proj2 (Z.ltb_ge _ _)) by lia. rewrite E1, E2. cbn [mbind res_bind].
  rewrite (proj2 (Z.eqb_neq (sl_recLen s) 0)) by lia. rewrite E3. cbn [mbind res_bind].
  rewrite (matches_eq buf off name s Hs0), Hs1. apply IH; [done|cbn in Hr; lia].
Qed.

(** The slots after a removal: the freed slot is given to its predecessor,
    unless that starts the block; then it stays as an unused slot. *)
Definition removed_slots (po : Z) (l1 : list slot) (s : slot) (l2 : list slot) : list slot :=
  match last l1 with
  | Some p =>
      if 0 <? po then removelast l1 ++ set_recLen (sl_recLen p + sl_recLen s) p :: l2
      else l1 ++ set_inode 0 s :: l2
  | None => set_inode 0 s :: l2
  end.

Lemma remove_in_slots buf l1 s l2 o name :
  slots_in buf 0 l1 o -> slot_at buf o s -> slots_in buf (o + sl_recLen s) l2 (zlen buf) ->
  Forall (fun s => slot_matches name s = false) l1 -> slot_matches name s = true -> zlen buf < 2 ^ 16 ->
  exists buf', remove_from_block (length buf) buf 0 0 name = Ok (Some buf') /\ zlen buf' = zlen buf /\
    slots_in buf' 0 (removed_slots (prev_off 0 0 l1) l1 s l2) (zlen buf).
Proof.
  intros Hin Hs Hin2 Hno Hm Hmax. pose proof Hs as (Hwf & Ho & Hfit & E). pose proof Hwf as (H1 & H2 & H3 & H4 & H5).
  pose proof (zlen_nonneg (sl_name s)). pose proof (slots_in_length _ _ _ _ Hin) as Hl.
  assert (Hwf0 : slot_wf (set_inode 0 s)) by (unfold slot_wf; cbn [set_inode sl_inode sl_recLen sl_type sl_name]; lia).
  rewrite (remove_from_block_spec _ buf 0 0 l1 s l2 o) by (done || lia || (unfold zlen in *; lia)). cbn zeta.
  set (b := put buf o (le_split 4 0)).
  assert (Hb1 : slots_in b 0 l1 o) by (apply slots_in_put; [done|by right|done]).
  assert (Hb2 : slots_in b (o + sl_recLen s) l2 (zlen buf)).
  { apply slots_in_put; [done|rewrite zlen_le_split; lia|done]. }
  assert (Hbl : zlen b = zlen buf) by apply zlen_put. unfold removed_slots.
  assert (Hstay : slots_in b 0 (l1 ++ set_inode 0 s :: l2) (zlen buf)).
  { apply slots_in_app. exists o. split; [done|]. split; [by apply slot_at_inode|done]. }
  destruct (last l1) as [p|] eqn:Elast.
  - apply last_Some in Elast as [l1' ->]. rewrite removelast_last.
    apply slots_in_app in Hb1 as (po & Hb1 & Hp & Epo). cbn in Epo.
    apply slots_in_app in Hin as (po' & Hin & Hp' & Epo'). cbn in Epo'. assert (po' = po) as -> by lia.
    rewrite (prev_off_snoc buf _ _ _ _ po) by done. destruct (Z.ltb_spec 0 po); [|eexists; done].
    pose proof Hp as (Hwfp & Hpo & Hfitp & _). pose proof Hwfp as (_ & _ & _ & _ & Hn). pose proof (zlen_nonneg (sl_name p)).
    eexists. split; [done|]. split; [by rewrite zlen_put|].
    replace (o + sl_recLen s - po) with (sl_recLen p + sl_recLen s) by lia. rewrite w16_id by lia.
    apply slots_in_app. exists po. split; [apply slots_in_put; [lia|right; lia|done]|]. split.
    + apply slot_at_recLen; [done|apply set_recLen_wf; [done|lia]|lia].
    + cbn [set_recLen sl_recLen]. replace (po + (sl_recLen p + sl_recLen s)) with (o + sl_recLen s) by lia.
      apply slots_in_put; [lia|rewrite zlen_le_split; lia|done].
  - apply last_None in Elast as ->. cbn [prev_off Z.ltb Z.compare]. eexists. done.
Qed.
End slots.


(** ** Parsing any block *)
Lemma le_get_1 buf off : 0 <= le_get 1 buf off < 2 ^ 8.
Proof. apply (le_get_range 1). Qed.

Definition entry_sane (e : DirEntry2) : Prop :=
  0 < de_Inode e < 2 ^ 32 /\ 0 < de_NameLen e < 2 ^ 8 /\ zlen (de_Name e) = de_NameLen e.

Lemma parse_entry_total m1 m2 buf off :
  0 <= off -> off + 8 <= zlen buf ->
  (exists e, parse_entry m1 m2 buf off = Err e) \/
  (exists es recLen, parse_entry m1 m2 buf off = Ok (es, recLen) /\ 0 < recLen /\ Forall entry_sane es).
Proof.
  intros Ho Hfit. unfold parse_entry. rewrite !getUint_in by lia. cbn [mbind res_bind].
  pose proof (le_get_range 4 buf off) as Hino. pose proof (le_get_range 2 buf (off + 4)) as Hrl.
  pose proof (le_get_1 buf (off + 6)) as Hnl.
  destruct (Z.eqb_spec (le_get 2 buf (off + 4)) 0); [left; eauto|].
  destruct (Z.eqb_spec (le_get 4 buf off) 0), (Z.ltb_spec 0 (le_get 1 buf (off + 6))); cbn [negb andb];
    try (right; eexists _, _; split; [done|]; split; [lia|constructor]).
  unfold dirEntryHeaderSize. destruct (Z.ltb_spec (zlen buf) (off + 8 + le_get 1 buf (off + 6))); [left; eauto|right].
  rewrite slice_in by lia. cbn [mbind res_bind]. eexists _, _. split; [done|]. split; [lia|].
  apply Forall_singleton. unfold entry_sane. cbn [de_Inode de_NameLen de_Name].
  rewrite zlen_sub by lia. change (2 ^ (8 * Z.of_nat 4)) with (2 ^ 32) in Hino. lia.
Qed.

Lemma parse_loop_total rounds buf off acc :
  0 <= off -> zlen buf <= off + Z.of_nat rounds -> Forall entry_sane acc ->
  (exists e, parseDirBlock_loop rounds buf off acc = Err e) \/
  (exists es, parseDirBlock_loop rounds buf off acc = Ok es /\ Forall entry_sane es).
Proof.
  revert off acc. induction rounds as [|rounds IH]; intros off acc Ho Hr Hacc; cbn [parseDirBlock_loop];
    (destruct (Z.leb_spec (zlen buf) off); [right; eauto|]); [lia|].
  unfold dirEntryHeaderSize. destruct (Z.ltb_spec (zlen buf) (off + 8)); [right; eauto|].
  destruct (parse_entry_total "directory entry at offset %d has rec_len=0 (corrupt block)"
    "directory entry at offset %d: name extends beyond block boundary (%d > %d)" buf off) as [[e ->]|(es & rl & -> & Hrl & Hes)];
    [done|lia|left; by exists e|].
  cbn [mbind res_bind fst snd]. apply IH; [lia|lia|]. apply Forall_app. done.
Qed.

(** Whatever a directory block contains, parsing it ends within one
    round per byte, without a panic, in an error or in entries whose inode
    is not 0 and whose name has the recorded, nonzero length. *)
Theorem parseDirBlock_total buf :
  (exists e, parseDirBlock buf = Err e) \/ (exists es, parseDirBlock buf = Ok es /\ Forall entry_sane es).
Proof. apply parse_loop_total; [done|unfold zlen; lia|constructor]. Qed.
