(* ===== verification/Directory.v ===== *)
(** Directories ([src/vfs/directory.go], [src/vfs/dirent.go]): listing,
    lookup with the cache, adding and removing entries; and path resolution
    ([src/vfs/core.go]). *)
From S2P Require Export PathNames DirBlock.

Definition maxSymlinks : nat := 40.

Section directories.
Context {D : Type} `{ReadWriterAt D} `{Env}.

(** ** Reading directories *)
Definition read_dir_block (isHtree : bool) (physBlock : Z) (acc : list DirEntry2 * Z)
    : FS D (list DirEntry2 * Z) :=
  let '(entries, logicalBlock) := acc in
  fs <- get ;;
  buf <- wrap "failed to read directory block %d (offset %d): %w"
           (fs_ReadAt (block_offset (BlockSize fs) physBlock) (BlockSize fs)) ;;
  blockEntries <- wrap "failed to parse directory block %d: %w"
    (lift (if isHtree && (logicalBlock =? 0) then parseDirBlockHtreeRoot buf else parseDirBlock buf)) ;;
  mret (entries ++ blockEntries, w64 (logicalBlock + 1)).

Definition ReadDir (inode : Inode) : FS D (list DirEntry2) :=
  if negb (IsDir inode) then fail (Errorf "ReadDir called on a non-directory inode (I_mode=0x%04x)")
  else
    let isHtree := negb (Z.land (I_flags inode) EXT4_INDEX_FL =? 0) in
    extents <- wrap "failed to read extent tree: %w" (ReadExtents inode) ;;
    let! (entries, _) :=
      forM extents ([], 0) (fun ext acc =>
        forM (seqZ 0 (EE_len ext)) acc (fun i acc => read_dir_block isHtree (w64 (ext_start ext + i)) acc)) in
    mret entries.

Definition ReadDirCached (inode : Inode) : FS D (list DirEntry2) :=
  let key := I_block inode in
  fs <- get ;;
  match dirCache fs !! key with
  | Some cached => mret cached
  | None =>
      entries <- ReadDir inode ;;
      modify (fun fs => set_dirCache (<[key := entries]> (dirCache fs)) fs) ;;
      mret entries
  end.

Fixpoint find_name (entries : list DirEntry2) (name : list byte) : option Z :=
  match entries with
  | [] => None
  | e :: entries' => if bool_decide (de_Name e = name) then Some (de_Inode e) else find_name entries' name
  end.

Definition Lookup (dirInode : Inode) (name : list byte) : FS D Z :=
  entries <- wrap "Lookup(%q): failed to read directory: %w" (ReadDirCached dirInode) ;;
  match find_name entries name with
  | Some n => mret n
  | None => fail (Sentinel vfs_ErrNotExist)
  end.

Definition invalidateDirCache (inode : Inode) : FS D unit :=
  modify (fun fs => set_dirCache (delete (I_block inode) (dirCache fs)) fs).

(** ** Changing directories *)
Definition add_to_block (name : list byte) (childInodeNum fileType physBlock : Z) : FS D (option unit) :=
  fs <- get ;;
  buf <- wrap "AddDirEntry: failed to read block %d: %w"
           (fs_ReadAt (block_offset (BlockSize fs) physBlock) (BlockSize fs)) ;;
  r <- lift (insert_in_block (length buf) buf 0 name childInodeNum fileType) ;;
  match r with
  | None => mret None
  | Some buf =>
      wrap "AddDirEntry: failed to write block %d: %w" (fs_WriteAt (block_offset (BlockSize fs) physBlock) buf) ;;
      mret (Some tt)
  end.

(** [AddDirEntry] and [RemoveDirEntry] return the updated directory inode. *)
Definition AddDirEntry (dirInode : Inode) (name : list byte) (childInodeNum fileType : Z) : FS D Inode :=
  if negb (IsDir dirInode) then fail (Errorf "AddDirEntry: inode is not a directory")
  else
    found <- catch (Lookup dirInode name) ;;
    match found with
    | inl _ => fail (Errorf "AddDirEntry: entry %q already exists")
    | inr _ =>
        extents <- wrap "AddDirEntry: failed to read extents: %w" (ReadExtents dirInode) ;;
        fs <- get ;;
        let blockSize := BlockSize fs in
        r <- firstM extents (fun ext =>
               firstM (seqZ 0 (ext_count ext)) (fun i =>
                 add_to_block name childInodeNum fileType (w64 (ext_start ext + i)))) ;;
        match r with
        | Some _ =>
            invalidateDirCache dirInode ;;
            mret (set_I_mtime (w32 now) dirInode)
        | None =>
            newBlock <- wrap "AddDirEntry: failed to allocate block: %w" AllocateBlock ;;
            if blockSize =? 0 then lift Panic
            else
              let newExt := mkExtent (w32 (Size dirInode / blockSize)) 1 (w16 (Z.shiftr newBlock 32)) (w32 newBlock) in
              dirInode <- wrap "AddDirEntry: %w" (AppendExtent dirInode newExt) ;;
              let entry := mkDirEntry2 childInodeNum 0 (w8 (zlen name)) fileType name in
              blockBuf <- lift (writeDirBlock [entry] blockSize) ;;
              wrap "AddDirEntry: failed to write new block %d: %w"
                (fs_WriteAt (block_offset blockSize newBlock) blockBuf) ;;
              let dirInode := set_file_size (w64 (Size dirInode + blockSize)) dirInode in
              invalidateDirCache dirInode ;;
              mret (set_I_mtime (w32 now) dirInode)
        end
    end.

Definition remove_in_block (name : list byte) (physBlock : Z) : FS D (option unit) :=
  fs <- get ;;
  buf <- wrap "RemoveDirEntry: failed to read block %d: %w"
           (fs_ReadAt (block_offset (BlockSize fs) physBlock) (BlockSize fs)) ;;
  r <- lift (remove_from_block (length buf) buf 0 0 name) ;;
  match r with
  | None => mret None
  | Some buf =>
      wrap "RemoveDirEntry: failed to write block %d: %w" (fs_WriteAt (block_offset (BlockSize fs) physBlock) buf) ;;
      mret (Some tt)
  end.

Definition RemoveDirEntry (dirInode : Inode) (name : list byte) : FS D Inode :=
  if negb (IsDir dirInode) then fail (Errorf "RemoveDirEntry: inode is not a directory")
  else
    extents <- wrap "RemoveDirEntry: failed to read extents: %w" (ReadExtents dirInode) ;;
    r <- firstM extents (fun ext =>
           firstM (seqZ 0 (ext_count ext)) (fun i => remove_in_block name (w64 (ext_start ext + i)))) ;;
    match r with
    | Some _ =>
        invalidateDirCache dirInode ;;
        mret (set_I_mtime (w32 now) dirInode)
    | None => fail (Sentinel vfs_ErrNotExist)
    end.

(** ** Path resolution *)

(** One component of the loop of [walk]; [follow] resolves the target of a
    symbolic link. *)
Definition walk_component (follow : list byte -> FS D (Z * Inode)) (component : list byte) (acc : Z * Inode)
    : FS D (Z * Inode) :=
  let '(curNum, cur) := acc in
  if bool_decide (component = []) then mret acc
  else if negb (IsDir cur) then fail (Errorf "walk: %q is not a directory")
  else
    childInodeNum <- Lookup cur component ;;
    child <- wrap "walk: failed to read inode %d for %q: %w" (ReadInode childInodeNum) ;;
    if IsSymlink child then
      target <- wrap "walk: failed to read symlink %q: %w" (ReadSymlink child) ;;
      wrap "walk: symlink %q -> %q: %w" (follow target)
    else mret (childInodeNum, child).

(** [depth] is [maxSymlinks + 1 - symDepth]. *)
Fixpoint walk (depth : nat) (path : list byte) : FS D (Z * Inode) :=
  match depth with
  | O => fail (Errorf "too many levels of symbolic links")
  | S depth =>
      cur <- wrap "walk: failed to read root inode: %w" (ReadInode RootInodeNum) ;;
      forM (split_slash path) (RootInodeNum, cur) (walk_component (walk depth))
  end.

Definition WalkInode (path : list byte) : FS D (Z * Inode) := walk (S maxSymlinks) path.
Definition Walk (path : list byte) : FS D Inode := r <- WalkInode path ;; mret r.2.
End directories.

Section reading_operations.
Context {D : Type} `{ReadWriterAt D} {env : Env}.

Lemma reads_ReadInode n : reads (ReadInode (D := D) n).
Proof. unfold ReadInode, inode_position, get_bgd. reads_tac. Qed.

Lemma reads_parseExtentNode depth data : reads (parseExtentNode (D := D) depth data).
Proof.
  revert data. induction depth as [|depth IH]; intros data; cbn [parseExtentNode]; [auto with reads|].
  assert (Hd : forall data, reads (parseExtentNode (D := D) depth data)) by exact IH. reads_tac; apply IH.
Qed.

Lemma reads_ReadExtents inode : reads (ReadExtents (D := D) inode).
Proof. unfold ReadExtents. destruct (negb (UsesExtents inode)); [apply reads_fail|apply reads_parseExtentNode]. Qed.
#[local] Hint Resolve reads_ReadExtents : reads.

Lemma reads_ReadSymlink inode : reads (ReadSymlink (D := D) inode).
Proof. unfold ReadSymlink. reads_tac. Qed.

Lemma reads_ReadFile inode : reads (ReadFile (D := D) inode).
Proof. unfold ReadFile. reads_tac. Qed.

Lemma reads_ReadDir inode : reads (ReadDir (D := D) inode).
Proof. unfold ReadDir, read_dir_block. reads_tac. Qed.
End reading_operations.
#[export] Hint Resolve reads_ReadInode reads_ReadExtents reads_ReadSymlink reads_ReadFile reads_ReadDir : reads.

(** ** Directories on the device *)
Section directory_theory.
Context {D : Type} `{Device D} {env : Env}.
Implicit Types fs : FileSystem D.

(** The device blocks of a list of initialised extents, in order. *)
Definition ext_blocks (ext : Extent) : list Z := (fun i => ext_start ext + i) <$> seqZ 0 (ext_count ext).

(** Block [b] of the device is a directory block of the given slots. *)
Definition block_on fs (b : Z) (slots : list slot) : Prop :=
  0 <= b /\ (b + 1) * BlockSize fs <= zlen (fs_content fs) /\
  slots_in (sub (fs_content fs) (b * BlockSize fs) (BlockSize fs)) 0 slots (BlockSize fs).

(** A directory of the linear format whose blocks hold the given slots. *)
Record dir_on fs (inode : Inode) (extents : list Extent) (blocks : list (Z * list slot)) : Prop := {
  dir_fs : fs_ok fs;
  dir_small : BlockSize fs < 2 ^ 16;
  dir_mode : IsDir inode = true;
  dir_linear : Z.land (I_flags inode) EXT4_INDEX_FL = 0;
  dir_extents : forall fs', ReadExtents (D := D) inode fs' = (Ok extents, fs');
  dir_wf : Forall (fun ext => struct_wf ext /\ ext_uninit ext = false) extents;
  dir_blocks : extents ≫= ext_blocks = blocks.*1;
  dir_nodup : NoDup blocks.*1;
  dir_slots : Forall (fun b => block_on fs b.1 b.2) blocks
}.

Definition dir_entries (blocks : list (Z * list slot)) : list DirEntry2 := blocks ≫= (fun b => slots_entries b.2).

Lemma init_count ext : struct_wf ext -> ext_uninit ext = false -> EE_len ext = ext_count ext.
Proof.
  intros (_ & Hlen & _)%Extent_range Hu. unfold ext_uninit in Hu. apply negb_false_iff, Z.eqb_eq in Hu.
  unfold ext_count. apply Z.bits_inj'. intros i Hi. rewrite Z.land_spec. change 0x7FFF with (Z.ones 15).
  destruct (Z.lt_ge_cases i 15); [by rewrite Z.ones_spec_low, andb_true_r by lia|].
  rewrite Z.ones_spec_high, andb_false_r by lia. destruct (Z.eq_dec i 15) as [->|].
  - apply (f_equal (fun z => Z.testbit z 15)) in Hu. rewrite Z.land_spec, Z.bits_0 in Hu.
    change (Z.testbit 0x8000 15) with true in Hu. by rewrite andb_true_r in Hu.
  - rewrite <- (Z.mod_small (EE_len ext) (2 ^ 16)) by lia. apply Z.mod_pow2_bits_high. lia.
Qed.

(** The three loops over the blocks of a directory. *)
Lemma dir_forM {B} (extents : list Extent) (acc : B) (body : Z -> B -> FS D B) fs :
  Forall (fun ext => struct_wf ext /\ ext_uninit ext = false) extents ->
  forM extents acc (fun ext acc => forM (seqZ 0 (EE_len ext)) acc (fun i acc => body (w64 (ext_start ext + i)) acc)) fs
  = forM (extents ≫= ext_blocks) acc body fs.
Proof.
  intros Hwf. rewrite <- forM_flat. apply forM_ext. intros ext a s Hext.
  rewrite Forall_forall in Hwf. destruct (Hwf _ Hext) as [Hw Hu]. unfold ext_blocks. rewrite forM_fmap.
  rewrite init_count by done. pose proof (wf_start ext Hw). pose proof (wf_count ext Hw).
  apply forM_ext. intros i a' s' Hi%elem_of_seqZ. by rewrite w64_id by lia.
Qed.

Lemma dir_firstM {R} (extents : list Extent) (body : Z -> FS D (option R)) fs :
  Forall (fun ext => struct_wf ext /\ ext_uninit ext = false) extents ->
  firstM extents (fun ext => firstM (seqZ 0 (ext_count ext)) (fun i => body (w64 (ext_start ext + i)))) fs
  = firstM (extents ≫= ext_blocks) body fs.
Proof.
  intros Hwf. rewrite <- firstM_flat. apply firstM_ext. intros ext s Hext.
  rewrite Forall_forall in Hwf. destruct (Hwf _ Hext) as [Hw Hu]. unfold ext_blocks. rewrite firstM_fmap.
  pose proof (wf_start ext Hw). pose proof (wf_count ext Hw).
  apply firstM_ext. intros i s' Hi%elem_of_seqZ. by rewrite w64_id by lia.
Qed.

Lemma read_block_slots fs b slots :
  fs_ok fs -> 0 <= b -> (b + 1) * BlockSize fs <= zlen (fs_content fs) ->
  let buf := sub (fs_content fs) (b * BlockSize fs) (BlockSize fs) in
  slots_in buf 0 slots (BlockSize fs) -> zlen buf = BlockSize fs /\ slots_in buf 0 slots (zlen buf).
Proof.
  intros Hok Hb Hfit buf Hin. pose proof Hok as (Hbs & _).
  assert (Hl : zlen buf = BlockSize fs) by (apply zlen_sub; nia). by rewrite Hl.
Qed.

Lemma read_dir_block_ok fs b slots acc n :
  fs_ok fs -> block_on fs b slots ->
  read_dir_block false b (acc, n) fs = (Ok (acc ++ slots_entries slots, w64 (n + 1)), fs).
Proof.
  intros Hok (Hb & Hfit & Hin). destruct (read_block_slots fs b slots Hok Hb Hfit Hin) as [Hl Hin'].
  unfold read_dir_block. rewrite get_bind.
  rewrite (bind_ok _ _ _ _ _ (wrap_ok _ _ _ _ _ (read_block fs b Hok Hb Hfit))). cbn [andb].
  rewrite (parseDirBlock_slots _ slots Hin'). done.
Qed.

Lemma read_dir_blocks fs blocks acc n :
  fs_ok fs -> Forall (fun b => block_on fs b.1 b.2) blocks ->
  exists n', forM blocks.*1 (acc, n) (read_dir_block false) fs = (Ok (acc ++ dir_entries blocks, n'), fs).
Proof.
  intros Hok Hbl. revert acc n. induction Hbl as [|[b sl] blocks Hb Hbl IH]; intros acc n.
  { exists n. cbn. by rewrite app_nil_r. }
  destruct (IH (acc ++ slots_entries sl) (w64 (n + 1))) as [n' E]. exists n'. cbn [fmap list_fmap fst forM].
  rewrite (bind_ok _ _ _ _ _ (read_dir_block_ok fs b sl acc n Hok Hb)).
  rewrite E. change (dir_entries ((b, sl) :: blocks)) with (slots_entries sl ++ dir_entries blocks).
  by rewrite app_assoc.
Qed.

Lemma ReadDir_spec fs inode extents blocks :
  dir_on fs inode extents blocks -> ReadDir inode fs = (Ok (dir_entries blocks), fs).
Proof.
  intros []. unfold ReadDir. rewrite dir_mode0. cbn [negb]. rewrite dir_linear0. cbn [negb Z.eqb].
  rewrite (bind_ok _ _ _ _ _ (wrap_ok _ _ _ _ _ (dir_extents0 fs))). cbn zeta.
  destruct (read_dir_blocks fs blocks [] 0 dir_fs0 dir_slots0) as [n' E'].
  unfold mbind, M_bind. rewrite (dir_forM extents ([], 0) (read_dir_block false) fs) by done.
  rewrite dir_blocks0, E'. done.
Qed.

(** ** Lookups and the cache *)

(** The cache has the listing of the directory, if it has one. *)
Definition coherent fs (inode : Inode) (blocks : list (Z * list slot)) : Prop :=
  forall es, dirCache fs !! I_block inode = Some es -> es = dir_entries blocks.

Definition lookup_result (blocks : list (Z * list slot)) (name : list byte) : res Z :=
  match find_name (dir_entries blocks) name with
  | Some n => Ok n
  | None => Err (Sentinel vfs_ErrNotExist)
  end.

Lemma set_dirCache_id fs : set_dirCache (dirCache fs) fs = fs.
Proof. by destruct fs. Qed.

Lemma Lookup_spec fs inode extents blocks name :
  dir_on fs inode extents blocks -> coherent fs inode blocks ->
  exists m, Lookup inode name fs = (lookup_result blocks name, set_dirCache m fs) /\
    m !! I_block inode = Some (dir_entries blocks).
Proof.
  intros Hdir Hcoh. unfold Lookup, lookup_result.
  assert (E : exists m, ReadDirCached inode fs = (Ok (dir_entries blocks), set_dirCache m fs) /\
                m !! I_block inode = Some (dir_entries blocks)).
  { unfold ReadDirCached. rewrite get_bind. destruct (dirCache fs !! I_block inode) as [es|] eqn:Ec.
    - exists (dirCache fs). rewrite set_dirCache_id, Ec. by rewrite (Hcoh _ Ec).
    - exists (<[I_block inode := dir_entries blocks]> (dirCache fs)).
      rewrite (bind_ok _ _ _ _ _ (ReadDir_spec fs inode extents blocks Hdir)). split; [done|]. apply lookup_insert_eq. }
  destruct E as (m & E & Hm). exists m. split; [|done].
  rewrite (bind_ok _ _ _ _ _ (wrap_ok _ _ _ _ _ E)). by destruct (find_name _ _).
Qed.

Lemma find_name_app l1 l2 name :
  find_name (l1 ++ l2) name = match find_name l1 name with Some n => Some n | None => find_name l2 name end.
Proof. induction l1 as [|e l1 IH]; cbn; [done|]. by destruct (bool_decide _). Qed.

Lemma find_name_view l1 l2 name : view <$> l1 = view <$> l2 -> find_name l1 name = find_name l2 name.
Proof.
  revert l2. induction l1 as [|e l1 IH]; intros [|e' l2] E; try done. cbn in E. injection E as E1 E2 E3 E4.
  cbn [find_name]. rewrite E1, E3. by rewrite (IH l2 E4).
Qed.

(** ** Changing one block of a directory *)
Lemma block_on_put fs fs' b b' slots p :
  fs_ok fs -> BlockSize fs' = BlockSize fs -> fs_content fs' = put (fs_content fs) (b' * BlockSize fs) p ->
  0 <= b' -> zlen p = BlockSize fs -> b <> b' -> block_on fs b slots -> block_on fs' b slots.
Proof.
  intros Hok Hbs Hc Hb' Hp Hne (Hb & Hfit & Hin). pose proof Hok as (Hpos & _). unfold block_on.
  rewrite Hbs, Hc, zlen_put. split; [done|]. split; [done|]. rewrite sub_put_disj; [done|nia|nia|nia].
Qed.

Lemma dir_on_change fs fs' inode inode' extents l1 b slots l2 slots' p :
  dir_on fs inode extents (l1 ++ (b, slots) :: l2) -> fs_ok fs' -> BlockSize fs' = BlockSize fs ->
  fs_content fs' = put (fs_content fs) (b * BlockSize fs) p -> zlen p = BlockSize fs ->
  slots_in p 0 slots' (BlockSize fs) -> (exists t, inode' = set_I_mtime t inode) ->
  dir_on fs' inode' extents (l1 ++ (b, slots') :: l2).
Proof.
  intros [Hok Hsmall Hmode Hlin Hext Hwf Hbl Hnd Hsl] Hok' Hbs Hc Hp Hin' [t ->].
  assert (E1 : (l1 ++ (b, slots') :: l2).*1 = (l1 ++ (b, slots) :: l2).*1) by by rewrite !fmap_app.
  apply Forall_app in Hsl as [Hs1 Hs2]. apply Forall_cons in Hs2 as [Hs0 Hs2]. pose proof Hs0 as (Hb & Hfit & _).
  pose proof Hok as (Hpos & _). cbn [fst snd] in *.
  rewrite fmap_app in Hnd. apply NoDup_app in Hnd as (Hn1 & Hn2 & Hn3). cbn in Hn2, Hn3. apply NoDup_cons in Hn3 as [Hn3 Hn4].
  assert (Hother : forall x, x ∈ l1 \/ x ∈ l2 -> block_on fs x.1 x.2 -> block_on fs' x.1 x.2).
  { intros x Hx. apply (block_on_put fs fs' x.1 b x.2 p); try done. intros Eb.
    destruct Hx as [Hx|Hx]; [apply (Hn2 x.1); [by apply list_elem_of_fmap_2|rewrite Eb; left]|].
    apply Hn3. rewrite <- Eb. by apply list_elem_of_fmap_2. }
  split; try done; [by rewrite Hbs|by rewrite E1|rewrite E1, fmap_app; apply NoDup_app; cbn; rewrite NoDup_cons; done|].
  apply Forall_app. split; [|apply Forall_cons; split].
  - apply Forall_forall. intros x Hx. apply Hother; [by left|]. rewrite Forall_forall in Hs1. by apply Hs1.
  - cbn [fst snd]. unfold block_on. rewrite Hbs, Hc, zlen_put. split; [done|]. split; [done|].
    rewrite sub_put_eq by (done || nia). done.
  - apply Forall_forall. intros x Hx. apply Hother; [by right|]. rewrite Forall_forall in Hs2. by apply Hs2.
Qed.

Definition find_view (vs : list (Z * Z * list byte)) (name : list byte) : option Z :=
  match list_find (fun v => v.2 = name) vs with Some (_, v) => Some v.1.1 | None => None end.

Lemma find_view_cons v vs name :
  find_view (v :: vs) name = if decide (v.2 = name) then Some v.1.1 else find_view vs name.
Proof.
  unfold find_view. cbn [list_find]. destruct (decide (v.2 = name)); [done|].
  destruct (list_find _ vs) as [[i w]|]; done.
Qed.

Lemma find_name_find_view es name : find_name es name = find_view (view <$> es) name.
Proof.
  induction es as [|e es IH]; [done|]. cbn [fmap list_fmap find_name]. rewrite find_view_cons, IH.
  cbn [view fst snd]. by destruct (decide (de_Name e = name)) as [E|E]; [rewrite bool_decide_true|rewrite bool_decide_false].
Qed.

(** Adding and removing an entry, as a lookup sees it. *)
Lemma find_view_insert l1 l2 child ftype name n :
  find_view (l1 ++ l2) name = None ->
  find_view (l1 ++ (child, ftype, name) :: l2) n = if decide (n = name) then Some child else find_view (l1 ++ l2) n.
Proof.
  induction l1 as [|v l1 IH]; cbn [app]; rewrite !find_view_cons; cbn [fst snd].
  - intros _. destruct (decide (name = n)), (decide (n = name)); congruence.
  - intros Hf. destruct (decide (v.2 = name)); [done|]. rewrite (IH Hf).
    destruct (decide (v.2 = n)), (decide (n = name)); congruence.
Qed.

Lemma app_regroup {A} (a b c d : list A) : a ++ (b ++ c) ++ d = (a ++ b) ++ (c ++ d).
Proof. by rewrite <- !app_assoc. Qed.

Lemma find_view_other l1 l2 v n : n <> v.2 -> find_view (l1 ++ v :: l2) n = find_view (l1 ++ l2) n.
Proof.
  intros Hn. induction l1 as [|w l1 IH]; cbn [app]; rewrite !find_view_cons.
  - by rewrite decide_False by congruence.
  - by rewrite IH.
Qed.

Lemma insert_slots_entries name child ftype slots slots' :
  insert_slots name child ftype slots = Some slots' -> child <> 0 -> 0 < zlen name ->
  exists e1 e2, view <$> slots_entries slots = e1 ++ e2 /\
    view <$> slots_entries slots' = e1 ++ (child, ftype, name) :: e2.
Proof.
  intros Hi Hc Hn. revert slots' Hi. induction slots as [|s slots IH]; intros slots' Hi; [done|].
  cbn [insert_slots] in Hi. rewrite slots_entries_cons. destruct (slot_room name s).
  - injection Hi as <-. rewrite !slots_entries_cons.
    change (slot_live (set_recLen ?v s)) with (slot_live s).
    assert (Hlive : slot_live (mkSlot child (sl_recLen s - minDirRecLen (zlen (sl_name s))) ftype name) = true).
    { unfold slot_live. cbn [sl_inode sl_name]. by rewrite (proj2 (Z.eqb_neq child 0)), (proj2 (Z.ltb_lt 0 _)) by lia. }
    rewrite Hlive, !fmap_app. exists (view <$> (if slot_live s then [slot_entry s] else [])), (view <$> slots_entries slots).
    split; [done|]. by destruct (slot_live s).
  - destruct (insert_slots name child ftype slots) as [sl|]; [|done]. injection Hi as <-.
    destruct (IH sl eq_refl) as (e1 & e2 & E1 & E2). rewrite slots_entries_cons, !fmap_app, E1, E2.
    exists ((view <$> (if slot_live s then [slot_entry s] else [])) ++ e1), e2. by rewrite <- !app_assoc.
Qed.

Lemma dir_entries_split l1 b slots l2 :
  dir_entries (l1 ++ (b, slots) :: l2) = dir_entries l1 ++ slots_entries slots ++ dir_entries l2.
Proof. unfold dir_entries. by rewrite bind_app. Qed.

(** ** [AddDirEntry] and [RemoveDirEntry] *)
Lemma add_to_block_spec fs b slots name child ftype :
  fs_ok fs -> BlockSize fs < 2 ^ 16 -> block_on fs b slots ->
  0 < zlen name < 2 ^ 8 -> 0 <= child < 2 ^ 32 -> 0 <= ftype < 2 ^ 8 ->
  match insert_slots name child ftype slots with
  | None => add_to_block name child ftype b fs = (Ok None, fs)
  | Some slots' =>
      exists v p, add_to_block name child ftype b fs = (Ok (Some tt), set_dev v fs) /\ fs_ok (set_dev v fs) /\
        fs_content (set_dev v fs) = put (fs_content fs) (b * BlockSize fs) p /\ zlen p = BlockSize fs /\
        slots_in p 0 slots' (BlockSize fs)
  end.
Proof.
  intros Hok Hsmall (Hb & Hfit & Hin) Hn Hc Ht. destruct (read_block_slots fs b slots Hok Hb Hfit Hin) as [Hl Hin'].
  set (buf := sub (fs_content fs) (b * BlockSize fs) (BlockSize fs)) in *.
  pose proof (insert_in_block_spec (length buf) buf 0 slots name child ftype Hin'
    ltac:(apply slots_in_length in Hin'; unfold zlen in *; lia) Hn Hc Ht ltac:(lia)) as Hins.
  unfold add_to_block. rewrite get_bind.
  rewrite (bind_ok _ _ _ _ _ (wrap_ok _ _ _ _ _ (read_block fs b Hok Hb Hfit))). fold buf.
  destruct (insert_slots name child ftype slots) as [slots'|]; [|by rewrite Hins].
  destruct Hins as (p & -> & Hp & Hinp & _). rewrite lift_ok_bind.
  destruct (write_block fs b p Hok Hb Hfit ltac:(lia)) as (v & Hw & Hok' & Hc').
  rewrite (bind_ok _ _ _ _ _ (wrap_ok _ _ _ _ _ Hw)). exists v, p. rewrite Hl in *. done.
Qed.

(** The first block that accepts the change. *)
Lemma dir_first_block fs inode extents blocks (body : Z -> FS D (option unit)) (change : list slot -> option (list slot)) :
  dir_on fs inode extents blocks ->
  (forall b slots, block_on fs b slots ->
     match change slots with
     | None => body b fs = (Ok None, fs)
     | Some slots' =>
         exists v p, body b fs = (Ok (Some tt), set_dev v fs) /\ fs_ok (set_dev v fs) /\
           fs_content (set_dev v fs) = put (fs_content fs) (b * BlockSize fs) p /\ zlen p = BlockSize fs /\
           slots_in p 0 slots' (BlockSize fs)
     end) ->
  let run := firstM extents (fun ext => firstM (seqZ 0 (ext_count ext)) (fun i => body (w64 (ext_start ext + i)))) in
  (exists l1 b slots l2 slots' v, blocks = l1 ++ (b, slots) :: l2 /\ change slots = Some slots' /\
     Forall (fun x => change x.2 = None) l1 /\
     run fs = (Ok (Some tt), set_dev v fs) /\
     forall t, dir_on (set_dev v fs) (set_I_mtime t inode) extents (l1 ++ (b, slots') :: l2)) \/
  (run fs = (Ok None, fs) /\ Forall (fun x => change x.2 = None) blocks).
Proof.
  intros Hdir Hbody run. pose proof Hdir as [Hok Hsmall _ _ _ Hwf Hbl _ Hsl]. unfold run.
  rewrite (dir_firstM extents body fs Hwf), Hbl. clear Hwf Hbl run. rewrite Forall_forall in Hsl.
  assert (Hsplit : forall bl : list (Z * list slot), (forall x, x ∈ bl -> x ∈ blocks) ->
    (exists l1 b slots l2 slots', bl = l1 ++ (b, slots) :: l2 /\ change slots = Some slots' /\
       Forall (fun x => change x.2 = None) l1 /\ firstM bl.*1 body fs = body b fs) \/
    (firstM bl.*1 body fs = (Ok None, fs) /\ Forall (fun x => change x.2 = None) bl)).
  { induction bl as [|[b slots] bl IH]; intros Hincl; [right; split; [done|constructor]|].
    pose proof (Hbody b slots (Hsl (b, slots) ltac:(apply Hincl; left))) as Hb.
    destruct (change slots) as [slots'|] eqn:Ec.
    - left. exists [], b, slots, bl, slots'. split; [done|]. split; [done|]. split; [constructor|].
      destruct Hb as (v & p & E & _). cbn [fmap list_fmap firstM fst]. by rewrite (bind_ok _ _ _ _ _ E), E.
    - cbn [fmap list_fmap firstM fst]. rewrite (bind_ok _ _ _ _ _ Hb).
      destruct IH as [(l1 & b' & sl & l2 & sl' & -> & Ec' & Hn & E)|[E Hn]]; [intros; apply Hincl; by right|left|right].
      + exists ((b, slots) :: l1), b', sl, l2, sl'. split; [done|]. split; [done|]. split; [by constructor|done].
      + split; [done|by constructor]. }
  destruct (Hsplit blocks) as [(l1 & b & slots & l2 & slots' & Ebl & Ec & Hn & E)|]; [done|left|by right].
  pose proof (Hbody b slots (Hsl (b, slots) ltac:(rewrite Ebl; set_solver))) as Hb. rewrite Ec in Hb.
  destruct Hb as (v & p & Ev & Hok' & Hc' & Hp & Hinp). exists l1, b, slots, l2, slots', v.
  split; [done|]. split; [done|]. split; [done|]. split; [by rewrite E|]. intros t. rewrite Ebl in Hdir.
  apply (dir_on_change fs (set_dev v fs) inode _ extents l1 b slots l2 slots' p); try done. by exists t.
Qed.

Lemma dir_on_cache fs m inode extents blocks :
  dir_on (set_dirCache m fs) inode extents blocks <-> dir_on fs inode extents blocks.
Proof. split; intros []; by split. Qed.

Lemma dir_on_invalidated fs inode t extents blocks n :
  dir_on fs (set_I_mtime t inode) extents blocks ->
  let fs' := set_dirCache (delete (I_block inode) (dirCache fs)) fs in
  dir_on fs' (set_I_mtime t inode) extents blocks /\
  exists m, Lookup (set_I_mtime t inode) n fs' = (lookup_result blocks n, set_dirCache m fs').
Proof.
  intros Hdir fs'. assert (Hdir' : dir_on fs' (set_I_mtime t inode) extents blocks) by by apply dir_on_cache.
  split; [done|]. destruct (Lookup_spec fs' _ extents blocks n Hdir') as (m & E & _); [|by exists m].
  intros es. cbn. rewrite lookup_delete_eq. done.
Qed.

(** C16: Adding an entry to a directory that has room for it succeeds, and
    every lookup afterwards finds the new entry under its name and, under
    every other name, what it found before; the listing cached under the
    old content is not used any more. *)
Theorem AddDirEntry_Lookup fs inode extents blocks name child ftype :
  dir_on fs inode extents blocks -> coherent fs inode blocks ->
  find_name (dir_entries blocks) name = None ->
  Exists (fun b => insert_slots name child ftype b.2 <> None) blocks ->
  0 < zlen name < 2 ^ 8 -> 0 < child < 2 ^ 32 -> 0 <= ftype < 2 ^ 8 ->
  exists inode' fs' blocks', AddDirEntry inode name child ftype fs = (Ok inode', fs') /\
    dir_on fs' inode' extents blocks' /\
    forall n, exists m, Lookup inode' n fs' =
      (if decide (n = name) then Ok child else lookup_result blocks n, set_dirCache m fs').
Proof.
  intros Hdir Hcoh Hfresh Hroom Hn Hc Ht.
  destruct (Lookup_spec fs inode extents blocks name Hdir Hcoh) as (m & Elook & _).
  unfold lookup_result in Elook. rewrite Hfresh in Elook.
  set (fs1 := set_dirCache m fs) in *.
  assert (Hdir1 : dir_on fs1 inode extents blocks) by by apply dir_on_cache.
  unfold AddDirEntry. rewrite (dir_mode _ _ _ _ Hdir). cbn [negb].
  rewrite (bind_ok _ _ fs fs1 (inr (Sentinel vfs_ErrNotExist))) by (unfold catch; by rewrite Elook).
  rewrite (bind_ok _ _ _ _ _ (wrap_ok _ _ _ _ _ (dir_extents _ _ _ _ Hdir fs1))), get_bind.
  destruct (dir_first_block fs1 inode extents blocks (add_to_block name child ftype) (insert_slots name child ftype) Hdir1)
    as [(l1 & b & slots & l2 & slots' & v & Ebl & Ec & _ & Erun & Hdir2)|[_ Hnone]].
  { intros b slots Hb. apply add_to_block_spec; [apply Hdir1|apply Hdir1|done|done|lia|done]. }
  - rewrite (bind_ok _ _ _ _ _ Erun).
    eexists _, _, (l1 ++ (b, slots') :: l2). split; [reflexivity|].
    split; [apply (dir_on_invalidated _ inode (w32 now) extents _ name), Hdir2|]. intros n.
    destruct (dir_on_invalidated _ inode (w32 now) extents _ n (Hdir2 (w32 now))) as (_ & m' & E').
    exists m'. etransitivity; [exact E'|]. f_equal. unfold lookup_result. rewrite !find_name_find_view.
    rewrite find_name_find_view in Hfresh. rewrite Ebl, dir_entries_split, !fmap_app in Hfresh.
    rewrite Ebl, !dir_entries_split, !fmap_app.
    destruct (insert_slots_entries _ _ _ _ _ Ec ltac:(lia) ltac:(lia)) as (e1 & e2 & E1 & E2).
    rewrite E1, app_regroup in Hfresh. rewrite E1, E2, !app_regroup. cbn [app]. rewrite find_view_insert by exact Hfresh. by destruct (decide (n = name)).
  - exfalso. apply Exists_exists in Hroom as (x & Hx & Hr). rewrite Forall_forall in Hnone. by apply Hr, Hnone.
Qed.

(** ** Removal *)
Fixpoint split_match (name : list byte) (slots : list slot) : option (list slot * slot * list slot) :=
  match slots with
  | [] => None
  | s :: slots' =>
      if slot_matches name s then Some ([], s, slots')
      else (fun r => (s :: r.1.1, r.1.2, r.2)) <$> split_match name slots'
  end.

Definition remove_slots (name : list byte) (slots : list slot) : option (list slot) :=
  (fun r => removed_slots (prev_off 0 0 r.1.1) r.1.1 r.1.2 r.2) <$> split_match name slots.

Lemma split_match_spec name slots :
  match split_match name slots with
  | None => Forall (fun s => slot_matches name s = false) slots
  | Some (l1, s, l2) => slots = l1 ++ s :: l2 /\ slot_matches name s = true /\
      Forall (fun s => slot_matches name s = false) l1
  end.
Proof.
  induction slots as [|s slots IH]; cbn [split_match]; [constructor|].
  destruct (slot_matches name s) eqn:Em; [done|]. destruct (split_match name slots) as [[[l1 s'] l2]|]; cbn.
  - destruct IH as (-> & Hm & Hn). split; [done|]. split; [done|by constructor].
  - by constructor.
Qed.

Lemma remove_in_block_spec fs b slots name :
  fs_ok fs -> BlockSize fs < 2 ^ 16 -> block_on fs b slots ->
  match remove_slots name slots with
  | None => remove_in_block name b fs = (Ok None, fs)
  | Some slots' =>
      exists v p, remove_in_block name b fs = (Ok (Some tt), set_dev v fs) /\ fs_ok (set_dev v fs) /\
        fs_content (set_dev v fs) = put (fs_content fs) (b * BlockSize fs) p /\ zlen p = BlockSize fs /\
        slots_in p 0 slots' (BlockSize fs)
  end.
Proof.
  intros Hok Hsmall (Hb & Hfit & Hin). destruct (read_block_slots fs b slots Hok Hb Hfit Hin) as [Hl Hin'].
  set (buf := sub (fs_content fs) (b * BlockSize fs) (BlockSize fs)) in *.
  unfold remove_in_block. rewrite get_bind.
  rewrite (bind_ok _ _ _ _ _ (wrap_ok _ _ _ _ _ (read_block fs b Hok Hb Hfit))). fold buf.
  pose proof (split_match_spec name slots) as Hsm. unfold remove_slots.
  destruct (split_match name slots) as [[[l1 s] l2]|]; cbn [fmap option_fmap option_map fst snd].
  - destruct Hsm as (-> & Hm & Hno). apply slots_in_app in Hin' as (o & Hin1 & Hs & Hin2).
    destruct (remove_in_slots buf l1 s l2 o name) as (p & -> & Hp & Hinp); [done..|lia|]. rewrite lift_ok_bind.
    destruct (write_block fs b p Hok Hb Hfit ltac:(lia)) as (v & Hw & Hok' & Hc').
    rewrite (bind_ok _ _ _ _ _ (wrap_ok _ _ _ _ _ Hw)). exists v, p. rewrite Hl in *. done.
  - rewrite (remove_from_block_none _ buf 0 0 slots name); [done|done| |done].
    apply slots_in_length in Hin'. unfold zlen in *. lia.
Qed.

Lemma removed_entries po l1 s l2 :
  view <$> slots_entries (removed_slots po l1 s l2) = (view <$> slots_entries l1) ++ (view <$> slots_entries l2).
Proof.
  assert (Hdead : forall l, view <$> slots_entries (l ++ set_inode 0 s :: l2) =
    (view <$> slots_entries l) ++ (view <$> slots_entries l2)).
  { intros l. rewrite slots_entries_app, slots_entries_cons. by rewrite fmap_app. }
  unfold removed_slots. destruct (last l1) as [p|] eqn:El; [destruct (0 <? po)|].
  - apply last_Some in El as [l1' ->]. rewrite removelast_last, !slots_entries_app, !slots_entries_cons.
    change (slot_live (set_recLen ?v p)) with (slot_live p). rewrite !fmap_app, <- !app_assoc. cbn [slots_entries].
    by destruct (slot_live p).
  - apply Hdead.
  - apply last_None in El as ->. apply (Hdead []).
Qed.

Lemma no_match_entries name slots :
  Forall (fun s => slot_matches name s = false) slots -> find_name (slots_entries slots) name = None.
Proof.
  induction 1 as [|s slots Hs Hl IH]; [done|]. rewrite slots_entries_cons, find_name_app, IH.
  unfold slot_matches in Hs. destruct (slot_live s); [|done]. cbn in *. by rewrite Hs.
Qed.

(** C17: Removing an entry takes exactly the first entry of that name out of
    the directory; lookups of every other name find what they found
    before.  When no entry has the name, [ErrNotExist] is returned and
    nothing changes. *)
Theorem RemoveDirEntry_Lookup fs inode extents blocks name :
  dir_on fs inode extents blocks ->
  (find_name (dir_entries blocks) name = None /\
     RemoveDirEntry inode name fs = (Err (Sentinel vfs_ErrNotExist), fs)) \/
  (exists inode' fs' blocks' e1 n ft e2, RemoveDirEntry inode name fs = (Ok inode', fs') /\
    dir_on fs' inode' extents blocks' /\
    view <$> dir_entries blocks = e1 ++ (n, ft, name) :: e2 /\ find_view e1 name = None /\
    view <$> dir_entries blocks' = e1 ++ e2 /\
    forall n', n' <> name -> exists m, Lookup inode' n' fs' = (lookup_result blocks n', set_dirCache m fs')).
Proof.
  intros Hdir. unfold RemoveDirEntry. rewrite (dir_mode _ _ _ _ Hdir). cbn [negb].
  rewrite (bind_ok _ _ _ _ _ (wrap_ok _ _ _ _ _ (dir_extents _ _ _ _ Hdir fs))).
  assert (Hnone : forall l : list (Z * list slot), Forall (fun x => remove_slots name x.2 = None) l ->
    find_name (dir_entries l) name = None).
  { intros l Hl. induction Hl as [|x l Hx Hl IH]; [done|].
    change (dir_entries (x :: l)) with (slots_entries x.2 ++ dir_entries l). rewrite find_name_app, IH.
    pose proof (split_match_spec name x.2) as Hsm. unfold remove_slots in Hx.
    destruct (split_match name x.2); [done|]. by rewrite no_match_entries. }
  destruct (dir_first_block fs inode extents blocks (remove_in_block name) (remove_slots name) Hdir)
    as [(l1 & b & slots & l2 & slots' & v & Ebl & Ec & Hl1 & Erun & Hdir2)|[Erun Hall]].
  { intros b slots Hb. apply remove_in_block_spec; [apply Hdir|apply Hdir|done]. }
  - right. rewrite (bind_ok _ _ _ _ _ Erun). pose proof (split_match_spec name slots) as Hsm. unfold remove_slots in Ec.
    destruct (split_match name slots) as [[[s1 s] s2]|]; [|done]. cbn in Ec. injection Ec as <-.
    destruct Hsm as (Es & Hm & Hs1). unfold slot_matches in Hm. apply andb_prop in Hm as [Hlive Hname].
    apply bool_decide_eq_true in Hname.
    set (e1 := (view <$> dir_entries l1) ++ (view <$> slots_entries s1)).
    set (e2 := (view <$> slots_entries s2) ++ (view <$> dir_entries l2)).
    assert (Eold : view <$> dir_entries blocks = e1 ++ (sl_inode s, sl_type s, name) :: e2).
    { rewrite Ebl, dir_entries_split, Es, slots_entries_app, slots_entries_cons, Hlive, !fmap_app.
      unfold e1, e2. rewrite <- !app_assoc, <- Hname. done. }
    set (slots' := removed_slots _ s1 s s2) in *.
    assert (Enew : view <$> dir_entries (l1 ++ (b, slots') :: l2) = e1 ++ e2).
    { rewrite dir_entries_split, !fmap_app. unfold slots'. rewrite removed_entries. unfold e1, e2. by rewrite <- !app_assoc. }
    assert (Ee1 : find_view e1 name = None).
    { unfold e1. rewrite <- fmap_app, <- find_name_find_view, find_name_app, (Hnone l1 Hl1). by apply no_match_entries. }
    eexists _, _, (l1 ++ (b, slots') :: l2), e1, (sl_inode s), (sl_type s), e2. split; [reflexivity|].
    split; [apply (dir_on_invalidated _ inode (w32 now) extents _ name), Hdir2|].
    split; [done|]. split; [done|]. split; [done|]. intros n' Hn'.
    destruct (dir_on_invalidated _ inode (w32 now) extents _ n' (Hdir2 (w32 now))) as (_ & m' & E').
    exists m'. etransitivity; [exact E'|]. f_equal. unfold lookup_result. rewrite !find_name_find_view, Eold, Enew.
    by rewrite find_view_other by done.
  - left. split; [by apply Hnone|]. by rewrite (bind_ok _ _ _ _ _ Erun).
Qed.

(** ** Path resolution

    What a path means: starting from an inode, each component names an
    entry of a directory; a symbolic link stands for what its target
    resolves to from the root, at most [d] levels deep. *)
Inductive resolves fs (root : Inode) : nat -> Z * Inode -> list (list byte) -> Z * Inode -> Prop :=
  | resolves_nil d x : resolves fs root d x [] x
  | resolves_empty d x comps y : resolves fs root d x comps y -> resolves fs root d x ([] :: comps) y
  | resolves_child d num dir extents blocks c comps n child y :
      dir_on fs dir extents blocks -> find_name (dir_entries blocks) c = Some n -> c <> [] ->
      ReadInode n fs = (Ok child, fs) -> IsSymlink child = false ->
      resolves fs root d (n, child) comps y -> resolves fs root d (num, dir) (c :: comps) y
  | resolves_link d num dir extents blocks c comps n child target x y :
      dir_on fs dir extents blocks -> find_name (dir_entries blocks) c = Some n -> c <> [] ->
      ReadInode n fs = (Ok child, fs) -> IsSymlink child = true ->
      ReadSymlink child fs = (Ok target, fs) ->
      resolves fs root d (RootInodeNum, root) (split_slash target) x ->
      resolves fs root (S d) x comps y -> resolves fs root (S d) (num, dir) (c :: comps) y.

(** The cache holds the listing of every directory it has an entry for. *)
Definition all_coherent fs : Prop :=
  forall inode extents blocks, dir_on fs inode extents blocks -> coherent fs inode blocks.

Lemma dir_entries_unique fs i1 e1 b1 i2 e2 b2 :
  dir_on fs i1 e1 b1 -> dir_on fs i2 e2 b2 -> I_block i1 = I_block i2 -> dir_entries b1 = dir_entries b2.
Proof.
  intros H1 H2 Eb. assert (Ee : e1 = e2).
  { pose proof (dir_extents _ _ _ _ H1 fs) as E1. pose proof (dir_extents _ _ _ _ H2 fs) as E2.
    unfold ReadExtents in E1, E2. destruct (negb (UsesExtents i1)); [done|]. destruct (negb (UsesExtents i2)); [done|].
    rewrite Eb, E2 in E1. by injection E1. }
  subst e2. pose proof (dir_blocks _ _ _ _ H1) as Eb1. pose proof (dir_blocks _ _ _ _ H2) as Eb2.
  pose proof (dir_slots _ _ _ _ H1) as Hs1. pose proof (dir_slots _ _ _ _ H2) as Hs2.
  pose proof (dir_fs _ _ _ _ H1) as Hok.
  destruct (read_dir_blocks fs b1 [] 0 Hok Hs1) as [n1 R1]. destruct (read_dir_blocks fs b2 [] 0 Hok Hs2) as [n2 R2].
  rewrite <- Eb1, Eb2, R2 in R1. by injection R1.
Qed.


Lemma coherent_after fs inode extents blocks m :
  all_coherent fs -> dir_on fs inode extents blocks -> m !! I_block inode = Some (dir_entries blocks) ->
  (forall key, key <> I_block inode -> m !! key = dirCache fs !! key) -> all_coherent (set_dirCache m fs).
Proof.
  intros Hall Hdir Hm Hother i e bl Hd es. apply (proj1 (dir_on_cache _ _ _ _ _)) in Hd. cbn.
  destruct (decide (I_block i = I_block inode)) as [Eb|Eb].
  - rewrite Eb, Hm. intros [= <-]. symmetry. by apply (dir_entries_unique fs i e bl inode extents blocks).
  - rewrite Hother by done. by apply (Hall i e bl).
Qed.

(** A lookup keeps the cache coherent. *)
Lemma Lookup_coherent fs inode extents blocks name :
  all_coherent fs -> dir_on fs inode extents blocks ->
  exists m, Lookup inode name fs = (lookup_result blocks name, set_dirCache m fs) /\
    all_coherent (set_dirCache m fs).
Proof.
  intros Hall Hdir.
  assert (E : exists m, ReadDirCached inode fs = (Ok (dir_entries blocks), set_dirCache m fs) /\
                all_coherent (set_dirCache m fs)).
  { unfold ReadDirCached. rewrite get_bind. destruct (dirCache fs !! I_block inode) as [es|] eqn:Ec.
    - exists (dirCache fs). rewrite set_dirCache_id. by rewrite (Hall _ _ _ Hdir _ Ec).
    - exists (<[I_block inode := dir_entries blocks]> (dirCache fs)).
      rewrite (bind_ok _ _ _ _ _ (ReadDir_spec fs inode extents blocks Hdir)). split; [done|].
      apply (coherent_after fs inode extents blocks); [done|done|apply lookup_insert_eq|].
      intros key Hk. by rewrite lookup_insert_ne. }
  destruct E as (m & E & Hm). exists m. split; [|done]. unfold Lookup, lookup_result.
  rewrite (bind_ok _ _ _ _ _ (wrap_ok _ _ _ _ _ E)). by destruct (find_name _ _).
Qed.

Lemma set_dirCache_twice m m' fs : set_dirCache m' (set_dirCache m fs) = set_dirCache m' fs.
Proof. done. Qed.

Lemma walk_resolves fs root d x comps y m :
  ReadInode RootInodeNum fs = (Ok root, fs) -> resolves fs root d x comps y -> all_coherent (set_dirCache m fs) ->
  exists m', forM comps x (walk_component (walk d)) (set_dirCache m fs) = (Ok y, set_dirCache m' fs) /\
    all_coherent (set_dirCache m' fs).
Proof.
  intros Hroot Hres. revert m.
  induction Hres as [d x|d x comps y Hres IH|d num dir extents blocks c comps n child y Hdir Hf Hne Hchild Hsym Hres IH
    |d num dir extents blocks c comps n child target x y Hdir Hf Hne Hchild Hsym Htgt Hres1 IH1 Hres2 IH2]; intros m Hm.
  - by exists m.
  - cbn [forM]. assert (Es : walk_component (walk d) [] x (set_dirCache m fs) = (Ok x, set_dirCache m fs)) by by destruct x.
    rewrite (bind_ok _ _ _ _ _ Es). apply (IH m Hm).
  - assert (Hdirm : dir_on (set_dirCache m fs) dir extents blocks) by by apply dir_on_cache.
    destruct (Lookup_coherent _ _ _ _ c Hm Hdirm) as (m1 & El & Hm1). rewrite set_dirCache_twice in El, Hm1.
    unfold lookup_result in El. rewrite Hf in El. cbn [forM].
    assert (Es : walk_component (walk d) c (num, dir) (set_dirCache m fs) = (Ok (n, child), set_dirCache m1 fs)).
    { unfold walk_component. rewrite bool_decide_false by done. rewrite (dir_mode _ _ _ _ Hdir). cbn [negb].
      rewrite (bind_ok _ _ _ _ _ El).
      rewrite (bind_ok _ _ _ _ _ (wrap_ok _ _ _ _ _ (reads_cache _ _ _ _ m1 (reads_ReadInode n) Hchild))).
      by rewrite Hsym. }
    rewrite (bind_ok _ _ _ _ _ Es). apply (IH m1 Hm1).
  - assert (Hdirm : dir_on (set_dirCache m fs) dir extents blocks) by by apply dir_on_cache.
    destruct (Lookup_coherent _ _ _ _ c Hm Hdirm) as (m1 & El & Hm1). rewrite set_dirCache_twice in El, Hm1.
    unfold lookup_result in El. rewrite Hf in El. cbn [forM].
    destruct (IH1 m1 Hm1) as (m2 & E2 & Hm2).
    assert (Es : walk_component (walk (S d)) c (num, dir) (set_dirCache m fs) = (Ok x, set_dirCache m2 fs)).
    { unfold walk_component. rewrite bool_decide_false by done. rewrite (dir_mode _ _ _ _ Hdir). cbn [negb].
      rewrite (bind_ok _ _ _ _ _ El).
      rewrite (bind_ok _ _ _ _ _ (wrap_ok _ _ _ _ _ (reads_cache _ _ _ _ m1 (reads_ReadInode n) Hchild))).
      rewrite Hsym. rewrite (bind_ok _ _ _ _ _ (wrap_ok _ _ _ _ _ (reads_cache _ _ _ _ m1 (reads_ReadSymlink child) Htgt))).
      apply wrap_ok. cbn [walk].
      rewrite (bind_ok _ _ _ _ _ (wrap_ok _ _ _ _ _ (reads_cache _ _ _ _ m1 (reads_ReadInode RootInodeNum) Hroot))).
      exact E2. }
    rewrite (bind_ok _ _ _ _ _ Es). apply (IH2 m2 Hm2).
Qed.

Lemma walk_ok fs root path y :
  ReadInode RootInodeNum fs = (Ok root, fs) -> all_coherent fs ->
  resolves fs root maxSymlinks (RootInodeNum, root) (split_slash path) y ->
  exists m, WalkInode path fs = (Ok y, set_dirCache m fs) /\ all_coherent (set_dirCache m fs).
Proof.
  intros Hroot Hall Hres. rewrite <- (set_dirCache_id fs) in Hall.
  destruct (walk_resolves fs root _ _ _ _ _ Hroot Hres Hall) as (m & E & Hm). exists m. split; [|done].
  unfold WalkInode. cbn [walk]. rewrite (bind_ok _ _ _ _ _ (wrap_ok _ _ _ _ _ Hroot)).
  rewrite set_dirCache_id in E. exact E.
Qed.


(** The error of a walk that gave up [d] levels down. *)
Fixpoint loop_error (d : nat) : error :=
  match d with
  | O => Errorf "too many levels of symbolic links"
  | S d => Wrapf "walk: symlink %q -> %q: %w" (loop_error d)
  end.

Lemma walk_link_loop fs root extents blocks c n child m d :
  ReadInode RootInodeNum fs = (Ok root, fs) -> dir_on fs root extents blocks ->
  find_name (dir_entries blocks) c = Some n -> split_slash c = [c] -> c <> [] ->
  ReadInode n fs = (Ok child, fs) -> IsSymlink child = true -> ReadSymlink child fs = (Ok c, fs) ->
  all_coherent (set_dirCache m fs) ->
  exists m', walk d c (set_dirCache m fs) = (Err (loop_error d), set_dirCache m' fs).
Proof.
  intros Hroot Hdir Hf Hsplit Hne Hchild Hsym Htgt. revert m. induction d as [|d IH]; intros m Hm; [by exists m|].
  assert (Hdirm : dir_on (set_dirCache m fs) root extents blocks) by by apply dir_on_cache.
  destruct (Lookup_coherent _ _ _ _ c Hm Hdirm) as (m1 & El & Hm1). rewrite set_dirCache_twice in El, Hm1.
  unfold lookup_result in El. rewrite Hf in El. destruct (IH m1 Hm1) as (m2 & E2). exists m2. cbn [walk].
  rewrite (bind_ok _ _ _ _ _ (wrap_ok _ _ _ _ _ (reads_cache _ _ _ _ m (reads_ReadInode RootInodeNum) Hroot))).
  rewrite Hsplit. cbn [forM]. apply bind_err. unfold walk_component.
  rewrite bool_decide_false by done. rewrite (dir_mode _ _ _ _ Hdir). cbn [negb].
  rewrite (bind_ok _ _ _ _ _ El).
  rewrite (bind_ok _ _ _ _ _ (wrap_ok _ _ _ _ _ (reads_cache _ _ _ _ m1 (reads_ReadInode n) Hchild))).
  rewrite Hsym. rewrite (bind_ok _ _ _ _ _ (wrap_ok _ _ _ _ _ (reads_cache _ _ _ _ m1 (reads_ReadSymlink child) Htgt))).
  by apply wrap_err.
Qed.

(** Resolution always ends: a symbolic link in the root directory that
    names itself is followed exactly [maxSymlinks + 1] times and then
    reported, under the chain of messages of the levels passed. *)
Theorem WalkInode_link_loop fs root extents blocks c n child :
  ReadInode RootInodeNum fs = (Ok root, fs) -> all_coherent fs -> dir_on fs root extents blocks ->
  find_name (dir_entries blocks) c = Some n -> split_slash c = [c] -> c <> [] ->
  ReadInode n fs = (Ok child, fs) -> IsSymlink child = true -> ReadSymlink child fs = (Ok c, fs) ->
  exists m, WalkInode c fs = (Err (loop_error 41), set_dirCache m fs).
Proof.
  intros Hroot Hall Hdir Hf Hsplit Hne Hchild Hsym Htgt. rewrite <- (set_dirCache_id fs) in Hall.
  destruct (walk_link_loop fs root extents blocks c n child (dirCache fs) 41) as [m E]; try done.
  exists m. rewrite set_dirCache_id in E. exact E.
Qed.
End directory_theory.

(** ** Examples: a root directory with a file and a link to itself *)
#[local] Existing Instance ex_env.

Definition ex_name (s : string) : list byte := bytes_of_string s.
Definition ex_dirents : list DirEntry2 :=
  [mkDirEntry2 2 0 1 2 (ex_name "."); mkDirEntry2 2 0 2 2 (ex_name ".."); mkDirEntry2 3 0 1 1 (ex_name "a");
   mkDirEntry2 4 0 1 7 (ex_name "l")].
Definition ex_dir_block : list byte := match writeDirBlock ex_dirents 64 with Ok b => b | _ => [] end.

Definition ex_root : Inode :=
  set_I_size_lo 64 (set_I_block (ex_leaf 4 [ex_extent 0 45]) (set_I_mode S_IFDIR ex_inode)).
Definition ex_link : Inode :=
  set_I_size_lo 1 (set_I_block (put (zeros 60) 0 (ex_name "l")) (set_I_flags 0 (set_I_mode S_IFLNK ex_inode))).

Definition ex_dir_image : list byte :=
  put (put (put (put ex_image 2400 (binary_Write ex_root)) 2560 (binary_Write ex_inode)) 2720 (binary_Write ex_link))
    2880 ex_dir_block.

Definition ex_dir_fs : FileSystem File := set_dev (Direct (mkFile ex_dir_image)) ex_ext4.
Definition ex_dir_slots : list slot := entry_slots 64 ex_dirents.

Lemma ex_dir_image_len : zlen ex_dir_image = 3072.
Proof. vm_compute. reflexivity. Qed.

Lemma ex_dir_fs_ok : fs_ok ex_dir_fs.
Proof.
  unfold fs_ok. change (fs_content ex_dir_fs) with ex_dir_image. rewrite ex_dir_image_len.
  change (BlockSize ex_dir_fs) with 64. split; [lia|]. split; [by exists 48|]. split; [lia|exact I].
Qed.

Lemma ex_dirents_ok : Forall entry_ok ex_dirents /\ entries_fit 64 ex_dirents.
Proof.
  split; [|vm_compute; done].
  repeat (apply Forall_cons; split; [vm_compute; repeat split; try done|]). constructor.
Qed.

(** A directory with the one block [b], as [writeDirBlock] lays it out. *)
Lemma one_block_dir (fs : FileSystem File) (r : Inode) b entries buf :
  fs_ok fs -> BlockSize fs < 2 ^ 16 -> 8 < BlockSize fs ->
  IsDir r = true -> Z.land (I_flags r) EXT4_INDEX_FL = 0 -> UsesExtents r = true ->
  I_block r = ex_leaf 4 [ex_extent 0 b] -> 0 <= b < 2 ^ 32 -> (b + 1) * BlockSize fs <= zlen (fs_content fs) ->
  Forall entry_ok entries -> entries_fit (BlockSize fs) entries -> entries <> [] ->
  writeDirBlock entries (BlockSize fs) = Ok buf -> sub (fs_content fs) (b * BlockSize fs) (BlockSize fs) = buf ->
  dir_on fs r [ex_extent 0 b] [(b, entry_slots (BlockSize fs) entries)].
Proof.
  intros Hok Hs Hs8 Hdir Hlin Hext Hb Hb0 Hfit Hents Hroom Hne Ew Hsub.
  assert (Hwf : struct_wf (ex_extent 0 b)) by (apply ex_extent_wf; lia).
  split; [exact Hok|exact Hs|exact Hdir|exact Hlin| | | |apply NoDup_singleton|].
  - intros fs'. destruct (ex_leaf_holds 4 [ex_extent 0 b]) as [_ Hleaf];
      [apply Forall_singleton; exact Hwf|vm_compute; discriminate|lia|].
    apply (ReadExtents_leaf _ (ex_leaf_header 1 4)); [exact Hext|rewrite Hb; exact Hleaf|cbn; lia].
  - apply Forall_singleton. split; [exact Hwf|reflexivity].
  - cbn. unfold ext_blocks. change (ext_count (ex_extent 0 b)) with 1. change (seqZ 0 1) with [0].
    change (ext_start (ex_extent 0 b)) with b. cbn. by rewrite Z.add_0_r.
  - apply Forall_singleton. unfold block_on. cbn [fst snd]. rewrite Hsub. split; [lia|]. split; [exact Hfit|].
    destruct (writeDirBlock_slots entries (zeros (BlockSize fs)) [] 0) as (buf' & E & _ & Hin); rewrite ?zlen_zeros, ?Z.sub_0_r by lia; try done.
    rewrite zlen_zeros, Z.sub_0_r in Hin by lia.
    unfold writeDirBlock in Ew. rewrite E in Ew. by injection Ew as <-.
Qed.

Lemma ex_dir_on (r : Inode) :
  IsDir r = true -> Z.land (I_flags r) EXT4_INDEX_FL = 0 -> UsesExtents r = true ->
  I_block r = ex_leaf 4 [ex_extent 0 45] -> dir_on ex_dir_fs r [ex_extent 0 45] [(45, ex_dir_slots)].
Proof.
  intros Hdir Hlin Hext Hb. destruct ex_dirents_ok as [Hok Hfit].
  apply (one_block_dir ex_dir_fs r 45 ex_dirents ex_dir_block ex_dir_fs_ok); done.
Qed.

Lemma ex_root_on : dir_on ex_dir_fs ex_root [ex_extent 0 45] [(45, ex_dir_slots)].
Proof. apply ex_dir_on; reflexivity. Qed.

Lemma ex_dir_coherent : all_coherent ex_dir_fs.
Proof. intros inode extents blocks _ es. cbn. by rewrite lookup_empty. Qed.

Lemma ex_read_inodes :
  ReadInode 2 ex_dir_fs = (Ok ex_root, ex_dir_fs) /\ ReadInode 3 ex_dir_fs = (Ok ex_inode, ex_dir_fs) /\
  ReadInode 4 ex_dir_fs = (Ok ex_link, ex_dir_fs).
Proof. split; [|split]; vm_compute; reflexivity. Qed.

Lemma writeDirBlock_roundtrip_witness :
  exists buf es, writeDirBlock ex_dirents 64 = Ok buf /\ parseDirBlock buf = Ok es /\ view <$> es = view <$> ex_dirents.
Proof.
  destruct (writeDirBlock_roundtrip ex_dirents 64) as (buf & es & E1 & _ & E2 & E3).
  - done.
  - apply ex_dirents_ok.
  - apply ex_dirents_ok.
  - lia.
  - exists buf, es. split; [exact E1|]. split; [exact E2|exact E3].
Defined.

Lemma AddDirEntry_Lookup_witness :
  exists inode' fs' m, AddDirEntry ex_root (ex_name "b") 3 1 ex_dir_fs = (Ok inode', fs') /\
    Lookup inode' (ex_name "b") fs' = (Ok 3, set_dirCache m fs').
Proof.
  destruct (AddDirEntry_Lookup ex_dir_fs ex_root [ex_extent 0 45] [(45, ex_dir_slots)] (ex_name "b") 3 1)
    as (inode' & fs' & blocks' & E & _ & Hl).
  - apply ex_root_on.
  - exact (ex_dir_coherent _ _ _ ex_root_on).
  - vm_compute. reflexivity.
  - apply Exists_cons_hd. vm_compute. discriminate.
  - vm_compute. done.
  - lia.
  - lia.
  - destruct (Hl (ex_name "b")) as [m Em]. exists inode', fs', m. split; [exact E|].
    rewrite decide_True in Em by reflexivity. exact Em.
Defined.

Lemma RemoveDirEntry_Lookup_witness :
  exists inode' fs', RemoveDirEntry ex_root (ex_name "a") ex_dir_fs = (Ok inode', fs').
Proof.
  assert (Ef : find_name (dir_entries [(45, ex_dir_slots)]) (ex_name "a") = Some 3) by (vm_compute; reflexivity).
  destruct (RemoveDirEntry_Lookup ex_dir_fs ex_root _ _ (ex_name "a") ex_root_on)
    as [[E _]|(inode' & fs' & _ & _ & _ & _ & _ & E & _)]; [by rewrite Ef in E|].
  exists inode', fs'. exact E.
Defined.


Lemma WalkInode_link_loop_witness :
  exists m, WalkInode (ex_name "l") ex_dir_fs = (Err (loop_error 41), set_dirCache m ex_dir_fs).
Proof.
  destruct ex_read_inodes as (E2 & _ & E4).
  apply (WalkInode_link_loop ex_dir_fs ex_root [ex_extent 0 45] [(45, ex_dir_slots)] (ex_name "l") 4 ex_link).
  - exact E2.
  - exact ex_dir_coherent.
  - exact ex_root_on.
  - vm_compute. reflexivity.
  - vm_compute. reflexivity.
  - discriminate.
  - exact E4.
  - vm_compute. reflexivity.
  - vm_compute. reflexivity.
Defined.
