(* ===== verification/Fsck.v ===== *)
(** The file-system check ([src/vfs/health.go]).

    The result object is filled in beside the file system, as in recovery.
    Messages keep the format string; the text of an error is searched for
    words, and the operands of the formats contain none of them. *)
From S2P Require Export Directory.

Record FsckProblem := mkFsckProblem { Severity : string; Message : string; Fixed : bool }.

Record FsckResult := mkFsckResult {
  InodesChecked : Z;
  DirectoriesChecked : Z;
  ExtentsChecked : Z;
  BlocksReferenced : Z;
  Problems : list FsckProblem;
  Healthy : bool
}.

Definition inode_checked (r : FsckResult) : FsckResult :=
  mkFsckResult (w32 (InodesChecked r + 1)) (DirectoriesChecked r) (ExtentsChecked r) (BlocksReferenced r) (Problems r) (Healthy r).
Definition directory_checked (r : FsckResult) : FsckResult :=
  mkFsckResult (InodesChecked r) (w32 (DirectoriesChecked r + 1)) (ExtentsChecked r) (BlocksReferenced r) (Problems r) (Healthy r).
Definition extents_checked (n : Z) (r : FsckResult) : FsckResult :=
  mkFsckResult (InodesChecked r) (DirectoriesChecked r) (w32 (ExtentsChecked r + w32 n)) (BlocksReferenced r) (Problems r) (Healthy r).
Definition blocks_referenced (n : Z) (r : FsckResult) : FsckResult :=
  mkFsckResult (InodesChecked r) (DirectoriesChecked r) (ExtentsChecked r) (w64 (BlocksReferenced r + n)) (Problems r) (Healthy r).

(** [res.Problems = append(res.Problems, p)] *)
Definition add_problem (p : FsckProblem) (r : FsckResult) : FsckResult :=
  mkFsckResult (InodesChecked r) (DirectoriesChecked r) (ExtentsChecked r) (BlocksReferenced r) (Problems r ++ [p]) (Healthy r).
(** [res.Healthy = false] *)
Definition set_unhealthy (r : FsckResult) : FsckResult :=
  mkFsckResult (InodesChecked r) (DirectoriesChecked r) (ExtentsChecked r) (BlocksReferenced r) (Problems r) false.

(** An error with the verdict, a warning without it, a repaired problem. *)
Definition add_error (msg : string) (r : FsckResult) : FsckResult :=
  set_unhealthy (add_problem (mkFsckProblem "error" msg false) r).
Definition add_warning (msg : string) (r : FsckResult) : FsckResult :=
  add_problem (mkFsckProblem "warning" msg false) r.
Definition add_fixed (msg : string) (r : FsckResult) : FsckResult :=
  add_problem (mkFsckProblem "warning" (msg ++ " — FIXED") true) r.

(** [strings.Contains(err.Error(), s)] *)
Definition contains (text s : string) : bool := bool_decide (is_Some (String.index 0 s text)).
Definition sentinel_text (s : sentinel) : string :=
  match s with
  | io_EOF => "EOF"
  | io_ErrUnexpectedEOF => "unexpected EOF"
  | vfs_ErrNotExist | fs_ErrNotExist => "no such file or directory"
  | vfs_ErrAttrNotExist => "attribute does not exist"
  | vfs_ErrNoSpace => "no space available"
  end.
Fixpoint error_contains (e : error) (s : string) : bool :=
  match e with
  | Sentinel v => contains (sentinel_text v) s
  | Errorf msg => contains msg s
  | Wrapf msg e' => contains msg s || error_contains e' s
  end.

(** The set bits of a bitmap among the first [bitsToCheck], counted in a
    [uint16]. *)
Definition bit_is_set (bitmap : list byte) (i : Z) : bool :=
  negb (Z.land (get_byte bitmap (i / 8)) (Z.shiftl 1 (i mod 8)) =? 0).
Definition count_set (bitmap : list byte) (bitsToCheck : Z) : Z :=
  foldl (fun set i => if bit_is_set bitmap i then w16 (set + 1) else set) 0 (seqZ 0 bitsToCheck).
Definition bits_to_check (inGroup : Z) (bitmap : list byte) : Z :=
  if zlen bitmap * 8 <? inGroup then zlen bitmap * 8 else inGroup.

Abbreviation Chk D := (M (FileSystem D * FsckResult)).

Section fsck.
Context {D : Type} `{ReadWriterAt D} `{Env}.

Definition check_skip : Chk D unit := mret tt.

(** A count of a descriptor that does not match: repair it with
    [--fix], or report it. *)
Definition repair_count (fix_ : bool) (msg : string) (g : Z) (bgd : GroupDescriptor) : Chk D unit :=
  if fix_ then
    zoom (put_bgd g bgd) ;;
    r <- zoom (catch (WriteGroupDescriptor g bgd)) ;;
    match r with
    | inl _ => update (add_fixed msg)
    | inr _ => update (add_error msg)
    end
  else update (add_error msg).

(** The block bitmap of group [g]. *)
Definition check_block_bitmap (fix_ : bool) (g : Z) : Chk D unit :=
  bgd <- zoom (get_bgd g) ;;
  fs <- zoom get ;;
  let bitmapBlock := lo_hi (DescSize fs) (BG_block_bitmap_lo bgd) (BG_block_bitmap_hi bgd) in
  r <- zoom (catch (fs_ReadAt (block_offset (BlockSize fs) bitmapBlock) (BlockSize fs))) ;;
  match r with
  | inr _ => update (add_error "group %d: cannot read block bitmap at block %d: %v")
  | inl bitmap =>
      sb <- zoom deref_sb ;;
      let set := count_set bitmap (bits_to_check (S_blocks_per_group sb) bitmap) in
      let declared := BG_free_blocks_count_lo bgd in
      let total := S_blocks_per_group sb in
      let used := w32 (total - set) in
      let expectedFree := w32 (total - used) in
      if negb (declared =? expectedFree) && (expectedFree <=? total) then
        repair_count fix_
          "group %d: block bitmap shows %d used blocks but descriptor claims %d free (expected %d)"
          g (set_BG_free_blocks_count_lo (w16 expectedFree) bgd)
      else check_skip
  end.

Definition fsckBlockBitmaps (fix_ : bool) : Chk D unit :=
  fs <- zoom get ;;
  forM (seqZ 0 (GroupCount fs)) tt (fun g _ => check_block_bitmap fix_ g).

Definition check_inode_bitmap (fix_ : bool) (g : Z) : Chk D unit :=
  bgd <- zoom (get_bgd g) ;;
  fs <- zoom get ;;
  let bitmapBlock := lo_hi (DescSize fs) (BG_inode_bitmap_lo bgd) (BG_inode_bitmap_hi bgd) in
  r <- zoom (catch (fs_ReadAt (block_offset (BlockSize fs) bitmapBlock) (BlockSize fs))) ;;
  match r with
  | inr _ => update (add_error "group %d: cannot read inode bitmap at block %d: %v")
  | inl bitmap =>
      sb <- zoom deref_sb ;;
      let bitsToCheck := bits_to_check (S_inodes_per_group sb) bitmap in
      let set := count_set bitmap bitsToCheck in
      let declared := BG_free_inodes_count_lo bgd in
      let used := w32 (w32 bitsToCheck - set) in
      let expectedFree := w32 (w32 bitsToCheck - used) in
      if negb (declared =? expectedFree) && (expectedFree <=? S_inodes_per_group sb) then
        repair_count fix_
          "group %d: inode bitmap shows %d used inodes but descriptor claims %d free (expected %d)"
          g (set_BG_free_inodes_count_lo (w16 expectedFree) bgd)
      else check_skip
  end.

Definition fsckInodeBitmaps (fix_ : bool) : Chk D unit :=
  fs <- zoom get ;;
  forM (seqZ 0 (GroupCount fs)) tt (fun g _ => check_inode_bitmap fix_ g).

(** The inode numbers the last two passes look at. *)
Definition checked_inodes (sb : SuperBlock) : list Z :=
  let totalInodes := S_inodes_count sb in
  let maxCheck := if totalInodes <? 1000 then totalInodes else 1000 in
  seqZ 1 maxCheck.

Definition known_type (fileType : Z) : bool :=
  bool_decide (fileType ∈ [S_IFREG; S_IFDIR; S_IFLNK; S_IFCHR; S_IFBLK; S_IFIFO; S_IFSOCK]).

(** One extent of a checked inode; [totalBlocks] adds up its blocks. *)
Definition check_extent (sb : SuperBlock) (ext : Extent) (totalBlocks : Z) : Chk D Z :=
  let blockCount := ext_count ext in
  let physStart := ext_start ext in
  update (blocks_referenced blockCount) ;;
  (if S_blocks_count_lo sb <? w64 (physStart + blockCount)
   then update (add_error "inode %d: extent [%d..%d) exceeds filesystem block count %d") else check_skip) ;;
  mret (w64 (totalBlocks + blockCount)).

(** The extents of a regular file, a directory or a symbolic link. *)
Definition check_extents (sb : SuperBlock) (inode : Inode) : Chk D unit :=
  let fileType := Z.land (I_mode inode) ifmt in
  r <- zoom (catch (ReadExtents inode)) ;;
  match r with
  | inr _ => if negb (I_mode inode =? 0) then update (add_error "inode %d: bad extent tree: %v") else check_skip
  | inl extents =>
      update (extents_checked (zlen extents)) ;;
      totalBlocks <- forM extents 0 (check_extent sb) ;;
      if (fileType =? S_IFREG) || (fileType =? S_IFDIR) then
        fs <- zoom get ;;
        if BlockSize fs =? 0 then lift Panic
        else
          let minBlocks := w64 (w64 (Size inode + BlockSize fs) - 1) / BlockSize fs in
          if totalBlocks <? minBlocks
          then update (add_warning "inode %d: file size %d but only %d blocks allocated (need %d)")
          else check_skip
      else check_skip
  end.

(** One inode; the pass continues with the next one ([inl]) or ends
    ([inr]). *)
Definition check_inode (inum : Z) : Chk D (unit + unit) :=
  sb <- zoom deref_sb ;;
  r <- zoom (catch (ReadInode inum)) ;;
  match r with
  | inr err => mret (if error_contains err "group" && error_contains err "out of range" then inr tt else inl tt)
  | inl inode =>
      update inode_checked ;;
      let fileType := Z.land (I_mode inode) ifmt in
      (if negb (known_type fileType) then
         if negb (I_mode inode =? 0) then update (add_warning "inode %d: unknown file type 0x%04X") else check_skip
       else if negb (bool_decide (fileType ∈ [S_IFREG; S_IFDIR; S_IFLNK])) then check_skip
       else if negb (UsesExtents inode) then check_skip
       else check_extents sb inode) ;;
      mret (inl tt)
  end.

Definition fsckInodes : Chk D unit :=
  sb <- zoom deref_sb ;;
  forB (checked_inodes sb) tt (fun inum _ => check_inode inum).

Definition sum_field (f : GroupDescriptor -> Z) (bgds : list GroupDescriptor) : Z :=
  foldl (fun total bgd => w64 (total + f bgd)) 0 bgds.

(** A count of the superblock that differs from the sum over the groups. *)
Definition repair_superblock (fix_ : bool) (msg : string) (sb : SuperBlock) : Chk D unit :=
  if fix_ then
    zoom (modify (set_sb sb)) ;;
    zoom writeSuperBlock ;;
    update (add_fixed msg)
  else update (add_error msg).

Definition fsckSuperblockCounts (fix_ : bool) : Chk D unit :=
  fs <- zoom get ;;
  let totalFreeBlocks := sum_field BG_free_blocks_count_lo (Bgds fs) in
  let totalFreeInodes := sum_field BG_free_inodes_count_lo (Bgds fs) in
  sb <- zoom deref_sb ;;
  let sbFreeInodes := S_free_inodes_count sb in
  (if negb (totalFreeBlocks =? S_free_blocks_count_lo sb) then
     repair_superblock fix_ "superblock: free blocks = %d but group sum = %d"
       (set_S_free_blocks_count_lo (w32 totalFreeBlocks) sb)
   else check_skip) ;;
  sb <- zoom deref_sb ;;
  if negb (totalFreeInodes =? sbFreeInodes) then
    repair_superblock fix_ "superblock: free inodes = %d but group sum = %d"
      (set_S_free_inodes_count (w32 totalFreeInodes) sb)
  else check_skip.

(** The names seen so far and one more entry. *)
Definition check_dir_entry (totalInodes : Z) (e : DirEntry2) (seen : gset (list byte)) : Chk D (gset (list byte)) :=
  if de_Inode e =? 0 then mret seen
  else
    (if totalInodes <? de_Inode e
     then update (add_error "dir %d: entry %q points to inode %d which exceeds total inodes %d") else check_skip) ;;
    (if bool_decide (de_Name e ∈ seen) then update (add_error "dir %d: duplicate entry %q") else check_skip) ;;
    mret ({[ de_Name e ]} ∪ seen).

Definition check_directory (inum : Z) : Chk D (unit + unit) :=
  sb <- zoom deref_sb ;;
  r <- zoom (catch (ReadInode inum)) ;;
  match r with
  | inr err => mret (if error_contains err "group" then inr tt else inl tt)
  | inl inode =>
      (if negb (IsDir inode) then check_skip
       else
         update directory_checked ;;
         r <- zoom (catch (ReadDir inode)) ;;
         match r with
         | inr _ => update (add_error "directory inode %d: cannot read: %v")
         | inl entries =>
             seen <- forM entries ∅ (check_dir_entry (S_inodes_count sb)) ;;
             if bool_decide (bytes_of_string "." ∈ seen) && bool_decide (bytes_of_string ".." ∈ seen) then check_skip
             else update (add_error "directory inode %d: missing . or .. entry")
         end) ;;
      mret (inl tt)
  end.

Definition fsckDirectories : Chk D unit :=
  sb <- zoom deref_sb ;;
  forB (checked_inodes sb) tt (fun inum _ => check_directory inum).

Definition fsck_body (fix_ : bool) : Chk D unit :=
  fs <- zoom get ;;
  match Superblock fs with
  | None => update (add_error "superblock not loaded — run ReadSuperBlock first")
  | Some sb =>
      if negb (S_magic sb =? MAGIC_NUMBER) then update (add_error "bad magic 0x%04X (expected 0x%04X)")
      else if zlen (Bgds fs) =? 0
      then update (add_error "block group descriptors not loaded — run ReadGroupDescriptors first")
      else
        fsckBlockBitmaps fix_ ;;
        fsckInodeBitmaps fix_ ;;
        fsckInodes ;;
        fsckSuperblockCounts fix_ ;;
        fsckDirectories
  end.

Definition Fsck (fix_ : bool) : FS D FsckResult := fun fs =>
  let '(r, (fs', res)) := fsck_body fix_ (fs, mkFsckResult 0 0 0 0 [] true) in
  (mbind (fun _ => Ok res) r, fs').
End fsck.

Section laws.
Context {D : Type} `{ReadWriterAt D} {env : Env}.
Implicit Types fs : FileSystem D.

(** *** A check without repair only reads *)
Definition same_fs fs (s : FileSystem D * FsckResult) : Prop := s.1 = fs.

Lemma same_zoom {A} fs (m : FS D A) : reads m -> preserves (same_fs fs) (zoom m).
Proof.
  intros Hm [fs1 r] E. unfold same_fs in *. cbn in E. subst fs1. unfold zoom.
  destruct (m fs) as [x fs'] eqn:Em. cbn. by apply (reads_state m fs x).
Qed.
Lemma same_get fs : preserves (same_fs fs) (zoom get).
Proof. by intros [fs1 r] E. Qed.
Lemma same_catch {A} fs (m : FS D A) : reads m -> preserves (same_fs fs) (zoom (catch m)).
Proof.
  intros Hm [fs1 r] E. unfold same_fs in *. cbn in E. subst fs1. unfold zoom, catch.
  destruct (m fs) as [x fs'] eqn:Em. apply (reads_state m fs x) in Em as ->; [|done]. by destruct x.
Qed.
Lemma same_update fs f : preserves (same_fs fs) (update f).
Proof. by intros [fs1 r] E. Qed.
Lemma same_bgd fs g : preserves (same_fs fs) (zoom (get_bgd g)).
Proof. by intros [fs1 r] E. Qed.
#[local] Hint Resolve same_zoom same_get same_catch same_update same_bgd : pass.
#[local] Hint Resolve reads_ReadInode reads_ReadExtents reads_ReadDir reads_ReadAt reads_deref_sb : pass.

Lemma same_repair fs msg g bgd : preserves (same_fs fs) (repair_count false msg g bgd).
Proof. unfold repair_count. auto with pass. Qed.
Lemma same_skip fs : preserves (same_fs fs) check_skip.
Proof. unfold check_skip. auto with pass. Qed.
#[local] Hint Resolve same_repair same_skip : pass.

Lemma same_check_extents fs sb inode : preserves (same_fs fs) (check_extents sb inode).
Proof. unfold check_extents, check_extent. pass_tac. Qed.
#[local] Hint Resolve same_check_extents : pass.

Lemma same_inodes fs : preserves (same_fs fs) fsckInodes.
Proof. unfold fsckInodes, check_inode. pass_tac. Qed.
Lemma same_directories fs : preserves (same_fs fs) fsckDirectories.
Proof. unfold fsckDirectories, check_directory, check_dir_entry. pass_tac. Qed.
Lemma same_bitmaps fs : preserves (same_fs fs) (fsckBlockBitmaps false) /\ preserves (same_fs fs) (fsckInodeBitmaps false).
Proof. unfold fsckBlockBitmaps, fsckInodeBitmaps, check_block_bitmap, check_inode_bitmap. split; pass_tac. Qed.
Lemma same_counts fs : preserves (same_fs fs) (fsckSuperblockCounts false).
Proof. unfold fsckSuperblockCounts, repair_superblock. pass_tac. Qed.

(** Without [--fix] the check changes nothing, neither on the device nor in
    memory. *)
Lemma Fsck_reads fs : (Fsck false fs).2 = fs.
Proof.
  unfold Fsck. assert (Hp : preserves (same_fs fs) (fsck_body false)).
  { unfold fsck_body. destruct (same_bitmaps fs). pose proof (same_inodes fs). pose proof (same_directories fs).
    pose proof (same_counts fs). pass_tac. }
  specialize (Hp (fs, mkFsckResult 0 0 0 0 [] true) eq_refl).
  destruct (fsck_body false (fs, _)) as [r [fs' res]]. exact Hp.
Qed.

(** *** The verdict *)
Definition is_error (p : FsckProblem) : bool := bool_decide (Severity p = "error").
Definition verdict_ok (r : FsckResult) : Prop := Healthy r = negb (existsb is_error (Problems r)).
Definition verdict_state (s : FileSystem D * FsckResult) : Prop := verdict_ok s.2.

Lemma verdict_zoom {A} (m : FS D A) : preserves verdict_state (zoom m).
Proof. intros [fs r] Hr. unfold zoom. by destruct (m fs). Qed.
Lemma verdict_update f : (forall r, verdict_ok r -> verdict_ok (f r)) -> preserves verdict_state (update f).
Proof. intros Hf [fs r] Hr. by apply Hf. Qed.
Lemma verdict_problem p r : is_error p = false -> verdict_ok r -> verdict_ok (add_problem p r).
Proof. unfold verdict_ok. cbn. intros Hp ->. by rewrite existsb_app, orb_comm; cbn; rewrite Hp. Qed.
Lemma verdict_error msg : preserves verdict_state (update (add_error msg)).
Proof. apply verdict_update. intros r _. unfold verdict_ok. cbn. by rewrite existsb_app, orb_comm. Qed.
Lemma verdict_warning msg : preserves verdict_state (update (add_warning msg)).
Proof. apply verdict_update. intros r. by apply verdict_problem. Qed.
Lemma verdict_fixed msg : preserves verdict_state (update (add_fixed msg)).
Proof. apply verdict_update. intros r. by apply verdict_problem. Qed.
Lemma verdict_count : preserves verdict_state (update inode_checked) /\ preserves verdict_state (update directory_checked) /\
  forall n, preserves verdict_state (update (extents_checked n)) /\ preserves verdict_state (update (blocks_referenced n)).
Proof. repeat split; apply verdict_update; done. Qed.
#[local] Hint Resolve verdict_zoom verdict_error verdict_warning verdict_fixed : pass.

Lemma verdict_repair fix_ msg g bgd : preserves verdict_state (repair_count fix_ msg g bgd).
Proof. unfold repair_count. pass_tac. Qed.
Lemma verdict_repair_superblock fix_ msg sb : preserves verdict_state (repair_superblock fix_ msg sb).
Proof. unfold repair_superblock. pass_tac. Qed.
Lemma verdict_skip : preserves verdict_state check_skip.
Proof. unfold check_skip. auto with pass. Qed.
#[local] Hint Resolve verdict_repair verdict_repair_superblock verdict_skip : pass.

Lemma verdict_passes fix_ :
  preserves verdict_state (fsckBlockBitmaps fix_) /\ preserves verdict_state (fsckInodeBitmaps fix_) /\
  preserves verdict_state fsckInodes /\ preserves verdict_state (fsckSuperblockCounts fix_) /\
  preserves verdict_state fsckDirectories.
Proof.
  destruct verdict_count as (Hi & Hd & He).
  assert (Hx : forall n, preserves verdict_state (update (extents_checked n))) by apply He.
  assert (Hb : forall n, preserves verdict_state (update (blocks_referenced n))) by apply He.
  unfold fsckBlockBitmaps, fsckInodeBitmaps, check_block_bitmap, check_inode_bitmap, fsckInodes, check_inode, check_extents,
    check_extent, fsckSuperblockCounts, fsckDirectories, check_directory, check_dir_entry.
  repeat split; pass_tac.
Qed.

(** The verdict matches the list of problems: the file system is called
    healthy exactly when no problem of severity "error" is listed, with and
    without [--fix]. *)
Theorem Fsck_verdict fix_ fs res fs' :
  Fsck fix_ fs = (Ok res, fs') -> (Healthy res = true <-> Forall (fun p => Severity p <> "error") (Problems res)).
Proof.
  unfold Fsck. assert (Hp : preserves verdict_state (fsck_body fix_)).
  { unfold fsck_body. destruct (verdict_passes fix_) as (? & ? & ? & ? & ?). pass_tac. }
  specialize (Hp (fs, mkFsckResult 0 0 0 0 [] true) eq_refl). unfold verdict_state, verdict_ok in Hp.
  destruct (fsck_body fix_ (fs, _)) as [r [fs1 res1]]. cbn [snd] in Hp.
  destruct r; intros [= <- <-]. rewrite Hp, negb_true_iff, <- not_true_iff_false, existsb_exists, Forall_forall.
  split.
  - intros Hn p Hin E. apply Hn. exists p. split; [by apply list_elem_of_In|]. by apply bool_decide_eq_true_2.
  - intros Hn (p & Hin & E%bool_decide_eq_true_1). apply (Hn p); [by apply list_elem_of_In|done].
Qed.
End laws.

(** ** What a group is judged by *)
Section judgement.
Context {D : Type} `{Device D}.
Implicit Types fs : FileSystem D.

Definition used_blocks (bitmap : list byte) (n : Z) : Z := zlen (filter (fun i => bit_is_set bitmap i = true) (seqZ 0 n)).

Lemma zlen_filter_le {A} (Q : A -> Prop) `{forall x, Decision (Q x)} l : zlen (filter Q l) <= zlen l.
Proof. unfold zlen. pose proof (length_filter Q l). lia. Qed.

Lemma count_set_used bitmap n : 0 <= n < 2 ^ 16 -> count_set bitmap n = used_blocks bitmap n.
Proof.
  intros Hn. unfold count_set, used_blocks.
  assert (Hgen : forall l k, 0 <= k -> k + zlen l < 2 ^ 16 ->
    foldl (fun set i => if bit_is_set bitmap i then w16 (set + 1) else set) k l =
    k + zlen (filter (fun i => bit_is_set bitmap i = true) l)).
  { intros l. induction l as [|i l IH]; intros k Hk Hl; [change (zlen (filter _ [])) with 0; cbn [foldl]; lia|].
    change (zlen (i :: l)) with (Z.of_nat (S (length l))) in Hl. cbn [foldl]. rewrite filter_cons.
    destruct (bit_is_set bitmap i); [rewrite decide_True by done|rewrite decide_False by done].
    - rewrite w16_id by lia. rewrite IH by (unfold zlen in *; lia). change (zlen (i :: ?x)) with (Z.of_nat (S (length x))).
      unfold zlen. lia.
    - apply IH; unfold zlen in *; lia. }
  rewrite Hgen; [lia|lia|]. unfold zlen. rewrite length_seqZ. lia.
Qed.

Lemma used_blocks_range bitmap n : 0 <= n -> 0 <= used_blocks bitmap n <= n.
Proof.
  intros Hn. unfold used_blocks. pose proof (zlen_filter_le (fun i => bit_is_set bitmap i = true) (seqZ 0 n)) as Hle.
  split; [apply zlen_nonneg|]. etransitivity; [exact Hle|]. unfold zlen. rewrite length_seqZ. lia.
Qed.

(** The check of a block bitmap compares the declared number of free
    blocks with the number of used ones, so a group whose free count is right
    is reported as an error unless just half of its blocks are used. *)
Theorem check_block_bitmap_inverted fs r g bgd sb bitmapBlock :
  fs_ok fs -> 0 <= g -> Bgds fs !! Z.to_nat g = Some bgd -> Superblock fs = Some sb ->
  bitmapBlock = lo_hi (DescSize fs) (BG_block_bitmap_lo bgd) (BG_block_bitmap_hi bgd) ->
  0 <= bitmapBlock -> (bitmapBlock + 1) * BlockSize fs <= zlen (fs_content fs) ->
  let total := S_blocks_per_group sb in
  0 <= total < 2 ^ 16 -> total <= BlockSize fs * 8 ->
  let used := used_blocks (sub (fs_content fs) (bitmapBlock * BlockSize fs) (BlockSize fs)) total in
  BG_free_blocks_count_lo bgd = total - used -> used <> total - used ->
  check_block_bitmap false g (fs, r) =
    (Ok tt, (fs, add_error "group %d: block bitmap shows %d used blocks but descriptor claims %d free (expected %d)" r)).
Proof.
  intros Hok Hg Hb Hsb Ebm Hbm Hfit total Htotal Hcap used Hdecl Hne. pose proof Hok as (Hbs & _).
  unfold check_block_bitmap. rewrite (bind_ok _ _ _ _ _ (zoom_ok _ _ _ _ _ (get_bgd_ok fs g bgd Hg Hb))).
  rewrite (bind_ok _ _ _ _ _ (zoom_ok get fs r fs fs eq_refl)). cbn zeta. rewrite <- Ebm.
  rewrite (bind_ok _ _ _ _ _ (zoom_ok _ _ _ _ _ (catch_ok _ _ _ _ (read_block fs bitmapBlock Hok Hbm Hfit)))).
  set (bitmap := sub _ _ _) in *. assert (Hl : zlen bitmap = BlockSize fs) by (apply zlen_sub; nia).
  assert (E : zoom (T := FsckResult) deref_sb (fs, r) = (Ok sb, (fs, r))).
  { apply zoom_ok. unfold deref_sb. by rewrite Hsb. }
  rewrite (bind_ok _ _ _ _ _ E). fold total. unfold bits_to_check. rewrite (proj2 (Z.ltb_ge _ _)) by lia.
  rewrite count_set_used by done. fold used. pose proof (used_blocks_range bitmap total (proj1 Htotal)) as Hu. fold used in Hu.
  rewrite (w32_id (total - used)), (w32_id (total - (total - used))) by lia.
  rewrite (proj2 (Z.eqb_neq _ _)), (proj2 (Z.leb_le _ _)) by lia. done.
Qed.
End judgement.

(** ** Examples *)
#[local] Existing Instance ex_env.

Lemma Fsck_verdict_witness : exists res, (Fsck false ex_ext4).1 = Ok res /\ (Healthy res = true <-> Forall (fun p => Severity p <> "error") (Problems res)).
Proof.
  destruct (Fsck false ex_ext4) as [[res|e| |] fs'] eqn:E; [|vm_compute in E; discriminate E..].
  exists res. split; [reflexivity|]. exact (Fsck_verdict false ex_ext4 res fs' E).
Defined.

(** The one group of the example: 45 of its 48 blocks are used, three are
    free, and three is what the descriptor says. *)
Lemma check_block_bitmap_inverted_witness :
  check_block_bitmap false 0 (ex_ext4, mkFsckResult 0 0 0 0 [] true) =
    (Ok tt, (ex_ext4, add_error "group %d: block bitmap shows %d used blocks but descriptor claims %d free (expected %d)"
      (mkFsckResult 0 0 0 0 [] true))).
Proof.
  apply (check_block_bitmap_inverted ex_ext4 _ 0 ex_gd ex_sb 33).
  - apply ex_ext4_ok.
  - lia.
  - reflexivity.
  - reflexivity.
  - vm_compute. reflexivity.
  - lia.
  - vm_compute. discriminate.
  - vm_compute. split; [discriminate|reflexivity].
  - vm_compute. discriminate.
  - vm_compute. reflexivity.
  - vm_compute. discriminate.
Defined.
