(* ===== verification/Xattr.v ===== *)
(** Extended attributes ([src/vfs/xattr.go]): names with their prefix
    indices, the serialized table, listing, setting and removing.

    A Go map is a [gmap]; the iteration over it in [serializeXAttrs] takes
    the entries in the order the caller lists them.  [sort.Slice] is a merge
    sort: the keys it compares are distinct, so every sort gives the same
    list ([sorted_unique]). *)
From stdpp Require Export sorting lexico.
From S2P Require Export Alloc.

Definition xattrPrefixes : list (Z * list byte) :=
  [(2, bytes_of_string "system.posix_acl_access"); (3, bytes_of_string "system.posix_acl_default");
   (1, bytes_of_string "user."); (4, bytes_of_string "trusted."); (6, bytes_of_string "security.");
   (7, bytes_of_string "system."); (8, bytes_of_string "system.richacl")].

Fixpoint split_prefix (prefixes : list (Z * list byte)) (fullName : list byte) : Z * list byte :=
  match prefixes with
  | [] => (0, fullName)
  | (index, prefix) :: prefixes' =>
      if (zlen prefix <=? zlen fullName) && bool_decide (sub fullName 0 (zlen prefix) = prefix)
      then (index, sub fullName (zlen prefix) (zlen fullName - zlen prefix))
      else split_prefix prefixes' fullName
  end.
Definition splitXAttrName : list byte -> Z * list byte := split_prefix xattrPrefixes.

Fixpoint join_prefix (prefixes : list (Z * list byte)) (index : Z) (suffix : list byte) : list byte :=
  match prefixes with
  | [] => suffix
  | (i, prefix) :: prefixes' => if i =? index then prefix ++ suffix else join_prefix prefixes' index suffix
  end.
Definition joinXAttrName : Z -> list byte -> list byte := join_prefix xattrPrefixes.

(** ** Serialization *)
Record serializedEntry := mkSerializedEntry {
  nameLen : Z;
  nameIndex : Z;
  name : list byte;
  value : list byte
}.

Definition xattr_entry (nv : list byte * list byte) : serializedEntry :=
  let '(idx, suffix) := splitXAttrName nv.1 in
  mkSerializedEntry (w8 (zlen suffix)) idx suffix nv.2.

(** Go's [<] on strings. *)
Fixpoint bytes_ltb (a b : list byte) : bool :=
  match a, b with
  | [], [] => false
  | [], _ :: _ => true
  | _ :: _, [] => false
  | x :: a', y :: b' =>
      if byte.unsigned x <? byte.unsigned y then true
      else if byte.unsigned y <? byte.unsigned x then false
      else bytes_ltb a' b'
  end.

(** The function given to [sort.Slice]. *)
Definition entry_less (a b : serializedEntry) : bool :=
  if negb (nameIndex a =? nameIndex b) then nameIndex a <? nameIndex b
  else if negb (nameLen a =? nameLen b) then nameLen a <? nameLen b
  else bytes_ltb (name a) (name b).

Definition not_less (a b : serializedEntry) : Prop := entry_less b a = false.
#[export] Instance not_less_dec a b : Decision (not_less a b).
Proof. unfold not_less. apply _. Defined.

(** [(n + 3) &^ 3] *)
Definition align4 (n : Z) : Z := Z.ldiff (n + 3) 3.
Definition entry_len (e : serializedEntry) : Z := align4 (16 + nameLen e).
Definition value_len (e : serializedEntry) : Z := align4 (zlen (value e)).
Definition table_len (entries : list serializedEntry) : Z := foldl (fun n e => n + entry_len e) 0 entries + 4.
Definition values_len (entries : list serializedEntry) : Z := foldl (fun n e => n + value_len e) 0 entries.

(** [copy(buf[lo:hi], s)] *)
Definition copy_into (buf : list byte) (lo hi : Z) (s : list byte) : res (list byte) :=
  window <- slice buf lo hi ;;
  Ok (put buf lo (put window 0 s)).

(** [buf[i] = v] *)
Definition store_byte (buf : list byte) (i v : Z) : res (list byte) := put_at buf i [byte.of_Z v].

Fixpoint serialize_loop (entries : list serializedEntry) (buf : list byte) (currEntryOff currValOff : Z) : res (list byte) :=
  match entries with
  | [] => Ok buf
  | e :: entries' =>
      let currValOff := currValOff - value_len e in
      buf <- store_byte buf currEntryOff (nameLen e) ;;
      buf <- store_byte buf (currEntryOff + 1) (nameIndex e) ;;
      buf <- putUint16 buf (currEntryOff + 2) (w16 currValOff) ;;
      buf <- putUint32 buf (currEntryOff + 4) 0 ;;
      buf <- putUint32 buf (currEntryOff + 8) (w32 (zlen (value e))) ;;
      buf <- putUint32 buf (currEntryOff + 12) 0 ;;
      buf <- copy_into buf (currEntryOff + 16) (currEntryOff + 16 + nameLen e) (name e) ;;
      buf <- copy_into buf currValOff (currValOff + zlen (value e)) (value e) ;;
      serialize_loop entries' buf (currEntryOff + entry_len e) currValOff
  end.

(** [nil] without attributes. *)
Definition serializeXAttrs (xattrs : list (list byte * list byte)) (availSpace : Z) : res (list byte) :=
  match xattrs with
  | [] => Ok []
  | _ :: _ =>
      let entries := merge_sort not_less (xattr_entry <$> xattrs) in
      if availSpace <? table_len entries + values_len entries then Err (Sentinel vfs_ErrNoSpace)
      else serialize_loop entries (zeros availSpace) 0 availSpace
  end.

(** ** Listing *)

(** The entries from byte [curr] of [buf] on; value offsets count from
    [valBase].  An entry takes 16 bytes or more, so a round per byte is
    enough. *)
Fixpoint parse_xattrs (rounds : nat) (buf : list byte) (valBase curr : Z) (xattrs : gmap (list byte) (list byte))
    : res (gmap (list byte) (list byte)) :=
  match rounds with
  | O => OutOfFuel
  | S rounds =>
      if zlen buf <? curr + 4 then Ok xattrs
      else
        first <- getUint32 buf curr ;;
        if first =? 0 then Ok xattrs
        else if zlen buf <? curr + 16 then Ok xattrs
        else
          b0 <- index buf curr ;;
          b1 <- index buf (curr + 1) ;;
          let e_name_len := byte.unsigned b0 in
          let e_name_index := byte.unsigned b1 in
          e_value_offs <- getUint16 buf (curr + 2) ;;
          e_value_inum <- getUint32 buf (curr + 4) ;;
          e_value_size <- getUint32 buf (curr + 8) ;;
          let entryLen := align4 (16 + e_name_len) in
          if zlen buf <? curr + entryLen then Ok xattrs
          else
            nm <- slice buf (curr + 16) (curr + 16 + e_name_len) ;;
            let fullName := joinXAttrName e_name_index nm in
            let valOff := valBase + e_value_offs in
            if valOff + e_value_size <=? zlen buf then
              val <- slice buf valOff (valOff + e_value_size) ;;
              parse_xattrs rounds buf valBase (curr + entryLen) (<[fullName := val]> xattrs)
            else parse_xattrs rounds buf valBase (curr + entryLen) xattrs
  end.

Definition XATTR_MAGIC : Z := 0xEA020000.
Definition file_acl_block (inode : Inode) : Z := Z.lor (Z.shiftl (L_i_file_acl_high inode) 32) (I_file_acl_lo inode).

(** The attributes in the inode. *)
Definition ibody_xattrs (inode : Inode) (rawInode : list byte) : res (gmap (list byte) (list byte)) :=
  if (0 <? I_extra_isize inode) && (w16 (w16 (128 + I_extra_isize inode) + 4) <=? zlen rawInode) then
    let ibodyOffset := 128 + I_extra_isize inode in
    magic <- getUint32 rawInode ibodyOffset ;;
    if magic =? XATTR_MAGIC
    then parse_xattrs (S (length rawInode)) rawInode (ibodyOffset + 4) (ibodyOffset + 4) ∅
    else Ok ∅
  else Ok ∅.

(** The attributes in the attribute block, added to those in the inode. *)
Definition block_xattrs (blockBuf : list byte) (xattrs : gmap (list byte) (list byte)) : res (gmap (list byte) (list byte)) :=
  magic <- getUint32 blockBuf 0 ;;
  if magic =? XATTR_MAGIC then parse_xattrs (S (length blockBuf)) blockBuf 0 32 xattrs else Ok xattrs.

Section xattr.
Context {D : Type} `{ReadWriterAt D}.

Definition ListXAttrs (inodeNum : Z) : FS D (gmap (list byte) (list byte)) :=
  rawInode <- ReadRawInode inodeNum ;;
  inode <- lift (binary_Read rawInode) ;;
  xattrs <- lift (ibody_xattrs inode rawInode) ;;
  let fileAclBlock := file_acl_block inode in
  if 0 <? fileAclBlock then
    fs <- get ;;
    r <- catch (fs_ReadAt (block_offset (BlockSize fs) fileAclBlock) (BlockSize fs)) ;;
    match r with
    | inl blockBuf => lift (block_xattrs blockBuf xattrs)
    | inr _ => mret xattrs
    end
  else mret xattrs.

Definition GetXAttr (inodeNum : Z) (name : list byte) : FS D (list byte) :=
  xattrs <- ListXAttrs inodeNum ;;
  match xattrs !! name with
  | Some val => mret val
  | None => fail (Sentinel vfs_ErrAttrNotExist)
  end.

(** ** Setting *)
Definition set_acl_block (b : Z) (inode : Inode) : Inode :=
  set_L_i_file_acl_high (w16 (Z.shiftr b 32)) (set_I_file_acl_lo (w32 b) inode).

(** [for i := ibodyOffset; i < int(fs.InodeSize); i++ { rawInode[i] = 0 }] *)
Definition clear_ibody (inodeSize ibodyOffset : Z) (rawInode : list byte) : res (list byte) :=
  if ibodyOffset <? inodeSize then put_at rawInode ibodyOffset (zeros (inodeSize - ibodyOffset)) else Ok rawInode.

Definition free_acl_block (oldFileAclBlock : Z) : FS D unit :=
  if 0 <? oldFileAclBlock then FreeBlock oldFileAclBlock else mret tt.

(** The attributes go into the inode: [inInodeBuf] is the table. *)
Definition set_in_inode (inodeNum : Z) (xattrs : gmap (list byte) (list byte)) (inode : Inode) (rawInode inInodeBuf : list byte)
    : FS D unit :=
  fs <- get ;;
  let oldFileAclBlock := file_acl_block inode in
  let rawInode := put rawInode 0 (binary_Write (set_acl_block 0 inode)) in
  let ibodyOffset := 128 + I_extra_isize inode in
  rawInode <- lift
    (if bool_decide (xattrs = ∅) then clear_ibody (InodeSize fs) ibodyOffset rawInode
     else
       rawInode <- putUint32 rawInode ibodyOffset XATTR_MAGIC ;;
       copy_at rawInode (ibodyOffset + 4) inInodeBuf) ;;
  WriteRawInode inodeNum rawInode ;;
  free_acl_block oldFileAclBlock.

(** The attributes go into block [blockNum], which is new when the inode had
    none; on an error a new block is freed. *)
Definition free_new_block (oldFileAclBlock blockNum : Z) (err : error) : FS D unit :=
  (if oldFileAclBlock =? 0 then ignore (FreeBlock blockNum) else mret tt) ;;
  fail err.

(** The header of an attribute block. *)
Definition xattr_block (blockSize : Z) (blockBuf : list byte) : res (list byte) :=
  fullBlockBuf <- putUint32 (zeros blockSize) 0 XATTR_MAGIC ;;
  fullBlockBuf <- putUint32 fullBlockBuf 4 1 ;;
  fullBlockBuf <- putUint32 fullBlockBuf 8 1 ;;
  fullBlockBuf <- putUint32 fullBlockBuf 12 0 ;;
  fullBlockBuf <- putUint32 fullBlockBuf 16 0 ;;
  copy_at fullBlockBuf 32 blockBuf.

(** The inode that names the attribute block. *)
Definition with_acl_block (blockSize blockNum : Z) (inode : Inode) : Inode :=
  let oldFileAclBlock := file_acl_block inode in
  let inode := set_acl_block blockNum inode in
  if oldFileAclBlock =? 0 then
    let sectorCount := w64 (Z.lor (I_blocks_lo inode) (Z.shiftl (L_i_blocks_high inode) 32) + blockSize / 512) in
    set_L_i_blocks_high (w16 (Z.shiftr sectorCount 32)) (set_I_blocks_lo (w32 sectorCount) inode)
  else inode.

Definition set_in_block (inodeNum : Z) (order : list (list byte * list byte)) (inode : Inode) (rawInode : list byte) : FS D unit :=
  fs <- get ;;
  let oldFileAclBlock := file_acl_block inode in
  blockNum <- (if 0 <? oldFileAclBlock then mret oldFileAclBlock else AllocateBlock) ;;
  r <- catch (lift (serializeXAttrs order (BlockSize fs - 32))) ;;
  match r with
  | inr err => free_new_block oldFileAclBlock blockNum err
  | inl blockBuf =>
      fullBlockBuf <- lift (xattr_block (BlockSize fs) blockBuf) ;;
      r <- catch (fs_WriteAt (block_offset (BlockSize fs) blockNum) fullBlockBuf) ;;
      match r with
      | inr err => free_new_block oldFileAclBlock blockNum err
      | inl _ => WriteRawInode inodeNum (put rawInode 0 (binary_Write (with_acl_block (BlockSize fs) blockNum inode)))
      end
  end.

(** [iter] is the order in which [range] visits the map. *)
Definition SetXAttr (iter : gmap (list byte) (list byte) -> list (list byte * list byte))
    (inodeNum : Z) (name : list byte) (value : option (list byte)) : FS D unit :=
  old <- ListXAttrs inodeNum ;;
  xattrs <- match value with
            | None => if bool_decide (is_Some (old !! name)) then mret (delete name old) else fail (Sentinel vfs_ErrAttrNotExist)
            | Some v => mret (<[name := v]> old)
            end ;;
  rawInode <- ReadRawInode inodeNum ;;
  inode <- lift (binary_Read rawInode) ;;
  fs <- get ;;
  let extra := I_extra_isize inode in
  let availSpace := InodeSize fs - 128 - extra - 4 in
  fits <- (if (0 <? extra) && (0 <? availSpace) then catch (lift (serializeXAttrs (iter xattrs) availSpace))
           else mret (inr (Sentinel vfs_ErrNoSpace))) ;;
  match fits with
  | inl inInodeBuf => set_in_inode inodeNum xattrs inode rawInode inInodeBuf
  | inr _ =>
      rawInode <- lift (if 0 <? extra then clear_ibody (InodeSize fs) (128 + extra) rawInode else Ok rawInode) ;;
      if bool_decide (xattrs = ∅) then
        WriteRawInode inodeNum (put rawInode 0 (binary_Write (set_acl_block 0 inode))) ;;
        free_acl_block (file_acl_block inode)
      else set_in_block inodeNum (iter xattrs) inode rawInode
  end.

Definition RemoveXAttr (iter : gmap (list byte) (list byte) -> list (list byte * list byte))
    (inodeNum : Z) (name : list byte) : FS D unit :=
  SetXAttr iter inodeNum name None.
End xattr.
