(* ===== verification/XattrTable.v ===== *)
(** The attribute table: prefix indices and names, independence of the map
    order, and what the parser reads of a serialized table. *)
From S2P Require Export Xattr.

(** ** Names *)
Lemma split_prefix_index prefixes fullName :
  (split_prefix prefixes fullName).1 = 0 \/ (split_prefix prefixes fullName).1 ∈ prefixes.*1.
Proof.
  induction prefixes as [|[i p] l IH]; [by left|]. cbn [split_prefix].
  destruct (_ && _); [right; by left|]. destruct IH; [by left|right; by right].
Qed.

Lemma join_split_prefix prefixes fullName :
  NoDup (0 :: prefixes.*1) ->
  join_prefix prefixes (split_prefix prefixes fullName).1 (split_prefix prefixes fullName).2 = fullName.
Proof.
  induction prefixes as [|[i p] l IH]; intros Hnd; [done|]. cbn [fmap list_fmap fst] in Hnd.
  apply NoDup_cons in Hnd as [H0 Hnd]. apply NoDup_cons in Hnd as [Hi Hnd]. cbn [split_prefix].
  destruct ((zlen p <=? zlen fullName) && bool_decide (sub fullName 0 (zlen p) = p)) eqn:E.
  - apply andb_prop in E as [Hl%Z.leb_le Hp%bool_decide_eq_true_1]. cbn [join_prefix fst snd]. rewrite Z.eqb_refl.
    rewrite <- Hp at 1. unfold sub, zlen in *. change (Z.to_nat 0) with 0%nat. rewrite drop_0, !Nat2Z.id.
    rewrite (take_ge (drop _ _)) by (rewrite length_drop; lia). apply take_drop.
  - cbn [join_prefix]. rewrite (proj2 (Z.eqb_neq i _)).
    + apply IH. apply NoDup_cons. split; [|done]. intros Hin. apply H0. by right.
    + intros ->. destruct (split_prefix_index l fullName) as [Hz|Hin]; [|done]. apply H0. rewrite Hz. by left.
Qed.

(** Splitting a name into prefix index and suffix loses nothing: joining
    them gives the name back, whatever the name. *)
Theorem split_join_name fullName :
  joinXAttrName (splitXAttrName fullName).1 (splitXAttrName fullName).2 = fullName.
Proof. apply join_split_prefix. by_decision. Qed.

Lemma splitXAttrName_inj n m : splitXAttrName n = splitXAttrName m -> n = m.
Proof.
  intros E. rewrite <- (join_split_prefix xattrPrefixes n), <- (join_split_prefix xattrPrefixes m) by by_decision.
  unfold splitXAttrName in E. by rewrite E.
Qed.

(** ** The order of the entries

    The comparison is the lexicographic order of a key. *)
Definition entry_key (e : serializedEntry) : Z * (Z * list Z) := (nameIndex e, (nameLen e, byte.unsigned <$> name e)).

Lemma bytes_ltb_lexico a b : bytes_ltb a b = true <-> lexico (byte.unsigned <$> a) (byte.unsigned <$> b).
Proof.
  revert b. induction a as [|x a IH]; intros [|y b]; cbn [bytes_ltb fmap list_fmap]; try done.
  change (lexico (byte.unsigned x :: (byte.unsigned <$> a)) (byte.unsigned y :: (byte.unsigned <$> b))) with
    (byte.unsigned x < byte.unsigned y \/ byte.unsigned x = byte.unsigned y /\ lexico (byte.unsigned <$> a) (byte.unsigned <$> b)).
  rewrite <- IH. destruct (Z.ltb_spec (byte.unsigned x) (byte.unsigned y)); [intuition (congruence || lia)|].
  destruct (Z.ltb_spec (byte.unsigned y) (byte.unsigned x)); intuition (congruence || lia).
Qed.

Lemma entry_less_lexico a b : entry_less a b = true <-> lexico (entry_key a) (entry_key b).
Proof.
  unfold entry_less, entry_key.
  change (lexico (nameIndex a, (nameLen a, byte.unsigned <$> name a)) (nameIndex b, (nameLen b, byte.unsigned <$> name b))) with
    (nameIndex a < nameIndex b \/ nameIndex a = nameIndex b /\
     (nameLen a < nameLen b \/ nameLen a = nameLen b /\ lexico (byte.unsigned <$> name a) (byte.unsigned <$> name b))).
  rewrite <- bytes_ltb_lexico.
  destruct (Z.eqb_spec (nameIndex a) (nameIndex b)); cbn [negb].
  - destruct (Z.eqb_spec (nameLen a) (nameLen b)); cbn [negb]; rewrite ?Z.ltb_lt; intuition (congruence || lia).
  - rewrite Z.ltb_lt. intuition (congruence || lia).
Qed.

Lemma key_irrefl (k : Z * (Z * list Z)) : ~ lexico k k.
Proof. apply (irreflexivity lexico). Qed.
Lemma key_trans (a b c : Z * (Z * list Z)) : lexico a b -> lexico b c -> lexico a c.
Proof. apply (transitivity (R := lexico)). Qed.

Lemma not_less_key a b : not_less a b <-> lexico (entry_key a) (entry_key b) \/ entry_key a = entry_key b.
Proof.
  unfold not_less. rewrite <- not_true_iff_false, entry_less_lexico.
  destruct (trichotomy lexico (entry_key a) (entry_key b)) as [Hl|[->|Hl]].
  - split; [by left|]. intros _ Hl'. exact (key_irrefl _ (key_trans _ _ _ Hl Hl')).
  - split; [by right|]. intros _. apply key_irrefl.
  - split; [done|]. intros [Hl'|E]; [|by rewrite E in Hl; apply key_irrefl in Hl].
    intros _. exact (key_irrefl _ (key_trans _ _ _ Hl Hl')).
Qed.

#[export] Instance not_less_total : Total not_less.
Proof.
  intros a b. rewrite !not_less_key. destruct (trichotomy lexico (entry_key a) (entry_key b)) as [|[|]]; auto.
Qed.

#[export] Instance not_less_trans : Transitive not_less.
Proof.
  intros a b c. rewrite !not_less_key. intros [Hab|E1] [Hbc|E2].
  - left. exact (key_trans _ _ _ Hab Hbc).
  - left. by rewrite <- E2.
  - left. by rewrite E1.
  - right. by rewrite E1.
Qed.

Lemma unsigned_inj x y : byte.unsigned x = byte.unsigned y -> x = y.
Proof. intros E. rewrite <- (byte.of_Z_unsigned x), <- (byte.of_Z_unsigned y). by rewrite E. Qed.

(** Entries of different attributes have different keys, so sorting them has
    only one outcome. *)
Lemma xattr_entry_key a b : entry_key (xattr_entry a) = entry_key (xattr_entry b) -> a.1 = b.1.
Proof.
  unfold xattr_entry, entry_key. intros E. apply splitXAttrName_inj.
  destruct (splitXAttrName a.1) as [i s], (splitXAttrName b.1) as [j t]. cbn in E. injection E as -> _ E.
  f_equal. apply (list_fmap_eq_inj byte.unsigned); [exact unsigned_inj|done].
Qed.

Lemma sorted_unique l1 l2 :
  NoDup l1.*1 -> l1 ≡ₚ l2 ->
  merge_sort not_less (xattr_entry <$> l1) = merge_sort not_less (xattr_entry <$> l2).
Proof.
  intros Hnd Hp. apply (Sorted_unique_strong not_less); [|apply Sorted_merge_sort, _..|].
  - intros e1 e2. rewrite !merge_sort_Permutation, <- Hp. intros (a & -> & Ha)%list_elem_of_fmap (b & -> & Hb)%list_elem_of_fmap.
    rewrite !not_less_key. intros Hab Hba.
    assert (E : entry_key (xattr_entry a) = entry_key (xattr_entry b)).
    { destruct Hab as [Hab|]; [|done]. destruct Hba as [Hba|]; [|done].
      exfalso. exact (key_irrefl _ (key_trans _ _ _ Hab Hba)). }
    apply xattr_entry_key in E. destruct a as [n v], b as [m w]. cbn in E. subst m.
    f_equal. f_equal. apply list_elem_of_lookup in Ha as [i Hi], Hb as [j Hj].
    assert (i = j); [|congruence].
    eapply NoDup_lookup; [exact Hnd|by rewrite list_lookup_fmap, Hi|by rewrite list_lookup_fmap, Hj].
  - by rewrite !merge_sort_Permutation, Hp.
Qed.

(** The serialized table does not depend on the order in which the map
    of attributes is iterated. *)
Theorem serializeXAttrs_order (xattrs : gmap (list byte) (list byte)) order1 order2 availSpace :
  order1 ≡ₚ map_to_list xattrs -> order2 ≡ₚ map_to_list xattrs ->
  serializeXAttrs order1 availSpace = serializeXAttrs order2 availSpace.
Proof.
  intros H1 H2. assert (Hp : order1 ≡ₚ order2) by by rewrite H1, H2.
  assert (Hnd : NoDup order1.*1) by (rewrite H1; apply NoDup_fst_map_to_list).
  unfold serializeXAttrs. destruct order1 as [|a l1], order2 as [|b l2];
    [done|by apply Permutation_nil_cons in Hp|by symmetry in Hp; apply Permutation_nil_cons in Hp|].
  by rewrite (sorted_unique (a :: l1) (b :: l2) Hnd Hp).
Qed.

(** ** What the table holds

    [entries_in buf base off voff es]: from byte [base + off] on [buf] holds
    the entries [es] and a zero word; the values lie below [base + voff], the
    first one on top. *)
Definition entry_bytes (e : serializedEntry) (v : Z) : list byte :=
  [byte.of_Z (nameLen e)] ++ [byte.of_Z (nameIndex e)] ++ le_split 2 (w16 v) ++ le_split 4 0 ++
  le_split 4 (w32 (zlen (value e))) ++ le_split 4 0 ++ name e.

Fixpoint entries_in (buf : list byte) (base off voff : Z) (es : list serializedEntry) : Prop :=
  match es with
  | [] => sub buf (base + off) 4 = zeros 4
  | e :: es' =>
      sub buf (base + off) (16 + nameLen e) = entry_bytes e (voff - value_len e) /\
      sub buf (base + (voff - value_len e)) (zlen (value e)) = value e /\
      entries_in buf base (off + entry_len e) (voff - value_len e) es'
  end.

Definition entry_wf (e : serializedEntry) : Prop :=
  nameLen e = zlen (name e) /\ 0 <= nameLen e < 256 /\ 0 <= nameIndex e < 256 /\ zlen (value e) < 2 ^ 32.

Definition entries_size (es : list serializedEntry) : Z := foldr (fun e n => entry_len e + n) 0 es.
Definition values_size (es : list serializedEntry) : Z := foldr (fun e n => value_len e + n) 0 es.

Lemma align4_spec n : 0 <= n -> n <= align4 n < n + 4 /\ align4 n mod 4 = 0.
Proof.
  intros Hn. assert (E : align4 n = (n + 3) / 4 * 4).
  { change (align4 n) with (Z.ldiff (n + 3) (Z.ones 2)). rewrite Z.ldiff_ones_r by lia.
    by rewrite Z.shiftr_div_pow2, Z.shiftl_mul_pow2 by lia. }
  rewrite E.
  pose proof (Z.div_mod (n + 3) 4 ltac:(lia)). pose proof (Z.mod_pos_bound (n + 3) 4 ltac:(lia)).
  split; [lia|]. apply Z.mod_mul. lia.
Qed.

Lemma entry_len_bounds e : 0 <= nameLen e -> 16 + nameLen e <= entry_len e < 20 + nameLen e.
Proof. intros He. destruct (align4_spec (16 + nameLen e)) as [Ha _]; [lia|]. unfold entry_len. lia. Qed.

Lemma value_len_bounds e : zlen (value e) <= value_len e < zlen (value e) + 4.
Proof. pose proof (zlen_nonneg (value e)). destruct (align4_spec (zlen (value e))) as [Ha _]; [done|]. unfold value_len. lia. Qed.

Lemma foldl_sum {A} (f : A -> Z) l n : foldl (fun n x => n + f x) n l = n + foldr (fun x n => f x + n) 0 l.
Proof. revert n. induction l as [|x l IH]; intros n; cbn [foldl foldr]; [lia|]. rewrite IH. lia. Qed.
Lemma table_len_sum es : table_len es = entries_size es + 4.
Proof. unfold table_len. by rewrite (foldl_sum entry_len). Qed.
Lemma values_len_sum es : values_len es = values_size es.
Proof. unfold values_len. by rewrite (foldl_sum value_len). Qed.

Lemma entries_size_nonneg es : Forall entry_wf es -> 0 <= entries_size es.
Proof.
  induction 1 as [|e es (_ & Hn & _) _ IH]; [done|]. cbn [entries_size foldr]. fold (entries_size es).
  pose proof (entry_len_bounds e ltac:(lia)). lia.
Qed.
Lemma values_size_nonneg es : 0 <= values_size es.
Proof.
  induction es as [|e es IH]; [done|]. cbn [values_size foldr]. fold (values_size es).
  pose proof (value_len_bounds e). pose proof (zlen_nonneg (value e)). lia.
Qed.

(** Entries stay where they are when the table is part of a larger buffer. *)
Lemma entries_in_sub raw base n off voff es :
  0 <= base -> 0 <= off -> Forall entry_wf es -> off + entries_size es + 4 <= voff - values_size es -> voff <= n ->
  entries_in (sub raw base n) 0 off voff es -> entries_in raw base off voff es.
Proof.
  intros Hb. revert off voff. induction es as [|e es IH]; intros off voff Ho Hwf Hfit Hn; cbn [entries_in entries_size values_size foldr] in *.
  - rewrite sub_sub by lia. done.
  - fold (entries_size es) (values_size es) in Hfit. apply Forall_cons in Hwf as [(Hl & Hr & _) Hwf].
    pose proof (entries_size_nonneg es Hwf). pose proof (values_size_nonneg es).
    pose proof (entry_len_bounds e ltac:(lia)). pose proof (value_len_bounds e). pose proof (zlen_nonneg (value e)).
    intros (He & Hv & Hrest). rewrite sub_sub in He, Hv by lia. split; [exact He|]. split; [exact Hv|].
    apply IH; [lia|done|lia|lia|exact Hrest].
Qed.

(** ** Writing the table *)
Lemma zlen_entry_bytes e v : zlen (entry_bytes e v) = 16 + zlen (name e).
Proof. unfold entry_bytes. rewrite !zlen_app, !zlen_le_split. change (zlen [_]) with 1. lia. Qed.

Lemma put_put_next (buf s1 s2 : list byte) off off' :
  0 <= off -> off' = off + zlen s1 -> off' + zlen s2 <= zlen buf -> put (put buf off s1) off' s2 = put buf off (s1 ++ s2).
Proof. intros Ho -> Hfit. apply put_put_app; lia. Qed.

Lemma copy_into_whole buf lo hi s : 0 <= lo -> hi = lo + zlen s -> hi <= zlen buf -> copy_into buf lo hi s = Ok (put buf lo s).
Proof.
  intros Hlo -> Hhi. pose proof (zlen_nonneg s). unfold copy_into. rewrite slice_in by lia. cbn [mbind res_bind].
  replace (lo + zlen s - lo) with (zlen s) by lia. by rewrite put_sub_whole by lia.
Qed.

Lemma store_byte_in buf i v : 0 <= i < zlen buf -> store_byte buf i v = Ok (put buf i [byte.of_Z v]).
Proof. intros. unfold store_byte. apply put_at_in; [lia|]. change (zlen [_]) with 1. lia. Qed.

Lemma serialize_step e es buf off voff :
  entry_wf e -> 0 <= off -> off + entry_len e <= voff - value_len e -> voff <= zlen buf ->
  serialize_loop (e :: es) buf off voff =
  serialize_loop es (put (put buf off (entry_bytes e (voff - value_len e))) (voff - value_len e) (value e))
    (off + entry_len e) (voff - value_len e).
Proof.
  intros (Hl & Hr & Hi & Hvl) Hoff Hfit Hbuf. pose proof (entry_len_bounds e ltac:(lia)). pose proof (value_len_bounds e).
  pose proof (zlen_nonneg (value e)). set (v := voff - value_len e) in *.
  cbn [serialize_loop]. fold v. cbn zeta.
  rewrite store_byte_in by lia. cbn [mbind res_bind].
  rewrite store_byte_in by (rewrite zlen_put; lia). cbn [mbind res_bind].
  rewrite (put_put_next _ _ _ off) by (change (zlen [_]) with 1; lia). set (s2 := [byte.of_Z (nameLen e)] ++ _).
  assert (L2 : zlen s2 = 2) by reflexivity. cbn [app] in s2.
  do 4 (rewrite putUint_in by (rewrite ?zlen_put; lia); cbn [mbind res_bind]).
  rewrite (put_put_next _ s2) by (rewrite ?zlen_le_split; lia). set (s4 := s2 ++ _).
  assert (L4 : zlen s4 = 4) by (unfold s4; rewrite zlen_app, L2, zlen_le_split; done).
  rewrite (put_put_next _ s4) by (rewrite ?zlen_le_split; lia). set (s8 := s4 ++ _).
  assert (L8 : zlen s8 = 8) by (unfold s8; rewrite zlen_app, L4, zlen_le_split; done).
  rewrite (put_put_next _ s8) by (rewrite ?zlen_le_split; lia). set (s12 := s8 ++ _).
  assert (L12 : zlen s12 = 12) by (unfold s12; rewrite zlen_app, L8, zlen_le_split; done).
  rewrite (put_put_next _ s12) by (rewrite ?zlen_le_split; lia). set (s16 := s12 ++ _).
  assert (L16 : zlen s16 = 16) by (unfold s16; rewrite zlen_app, L12, zlen_le_split; done).
  rewrite copy_into_whole by (rewrite ?zlen_put; lia). cbn [mbind res_bind].
  rewrite (put_put_next _ s16) by lia.
  assert (E : s16 ++ name e = entry_bytes e v).
  { unfold s16, s12, s8, s4, s2, entry_bytes. cbn [app]. by rewrite <- !app_assoc. }
  rewrite E, copy_into_whole by (rewrite ?zlen_put; lia). done.
Qed.

Lemma sub_within (a b : list byte) o n o' n' :
  sub a o n = sub b o n -> 0 <= o <= o' -> o' + n' <= o + n -> 0 <= n' -> sub a o' n' = sub b o' n'.
Proof.
  intros E Ho Hn Hn'. replace o' with (o + (o' - o)) by lia.
  rewrite <- (sub_sub a o n), <- (sub_sub b o n) by lia. by rewrite E.
Qed.

Lemma sub_zeros_within (a : list byte) o n o' n' :
  sub a o n = zeros n -> 0 <= o <= o' -> o' + n' <= o + n -> 0 <= n' -> sub a o' n' = zeros n'.
Proof.
  intros E Ho Hn Hn'. replace o' with (o + (o' - o)) by lia. rewrite <- (sub_sub a o n) by lia. rewrite E.
  unfold sub, zeros. rewrite drop_replicate, take_replicate. f_equal. lia.
Qed.

(** The table leaves what is below and above it alone. *)
Lemma serialize_loop_ok es buf off voff :
  Forall entry_wf es -> 0 <= off -> off + entries_size es + 4 <= voff - values_size es -> voff <= zlen buf ->
  sub buf off (voff - off) = zeros (voff - off) ->
  exists buf', serialize_loop es buf off voff = Ok buf' /\ zlen buf' = zlen buf /\
    sub buf' 0 off = sub buf 0 off /\ sub buf' voff (zlen buf - voff) = sub buf voff (zlen buf - voff) /\
    entries_in buf' 0 off voff es.
Proof.
  revert buf off voff. induction es as [|e es IH]; intros buf off voff Hwf Hoff Hfit Hbuf Hz; cbn [entries_size values_size foldr] in *.
  { exists buf. do 4 (split; [done|]). cbn [entries_in]. apply (sub_zeros_within _ off (voff - off)); [done|lia..]. }
  fold (entries_size es) (values_size es) in Hfit. apply Forall_cons in Hwf as [He Hwf]. pose proof He as (Hl & Hr & _).
  pose proof (entries_size_nonneg es Hwf). pose proof (values_size_nonneg es).
  pose proof (entry_len_bounds e ltac:(lia)). pose proof (value_len_bounds e). pose proof (zlen_nonneg (value e)).
  rewrite serialize_step by (try done; lia). set (v := voff - value_len e) in *.
  set (buf1 := put (put buf off (entry_bytes e v)) v (value e)).
  assert (Hb : zlen (entry_bytes e v) = 16 + nameLen e) by (rewrite zlen_entry_bytes; lia).
  assert (Hl1 : zlen buf1 = zlen buf) by (unfold buf1; by rewrite !zlen_put).
  destruct (IH buf1 (off + entry_len e) v) as (buf' & E & Hl' & Hpre & Hpost & Hin); [done|lia|lia|lia| |].
  { unfold buf1. rewrite !sub_put_disj by lia. apply (sub_zeros_within _ off (voff - off)); [done|lia..]. }
  exists buf'. split; [exact E|]. split; [by rewrite Hl'|]. rewrite Hl1 in Hpost. cbn [entries_in]. fold v. split; [|split; [|split; [|split]]].
  - rewrite (sub_within buf' buf1 0 (off + entry_len e)) by (done || lia). unfold buf1. by rewrite !sub_put_disj by lia.
  - rewrite (sub_within buf' buf1 v (zlen buf - v)) by (done || lia). unfold buf1. by rewrite !sub_put_disj by lia.
  - rewrite (sub_within buf' buf1 0 (off + entry_len e)) by (done || lia). unfold buf1.
    rewrite sub_put_disj by lia. apply sub_put_eq; lia.
  - rewrite (sub_within buf' buf1 v (zlen buf - v)) by (done || lia). unfold buf1. apply sub_put_same; rewrite ?zlen_put; lia.
  - exact Hin.
Qed.

(** ** Reading the table *)
Definition add_entry (m : gmap (list byte) (list byte)) (e : serializedEntry) : gmap (list byte) (list byte) :=
  <[joinXAttrName (nameIndex e) (name e) := value e]> m.

Lemma le_get_app_mid n (l1 l2 l3 : list byte) off :
  zlen l1 = off -> length l2 = n -> le_get n (l1 ++ l2 ++ l3) off = le_combine l2.
Proof. intros <- <-. unfold le_get. change (Z.of_nat (length l2)) with (zlen l2). by rewrite sub_app_mid. Qed.

Lemma le_get_high raw o : 0 <= o -> o + 4 <= zlen raw -> le_get 4 raw o = 0 -> le_get 2 raw (o + 2) = 0.
Proof.
  intros Ho Hfit E. unfold le_get in *. change (Z.of_nat 4) with 4 in E. change (Z.of_nat 2) with 2.
  assert (Es : sub raw o 4 = sub raw o 2 ++ sub raw (o + 2) 2).
  { unfold sub. change (Z.to_nat 4) with (2 + 2)%nat. change (Z.to_nat 2) with 2%nat.
    rewrite <- take_take_drop, drop_drop. do 3 f_equal. lia. }
  rewrite Es, le_combine_app in E. apply Z.lor_eq_0_iff in E as [_ E].
  apply Z.shiftl_eq_0_iff in E; [done|]. lia.
Qed.

(** The fields of an entry. *)
Record entry_at (raw : list byte) (o : Z) (e : serializedEntry) (v : Z) : Prop := {
  at_len : index raw o = Ok (byte.of_Z (nameLen e));
  at_index : index raw (o + 1) = Ok (byte.of_Z (nameIndex e));
  at_offs : le_get 2 raw (o + 2) = v;
  at_size : le_get 4 raw (o + 8) = zlen (value e);
  at_name : sub raw (o + 16) (nameLen e) = name e
}.

Lemma index_sub (raw : list byte) o n k x : 0 <= o -> 0 <= k < n -> sub raw o n !! Z.to_nat k = Some x -> index raw (o + k) = Ok x.
Proof.
  intros Ho Hk E. apply index_lookup; [lia|]. rewrite lookup_sub, decide_True in E by lia. rewrite <- E. f_equal. lia.
Qed.

Lemma entry_fields raw o e v :
  sub raw o (16 + nameLen e) = entry_bytes e v -> entry_wf e -> 0 <= v < 2 ^ 16 -> 0 <= o -> entry_at raw o e v.
Proof.
  intros E (Hl & Hr & Hi & Hvl) Hv Ho. pose proof (zlen_nonneg (value e)).
  assert (Hget : forall n k, 0 <= k -> k + Z.of_nat n <= 16 -> le_get n raw (o + k) = le_get n (entry_bytes e v) k).
  { intros n k Hk Hn. rewrite <- E. by rewrite le_get_sub by lia. }
  split.
  - replace o with (o + 0) by lia. apply (index_sub raw o (16 + nameLen e)); [lia|lia|]. by rewrite E.
  - apply (index_sub raw o (16 + nameLen e)); [lia|lia|]. by rewrite E.
  - rewrite Hget by lia. unfold entry_bytes. rewrite app_assoc, le_get_app_mid by done.
    rewrite w16_id by lia. apply le_combine_le_split. lia.
  - rewrite Hget by lia. unfold entry_bytes. rewrite !app_assoc, <- (app_assoc _ _ (name e)), <- (app_assoc _ (le_split 4 (w32 _))).
    rewrite le_get_app_mid by done. rewrite w32_id by lia. apply le_combine_le_split. lia.
  - replace (sub raw (o + 16) (nameLen e)) with (sub (sub raw o (16 + nameLen e)) 16 (nameLen e)) by (rewrite sub_sub by lia; done).
    rewrite E.
    set (pre := [byte.of_Z (nameLen e)] ++ [byte.of_Z (nameIndex e)] ++ le_split 2 (w16 v) ++ le_split 4 0 ++
                le_split 4 (w32 (zlen (value e))) ++ le_split 4 0).
    assert (Ee : entry_bytes e v = pre ++ name e ++ []) by (unfold pre, entry_bytes; by rewrite app_nil_r, <- !app_assoc).
    rewrite Ee, Hl. exact (sub_app_mid pre (name e) []).
Qed.

Lemma byte_value z : 0 <= z < 256 -> byte.unsigned (byte.of_Z z) = z.
Proof. intros. rewrite byte.unsigned_of_Z. by apply Z.mod_small. Qed.

(** A round that reads an entry, and the round that ends the table. *)
Lemma parse_xattrs_step buf valBase curr e v m rounds :
  entry_wf e -> entry_at buf curr e v -> 0 < v -> 0 <= curr -> 0 <= valBase -> curr + entry_len e <= zlen buf ->
  valBase + v + zlen (value e) <= zlen buf ->
  parse_xattrs (S rounds) buf valBase curr m =
  parse_xattrs rounds buf valBase (curr + entry_len e)
    (<[joinXAttrName (nameIndex e) (name e) := sub buf (valBase + v) (zlen (value e))]> m).
Proof.
  intros (Hl & Hr & Hi & _) [F0 F1 F2 F8 Fn] Hv Hc Hb Hfit Hval. pose proof (entry_len_bounds e ltac:(lia)).
  pose proof (zlen_nonneg (value e)). cbn [parse_xattrs]. rewrite (proj2 (Z.ltb_ge (zlen buf) (curr + 4))) by lia.
  rewrite (getUint_in 4 buf curr) by lia. cbn [mbind res_bind].
  rewrite (proj2 (Z.eqb_neq (le_get 4 buf curr) 0)) by (intros Hz; apply le_get_high in Hz; lia).
  rewrite (proj2 (Z.ltb_ge _ (curr + 16))) by lia. rewrite F0, F1. cbn [mbind res_bind].
  rewrite !getUint_in by lia. cbn [mbind res_bind]. rewrite F2, F8, !byte_value by lia. fold (entry_len e).
  rewrite (proj2 (Z.ltb_ge _ (curr + entry_len e))) by lia.
  rewrite (slice_in buf (curr + 16)) by lia. cbn [mbind res_bind].
  replace (curr + 16 + nameLen e - (curr + 16)) with (nameLen e) by lia. rewrite Fn.
  rewrite (proj2 (Z.leb_le (valBase + v + zlen (value e)) (zlen buf))) by lia. rewrite slice_in by lia. cbn [mbind res_bind].
  by replace (valBase + v + zlen (value e) - (valBase + v)) with (zlen (value e)) by lia.
Qed.

Lemma parse_xattrs_end buf valBase curr m rounds :
  0 <= curr -> curr + 4 <= zlen buf -> sub buf curr 4 = zeros 4 -> parse_xattrs (S rounds) buf valBase curr m = Ok m.
Proof.
  intros Hc Hfit Hz. cbn [parse_xattrs]. rewrite (proj2 (Z.ltb_ge (zlen buf) (curr + 4))) by lia.
  rewrite (getUint_in 4 buf curr) by lia. cbn [mbind res_bind]. unfold le_get. change (Z.of_nat 4) with 4. by rewrite Hz.
Qed.

Lemma parse_xattrs_ok raw base off voff es m rounds :
  0 <= base -> 0 <= off -> Forall entry_wf es -> off + entries_size es + 4 <= voff - values_size es ->
  base + voff <= zlen raw -> voff < 2 ^ 16 -> entries_in raw base off voff es -> (length es < rounds)%nat ->
  parse_xattrs rounds raw base (base + off) m = Ok (foldl add_entry m es).
Proof.
  intros Hb. revert off voff m rounds. induction es as [|e es IH];
    intros off voff m rounds Ho Hwf Hfit Hraw Hv16 Hin Hrounds; cbn [entries_in entries_size values_size foldr length] in *;
    (destruct rounds as [|rounds]; [lia|]).
  - apply parse_xattrs_end; [lia|lia|done].
  - fold (entries_size es) (values_size es) in Hfit. apply Forall_cons in Hwf as [He Hwf]. pose proof He as (Hl & Hr & Hi & _).
    pose proof (entries_size_nonneg es Hwf). pose proof (values_size_nonneg es).
    pose proof (entry_len_bounds e ltac:(lia)). pose proof (value_len_bounds e). pose proof (zlen_nonneg (value e)).
    destruct Hin as (Hbytes & Hval & Hin). set (v := voff - value_len e) in *.
    rewrite (parse_xattrs_step raw base (base + off) e v); try done; try lia.
    + rewrite Hval. replace (base + off + entry_len e) with (base + (off + entry_len e)) by lia. apply (IH _ v); try done; lia.
    + apply entry_fields; [done|done|lia|lia].
Qed.

(** ** From the map to the table and back *)
Definition attr_fits (nv : list byte * list byte) : Prop :=
  zlen (splitXAttrName nv.1).2 < 256 /\ zlen nv.2 < 2 ^ 32.

#[export] Instance attr_fits_dec nv : Decision (attr_fits nv).
Proof. unfold attr_fits. apply _. Defined.

(** The bytes the attributes need, the final zero word included. *)
Definition attrs_size (l : list (list byte * list byte)) : Z :=
  foldr (fun nv n => entry_len (xattr_entry nv) + value_len (xattr_entry nv) + n) 4 l.

Lemma attrs_size_perm l1 l2 : l1 ≡ₚ l2 -> attrs_size l1 = attrs_size l2.
Proof. induction 1; unfold attrs_size in *; cbn [foldr] in *; lia. Qed.

Lemma entries_values_size l : entries_size (xattr_entry <$> l) + values_size (xattr_entry <$> l) + 4 = attrs_size l.
Proof.
  induction l as [|nv l IH]; [done|]. change (xattr_entry <$> nv :: l) with (xattr_entry nv :: (xattr_entry <$> l)).
  unfold entries_size, values_size, attrs_size in *. cbn [foldr]. lia.
Qed.

Lemma xattr_entry_join nv : joinXAttrName (nameIndex (xattr_entry nv)) (name (xattr_entry nv)) = nv.1.
Proof.
  unfold xattr_entry. pose proof (join_split_prefix xattrPrefixes nv.1 ltac:(by_decision)) as E.
  unfold splitXAttrName. destruct (split_prefix xattrPrefixes nv.1). exact E.
Qed.
Lemma xattr_entry_value nv : value (xattr_entry nv) = nv.2.
Proof. unfold xattr_entry. by destruct (splitXAttrName nv.1). Qed.

Lemma prefix_index_range n : 0 <= (splitXAttrName n).1 < 256.
Proof.
  destruct (split_prefix_index xattrPrefixes n) as [E|E]; unfold splitXAttrName; [rewrite E; lia|].
  assert (Hall : Forall (fun i => 0 <= i < 256) xattrPrefixes.*1) by by_decision.
  rewrite Forall_forall in Hall. by apply Hall.
Qed.

Lemma xattr_entry_wf nv : attr_fits nv -> entry_wf (xattr_entry nv).
Proof.
  intros [Hs Hv]. pose proof (prefix_index_range nv.1) as Hi. unfold xattr_entry, entry_wf.
  destruct (splitXAttrName nv.1) as [i s]. cbn in *. pose proof (zlen_nonneg s). by rewrite w8_id by lia.
Qed.

Lemma foldl_add_entry l m :
  NoDup l.*1 -> foldl add_entry m (xattr_entry <$> l) = list_to_map l ∪ m.
Proof.
  revert m. induction l as [|nv l IH]; intros m Hnd.
  { change (m = ∅ ∪ m). by rewrite map_empty_union. }
  change ((nv :: l).*1) with (nv.1 :: l.*1) in Hnd. apply NoDup_cons in Hnd as [Hk Hnd].
  change (xattr_entry <$> nv :: l) with (xattr_entry nv :: (xattr_entry <$> l)).
  cbn [foldl]. unfold add_entry at 2. rewrite xattr_entry_join, xattr_entry_value.
  etransitivity; [by apply IH|]. destruct nv as [k v]. cbn [fst snd list_to_map foldr].
  rewrite <- insert_union_r by by apply not_elem_of_list_to_map_1. by rewrite insert_union_l.
Qed.

(** What [serializeXAttrs] returns, and the parser's view of it. *)
Lemma serializeXAttrs_spec (xattrs : gmap (list byte) (list byte)) order availSpace :
  order ≡ₚ map_to_list xattrs -> xattrs <> ∅ -> map_Forall (fun n v => attr_fits (n, v)) xattrs ->
  (attrs_size (map_to_list xattrs) <= availSpace /\
   exists buf, serializeXAttrs order availSpace = Ok buf /\ zlen buf = availSpace /\
     (forall raw base, availSpace < 2 ^ 16 -> 0 <= base -> base + availSpace = zlen raw -> sub raw base availSpace = buf ->
        parse_xattrs (S (length raw)) raw base base ∅ = Ok xattrs)) \/
  (availSpace < attrs_size (map_to_list xattrs) /\
   serializeXAttrs order availSpace = Err (Sentinel vfs_ErrNoSpace)).
Proof.
  intros Hp Hne Hfits. rewrite <- (attrs_size_perm _ _ Hp).
  destruct order as [|nv order']. { symmetry in Hp. apply Permutation_nil_r in Hp. by apply map_to_list_empty_iff in Hp. }
  set (order := nv :: order') in *.
  destruct (Permutation_map_inv xattr_entry order (merge_sort_Permutation not_less (xattr_entry <$> order))) as (l & El & Hl).
  change (map xattr_entry l) with (xattr_entry <$> l) in El.
  assert (Hnd : NoDup l.*1) by (rewrite <- Hl, Hp; apply NoDup_fst_map_to_list).
  assert (Hwf : Forall entry_wf (xattr_entry <$> l)).
  { apply Forall_fmap, Forall_forall. intros [n v] Hin. apply xattr_entry_wf.
    rewrite <- Hl, Hp in Hin. apply elem_of_map_to_list in Hin. by apply Hfits. }
  assert (Es : serializeXAttrs order availSpace =
    let entries := merge_sort not_less (xattr_entry <$> order) in
    if availSpace <? table_len entries + values_len entries then Err (Sentinel vfs_ErrNoSpace)
    else serialize_loop entries (zeros availSpace) 0 availSpace) by done.
  rewrite Es. set (entries := merge_sort _ _). assert (Een : entries = xattr_entry <$> l) by exact El.
  rewrite Een. cbn zeta. rewrite table_len_sum, values_len_sum.
  pose proof (entries_values_size l) as Hsz. rewrite <- (attrs_size_perm _ _ Hl) in Hsz.
  pose proof (values_size_nonneg (xattr_entry <$> l)). pose proof (entries_size_nonneg _ Hwf).
  destruct (Z.ltb_spec availSpace (entries_size (xattr_entry <$> l) + 4 + values_size (xattr_entry <$> l))) as [Hno|Hroom];
    [right; split; [lia|done]|left; split; [lia|]].
  destruct (serialize_loop_ok (xattr_entry <$> l) (zeros availSpace) 0 availSpace) as (buf & E & Hlen & _ & _ & Hin);
    [done|lia|lia|by rewrite zlen_zeros by lia| |].
  { rewrite Z.sub_0_r. apply (sub_zeros_within _ 0 availSpace); [|lia..]. rewrite <- (zlen_zeros availSpace) at 2 by lia. apply sub_all. }
  rewrite zlen_zeros in Hlen by lia. exists buf. split; [done|]. split; [done|].
  intros raw base Hmax Hbase Hraw Hsub. rewrite <- (Z.add_0_r base) at 2.
  rewrite (parse_xattrs_ok raw base 0 availSpace (xattr_entry <$> l)); try done; try lia.
  - rewrite foldl_add_entry by done. rewrite map_union_empty. f_equal.
    rewrite (list_to_map_proper l (map_to_list xattrs)) by (done || by rewrite <- Hl). apply list_to_map_to_list.
  - apply (entries_in_sub raw base availSpace 0 availSpace); try done; try lia. by rewrite Hsub.
  - assert (Hcount : Z.of_nat (length (xattr_entry <$> l)) <= entries_size (xattr_entry <$> l)); [|unfold zlen in *; lia].
    clear -Hwf. induction Hwf as [|e es (_ & Hr & _) _ IH]; [done|]. cbn [length entries_size foldr]. fold (entries_size es).
    pose proof (entry_len_bounds e ltac:(lia)). lia.
Qed.

(** ** An example *)
Lemma serializeXAttrs_order_witness :
  serializeXAttrs [(bytes_of_string "user.b", [Byte.x02]); (bytes_of_string "user.a", [Byte.x01])] 96 =
  serializeXAttrs [(bytes_of_string "user.a", [Byte.x01]); (bytes_of_string "user.b", [Byte.x02])] 96.
Proof.
  apply (serializeXAttrs_order (list_to_map [(bytes_of_string "user.a", [Byte.x01]); (bytes_of_string "user.b", [Byte.x02])])).
  - rewrite map_to_list_to_map by by_decision. apply Permutation_swap.
  - by rewrite map_to_list_to_map by by_decision.
Defined.
