(* ===== verification/XattrSet.v ===== *)
(** Setting an attribute and reading it back. *)
From S2P Require Export XattrTable.

Section set_laws.
Context {D : Type} `{Device D}.
Implicit Types fs : FileSystem D.

(** ** The raw inode *)
Lemma raw_inode_offset fs n off :
  fs_ok fs -> inode_at fs n off ->
  exists sb bgd, Superblock fs = Some sb /\ 0 < S_inodes_per_group sb /\
    Bgds fs !! Z.to_nat ((n - 1) / S_inodes_per_group sb) = Some bgd /\ 0 <= (n - 1) / S_inodes_per_group sb < GroupCount fs /\
    i64 (w64 (w64 (lo_hi (DescSize fs) (BG_inode_table_lo bgd) (BG_inode_table_hi bgd) * BlockSize fs) +
         w64 ((n - 1) mod S_inodes_per_group sb * InodeSize fs))) = off.
Proof.
  intros Hok Hat. pose proof (inode_at_range fs n off Hok Hat) as Hoff.
  destruct Hat as (sb & bgd & Hsb & Hn & Hipg & Hg & Hbgd & Htlo & Htab & Eoff & Hisz & Hfit).
  pose proof Hok as (Hbs & _ & Hmax & _).
  pose proof (Z.mod_pos_bound (n - 1) (S_inodes_per_group sb) Hipg) as Hmod.
  exists sb, bgd. split; [done|]. split; [done|]. split; [done|]. split; [split; [apply Z.div_pos; lia|done]|].
  set (tab := lo_hi _ _ _) in *.
  assert (0 <= tab * BlockSize fs) by nia. assert (0 <= (n - 1) mod S_inodes_per_group sb * InodeSize fs) by nia.
  rewrite (w64_id (tab * _)), (w64_id (_ * InodeSize fs)), w64_id by lia. rewrite <- Eoff. apply i64_id. lia.
Qed.

Lemma ReadRawInode_ok fs n off :
  fs_ok fs -> inode_at fs n off -> ReadRawInode n fs = (Ok (sub (fs_content fs) off (InodeSize fs)), fs).
Proof.
  intros Hok Hat. pose proof (inode_at_range fs n off Hok Hat) as Hoff.
  destruct (raw_inode_offset fs n off Hok Hat) as (sb & bgd & Hsb & Hipg & Hbgd & Hg & Eoff).
  destruct Hat as (_ & _ & _ & Hn & _ & _ & _ & _ & _ & _ & Hisz & Hfit).
  unfold ReadRawInode. rewrite (proj2 (Z.ltb_ge n 1)) by lia.
  rewrite (bind_ok _ _ _ _ _ (inode_position_ok fs sb n Hsb Hipg)). rewrite get_bind.
  rewrite (proj2 (Z.leb_gt _ _)) by lia. rewrite (bind_ok _ _ _ _ _ (get_bgd_ok fs _ bgd (proj1 Hg) Hbgd)). cbn zeta.
  rewrite Eoff. apply fs_read; [done|lia|lia|done].
Qed.

Lemma WriteRawInode_ok fs n off buf :
  fs_ok fs -> inode_at fs n off -> zlen buf = InodeSize fs ->
  exists v, WriteRawInode n buf fs = (Ok tt, set_dev v fs) /\ fs_ok (set_dev v fs) /\
    fs_content (set_dev v fs) = put (fs_content fs) off buf.
Proof.
  intros Hok Hat Hl. pose proof (inode_at_range fs n off Hok Hat) as Hoff.
  destruct (raw_inode_offset fs n off Hok Hat) as (sb & bgd & Hsb & Hipg & Hbgd & Hg & Eoff).
  destruct Hat as (_ & _ & _ & Hn & _ & _ & _ & _ & _ & _ & Hisz & Hfit).
  destruct (fs_write fs off buf) as (v & Hw & Hok' & Hc' & _); [done|lia|lia|]. exists v.
  unfold WriteRawInode. rewrite (proj2 (Z.ltb_ge n 1)) by lia.
  rewrite (bind_ok _ _ _ _ _ (inode_position_ok fs sb n Hsb Hipg)). rewrite get_bind.
  rewrite (proj2 (Z.leb_gt _ _)) by lia. rewrite (bind_ok _ _ _ _ _ (get_bgd_ok fs _ bgd (proj1 Hg) Hbgd)). cbn zeta.
  by rewrite Eoff.
Qed.

(** ** Attributes in the inode *)

(** The inode at [off] has room for attributes behind its fields. *)
Definition inode_has_room fs (off : Z) (inode : Inode) : Prop :=
  binary_Read (sub (fs_content fs) off (InodeSize fs)) = Ok inode /\
  32 <= I_extra_isize inode /\ 132 + I_extra_isize inode < InodeSize fs < 2 ^ 16.

Definition with_table (raw : list byte) (ibody : Z) (table : list byte) : list byte :=
  put (put raw ibody (le_split 4 XATTR_MAGIC)) (ibody + 4) table.

Lemma ibody_xattrs_table inode raw table xattrs :
  32 <= I_extra_isize inode -> 132 + I_extra_isize inode < zlen raw -> zlen raw < 2 ^ 16 ->
  zlen table = zlen raw - 132 - I_extra_isize inode ->
  (forall raw' base, zlen table < 2 ^ 16 -> 0 <= base -> base + zlen table = zlen raw' -> sub raw' base (zlen table) = table ->
     parse_xattrs (S (length raw')) raw' base base ∅ = Ok xattrs) ->
  ibody_xattrs inode (with_table raw (128 + I_extra_isize inode) table) = Ok xattrs.
Proof.
  intros He Hroom Hmax Hl Hparse. set (ibody := 128 + I_extra_isize inode) in *.
  unfold ibody_xattrs. fold ibody. set (raw' := with_table raw ibody table).
  assert (Hl' : zlen raw' = zlen raw) by (unfold raw', with_table; by rewrite !zlen_put).
  rewrite (proj2 (Z.ltb_lt 0 _)) by lia. rewrite (w16_id ibody), w16_id by lia. rewrite Hl', (proj2 (Z.leb_le (ibody + 4) _)) by lia.
  cbn [andb]. rewrite getUint_in by lia. cbn [mbind res_bind].
  assert (Em : le_get 4 raw' ibody = XATTR_MAGIC).
  { unfold raw', with_table. rewrite le_get_put_disj by lia. by rewrite le_get_put_same by lia. }
  rewrite Em, Z.eqb_refl. apply Hparse; [lia|lia|lia|].
  unfold raw', with_table. apply sub_put_same; rewrite ?zlen_put; lia.
Qed.

Lemma ListXAttrs_inode fs n off inode :
  fs_ok fs -> inode_at fs n off -> binary_Read (sub (fs_content fs) off (InodeSize fs)) = Ok inode ->
  file_acl_block inode = 0 ->
  ListXAttrs n fs = (ibody_xattrs inode (sub (fs_content fs) off (InodeSize fs)), fs).
Proof.
  intros Hok Hat Hin Hacl. unfold ListXAttrs. rewrite (bind_ok _ _ _ _ _ (ReadRawInode_ok fs n off Hok Hat)).
  rewrite Hin, lift_ok_bind, Hacl. cbn [Z.ltb]. unfold lift, mbind, M_bind. by destruct (ibody_xattrs _ _).
Qed.

Lemma set_acl_block_id inode : struct_wf inode -> file_acl_block inode = 0 -> set_acl_block 0 inode = inode.
Proof.
  intros Hwf Hacl. unfold file_acl_block in Hacl. apply Z.lor_eq_0_iff in Hacl as [Hh Hlo].
  apply Z.shiftl_eq_0_iff in Hh; [|lia]. destruct inode. cbn in *. by subst.
Qed.

(** The inode structure is the front of the raw inode, and the table does
    not reach it. *)
Lemma raw_inode_front raw (inode : Inode) :
  160 <= zlen raw -> binary_Read raw = Ok inode -> struct_wf inode /\ binary_Write inode = sub raw 0 160.
Proof.
  intros Hl Hin. destruct (binary_Read_Ok (A := Inode) raw) as (i & E & Hwf & Hw); [by rewrite binary_Size_Inode|].
  rewrite E in Hin. injection Hin as <-. done.
Qed.

Lemma with_table_front raw ibody table : 160 <= ibody -> sub (with_table raw ibody table) 0 160 = sub raw 0 160.
Proof. intros. unfold with_table. by rewrite !sub_put_disj by lia. Qed.

(** The steps of [SetXAttr] when the table fits the inode. *)
Lemma SetXAttr_run fs n off inode iter old name v table w :
  fs_ok fs -> inode_at fs n off -> inode_has_room fs off inode -> file_acl_block inode = 0 ->
  ListXAttrs n fs = (Ok old, fs) ->
  serializeXAttrs (iter (<[name := v]> old)) (InodeSize fs - 128 - I_extra_isize inode - 4) = Ok table ->
  WriteRawInode n (with_table (sub (fs_content fs) off (InodeSize fs)) (128 + I_extra_isize inode) table) fs = (Ok tt, set_dev w fs) ->
  SetXAttr iter n name (Some v) fs = (Ok tt, set_dev w fs).
Proof.
  intros Hok Hat (Hin & Hex & Hroom) Hacl Hlist Eser Hw.
  pose proof (inode_at_range fs n off Hok Hat) as Hoff. pose proof Hat as (_ & _ & _ & _ & _ & _ & _ & _ & _ & _ & Hisz & Hfit).
  set (raw := sub (fs_content fs) off (InodeSize fs)) in *.
  assert (Hrl : zlen raw = InodeSize fs) by (apply zlen_sub; lia).
  destruct (raw_inode_front raw inode ltac:(lia) Hin) as [Hwf Hfront].
  unfold SetXAttr. rewrite (bind_ok _ _ _ _ _ Hlist), M_left_id.
  rewrite (bind_ok _ _ _ _ _ (ReadRawInode_ok fs n off Hok Hat)). fold raw. rewrite Hin, lift_ok_bind, get_bind. cbn zeta.
  rewrite !(proj2 (Z.ltb_lt 0 _)) by lia. cbn [andb].
  assert (Ec : catch (lift (serializeXAttrs (iter (<[name:=v]> old)) (InodeSize fs - 128 - I_extra_isize inode - 4))) fs =
               (Ok (inl table), fs)) by (by apply catch_ok; unfold lift; rewrite Eser).
  rewrite (bind_ok _ _ _ _ _ Ec). unfold set_in_inode. rewrite get_bind. cbn zeta.
  rewrite set_acl_block_id, Hfront, put_sub_id by (done || lia).
  rewrite bool_decide_false by apply insert_non_empty.
  rewrite putUint_in by lia. cbn [mbind res_bind]. rewrite copy_at_in by (rewrite zlen_put; lia).
  rewrite lift_ok_bind. fold (with_table raw (128 + I_extra_isize inode) table).
  rewrite (bind_ok _ _ _ _ _ Hw). unfold free_acl_block. by rewrite Hacl.
Qed.

End set_laws.

(** ** Attributes in a block of their own *)
Lemma xattr_block_ok bs table :
  32 <= bs -> exists hdr, xattr_block bs table = Ok (put hdr 32 table) /\ zlen hdr = bs /\
    le_get 4 hdr 0 = XATTR_MAGIC.
Proof.
  intros Hbs. unfold xattr_block.
  do 5 (rewrite putUint_in by (rewrite ?zlen_put, ?zlen_zeros by lia; lia); cbn [mbind res_bind]).
  rewrite copy_at_in by (rewrite !zlen_put, zlen_zeros by lia; lia). eexists. split; [done|].
  rewrite !zlen_put, zlen_zeros by lia. split; [done|].
  rewrite !le_get_put_disj by (rewrite ?zlen_le_split; lia). by rewrite le_get_put_same by (rewrite ?zlen_zeros by lia; lia).
Qed.

(** The table of one attribute. *)
Lemma serialize_single name v availSpace :
  attr_fits (name, v) -> attrs_size [(name, v)] <= availSpace ->
  let e := xattr_entry (name, v) in
  exists table, serializeXAttrs [(name, v)] availSpace = Ok table /\ zlen table = availSpace /\
    sub table 0 (16 + nameLen e) = entry_bytes e (availSpace - value_len e) /\
    sub table (entry_len e) (availSpace - value_len e - entry_len e) = zeros (availSpace - value_len e - entry_len e).
Proof.
  intros Hfits Hsize e. pose proof (xattr_entry_wf _ Hfits) as He. fold e in He. pose proof He as (Hl & Hr & _).
  unfold attrs_size in Hsize. cbn [foldr] in Hsize. fold e in Hsize.
  pose proof (entry_len_bounds e ltac:(lia)). pose proof (value_len_bounds e). pose proof (zlen_nonneg (value e)).
  assert (Es : serializeXAttrs [(name, v)] availSpace =
    if availSpace <? table_len [e] + values_len [e] then Err (Sentinel vfs_ErrNoSpace)
    else serialize_loop [e] (zeros availSpace) 0 availSpace) by done.
  rewrite Es, table_len_sum, values_len_sum. cbn [entries_size values_size foldr]. rewrite (proj2 (Z.ltb_ge _ _)) by lia.
  rewrite serialize_step by (rewrite ?zlen_zeros by lia; done || lia). cbn [serialize_loop]. eexists. split; [done|].
  rewrite !zlen_put, zlen_zeros by lia. split; [done|].
  assert (Hb : zlen (entry_bytes e (availSpace - value_len e)) = 16 + nameLen e) by (rewrite zlen_entry_bytes; lia).
  split.
  - rewrite sub_put_disj by lia. apply sub_put_eq; rewrite ?zlen_zeros by lia; lia.
  - rewrite !sub_put_disj by lia. apply (sub_zeros_within _ 0 availSpace); try lia.
    rewrite <- (zlen_zeros availSpace) at 2 by lia. apply sub_all.
Qed.

(** An attribute that goes into a block of its own does not read back:
    the stored offset counts from byte 32 of the block and the reader counts
    from byte 0, so a value of up to 32 bytes reads as that many zeros. *)
Theorem block_value_misread bs name v :
  attr_fits (name, v) -> 0 < zlen v <= 32 -> bs < 2 ^ 16 -> attrs_size [(name, v)] + 64 <= bs ->
  exists table full,
    serializeXAttrs [(name, v)] (bs - 32) = Ok table /\ xattr_block bs table = Ok full /\
    block_xattrs full ∅ = Ok {[ name := zeros (zlen v) ]}.
Proof.
  intros Hfits Hv Hbs Hsize. pose proof (xattr_entry_wf _ Hfits) as He. set (e := xattr_entry (name, v)) in *.
  pose proof He as (Hl & Hr & Hi & _). assert (Eval : value e = v) by apply xattr_entry_value.
  pose proof (f_equal zlen Eval) as Evl.
  unfold attrs_size in Hsize. cbn [foldr] in Hsize. fold e in Hsize.
  pose proof (entry_len_bounds e ltac:(lia)). pose proof (value_len_bounds e) as Hvb. rewrite Eval in Hvb.
  assert (Hvl4 : value_len e <= 32).
  { unfold value_len. rewrite Eval. destruct (align4_spec (zlen v)) as [Ha Hm]; [lia|].
    pose proof (Z.div_mod (align4 (zlen v)) 4 ltac:(lia)). lia. }
  destruct (serialize_single name v (bs - 32) Hfits) as (table & Eser & Htl & Hentry & Hgap).
  { unfold attrs_size. cbn [foldr]. fold e. lia. }
  fold e in Hentry, Hgap. destruct (xattr_block_ok bs table) as (hdr & Efull & Hhl & Hmagic); [lia|].
  exists table, (put hdr 32 table). split; [done|]. split; [done|]. set (full := put hdr 32 table).
  assert (Hfl : zlen full = bs) by (unfold full; by rewrite zlen_put).
  assert (Htab : sub full 32 (bs - 32) = table) by (unfold full; apply sub_put_eq; lia).
  set (val := bs - 32 - value_len e) in *.
  assert (Hent : sub full 32 (16 + nameLen e) = entry_bytes e val).
  { rewrite <- Hentry, <- Htab, sub_sub by lia. done. }
  assert (Hgap' : forall o n, 32 + entry_len e <= o -> 0 <= n -> o + n <= 32 + val -> sub full o n = zeros n).
  { intros o n Ho Hn0 Hn. replace o with (32 + (o - 32)) by lia. rewrite <- (sub_sub full 32 (bs - 32)) by lia. rewrite Htab.
    by apply (sub_zeros_within table (entry_len e) (val - entry_len e)); try lia. }
  unfold block_xattrs. rewrite getUint_in by lia. cbn [mbind res_bind].
  assert (Em : le_get 4 full 0 = XATTR_MAGIC) by (unfold full; by rewrite le_get_put_disj by lia).
  rewrite Em, Z.eqb_refl. destruct (length full) as [|len] eqn:El; [unfold zlen in *; lia|].
  rewrite (parse_xattrs_step full 0 32 e val); try done; try lia; [|apply entry_fields; [done|done|lia|lia]].
  rewrite parse_xattrs_end; [|lia|lia|apply Hgap'; lia].
  rewrite Eval, Hgap' by lia. unfold e. by rewrite xattr_entry_join.
Qed.

(** ** Examples: an inode of 256 bytes, an attribute block of 128 *)
Definition ex_xinode : Inode := c_dec binary (poke 2 128 32 (binary_Write ex_inode)).
Definition ex_xattr_fs : FileSystem File :=
  mkFileSystem (Direct (mkFile (put ex_image 2240 (binary_Write ex_xinode)))) (Some ex_sb) [ex_gd] 64 256 1 64 ∅.

Lemma ex_xattr_len : zlen (fs_content ex_xattr_fs) = 3072.
Proof. unfold ex_xattr_fs, fs_content. cbn. rewrite zlen_put. apply ex_image_len. Qed.

Lemma ex_xattr_fs_ok : fs_ok ex_xattr_fs.
Proof. unfold fs_ok. rewrite ex_xattr_len. split; [done|]. split; [by exists 48|]. by split. Qed.

Lemma ex_xattr_at : inode_at ex_xattr_fs 1 2240.
Proof.
  destruct ex_sb_fields as (Eipg & _), ex_gd_fields as (Et & Eth & _).
  exists ex_sb, ex_gd. rewrite Eipg, Et, Eth, ex_xattr_len. cbn [ex_xattr_fs Superblock GroupCount Bgds DescSize BlockSize InodeSize].
  change (lo_hi 64 35 0) with 35. repeat split; try lia.
Qed.


Lemma block_value_misread_witness :
  exists table full, serializeXAttrs [(bytes_of_string "user.a", [Byte.x01; Byte.x02])] 96 = Ok table /\
    xattr_block 128 table = Ok full /\ block_xattrs full ∅ = Ok {[ bytes_of_string "user.a" := [Byte.x00; Byte.x00] ]}.
Proof.
  apply (block_value_misread 128 (bytes_of_string "user.a") [Byte.x01; Byte.x02]).
  - split; vm_compute; reflexivity.
  - split; vm_compute; [reflexivity|discriminate].
  - lia.
  - vm_compute. discriminate.
Defined.
