(* ===== verification/Journal.v ===== *)
(** The journal: committing a transaction ([CommitTransaction] of
    [src/vfs/journal_writer.go]) and recovery ([src/vfs/jbd2.go]).

    The two iterations over the map of dirty blocks are parameters: Go
    visits a map in an unspecified order, each time anew. *)
From S2P Require Export Directory.

Definition JBD2_MAGIC : Z := 0xC03B3998.
Definition JBD2_MAGIC_OLD : Z := 0xC03B3999.
Definition JBD2_DESCRIPTOR : Z := 1.
Definition JBD2_BLOCK : Z := 2.
Definition JBD2_COMMIT : Z := 3.
Definition JBD2_REVOKE : Z := 4.
Definition JBD2_SUPERBLOCK : Z := 5.
Definition JBD2_FLAG_ESCAPE : Z := 1.
Definition JBD2_FLAG_LAST_TAG : Z := 64.
Definition JBD2_FLAG_CRC32 : Z := 128.
Definition EXT4_FEATURE_INCOMPAT_RECOVERY : Z := 0x0001.

Record jbd2Header := mkJbd2Header { H_magic : Z; H_blocktype : Z; H_sequence : Z }.
Record jbd2Superblock := mkJbd2Superblock {
  j_Header : jbd2Header; j_S_sequence : Z; j_S_start : Z; j_S_maxlen : Z
}.

(** The fields both readers of the journal superblock decode. *)
Definition decode_header (buf : list byte) : res jbd2Header :=
  magic <- getUint32 buf 0 ;;
  blocktype <- getUint32 buf 4 ;;
  sequence <- getUint32 buf 8 ;;
  Ok (mkJbd2Header magic blocktype sequence).

Definition decode_jsb (buf : list byte) : res jbd2Superblock :=
  hdr <- decode_header buf ;;
  sequence <- getUint32 buf 12 ;;
  start <- getUint32 buf 16 ;;
  maxlen <- getUint32 buf 20 ;;
  Ok (mkJbd2Superblock hdr sequence start maxlen).

Definition bad_magic (jsb : jbd2Superblock) : bool :=
  negb (H_magic (j_Header jsb) =? JBD2_MAGIC) && negb (H_magic (j_Header jsb) =? JBD2_MAGIC_OLD).

Definition escBytes : list Z := [0x4A; 0x6F; 0x6E; 0x75].

(** [buf[i] ^= escBytes[i]] for the first four bytes there are. *)
Definition escape (buf : list byte) : list byte :=
  imap (fun i b => match escBytes !! i with Some e => byte.of_Z (Z.lxor (byte.unsigned b) e) | None => b end) buf.

(** [pos++; if pos > S_maxlen { pos = 1 }] *)
Definition wrap_pos (maxlen pos : Z) : Z := if maxlen <? pos then 1 else pos.
Definition next_pos (maxlen pos : Z) : Z := wrap_pos maxlen (w32 (pos + 1)).

(** ** Committing *)

(** Whether a dirty block starts with the journal's magic number. *)
Definition needs_escape (blockData : list byte) : bool :=
  (4 <=? zlen blockData) && (le_get 4 blockData 0 =? JBD2_MAGIC).

(** The tags of the descriptor block and the blocks that follow it. *)
Fixpoint commit_tags (blockSize ndirty : Z) (dirty : list (Z * list byte)) (blockIndex off : Z) (descBuf : list byte)
    : res (list byte * list (list byte)) :=
  match dirty with
  | [] => Ok (descBuf, [])
  | (blockNum, blockData) :: dirty' =>
      let escaped := needs_escape blockData in
      let dataCopy := put (zeros blockSize) 0 blockData in
      let dataCopy := if escaped then escape dataCopy else dataCopy in
      let flags := if escaped then JBD2_FLAG_ESCAPE else 0 in
      let flags := if blockIndex =? ndirty - 1 then Z.lor flags JBD2_FLAG_LAST_TAG else flags in
      descBuf <- putUint32 descBuf off (w32 blockNum) ;;
      descBuf <- putUint32 descBuf (off + 4) flags ;;
      r <- commit_tags blockSize ndirty dirty' (blockIndex + 1) (off + 8) descBuf ;;
      Ok (r.1, dataCopy :: r.2)
  end.

Section journal.
Context {D : Type} `{ReadWriterAt D} `{Env}.

(** [physBlock, found := findPhysicalBlock(extents, pos)], failing if it is
    not found, and the write of [buf] there. *)
Definition journal_write (notFound failed : string) (extents : list Extent) (pos : Z) (buf : list byte) : FS D unit :=
  match findPhysicalBlock extents pos with
  | None => fail (Errorf notFound)
  | Some physBlock =>
      fs <- get ;;
      wrap failed (fs_WriteAt (block_offset (BlockSize fs) physBlock) buf)
  end.

Definition commit_to_journal (extents : list Extent) (jsbBlock : Z) (jsbBuf : list byte) (jsb : jbd2Superblock)
    (dirty1 dirty2 : list (Z * list byte)) : FS D unit :=
  fs <- get ;;
  let blockSize := BlockSize fs in
  let maxlen := j_S_maxlen jsb in
  let pos := if (j_S_start jsb =? 0) || (maxlen <? j_S_start jsb) then 1 else j_S_start jsb in
  let sequence := j_S_sequence jsb in
  descBuf <- lift (putUint32 (zeros blockSize) 0 JBD2_MAGIC) ;;
  descBuf <- lift (putUint32 descBuf 4 JBD2_DESCRIPTOR) ;;
  descBuf <- lift (putUint32 descBuf 8 sequence) ;;
  let! (descBuf, dataBlocksToWrite) := lift (commit_tags blockSize (zlen dirty1) dirty1 0 12 descBuf) in
  journal_write "jbd2 commit: physical block for descriptor pos %d not found"
    "jbd2 commit: write descriptor block: %w" extents pos descBuf ;;
  pos <- forM dataBlocksToWrite pos (fun dataBuf pos =>
    let pos := next_pos maxlen pos in
    journal_write "jbd2 commit: physical block for data pos %d not found"
      "jbd2 commit: write data block: %w" extents pos dataBuf ;;
    mret pos) ;;
  let pos := next_pos maxlen pos in
  commitBuf <- lift (putUint32 (zeros blockSize) 0 JBD2_MAGIC) ;;
  commitBuf <- lift (putUint32 commitBuf 4 JBD2_COMMIT) ;;
  commitBuf <- lift (putUint32 commitBuf 8 sequence) ;;
  commitBuf <- lift (putUint64 commitBuf 16 (w64 now)) ;;
  journal_write "jbd2 commit: physical block for commit pos %d not found"
    "jbd2 commit: write commit block: %w" extents pos commitBuf ;;
  let nextStart := next_pos maxlen pos in
  jsbBuf <- lift (putUint32 jsbBuf 12 (w32 (sequence + 1))) ;;
  jsbBuf <- lift (putUint32 jsbBuf 16 nextStart) ;;
  wrap "jbd2 commit: write journal superblock updates: %w"
    (fs_WriteAt (block_offset blockSize jsbBlock) jsbBuf) ;;
  wrap "jbd2 commit: final block writeback failed: %w" (writeDirtyBlocksDirectly dirty2).

Definition CommitTransaction (iter1 iter2 : gmap Z (list byte) -> list (Z * list byte)) : FS D unit :=
  fs <- get ;;
  match dev fs with
  | Direct _ => mret tt
  | InTx inner dirty =>
      modify (set_dev (Direct inner)) ;;
      if bool_decide (dirty = ∅) then mret tt
      else
        sb <- deref_sb ;;
        let journalInum := S_journal_inum sb in
        if journalInum =? 0 then writeDirtyBlocksDirectly (iter1 dirty)
        else
          jinode <- wrap "jbd2 commit: read journal inode: %w" (ReadInode journalInum) ;;
          extents <- wrap "jbd2 commit: read journal extents: %w" (ReadExtents jinode) ;;
          match findPhysicalBlock extents 0 with
          | None => fail (Errorf "jbd2 commit: journal superblock block not found")
          | Some jsbBlock =>
              jsbBuf <- wrap "jbd2 commit: read journal superblock: %w"
                          (fs_ReadAt (block_offset (BlockSize fs) jsbBlock) (BlockSize fs)) ;;
              jsb <- lift (decode_jsb jsbBuf) ;;
              if bad_magic jsb then writeDirtyBlocksDirectly (iter1 dirty)
              else commit_to_journal extents jsbBlock jsbBuf jsb (iter1 dirty) (iter2 dirty)
          end
  end.

(** ** Recovery *)
Record RecoveryResult := mkRecoveryResult {
  JournalReplayed : bool;
  BlocksApplied : Z;
  Transactions : Z;
  OrphansCleaned : Z;
  JournalSkipped : option error  (** the error in the message, [None] for the empty string *)
}.
Definition add_block (r : RecoveryResult) : RecoveryResult :=
  mkRecoveryResult (JournalReplayed r) (w32 (BlocksApplied r + 1)) (Transactions r) (OrphansCleaned r) (JournalSkipped r).
Definition add_transaction (r : RecoveryResult) : RecoveryResult :=
  mkRecoveryResult (JournalReplayed r) (BlocksApplied r) (w32 (Transactions r + 1)) (OrphansCleaned r) (JournalSkipped r).
Definition add_orphan (r : RecoveryResult) : RecoveryResult :=
  mkRecoveryResult (JournalReplayed r) (BlocksApplied r) (Transactions r) (w32 (OrphansCleaned r + 1)) (JournalSkipped r).
Definition set_replayed (r : RecoveryResult) : RecoveryResult :=
  mkRecoveryResult true (BlocksApplied r) (Transactions r) (OrphansCleaned r) (JournalSkipped r).
Definition set_skipped (e : error) (r : RecoveryResult) : RecoveryResult :=
  mkRecoveryResult (JournalReplayed r) (BlocksApplied r) (Transactions r) (OrphansCleaned r) (Some e).

(** The file system with the result object that recovery fills in. *)
Abbreviation Rec D := (M (FileSystem D * RecoveryResult)).

Definition JournalNeedsRecovery : FS D bool :=
  fs <- get ;;
  match Superblock fs with
  | None => mret false
  | Some sb => mret (negb (Z.land (S_feature_incompat sb) EXT4_FEATURE_INCOMPAT_RECOVERY =? 0))
  end.

Definition readJournalBlock (extents : list Extent) (logicalBlock : Z) : FS D (jbd2Header * list byte) :=
  match findPhysicalBlock extents logicalBlock with
  | None => fail (Errorf "journal logical block %d not found in extents")
  | Some physBlock =>
      fs <- get ;;
      buf <- wrap "failed to read journal block %d (phys %d): %w"
               (fs_ReadAt (block_offset (BlockSize fs) physBlock) (BlockSize fs)) ;;
      hdr <- lift (decode_header buf) ;;
      mret (hdr, buf)
  end.

(** The data block of one tag. *)
Definition replay_tag (extents : list Extent) (tagBlocknr tagFlags pos : Z) : Rec D unit :=
  let! (dataHdr, dataBuf) := zoom (wrap "data for block %d: %w" (readJournalBlock extents pos)) in
  if negb (H_blocktype dataHdr =? JBD2_BLOCK) then fail (Errorf "expected data block at pos %d, got type %d")
  else
    let dataBuf := if negb (Z.land tagFlags JBD2_FLAG_ESCAPE =? 0) then escape dataBuf else dataBuf in
    zoom (fs <- get ;;
          wrap "write to block %d: %w" (fs_WriteAt (block_offset (BlockSize fs) tagBlocknr) dataBuf)) ;;
    update add_block.

(** The tags of a descriptor block from byte [off] on; the result is the
    position of the last data block.  Each tag takes eight bytes, so a
    round per byte of the block is enough. *)
Fixpoint replay_tags (rounds : nat) (extents : list Extent) (jsb : jbd2Superblock) (buf : list byte) (off pos : Z)
    : Rec D Z :=
  if zlen buf <? off + 8 then mret pos
  else
    match rounds with
    | O => lift OutOfFuel
    | S rounds =>
        tagBlocknr <- lift (getUint32 buf off) ;;
        tagFlags <- lift (getUint32 buf (off + 4)) ;;
        let off := off + 8 in
        let off := if negb (Z.land tagFlags JBD2_FLAG_CRC32 =? 0) then off + 4 else off in
        if (tagBlocknr =? 0) && (tagFlags =? 0) then mret pos
        else
          let pos := next_pos (j_S_maxlen jsb) pos in
          if pos =? j_S_start jsb then fail (Errorf "unexpected wrap during descriptor data")
          else
            replay_tag extents tagBlocknr tagFlags pos ;;
            if negb (Z.land tagFlags JBD2_FLAG_LAST_TAG =? 0) then mret pos
            else replay_tags rounds extents jsb buf off pos
    end.

Fixpoint replay_loop (rounds : nat) (extents : list Extent) (jsb : jbd2Superblock) (pos : Z) : Rec D unit :=
  match rounds with
  | O => lift OutOfFuel
  | S rounds =>
      let pos := wrap_pos (j_S_maxlen jsb) pos in
      res <- the_result ;;
      if (pos =? j_S_start jsb) && (0 <? Transactions res) then mret tt
      else
        let! (hdr, buf) := zoom (wrap "block %d: %w" (readJournalBlock extents pos)) in
        if H_blocktype hdr =? JBD2_SUPERBLOCK then mret tt
        else if H_blocktype hdr =? JBD2_DESCRIPTOR then
          pos <- replay_tags (length buf) extents jsb buf 12 pos ;;
          replay_loop rounds extents jsb (wrap_pos (j_S_maxlen jsb) pos)
        else
          (if H_blocktype hdr =? JBD2_COMMIT then update add_transaction else mret tt) ;;
          replay_loop rounds extents jsb (next_pos (j_S_maxlen jsb) pos)
  end.

Definition replayJournal : Rec D unit :=
  sb <- zoom deref_sb ;;
  let journalInum := S_journal_inum sb in
  if journalInum =? 0 then fail (Errorf "S_journal_inum is 0")
  else if negb (S_journal_dev sb =? 0) then fail (Errorf "external journal (dev=%d) not supported")
  else
    jinode <- zoom (wrap "failed to read journal inode %d: %w" (ReadInode journalInum)) ;;
    extents <- zoom (wrap "failed to read journal extents: %w" (ReadExtents jinode)) ;;
    match findPhysicalBlock extents 0 with
    | None => fail (Errorf "journal block 0 not found")
    | Some jsbBlock =>
        fs <- zoom get ;;
        jsbBuf <- zoom (wrap "failed to read journal superblock: %w"
                          (fs_ReadAt (block_offset (BlockSize fs) jsbBlock) (BlockSize fs))) ;;
        jsb <- lift (decode_jsb jsbBuf) ;;
        if bad_magic jsb then fail (Errorf "bad journal magic 0x%08X")
        else if (j_S_start jsb =? 0) || (j_S_maxlen jsb <? j_S_start jsb) then mret tt
        else replay_loop fuel extents jsb (j_S_start jsb)
    end.

Fixpoint orphan_loop (rounds : nat) (next : Z) : Rec D unit :=
  if next =? 0 then mret tt
  else
    match rounds with
    | O => lift OutOfFuel
    | S rounds =>
        inode <- zoom (wrap "failed to read orphan inode %d: %w" (ReadInode next)) ;;
        zoom
          (if UsesExtents inode then
             r <- catch (ReadExtents inode) ;;
             match r with
             | inr _ => mret tt
             | inl extents =>
                 forM extents tt (fun ext _ =>
                   if ext_uninit ext then mret tt
                   else forM (seqZ 0 (ext_count ext)) tt (fun i _ => ignore (FreeBlock (w64 (ext_start ext + i)))))
             end
           else mret tt) ;;
        zoom (ignore (FreeInode next)) ;;
        update add_orphan ;;
        orphan_loop rounds (I_dtime inode)
    end.

Definition cleanOrphans : Rec D unit :=
  sb <- zoom deref_sb ;;
  if S_last_orphan sb =? 0 then mret tt
  else
    orphan_loop fuel (S_last_orphan sb) ;;
    zoom (sb <- deref_sb ;; modify (set_sb (set_S_last_orphan 0 sb)) ;; writeSuperBlock).

(** [fs.sb.S_feature_incompat &^= EXT4_FEATURE_INCOMPAT_RECOVERY] and the
    write of the superblock. *)
Definition clear_flag : FS D unit :=
  sb <- deref_sb ;;
  modify (set_sb (set_S_feature_incompat (Z.ldiff (S_feature_incompat sb) EXT4_FEATURE_INCOMPAT_RECOVERY) sb)) ;;
  writeSuperBlock.

Definition clearRecoveryFlag : FS D unit :=
  fs <- get ;;
  match Superblock fs with
  | None => mret tt
  | Some _ => clear_flag
  end.

Definition EnsureRecoveryFlagIsClear : FS D unit :=
  needed <- JournalNeedsRecovery ;;
  if needed : bool then clearRecoveryFlag else mret tt.

(** The replay of a journal that needs it; an error only leaves a message. *)
Definition replay_or_skip : Rec D unit :=
  update set_replayed ;;
  r <- catch replayJournal ;;
  match r with
  | inr err => update (set_skipped err)
  | inl _ => mret tt
  end.

Definition recover_body : Rec D unit :=
  needed <- zoom JournalNeedsRecovery ;;
  (if needed : bool then replay_or_skip else mret tt) ;;
  ignore cleanOrphans ;;
  zoom clear_flag.

Definition Recover : FS D RecoveryResult := fun fs =>
  let '(r, (fs', res)) := recover_body (fs, mkRecoveryResult false 0 0 0 None) in
  (mbind (fun _ => Ok res) r, fs').
End journal.
