(* ===== verification/Recovery.v ===== *)
(** What the journal code promises: replay against a specification of the
    journal as a log of block writes, its behaviour on journals that hold no
    end, and the recovery flag. *)
From S2P Require Export Journal.

(** ** The journal as a log

    The content of the device gives each journal position its block; the log
    relations say which writes replay makes of them, read from a store that
    does not change. *)
Definition jblock (c : list byte) (bs : Z) (extents : list Extent) (k : Z) : option (list byte) :=
  p ← findPhysicalBlock extents k;
  if (p + 1) * bs <=? zlen c then Some (sub c (p * bs) bs) else None.

(** A block that replay may write to without changing the journal. *)
Definition target_ok (c : list byte) (bs : Z) (extents : list Extent) (w : Z * list byte) : Prop :=
  (w.1 + 1) * bs <= zlen c /\ forall k, findPhysicalBlock extents k <> Some w.1.

Definition blocktype (buf : list byte) : Z := le_get 4 buf 4.
Definition tag_block (buf : list byte) (off : Z) : Z := le_get 4 buf off.
Definition tag_flags (buf : list byte) (off : Z) : Z := le_get 4 buf (off + 4).
Definition has (flag flags : Z) : bool := negb (Z.land flags flag =? 0).
Definition tag_data (flags : Z) (data : list byte) : list byte := if has JBD2_FLAG_ESCAPE flags then escape data else data.
Definition next_tag (flags off : Z) : Z := if has JBD2_FLAG_CRC32 flags then off + 8 + 4 else off + 8.

Section log.
Variables (jsb : jbd2Superblock) (jb : Z -> option (list byte)).
Let maxlen := j_S_maxlen jsb.
Let start := j_S_start jsb.

(** The tags of descriptor block [buf] from byte [off] on, when the last
    journal position used is [pos]: the writes and the last position. *)
Inductive tags_from (buf : list byte) : Z -> Z -> list (Z * list byte) -> Z -> Prop :=
  | tags_full off pos : zlen buf < off + 8 -> tags_from buf off pos [] pos
  | tags_stop off pos :
      off + 8 <= zlen buf -> tag_block buf off = 0 -> tag_flags buf off = 0 -> tags_from buf off pos [] pos
  | tags_last off pos data :
      off + 8 <= zlen buf -> tag_block buf off <> 0 \/ tag_flags buf off <> 0 ->
      next_pos maxlen pos <> start -> jb (next_pos maxlen pos) = Some data -> blocktype data = JBD2_BLOCK ->
      has JBD2_FLAG_LAST_TAG (tag_flags buf off) = true ->
      tags_from buf off pos [(tag_block buf off, tag_data (tag_flags buf off) data)] (next_pos maxlen pos)
  | tags_more off pos data ws pos' :
      off + 8 <= zlen buf -> tag_block buf off <> 0 \/ tag_flags buf off <> 0 ->
      next_pos maxlen pos <> start -> jb (next_pos maxlen pos) = Some data -> blocktype data = JBD2_BLOCK ->
      has JBD2_FLAG_LAST_TAG (tag_flags buf off) = false ->
      tags_from buf (next_tag (tag_flags buf off) off) (next_pos maxlen pos) ws pos' ->
      tags_from buf off pos ((tag_block buf off, tag_data (tag_flags buf off) data) :: ws) pos'.

(** The log from position [pos] on, after [n] commit blocks: the writes and
    the commit blocks at its end, in so many steps. *)
Inductive log_from : nat -> Z -> Z -> list (Z * list byte) -> Z -> Prop :=
  | log_wrapped pos n : wrap_pos maxlen pos = start -> 0 < n -> log_from 1 pos n [] n
  | log_superblock pos n buf :
      wrap_pos maxlen pos <> start \/ n = 0 -> jb (wrap_pos maxlen pos) = Some buf ->
      blocktype buf = JBD2_SUPERBLOCK -> log_from 1 pos n [] n
  | log_descriptor steps pos n buf ws pos' ws' n' :
      wrap_pos maxlen pos <> start \/ n = 0 -> jb (wrap_pos maxlen pos) = Some buf ->
      blocktype buf = JBD2_DESCRIPTOR -> tags_from buf 12 (wrap_pos maxlen pos) ws pos' ->
      log_from steps (wrap_pos maxlen pos') n ws' n' ->
      log_from (S steps) pos n (ws ++ ws') n'
  | log_commit steps pos n buf ws n' :
      wrap_pos maxlen pos <> start \/ n = 0 -> jb (wrap_pos maxlen pos) = Some buf ->
      blocktype buf = JBD2_COMMIT -> log_from steps (next_pos maxlen (wrap_pos maxlen pos)) (w32 (n + 1)) ws n' ->
      log_from (S steps) pos n ws n'
  | log_other steps pos n buf ws n' :
      wrap_pos maxlen pos <> start \/ n = 0 -> jb (wrap_pos maxlen pos) = Some buf ->
      blocktype buf ∉ [JBD2_SUPERBLOCK; JBD2_DESCRIPTOR; JBD2_COMMIT] ->
      log_from steps (next_pos maxlen (wrap_pos maxlen pos)) n ws n' ->
      log_from (S steps) pos n ws n'.
End log.

(** ** Reading and writing under a result object *)
Lemma zlen_escape l : zlen (escape l) = zlen l.
Proof. unfold zlen, escape. by rewrite length_imap. Qed.
Lemma zlen_tag_data flags l : zlen (tag_data flags l) = zlen l.
Proof. unfold tag_data. destruct (has _ _); [apply zlen_escape|done]. Qed.

Lemma apply_blocks_app bs c l1 l2 : apply_blocks bs c (l1 ++ l2) = apply_blocks bs (apply_blocks bs c l1) l2.
Proof. unfold apply_blocks. apply foldl_app. Qed.

Lemma sub_put_block (c d : list byte) bs k k' :
  0 < bs -> zlen d = bs -> 0 <= k -> 0 <= k' -> k <> k' -> sub (put c (k * bs) d) (k' * bs) bs = sub c (k' * bs) bs.
Proof. intros. apply sub_put_disj; nia. Qed.

Lemma jblock_put c bs extents t d k :
  0 < bs -> zlen d = bs -> 0 <= t -> (forall k, findPhysicalBlock extents k <> Some t) ->
  jblock (put c (t * bs) d) bs extents k = jblock c bs extents k.
Proof.
  intros Hbs Hd Ht Hother. unfold jblock. destruct (findPhysicalBlock extents k) as [p|] eqn:E; [|done]. cbn [mbind option_bind].
  rewrite zlen_put, sub_put_block; [done..| |by intros ->; apply (Hother k)]. by apply find_nonneg in E.
Qed.

Lemma jblock_Some c bs extents k buf :
  0 < bs -> jblock c bs extents k = Some buf ->
  exists p, findPhysicalBlock extents k = Some p /\ 0 <= p /\ (p + 1) * bs <= zlen c /\ buf = sub c (p * bs) bs /\ zlen buf = bs.
Proof.
  unfold jblock. intros Hbs. destruct (findPhysicalBlock extents k) as [p|] eqn:E; [|done]. cbn [mbind option_bind].
  destruct (Z.leb_spec ((p + 1) * bs) (zlen c)); [|done]. intros [= <-]. pose proof (find_nonneg _ _ _ E).
  exists p. repeat split; try done. apply zlen_sub; nia.
Qed.

Section recovery.
Context {D : Type} `{Device D} {env : Env}.
Implicit Types fs : FileSystem D.

Definition journal_block fs (extents : list Extent) := jblock (fs_content fs) (BlockSize fs) extents.

Lemma decode_header_ok buf : 12 <= zlen buf -> decode_header buf = Ok (mkJbd2Header (le_get 4 buf 0) (blocktype buf) (le_get 4 buf 8)).
Proof. intros Hl. unfold decode_header. rewrite !getUint_in by lia. done. Qed.

Lemma readJournalBlock_ok fs extents k buf :
  fs_ok fs -> 12 <= BlockSize fs -> journal_block fs extents k = Some buf ->
  readJournalBlock extents k fs = (Ok (mkJbd2Header (le_get 4 buf 0) (blocktype buf) (le_get 4 buf 8), buf), fs).
Proof.
  intros Hok Hbs Hb. apply jblock_Some in Hb as (p & Hfind & Hp & Hfit & -> & Hl); [|lia].
  unfold readJournalBlock. rewrite Hfind, get_bind.
  rewrite (bind_ok _ _ _ _ _ (wrap_ok _ _ _ _ _ (read_block fs p Hok Hp Hfit))).
  rewrite decode_header_ok by lia. done.
Qed.

(** The file system after the writes [ws], and the counters. *)
Definition applied fs (ws : list (Z * list byte)) fs' : Prop :=
  (exists v, fs' = set_dev v fs) /\ fs_ok fs' /\ fs_content fs' = apply_blocks (BlockSize fs) (fs_content fs) ws.

Fixpoint count_blocks (n : nat) (r : RecoveryResult) : RecoveryResult :=
  match n with O => r | S n => count_blocks n (add_block r) end.
Definition set_transactions (n : Z) (r : RecoveryResult) : RecoveryResult :=
  mkRecoveryResult (JournalReplayed r) (BlocksApplied r) n (OrphansCleaned r) (JournalSkipped r).

Lemma applied_nil fs : fs_ok fs -> applied fs [] fs.
Proof. intros Hok. split; [|done]. exists (dev fs). by destruct fs. Qed.

Lemma applied_app fs ws fs1 ws' fs2 : applied fs ws fs1 -> applied fs1 ws' fs2 -> applied fs (ws ++ ws') fs2.
Proof.
  intros ((v & ->) & Hok & Hc) ((v' & ->) & Hok' & Hc'). split; [by exists v'|]. split; [done|].
  rewrite Hc', apply_blocks_app. by rewrite <- Hc.
Qed.

Lemma applied_bs fs ws fs' : applied fs ws fs' -> BlockSize fs' = BlockSize fs.
Proof. by intros ((v & ->) & _). Qed.

Lemma applied_zlen fs ws fs' : applied fs ws fs' -> zlen (fs_content fs') = zlen (fs_content fs).
Proof. intros (_ & _ & ->). apply zlen_apply_blocks. Qed.

Lemma count_blocks_app n m r : count_blocks m (count_blocks n r) = count_blocks (n + m) r.
Proof. revert r. induction n as [|n IH]; intros r; [done|apply IH]. Qed.

Lemma count_blocks_Blocks n r :
  0 <= BlocksApplied r < 2 ^ 32 -> BlocksApplied (count_blocks n r) = w32 (BlocksApplied r + Z.of_nat n).
Proof.
  revert r. induction n as [|n IH]; intros r Hr; cbn [count_blocks].
  { rewrite w32_id; [cbn; lia|cbn; lia]. }
  rewrite IH by apply w32_range. cbn [add_block BlocksApplied].
  rewrite !w32_mod, Zplus_mod_idemp_l. f_equal. lia.
Qed.

Lemma count_blocks_Transactions n r : Transactions (count_blocks n r) = Transactions r.
Proof. revert r. induction n as [|n IH]; intros r; [done|exact (IH (add_block r))]. Qed.

Lemma count_blocks_ext n r r' :
  BlocksApplied r = BlocksApplied r' -> BlocksApplied (count_blocks n r) = BlocksApplied (count_blocks n r').
Proof.
  revert r r'. induction n as [|n IH]; intros r r' E; [done|]. apply IH. cbn [add_block BlocksApplied]. by rewrite E.
Qed.

(** Writes that leave the journal alone. *)
Definition write_ok fs (extents : list Extent) (w : Z * list byte) : Prop :=
  0 <= w.1 < 2 ^ 32 /\ zlen w.2 = BlockSize fs /\ target_ok (fs_content fs) (BlockSize fs) extents w.

Lemma jblock_apply c bs extents ws k :
  0 < bs -> Forall (fun w => 0 <= w.1 /\ zlen w.2 = bs /\ forall k, findPhysicalBlock extents k <> Some w.1) ws ->
  jblock (apply_blocks bs c ws) bs extents k = jblock c bs extents k.
Proof.
  intros Hbs. revert c. induction ws as [|[t d] ws IH]; intros c Hws; [done|].
  apply Forall_cons in Hws as [(Ht & Hd & Hother) Hws].
  cbn [apply_blocks foldl]. fold (apply_blocks bs (put c (t * bs) d) ws). rewrite IH by done.
  by apply jblock_put.
Qed.

Lemma journal_applied fs extents ws fs' k :
  fs_ok fs -> applied fs ws fs' -> Forall (write_ok fs extents) ws ->
  journal_block fs' extents k = journal_block fs extents k.
Proof.
  intros (Hbs & _) Ha Hws. unfold journal_block. rewrite (applied_bs _ _ _ Ha).
  destruct Ha as (_ & _ & ->). apply jblock_apply; [done|].
  eapply Forall_impl; [done|]. intros w ([? ?] & ? & _ & ?). done.
Qed.

Lemma write_ok_applied fs extents ws fs' w :
  applied fs ws fs' -> write_ok fs extents w -> write_ok fs' extents w.
Proof.
  intros Ha. unfold write_ok, target_ok. by rewrite (applied_bs _ _ _ Ha), (applied_zlen _ _ _ Ha).
Qed.

(** ** Replay *)
Lemma replay_tag_ok fs r extents block flags pos data :
  fs_ok fs -> 12 <= BlockSize fs -> journal_block fs extents pos = Some data -> blocktype data = JBD2_BLOCK ->
  write_ok fs extents (block, tag_data flags data) ->
  exists fs', replay_tag extents block flags pos (fs, r) = (Ok tt, (fs', add_block r)) /\
    applied fs [(block, tag_data flags data)] fs'.
Proof.
  intros Hok Hbs Hdata Htype (Hb & Hl & Hfit & _). cbn [fst snd] in *. unfold replay_tag.
  rewrite (bind_ok _ _ _ _ _ (zoom_ok _ _ _ _ _ (wrap_ok _ _ _ _ _ (readJournalBlock_ok _ _ _ _ Hok Hbs Hdata)))).
  cbn beta iota. cbn [H_blocktype]. rewrite Htype, Z.eqb_refl. cbn [negb]. cbn zeta.
  change (if negb (Z.land flags JBD2_FLAG_ESCAPE =? 0) then escape data else data) with (tag_data flags data).
  destruct (write_block fs block (tag_data flags data)) as (v & Hw & Hok' & Hc'); [done|lia|done|done|].
  assert (E : zoom (fs <- get ;; wrap "write to block %d: %w" (fs_WriteAt (block_offset (BlockSize fs) block) (tag_data flags data)))
                (fs, r) = (Ok tt, (set_dev v fs, r))).
  { apply zoom_ok. rewrite get_bind. by apply wrap_ok. }
  rewrite (bind_ok _ _ _ _ _ E). exists (set_dev v fs). split; [done|]. split; [by exists v|]. done.
Qed.

Lemma flags_zero_test block flags :
  block <> 0 \/ flags <> 0 -> (block =? 0) && (flags =? 0) = false.
Proof. intros []; destruct (Z.eqb_spec block 0), (Z.eqb_spec flags 0); done. Qed.

Lemma next_tag_after flags off : off + 8 <= next_tag flags off.
Proof. unfold next_tag. destruct (has _ _); lia. Qed.

(** A round with a tag: the tag is read and its block replayed. *)
Lemma replay_tags_step fs r extents jsb buf off pos data rounds :
  fs_ok fs -> 12 <= BlockSize fs -> 0 <= off -> off + 8 <= zlen buf ->
  tag_block buf off <> 0 \/ tag_flags buf off <> 0 ->
  next_pos (j_S_maxlen jsb) pos <> j_S_start jsb ->
  journal_block fs extents (next_pos (j_S_maxlen jsb) pos) = Some data -> blocktype data = JBD2_BLOCK ->
  write_ok fs extents (tag_block buf off, tag_data (tag_flags buf off) data) ->
  exists fs', applied fs [(tag_block buf off, tag_data (tag_flags buf off) data)] fs' /\
    replay_tags (S rounds) extents jsb buf off pos (fs, r) =
    (if has JBD2_FLAG_LAST_TAG (tag_flags buf off) then mret (next_pos (j_S_maxlen jsb) pos)
     else replay_tags rounds extents jsb buf (next_tag (tag_flags buf off) off) (next_pos (j_S_maxlen jsb) pos))
      (fs', add_block r).
Proof.
  intros Hok Hbs Hoff Hroom Hnz Hstart Hdata Htype Hw.
  destruct (replay_tag_ok fs r extents _ _ _ _ Hok Hbs Hdata Htype Hw) as (fs' & E & Ha). exists fs'. split; [done|].
  cbn [replay_tags]. rewrite (proj2 (Z.ltb_ge _ _)) by lia. rewrite !getUint_in by lia. rewrite !lift_ok_bind.
  change (le_get 4 buf off) with (tag_block buf off). change (le_get 4 buf (off + 4)) with (tag_flags buf off).
  rewrite flags_zero_test by done. cbn zeta. rewrite (proj2 (Z.eqb_neq _ (j_S_start jsb))) by done.
  rewrite (bind_ok _ _ _ _ _ E). done.
Qed.

Lemma replay_tags_ok fs r extents jsb jb buf off pos ws pos' rounds :
  (forall k, jb k = journal_block fs extents k) -> tags_from jsb jb buf off pos ws pos' ->
  fs_ok fs -> 12 <= BlockSize fs -> 0 <= off ->
  Forall (write_ok fs extents) ws ->
  zlen buf - off < 8 * Z.of_nat rounds + 8 ->
  exists fs', replay_tags rounds extents jsb buf off pos (fs, r) = (Ok pos', (fs', count_blocks (length ws) r)) /\
    applied fs ws fs'.
Proof.
  intros Hjb Htags. revert fs r rounds Hjb.
  induction Htags as [off pos Hfull|off pos Hroom Hb Hf|off pos data Hroom Hnz Hstart Hdata Htype Hlast
                     |off pos data ws pos' Hroom Hnz Hstart Hdata Htype Hlast Htags IH];
    intros fs r rounds Hjb Hok Hbs Hoff Hws Hrounds.
  - exists fs. split; [|by apply applied_nil].
    destruct rounds; cbn [replay_tags]; by rewrite (proj2 (Z.ltb_lt _ _)).
  - exists fs. split; [|by apply applied_nil].
    destruct rounds as [|rounds]; [lia|]. cbn [replay_tags]. rewrite (proj2 (Z.ltb_ge _ _)) by lia.
    rewrite !getUint_in by lia. rewrite !lift_ok_bind. unfold tag_block, tag_flags in Hb, Hf. by rewrite Hb, Hf.
  - apply Forall_cons in Hws as [Hws _]. rewrite Hjb in Hdata. destruct rounds as [|rounds]; [lia|].
    destruct (replay_tags_step fs r extents jsb buf off pos data rounds) as (fs' & Ha & E); [done..|].
    exists fs'. split; [|done]. by rewrite E, Hlast.
  - apply Forall_cons in Hws as [Hw Hws]. rewrite Hjb in Hdata. destruct rounds as [|rounds]; [lia|].
    destruct (replay_tags_step fs r extents jsb buf off pos data rounds) as (fs1 & Ha & E); [done..|].
    assert (Hok1 : fs_ok fs1) by apply Ha. pose proof (applied_bs _ _ _ Ha) as Hbs1.
    pose proof (next_tag_after (tag_flags buf off) off) as Hnext.
    destruct (IH fs1 (add_block r) rounds) as (fs2 & E2 & Ha2).
    + intros k. rewrite Hjb. symmetry. apply (journal_applied fs extents _ fs1 k Hok Ha). by apply Forall_singleton.
    + done.
    + by rewrite Hbs1.
    + lia.
    + eapply Forall_impl; [done|]. intros w. by apply write_ok_applied with (1 := Ha).
    + lia.
    + exists fs2. rewrite E, Hlast, E2. split; [|by apply (applied_app _ [_] fs1)].
      done.
Qed.

(** One block of the log that is not the end of it. *)
Lemma replay_loop_block fs r extents jsb buf pos rounds :
  fs_ok fs -> 12 <= BlockSize fs -> wrap_pos (j_S_maxlen jsb) pos <> j_S_start jsb \/ Transactions r = 0 ->
  journal_block fs extents (wrap_pos (j_S_maxlen jsb) pos) = Some buf ->
  replay_loop (S rounds) extents jsb pos (fs, r) =
    (if blocktype buf =? JBD2_SUPERBLOCK then mret tt
     else if blocktype buf =? JBD2_DESCRIPTOR then
       pos' <- replay_tags (length buf) extents jsb buf 12 (wrap_pos (j_S_maxlen jsb) pos) ;;
       replay_loop rounds extents jsb (wrap_pos (j_S_maxlen jsb) pos')
     else
       (if blocktype buf =? JBD2_COMMIT then update add_transaction else mret tt) ;;
       replay_loop rounds extents jsb (next_pos (j_S_maxlen jsb) (wrap_pos (j_S_maxlen jsb) pos))) (fs, r).
Proof.
  intros Hok Hbs Hpos Hb. cbn [replay_loop]. unfold the_result. unfold mbind at 1, M_bind at 1.
  assert (E : (wrap_pos (j_S_maxlen jsb) pos =? j_S_start jsb) && (0 <? Transactions r) = false).
  { destruct Hpos as [Hpos| ->]; [by rewrite (proj2 (Z.eqb_neq _ _))|by rewrite andb_false_r]. }
  rewrite E. rewrite (bind_ok _ _ _ _ _ (zoom_ok _ _ _ _ _ (wrap_ok _ _ _ _ _ (readJournalBlock_ok _ _ _ _ Hok Hbs Hb)))).
  done.
Qed.

Lemma replay_loop_ok fs r extents jsb jb steps pos n ws n' rounds :
  (forall k, jb k = journal_block fs extents k) -> log_from jsb jb steps pos n ws n' ->
  fs_ok fs -> 12 <= BlockSize fs -> Forall (write_ok fs extents) ws -> Transactions r = n -> (steps <= rounds)%nat ->
  exists fs' r', replay_loop rounds extents jsb pos (fs, r) = (Ok tt, (fs', r')) /\ applied fs ws fs' /\
    Transactions r' = n' /\ BlocksApplied r' = BlocksApplied (count_blocks (length ws) r).
Proof.
  intros Hjb Hlog. revert fs r rounds Hjb.
  induction Hlog as [pos n Hw Hn|pos n buf Hpos Hb Ht|steps pos n buf ws pos' ws' n' Hpos Hb Ht Htags Hlog IH
                    |steps pos n buf ws n' Hpos Hb Ht Hlog IH|steps pos n buf ws n' Hpos Hb Ht Hlog IH];
    intros fs r rounds Hjb Hok Hbs Hws Hr Hrounds; (destruct rounds as [|rounds]; [lia|]);
    try (rewrite Hjb in Hb; rewrite <- Hr in Hpos;
         rewrite (replay_loop_block fs r extents jsb buf pos rounds Hok Hbs Hpos Hb)).
  - exists fs, r. split; [|by split; [apply applied_nil|]]. cbn [replay_loop]. unfold the_result.
    unfold mbind at 1, M_bind at 1. rewrite Hw, Z.eqb_refl, (proj2 (Z.ltb_lt 0 (Transactions r))) by lia. done.
  - rewrite Ht. exists fs, r. by split; [|split; [apply applied_nil|]].
  - rewrite Ht. change (JBD2_DESCRIPTOR =? JBD2_SUPERBLOCK) with false. rewrite Z.eqb_refl. apply Forall_app in Hws as [Hws Hws'].
    destruct (replay_tags_ok fs r extents jsb jb buf 12 _ ws pos' (length buf) Hjb Htags) as (fs1 & E & Ha); [done|done|lia|done|unfold zlen; lia|].
    rewrite (bind_ok _ _ _ _ _ E). pose proof (applied_bs _ _ _ Ha) as Hbs1.
    destruct (IH fs1 (count_blocks (length ws) r) rounds) as (fs2 & r2 & E2 & Ha2 & Hn & Hc).
    + intros k. rewrite Hjb. symmetry. by apply (journal_applied fs extents ws).
    + apply Ha.
    + by rewrite Hbs1.
    + eapply Forall_impl; [done|]. intros w. by apply write_ok_applied with (1 := Ha).
    + by rewrite count_blocks_Transactions.
    + lia.
    + exists fs2, r2. split; [done|]. split; [by apply (applied_app _ _ fs1)|]. split; [done|].
      by rewrite Hc, count_blocks_app, length_app.
  - rewrite Ht. destruct (IH fs (add_transaction r) rounds) as (fs2 & r2 & E2 & Ha2 & Hn & Hc); [done..|cbn; by rewrite Hr|lia|].
    exists fs2, r2. split; [exact E2|]. split; [done|]. split; [done|]. rewrite Hc. by apply count_blocks_ext.
  - assert (Hne : (blocktype buf =? JBD2_SUPERBLOCK) = false /\ (blocktype buf =? JBD2_DESCRIPTOR) = false /\
                  (blocktype buf =? JBD2_COMMIT) = false).
    { rewrite !not_elem_of_cons in Ht. rewrite !Z.eqb_neq. tauto. }
    destruct Hne as (-> & -> & ->). destruct (IH fs r rounds) as (fs2 & r2 & E2 & Ha2 & Hn & Hc); [done..|lia|].
    by exists fs2, r2.
Qed.

(** The journal of the volume: its inode and extents can be read, and
    position 0 holds its superblock [jsb]. *)
Definition has_journal fs (extents : list Extent) (jsbBuf : list byte) (jsb : jbd2Superblock) : Prop :=
  exists sb jinode,
    Superblock fs = Some sb /\ S_journal_inum sb <> 0 /\ S_journal_dev sb = 0 /\
    ReadInode (S_journal_inum sb) fs = (Ok jinode, fs) /\ ReadExtents jinode fs = (Ok extents, fs) /\
    journal_block fs extents 0 = Some jsbBuf /\ decode_jsb jsbBuf = Ok jsb /\ bad_magic jsb = false.

Lemma replayJournal_start fs r extents jsbBuf jsb :
  fs_ok fs -> has_journal fs extents jsbBuf jsb ->
  1 <= j_S_start jsb <= j_S_maxlen jsb ->
  replayJournal (fs, r) = replay_loop fuel extents jsb (j_S_start jsb) (fs, r).
Proof.
  intros Hok (sb & jinode & Hsb & Hj & Hdev & Hin & Hex & Hb & Hd & Hm) Hst.
  apply jblock_Some in Hb as (p & Hfind & Hp & Hfit & Hbuf & _); [|apply Hok].
  unfold replayJournal.
  assert (E : zoom (T := RecoveryResult) deref_sb (fs, r) = (Ok sb, (fs, r))).
  { apply zoom_ok. unfold deref_sb. by rewrite Hsb. }
  rewrite (bind_ok _ _ _ _ _ E). cbn zeta. rewrite (proj2 (Z.eqb_neq _ _)) by done. rewrite Hdev. cbn [Z.eqb negb].
  rewrite (bind_ok _ _ _ _ _ (zoom_ok _ _ _ _ _ (wrap_ok _ _ _ _ _ Hin))).
  rewrite (bind_ok _ _ _ _ _ (zoom_ok _ _ _ _ _ (wrap_ok _ _ _ _ _ Hex))). rewrite Hfind.
  rewrite (bind_ok _ _ _ _ _ (zoom_ok get fs r fs fs eq_refl)).
  rewrite (bind_ok _ _ _ _ _ (zoom_ok _ _ _ _ _ (wrap_ok _ _ _ _ _ (read_block fs p Hok Hp Hfit)))).
  rewrite <- Hbuf, Hd, lift_ok_bind, Hm. rewrite (proj2 (Z.eqb_neq _ _)), (proj2 (Z.ltb_ge _ _)) by lia. done.
Qed.

(** C2: Replay implements the journal as a log: when the journal holds a
    log whose blocks lie outside it, replay ends, the device holds the logged
    blocks in order on top of what it held, nothing else of the file system
    changes, and the result counts the blocks and the commits. *)
Theorem replay_applies_log fs extents jsbBuf jsb steps ws n :
  fs_ok fs -> 12 <= BlockSize fs -> has_journal fs extents jsbBuf jsb ->
  1 <= j_S_start jsb <= j_S_maxlen jsb ->
  log_from jsb (journal_block fs extents) steps (j_S_start jsb) 0 ws n ->
  Forall (write_ok fs extents) ws -> (steps <= fuel)%nat ->
  exists v res,
    replayJournal (fs, mkRecoveryResult true 0 0 0 None) = (Ok tt, (set_dev v fs, res)) /\
    fs_content (set_dev v fs) = apply_blocks (BlockSize fs) (fs_content fs) ws /\
    BlocksApplied res = w32 (zlen ws) /\ Transactions res = n.
Proof.
  intros Hok Hbs Hj Hst Hlog Hws Hfuel.
  rewrite (replayJournal_start _ _ _ _ _ Hok Hj Hst).
  destruct (replay_loop_ok fs (mkRecoveryResult true 0 0 0 None) extents jsb _ steps _ 0 ws n fuel (fun _ => eq_refl) Hlog)
    as (fs' & r' & E & ((v & ->) & _ & Hc) & Hn & Hb); [done..|].
  exists v, r'. split; [exact E|]. split; [exact Hc|]. split; [|done].
  rewrite Hb, count_blocks_Blocks by done. done.
Qed.

(** C37: Replay never ends on a journal in use that holds neither a
    superblock, a descriptor nor a commit block in its ring, for instance one
    that is all zeros: no fuel is enough, and nothing is applied. *)
Theorem replay_diverges fs r extents jsbBuf jsb :
  fs_ok fs -> 12 <= BlockSize fs -> has_journal fs extents jsbBuf jsb ->
  1 <= j_S_start jsb <= j_S_maxlen jsb -> j_S_maxlen jsb < 2 ^ 32 - 1 -> Transactions r = 0 ->
  (forall k, 1 <= k <= j_S_maxlen jsb -> exists buf, journal_block fs extents k = Some buf /\
     blocktype buf ∉ [JBD2_SUPERBLOCK; JBD2_DESCRIPTOR; JBD2_COMMIT]) ->
  replayJournal (fs, r) = (OutOfFuel, (fs, r)).
Proof.
  intros Hok Hbs Hj Hst Hmax Hr Hall. rewrite (replayJournal_start _ _ _ _ _ Hok Hj Hst).
  assert (Hloop : forall rounds pos, 1 <= pos <= j_S_maxlen jsb ->
            replay_loop rounds extents jsb pos (fs, r) = (OutOfFuel, (fs, r))); [|by apply Hloop].
  intros rounds. induction rounds as [|rounds IH]; intros pos Hpos; [done|].
  assert (Ew : wrap_pos (j_S_maxlen jsb) pos = pos).
  { unfold wrap_pos. rewrite (proj2 (Z.ltb_ge _ _)); [done|lia]. }
  destruct (Hall pos Hpos) as (buf & Hb & Ht). rewrite <- Ew in Hb.
  rewrite (replay_loop_block fs r extents jsb buf pos rounds Hok Hbs (or_intror Hr) Hb).
  rewrite !not_elem_of_cons in Ht. rewrite !(proj2 (Z.eqb_neq (blocktype buf) _)) by tauto.
  rewrite M_left_id, Ew. apply IH. unfold next_pos, wrap_pos. rewrite w32_id by lia.
  destruct (Z.ltb_spec (j_S_maxlen jsb) (pos + 1)); lia.
Qed.

(** A journal whose first transaction logs a block that does not start
    with a data-block header is refused and nothing is applied; the blocks
    [CommitTransaction] logs carry no such header. *)
Theorem replay_rejects_plain_data fs r extents jsbBuf jsb descBuf data rounds :
  fs_ok fs -> 20 <= BlockSize fs -> has_journal fs extents jsbBuf jsb ->
  1 <= j_S_start jsb <= j_S_maxlen jsb -> Transactions r = 0 -> fuel = S rounds ->
  journal_block fs extents (j_S_start jsb) = Some descBuf -> blocktype descBuf = JBD2_DESCRIPTOR ->
  tag_block descBuf 12 <> 0 \/ tag_flags descBuf 12 <> 0 ->
  next_pos (j_S_maxlen jsb) (j_S_start jsb) <> j_S_start jsb ->
  journal_block fs extents (next_pos (j_S_maxlen jsb) (j_S_start jsb)) = Some data -> blocktype data <> JBD2_BLOCK ->
  replayJournal (fs, r) = (Err (Errorf "expected data block at pos %d, got type %d"), (fs, r)).
Proof.
  intros Hok Hbs Hj Hst Hr Hfuel Hdesc Htype Hnz Hnext Hdata Hplain.
  rewrite (replayJournal_start _ _ _ _ _ Hok Hj Hst), Hfuel.
  assert (Ew : wrap_pos (j_S_maxlen jsb) (j_S_start jsb) = j_S_start jsb).
  { unfold wrap_pos. rewrite (proj2 (Z.ltb_ge _ _)); [done|lia]. }
  rewrite <- Ew in Hdesc.
  rewrite (replay_loop_block fs r extents jsb descBuf _ rounds Hok ltac:(lia) (or_intror Hr) Hdesc).
  rewrite Htype, Ew. change (JBD2_DESCRIPTOR =? JBD2_SUPERBLOCK) with false. rewrite Z.eqb_refl.
  apply bind_err. apply jblock_Some in Hdesc as (_ & _ & _ & _ & _ & Hl); [|lia].
  destruct (length descBuf) as [|m] eqn:El; [unfold zlen in Hl; lia|].
  cbn [replay_tags]. rewrite (proj2 (Z.ltb_ge _ _)) by lia. rewrite !getUint_in by lia. rewrite !lift_ok_bind.
  change (le_get 4 descBuf 12) with (tag_block descBuf 12). change (le_get 4 descBuf (12 + 4)) with (tag_flags descBuf 12).
  rewrite flags_zero_test by done. cbn zeta. rewrite (proj2 (Z.eqb_neq _ (j_S_start jsb))) by done.
  apply bind_err. unfold replay_tag.
  rewrite (bind_ok _ _ _ _ _ (zoom_ok _ _ _ _ _ (wrap_ok _ _ _ _ _ (readJournalBlock_ok _ _ _ _ Hok ltac:(lia) Hdata)))).
  cbn beta iota. cbn [H_blocktype]. by rewrite (proj2 (Z.eqb_neq _ JBD2_BLOCK)).
Qed.

(** ** Recovery *)
Definition recovered (sb : SuperBlock) : SuperBlock :=
  set_S_feature_incompat (Z.ldiff (S_feature_incompat sb) EXT4_FEATURE_INCOMPAT_RECOVERY) sb.

Lemma recovered_flag sb : Z.land (S_feature_incompat (recovered sb)) EXT4_FEATURE_INCOMPAT_RECOVERY = 0.
Proof. change (S_feature_incompat (recovered sb)) with (Z.ldiff (S_feature_incompat sb) EXT4_FEATURE_INCOMPAT_RECOVERY).
  apply Z.bits_inj'. intros i Hi. rewrite Z.land_spec, Z.ldiff_spec, Z.bits_0. by destruct (Z.testbit (S_feature_incompat sb) i), (Z.testbit _ i).
Qed.

Lemma clear_flag_ok fs sb :
  fs_ok fs -> Superblock fs = Some sb -> struct_wf (recovered sb) -> 2048 <= zlen (fs_content fs) ->
  exists v, clear_flag fs = (Ok tt, set_dev v (set_sb (recovered sb) fs)) /\
    fs_content (set_dev v (set_sb (recovered sb) fs)) = put (fs_content fs) 1024 (binary_Write (recovered sb)).
Proof.
  intros Hok Hsb Hwf Hlen. unfold clear_flag.
  assert (E : deref_sb fs = (Ok sb, fs)) by (unfold deref_sb; by rewrite Hsb).
  rewrite (bind_ok _ _ _ _ _ E). unfold mbind, M_bind, modify. fold (recovered sb).
  destruct (fs_ok_ext fs (set_sb (recovered sb) fs) eq_refl eq_refl Hok) as [Hok' Hc'].
  destruct (writeSuperBlock_ok (set_sb (recovered sb) fs) (recovered sb)) as (v & Hw & _ & Hc); [done..|by rewrite Hc'|].
  exists v. split; [exact Hw|]. by rewrite Hc, Hc'.
Qed.

(** A replay that fails does not stop recovery: the error is only
    reported, and the flag that asks for recovery is cleared in memory and on
    the device, so the logged transactions are given up; nothing but the
    superblock is written. *)
Theorem Recover_gives_up fs sb e :
  fs_ok fs -> Superblock fs = Some sb -> struct_wf (recovered sb) -> 2048 <= zlen (fs_content fs) ->
  has EXT4_FEATURE_INCOMPAT_RECOVERY (S_feature_incompat sb) = true -> S_last_orphan sb = 0 ->
  (forall r, replayJournal (fs, r) = (Err e, (fs, r))) ->
  exists res fs', Recover fs = (Ok res, fs') /\
    JournalReplayed res = true /\ JournalSkipped res = Some e /\ BlocksApplied res = 0 /\
    JournalNeedsRecovery fs' = (Ok false, fs') /\
    fs_content fs' = put (fs_content fs) 1024 (binary_Write (recovered sb)).
Proof.
  intros Hok Hsb Hwf Hlen Hflag Horphan Hreplay.
  destruct (clear_flag_ok fs sb Hok Hsb Hwf Hlen) as (v & Hclear & Hc).
  assert (Hneeds : JournalNeedsRecovery fs = (Ok true, fs)).
  { unfold JournalNeedsRecovery. rewrite get_bind, Hsb. unfold has in Hflag. by rewrite Hflag. }
  set (r1 := set_skipped e (set_replayed (mkRecoveryResult false 0 0 0 None))).
  assert (Hskip : replay_or_skip (fs, mkRecoveryResult false 0 0 0 None) = (Ok tt, (fs, r1))).
  { unfold replay_or_skip, update, catch, mbind, M_bind. by rewrite Hreplay. }
  assert (Hclean : ignore cleanOrphans (fs, r1) = (Ok tt, (fs, r1))).
  { unfold ignore, catch, cleanOrphans, zoom, deref_sb, mbind, M_bind. rewrite Hsb, Horphan. done. }
  exists r1, (set_dev v (set_sb (recovered sb) fs)). split; [|split; [done|split; [done|split; [done|split; [|exact Hc]]]]].
  - unfold Recover, recover_body. rewrite (bind_ok _ _ _ _ _ (zoom_ok _ _ _ _ _ Hneeds)).
    rewrite (bind_ok _ _ _ _ _ Hskip), (bind_ok _ _ _ _ _ Hclean). by rewrite (zoom_ok _ _ r1 _ _ Hclear).
  - unfold JournalNeedsRecovery. rewrite get_bind. cbn [Superblock set_dev set_sb]. rewrite recovered_flag. done.
Qed.
End recovery.

(** ** Examples: a journal of four blocks in blocks 2 to 5 of the volume

    Its superblock is block 1; it holds one transaction that logs block
    46. *)
#[local] Existing Instance ex_env.

Definition ex_jinode : Inode := ex_leaf_inode 4 [mkExtent 0 5 0 1].
Definition ex_jextents : list Extent := [mkExtent 0 5 0 1].
Definition ex_jsb_bytes : list byte :=
  poke 4 0 JBD2_MAGIC $ poke 4 4 4 $ poke 4 12 7 $ poke 4 16 1 $ poke 4 20 4 $ zeros 64.
Definition ex_jsb : jbd2Superblock := mkJbd2Superblock (mkJbd2Header JBD2_MAGIC 4 0) 7 1 4.
Definition ex_desc (blocknr flags : Z) : list byte :=
  poke 4 0 JBD2_MAGIC $ poke 4 4 JBD2_DESCRIPTOR $ poke 4 8 7 $ poke 4 12 blocknr $ poke 4 16 flags $ zeros 64.
Definition ex_data : list byte := poke 4 0 JBD2_MAGIC $ poke 4 4 JBD2_BLOCK $ replicate 64 Byte.x2a.
Definition ex_commit : list byte := poke 4 0 JBD2_MAGIC $ poke 4 4 JBD2_COMMIT $ poke 4 8 7 $ zeros 64.

(** [ex_ext4] with the blocks [b1] to [b3] in the ring. *)
Definition ex_journal_fs (b1 b2 b3 : list byte) : FileSystem File :=
  mkFileSystem
    (Direct (mkFile (put (put (put (put (put ex_image 64 ex_jsb_bytes) 128 b1) 192 b2) 256 b3) 2560 (binary_Write ex_jinode))))
    (Some (c_dec binary (poke 4 224 3 $ poke 4 96 1 ex_sb_bytes))) [ex_gd] 64 160 1 64 ∅.

Lemma ex_journal_ok b1 b2 b3 : fs_ok (ex_journal_fs b1 b2 b3).
Proof.
  unfold fs_ok. assert (El : zlen (fs_content (ex_journal_fs b1 b2 b3)) = 3072).
  { cbn. rewrite !zlen_put. apply ex_image_len. }
  rewrite El. split; [done|]. split; [by exists 48|]. by split.
Qed.
Definition ex_replay_fs := ex_journal_fs (ex_desc 46 JBD2_FLAG_LAST_TAG) ex_data ex_commit.
Definition ex_plain_fs := ex_journal_fs (ex_desc 46 JBD2_FLAG_LAST_TAG) (replicate 64 Byte.x2a) ex_commit.
Definition ex_zero_fs := ex_journal_fs (zeros 64) (zeros 64) (zeros 64).

Lemma ex_has_journal :
  Forall (fun fs => has_journal fs ex_jextents ex_jsb_bytes ex_jsb) [ex_replay_fs; ex_plain_fs; ex_zero_fs].
Proof.
  repeat apply Forall_cons_2; [..|apply Forall_nil_2].
  all: eexists _, ex_jinode.
  all: split; [reflexivity|]. 
  all: split; [vm_compute; discriminate|].
  all: split; [vm_compute; reflexivity|].
  all: split; [vm_compute; reflexivity|].
  all: split; [vm_compute; reflexivity|].
  all: split; [vm_compute; reflexivity|].
  all: split; vm_compute; reflexivity.
Qed.

Lemma ex_log :
  log_from ex_jsb (journal_block ex_replay_fs ex_jextents) 5 1 0 [(46, ex_data)] 1.
Proof.
  apply (log_descriptor _ _ 4 1 0 (ex_desc 46 JBD2_FLAG_LAST_TAG) [(46, ex_data)] 2 [] 1);
    [by right|vm_compute; reflexivity|vm_compute; reflexivity| |].
  { pose proof (tags_last ex_jsb (journal_block ex_replay_fs ex_jextents) (ex_desc 46 JBD2_FLAG_LAST_TAG) 12 1 ex_data) as Ht.
    replace (tag_block (ex_desc 46 JBD2_FLAG_LAST_TAG) 12) with 46 in Ht by (vm_compute; reflexivity).
    replace (tag_flags (ex_desc 46 JBD2_FLAG_LAST_TAG) 12) with JBD2_FLAG_LAST_TAG in Ht by (vm_compute; reflexivity).
    apply Ht; [vm_compute; discriminate|left; discriminate|vm_compute; discriminate|vm_compute; reflexivity..]. }
  apply (log_other _ _ 3 2 0 ex_data); [by right|vm_compute; reflexivity|by_decision|].
  apply (log_commit _ _ 2 3 0 ex_commit); [by right|vm_compute; reflexivity|vm_compute; reflexivity|].
  apply (log_other _ _ 1 4 1 (zeros 64)); [left; vm_compute; discriminate|vm_compute; reflexivity|by_decision|].
  apply log_wrapped; [vm_compute; reflexivity|lia].
Qed.

Lemma ex_jfind k : findPhysicalBlock ex_jextents k <> Some 46.
Proof.
  unfold ex_jextents. cbn [findPhysicalBlock].
  destruct (ext_uninit _); [done|]. change (EE_block (mkExtent 0 5 0 1)) with 0.
  change (ext_count (mkExtent 0 5 0 1)) with 5. change (ext_start (mkExtent 0 5 0 1)) with 1.
  rewrite w32_id by lia. destruct (Z.leb_spec 0 k), (Z.ltb_spec k (0 + 5)); try done. cbn [andb].
  rewrite w64_id by lia. intros [= E]. lia.
Qed.

Lemma replay_applies_log_witness :
  exists v res, replayJournal (ex_replay_fs, mkRecoveryResult true 0 0 0 None) = (Ok tt, (set_dev v ex_replay_fs, res)) /\
    BlocksApplied res = 1 /\ Transactions res = 1.
Proof.
  destruct (replay_applies_log ex_replay_fs ex_jextents ex_jsb_bytes ex_jsb 5 [(46, ex_data)] 1)
    as (v & res & E & _ & Hb & Hn).
  - apply ex_journal_ok.
  - done.
  - exact (Forall_inv ex_has_journal).
  - cbn. lia.
  - exact ex_log.
  - apply Forall_singleton. split; [cbn; lia|]. split; [vm_compute; reflexivity|]. split; [|exact ex_jfind].
    change (47 * 64 <= 3072). lia.
  - cbn. lia.
  - exists v, res. split; [exact E|]. split; [|exact Hn]. rewrite Hb. vm_compute. reflexivity.
Defined.

Lemma replay_diverges_witness :
  (replayJournal (ex_zero_fs, mkRecoveryResult true 0 0 0 None)).1 = OutOfFuel.
Proof.
  rewrite (replay_diverges ex_zero_fs _ ex_jextents ex_jsb_bytes ex_jsb).
  - reflexivity.
  - apply ex_journal_ok.
  - done.
  - exact (Forall_inv (Forall_inv_tail (Forall_inv_tail ex_has_journal))).
  - cbn. lia.
  - cbn. lia.
  - reflexivity.
  - intros k Hk. exists (zeros 64). cbn in Hk.
    assert (Hc : k = 1 \/ k = 2 \/ k = 3 \/ k = 4) by lia.
    destruct Hc as [->|[->|[->| ->]]]; (split; [vm_compute; reflexivity|]); by_decision.
Defined.

Lemma replay_rejects_plain_data_witness :
  exists e, (replayJournal (ex_plain_fs, mkRecoveryResult true 0 0 0 None)).1 = Err e.
Proof.
  rewrite (replay_rejects_plain_data ex_plain_fs _ ex_jextents ex_jsb_bytes ex_jsb
             (ex_desc 46 JBD2_FLAG_LAST_TAG) (replicate 64 Byte.x2a) 7).
  - eexists. reflexivity.
  - apply ex_journal_ok.
  - done.
  - exact (Forall_inv (Forall_inv_tail ex_has_journal)).
  - cbn. lia.
  - reflexivity.
  - reflexivity.
  - vm_compute. reflexivity.
  - vm_compute. reflexivity.
  - left. vm_compute. discriminate.
  - vm_compute. discriminate.
  - vm_compute. reflexivity.
  - vm_compute. discriminate.
Defined.

(** A volume that asks for recovery and has no journal. *)
Definition ex_needs_sb : SuperBlock := c_dec binary (poke 4 96 1 ex_sb_bytes).
Lemma Recover_gives_up_witness :
  exists res fs', Recover (set_sb ex_needs_sb ex_ext4) = (Ok res, fs') /\
    JournalSkipped res = Some (Errorf "S_journal_inum is 0") /\ JournalNeedsRecovery fs' = (Ok false, fs').
Proof.
  destruct (Recover_gives_up (set_sb ex_needs_sb ex_ext4) ex_needs_sb (Errorf "S_journal_inum is 0"))
    as (res & fs' & E & _ & Hs & _ & Hn & _).
  - apply (fs_ok_ext ex_ext4); [done..|apply ex_ext4_ok].
  - reflexivity.
  - assert (E : recovered ex_needs_sb = ex_sb) by (vm_compute; reflexivity). rewrite E. apply ex_sb_wf.
  - change (2048 <= zlen (fs_content ex_ext4)). by rewrite ex_ext4_len.
  - vm_compute. reflexivity.
  - vm_compute. reflexivity.
  - intros r. vm_compute. reflexivity.
  - exists res, fs'. split; [exact E|]. split; [exact Hs|exact Hn].
Defined.
