(* ===== verification/Commit.v ===== *)
(** What [CommitTransaction] ([src/vfs/journal_writer.go]) writes, in which
    order, and what happens when a transaction does not fit its descriptor
    block. *)
From S2P Require Export Recovery.

(** ** The blocks of a transaction *)

(** The journal's copy of a dirty block. *)
Definition logged_block (bs : Z) (kb : Z * list byte) : list byte :=
  let dataCopy := put (zeros bs) 0 kb.2 in
  if needs_escape kb.2 then escape dataCopy else dataCopy.

(** The flags of tag [i] of [n]. *)
Definition logged_flags (n i : Z) (kb : Z * list byte) : Z :=
  Z.lor (if needs_escape kb.2 then JBD2_FLAG_ESCAPE else 0) (if i =? n - 1 then JBD2_FLAG_LAST_TAG else 0).

(** The writes of [bufs] to the ring from position [pos] on. *)
Fixpoint ring_writes (extents : list Extent) (maxlen pos : Z) (bufs : list (list byte)) : list (Z * list byte) :=
  match bufs with
  | [] => []
  | buf :: bufs' =>
      (default 0 (findPhysicalBlock extents pos), buf) :: ring_writes extents maxlen (next_pos maxlen pos) bufs'
  end.

(** The position after [n] steps. *)
Fixpoint ring_pos (maxlen pos : Z) (n : nat) : Z :=
  match n with O => pos | S n => ring_pos maxlen (next_pos maxlen pos) n end.

Definition first_pos (jsb : jbd2Superblock) : Z :=
  if (j_S_start jsb =? 0) || (j_S_maxlen jsb <? j_S_start jsb) then 1 else j_S_start jsb.

Lemma next_pos_range maxlen pos : 1 <= pos <= maxlen -> maxlen < 2 ^ 32 - 1 -> 1 <= next_pos maxlen pos <= maxlen.
Proof.
  intros. unfold next_pos, wrap_pos. rewrite w32_id by lia. destruct (Z.ltb_spec maxlen (pos + 1)); lia.
Qed.

Lemma ring_pos_range maxlen pos n : 1 <= pos <= maxlen -> maxlen < 2 ^ 32 - 1 -> 1 <= ring_pos maxlen pos n <= maxlen.
Proof.
  intros Hp Hm. revert pos Hp. induction n as [|n IH]; intros pos Hp; [done|]. apply IH. by apply next_pos_range.
Qed.

Lemma ring_writes_app extents maxlen pos l1 l2 :
  ring_writes extents maxlen pos (l1 ++ l2) =
  ring_writes extents maxlen pos l1 ++ ring_writes extents maxlen (ring_pos maxlen pos (length l1)) l2.
Proof.
  revert pos. induction l1 as [|b l1 IH]; intros pos; [done|]. cbn [app ring_writes length ring_pos]. by rewrite IH.
Qed.

Lemma zlen_logged bs kb : 0 <= bs -> zlen (logged_block bs kb) = bs.
Proof.
  intros. unfold logged_block. destruct (needs_escape _); rewrite ?zlen_escape, zlen_put, zlen_zeros; done.
Qed.

(** ** The descriptor block *)
Lemma commit_flags_eq n i k b :
  (if i =? n - 1 then Z.lor (if needs_escape b then JBD2_FLAG_ESCAPE else 0) JBD2_FLAG_LAST_TAG
   else if needs_escape b then JBD2_FLAG_ESCAPE else 0) = logged_flags n i (k, b).
Proof. unfold logged_flags. cbn [snd]. by destruct (i =? n - 1), (needs_escape b). Qed.

Lemma logged_flags_range n i kb : 0 <= logged_flags n i kb < 2 ^ 32.
Proof. unfold logged_flags. destruct (i =? n - 1), (needs_escape kb.2); vm_compute; split; discriminate || done. Qed.

Lemma commit_tags_ok bs n dirty i off descBuf :
  0 <= off -> off + 8 * zlen dirty <= zlen descBuf ->
  exists descBuf', commit_tags bs n dirty i off descBuf = Ok (descBuf', logged_block bs <$> dirty) /\
    zlen descBuf' = zlen descBuf /\ sub descBuf' 0 off = sub descBuf 0 off /\
    forall (j : nat) kb, dirty !! j = Some kb ->
      tag_block descBuf' (off + 8 * Z.of_nat j) = w32 kb.1 /\
      tag_flags descBuf' (off + 8 * Z.of_nat j) = logged_flags n (i + Z.of_nat j) kb.
Proof.
  revert i off descBuf. induction dirty as [|[k b] dirty IH]; intros i off desc Hoff Hfit.
  { exists desc. by repeat split. }
  change (zlen ((k, b) :: dirty)) with (Z.of_nat (S (length dirty))) in Hfit.
  cbn [commit_tags]. rewrite (commit_flags_eq n i k b).
  set (d1 := put desc off (le_split 4 (w32 k))).
  set (d2 := put d1 (off + 4) (le_split 4 (logged_flags n i (k, b)))).
  assert (Hl : zlen d2 = zlen desc) by (unfold d2, d1; by rewrite !zlen_put).
  destruct (IH (i + 1) (off + 8) d2) as (desc' & E & Hl' & Hpre & Htags); [lia|rewrite Hl; unfold zlen in *; lia|].
  exists desc'. rewrite putUint_in by lia. cbn [mbind res_bind]. fold d1.
  rewrite putUint_in by (unfold d1; rewrite ?zlen_put; lia). cbn [mbind res_bind]. fold d2. rewrite E.
  split; [done|]. split; [by rewrite Hl'|].
  assert (Hsub : forall o, 0 <= o -> o + 4 <= off + 8 -> le_get 4 desc' o = le_get 4 d2 o).
  { intros o Ho Hoe. transitivity (le_get 4 (sub desc' 0 (off + 8)) o); [by rewrite le_get_sub by lia|].
    by rewrite Hpre, le_get_sub by lia. }
  split.
  - transitivity (sub (sub desc' 0 (off + 8)) 0 off); [by rewrite sub_sub by lia|].
    rewrite Hpre, sub_sub by lia. unfold d2, d1. by rewrite !sub_put_disj by (rewrite ?zlen_le_split; lia).
  - intros [|j] kb Hj.
    + injection Hj as <-. rewrite !Z.mul_0_r, !Z.add_0_r. unfold tag_block, tag_flags.
      rewrite !Hsub by lia. unfold d2. split.
      * rewrite le_get_put_disj by (rewrite ?zlen_le_split; lia). unfold d1.
        rewrite le_get_put_same by lia. rewrite Z.mod_small; [done|apply w32_range].
      * rewrite le_get_put_same by (unfold d1; rewrite ?zlen_put; lia). rewrite Z.mod_small; [done|apply logged_flags_range].
    + destruct (Htags j kb Hj) as [Hb Hf].
      replace (off + 8 * Z.of_nat (S j)) with (off + 8 + 8 * Z.of_nat j) by lia.
      replace (i + Z.of_nat (S j)) with (i + 1 + Z.of_nat j) by lia. done.
Qed.

Lemma commit_tags_panic bs n dirty i off descBuf :
  0 <= off <= zlen descBuf -> zlen descBuf < off + 8 * zlen dirty -> commit_tags bs n dirty i off descBuf = Panic.
Proof.
  revert i off descBuf. induction dirty as [|[k b] dirty IH]; intros i off desc Hoff Hfit.
  { change (zlen (A := Z * list byte) []) with 0 in Hfit. lia. }
  change (zlen ((k, b) :: dirty)) with (Z.of_nat (S (length dirty))) in Hfit.
  cbn [commit_tags]. rewrite (commit_flags_eq n i k b). destruct (Z.le_gt_cases (off + 8) (zlen desc)) as [Hroom|Hroom].
  - rewrite putUint_in by lia. cbn [mbind res_bind].
    rewrite putUint_in by (rewrite ?zlen_put; lia). cbn [mbind res_bind]. rewrite IH; rewrite ?zlen_put; [done|lia|unfold zlen in *; lia].
  - destruct (Z.le_gt_cases (off + 4) (zlen desc)) as [Hroom4|Hroom4].
    + rewrite putUint_in by lia. cbn [mbind res_bind]. rewrite putUint_out; [done|rewrite zlen_put; lia].
    + rewrite putUint_out; [done|lia].
Qed.

(** ** The writes of a commit *)
Section commit.
Context {D : Type} `{Device D} {env : Env}.
Implicit Types fs : FileSystem D.

(** After the writes [ws] to the device itself. *)
Definition wrote fs (ws : list (Z * list byte)) fs' : Prop :=
  (exists d', fs' = set_dev (Direct d') fs) /\ fs_ok fs' /\
  fs_content fs' = apply_blocks (BlockSize fs) (fs_content fs) ws.

Lemma wrote_nil fs d : dev fs = Direct d -> fs_ok fs -> wrote fs [] fs.
Proof. intros Hd Hok. split; [|done]. exists d. rewrite <- Hd. by destruct fs. Qed.

Lemma wrote_app fs ws fs1 ws' fs2 : wrote fs ws fs1 -> wrote fs1 ws' fs2 -> wrote fs (ws ++ ws') fs2.
Proof.
  intros ((d & ->) & Hok & Hc) ((d' & ->) & Hok' & Hc'). split; [by exists d'|]. split; [done|].
  rewrite Hc', apply_blocks_app. by rewrite <- Hc.
Qed.

Lemma wrote_bs fs ws fs' : wrote fs ws fs' -> BlockSize fs' = BlockSize fs.
Proof. by intros ((d & ->) & _). Qed.
Lemma wrote_zlen fs ws fs' : wrote fs ws fs' -> zlen (fs_content fs') = zlen (fs_content fs).
Proof. intros (_ & _ & ->). apply zlen_apply_blocks. Qed.
Lemma wrote_direct fs ws fs' : wrote fs ws fs' -> exists d, dev fs' = Direct d.
Proof. intros ((d & ->) & _). by exists d. Qed.

Lemma write_direct fs d p buf :
  dev fs = Direct d -> fs_ok fs -> 0 <= p -> (p + 1) * BlockSize fs <= zlen (fs_content fs) -> zlen buf = BlockSize fs ->
  exists fs', fs_WriteAt (block_offset (BlockSize fs) p) buf fs = (Ok tt, fs') /\ wrote fs [(p, buf)] fs'.
Proof.
  intros Hd Hok Hp Hfit Hl. rewrite (block_offset_id fs p Hok Hp Hfit). pose proof Hok as (Hbs & _).
  destruct (fs_write fs (p * BlockSize fs) buf) as (v & Hw & Hok' & Hc' & Hin); [done|nia|nia|].
  destruct v as [d'|]; [|by rewrite Hd in Hin]. exists (set_dev (Direct d') fs). split; [done|].
  split; [by exists d'|]. done.
Qed.

(** Every position of the ring is on the device. *)
Definition ring_ok fs (extents : list Extent) (maxlen : Z) : Prop :=
  1 <= maxlen < 2 ^ 32 - 1 /\ forall k, 1 <= k <= maxlen -> mapped fs extents k.

Lemma ring_ok_wrote fs extents maxlen ws fs' : wrote fs ws fs' -> ring_ok fs extents maxlen -> ring_ok fs' extents maxlen.
Proof. intros Hw. unfold ring_ok, mapped. by rewrite (wrote_bs _ _ _ Hw), (wrote_zlen _ _ _ Hw). Qed.

Lemma journal_write_ok fs d e1 e2 extents maxlen pos buf :
  dev fs = Direct d -> fs_ok fs -> ring_ok fs extents maxlen -> 1 <= pos <= maxlen -> zlen buf = BlockSize fs ->
  exists fs', journal_write e1 e2 extents pos buf fs = (Ok tt, fs') /\ wrote fs (ring_writes extents maxlen pos [buf]) fs'.
Proof.
  intros Hd Hok [_ Hring] Hpos Hl. destruct (Hring pos Hpos) as (p & Hfind & Hp & Hfit).
  destruct (write_direct fs d p buf) as (fs' & E & Hw); [done..|]. exists fs'.
  unfold journal_write. cbn [ring_writes]. rewrite Hfind, get_bind. split; [by apply wrap_ok|done].
Qed.

(** The loop over the data blocks. *)
Lemma commit_data_ok fs d e1 e2 extents maxlen pos bufs :
  dev fs = Direct d -> fs_ok fs -> ring_ok fs extents maxlen -> 1 <= pos <= maxlen ->
  Forall (fun buf => zlen buf = BlockSize fs) bufs ->
  exists fs', forM bufs pos (fun buf pos =>
      let pos := next_pos maxlen pos in journal_write e1 e2 extents pos buf ;; mret pos) fs =
      (Ok (ring_pos maxlen pos (length bufs)), fs') /\
    wrote fs (ring_writes extents maxlen (next_pos maxlen pos) bufs) fs'.
Proof.
  revert fs d pos. induction bufs as [|buf bufs IH]; intros fs d pos Hd Hok Hring Hpos Hbufs.
  { exists fs. split; [done|by apply (wrote_nil fs d)]. }
  apply Forall_cons in Hbufs as [Hl Hbufs].
  assert (Hpos' : 1 <= next_pos maxlen pos <= maxlen) by (apply next_pos_range; [done|apply Hring]).
  destruct (journal_write_ok fs d e1 e2 extents maxlen (next_pos maxlen pos) buf Hd Hok Hring Hpos' Hl) as (fs1 & E & Hw).
  destruct (wrote_direct _ _ _ Hw) as (d1 & Hd1). assert (Hok1 : fs_ok fs1) by apply Hw.
  destruct (IH fs1 d1 (next_pos maxlen pos) Hd1 Hok1) as (fs2 & E2 & Hw2);
    [by eapply ring_ok_wrote|done|by rewrite (wrote_bs _ _ _ Hw)|].
  exists fs2. split; [|by apply (wrote_app _ [_] fs1)].
  cbn [forM]. rewrite M_assoc. rewrite (bind_ok _ _ _ _ _ E), M_left_id. exact E2.
Qed.

(** A block with the journal header, zero elsewhere. *)
Definition header_block (bs type sequence : Z) : list byte :=
  put (put (put (zeros bs) 0 (le_split 4 JBD2_MAGIC)) 4 (le_split 4 type)) 8 (le_split 4 sequence).

Lemma zlen_header_block bs type sequence : 0 <= bs -> zlen (header_block bs type sequence) = bs.
Proof. intros. unfold header_block. by rewrite !zlen_put, zlen_zeros. Qed.

Lemma header_block_type bs type sequence : 12 <= bs -> 0 <= type < 2 ^ 32 -> blocktype (header_block bs type sequence) = type.
Proof.
  intros. unfold blocktype, header_block. rewrite le_get_put_disj by (rewrite ?zlen_le_split; lia).
  rewrite le_get_put_same by (rewrite ?zlen_put, ?zlen_zeros; lia). by apply Z.mod_small.
Qed.

(** The journal superblock after a commit. *)
Definition next_jsb (jsbBuf : list byte) (sequence nextStart : Z) : list byte :=
  put (put jsbBuf 12 (le_split 4 (w32 (sequence + 1)))) 16 (le_split 4 nextStart).

Definition commit_writes extents bs (jsbBlock : Z) (jsbBuf : list byte) (jsb : jbd2Superblock) (descBuf : list byte)
    (dirty1 dirty2 : list (Z * list byte)) : list (Z * list byte) :=
  let maxlen := j_S_maxlen jsb in
  let commitBuf := put (header_block bs JBD2_COMMIT (j_S_sequence jsb)) 16 (le_split 8 (w64 now)) in
  ring_writes extents maxlen (first_pos jsb) (descBuf :: (logged_block bs <$> dirty1) ++ [commitBuf]) ++
  (jsbBlock, next_jsb jsbBuf (j_S_sequence jsb) (ring_pos maxlen (first_pos jsb) (length dirty1 + 2))) :: dirty2.

Lemma ring_pos_S maxlen pos n : ring_pos maxlen pos (S n) = next_pos maxlen (ring_pos maxlen pos n).
Proof. revert pos. induction n as [|n IH]; intros pos; [done|]. cbn [ring_pos] in *. apply IH. Qed.

Lemma writeDirtyBlocksDirectly_wrote fs d l :
  dev fs = Direct d -> fs_ok fs ->
  (forall k b, (k, b) ∈ l -> 0 <= k /\ zlen b = BlockSize fs /\ (k + 1) * BlockSize fs <= zlen (fs_content fs)) ->
  exists fs', writeDirtyBlocksDirectly l fs = (Ok tt, fs') /\ wrote fs l fs'.
Proof.
  intros Hd Hok Hl. destruct (writeDirtyBlocksDirectly_ok fs l Hok Hl) as (v & E & Hok' & Hc & Hin).
  destruct v as [d'|]; [|by rewrite Hd in Hin]. exists (set_dev (Direct d') fs). split; [done|].
  split; [by exists d'|]. done.
Qed.

(** The three groups of ring writes. *)
Lemma ring_steps_ok fs d extents maxlen pos e1 e2 e3 e4 e5 e6 descBuf datas commitBuf :
  dev fs = Direct d -> fs_ok fs -> ring_ok fs extents maxlen -> 1 <= pos <= maxlen ->
  zlen descBuf = BlockSize fs -> Forall (fun buf => zlen buf = BlockSize fs) datas -> zlen commitBuf = BlockSize fs ->
  exists fs1 fs2 fs3,
    journal_write e1 e2 extents pos descBuf fs = (Ok tt, fs1) /\
    forM datas pos (fun buf pos =>
      let pos := next_pos maxlen pos in journal_write e3 e4 extents pos buf ;; mret pos) fs1 =
      (Ok (ring_pos maxlen pos (length datas)), fs2) /\
    journal_write e5 e6 extents (next_pos maxlen (ring_pos maxlen pos (length datas))) commitBuf fs2 = (Ok tt, fs3) /\
    wrote fs (ring_writes extents maxlen pos (descBuf :: datas ++ [commitBuf])) fs3.
Proof.
  intros Hd Hok Hring Hpos Hdl Hdatas Hcl.
  destruct (journal_write_ok fs d e1 e2 extents maxlen pos descBuf) as (fs1 & E1 & Hw1); [done..|].
  destruct (wrote_direct _ _ _ Hw1) as (d1 & Hd1). assert (Hok1 : fs_ok fs1) by apply Hw1.
  pose proof (ring_ok_wrote _ _ _ _ _ Hw1 Hring) as Hring1.
  destruct (commit_data_ok fs1 d1 e3 e4 extents maxlen pos datas) as (fs2 & E2 & Hw2);
    [done..|by rewrite (wrote_bs _ _ _ Hw1)|].
  destruct (wrote_direct _ _ _ Hw2) as (d2 & Hd2). assert (Hok2 : fs_ok fs2) by apply Hw2.
  pose proof (ring_ok_wrote _ _ _ _ _ Hw2 Hring1) as Hring2.
  destruct (journal_write_ok fs2 d2 e5 e6 extents maxlen (next_pos maxlen (ring_pos maxlen pos (length datas))) commitBuf)
    as (fs3 & E3 & Hw3); [done..| | |].
  { apply next_pos_range; [apply ring_pos_range; [done|apply Hring]|apply Hring]. }
  { by rewrite (wrote_bs _ _ _ Hw2), (wrote_bs _ _ _ Hw1). }
  exists fs1, fs2, fs3. do 3 (split; [done|]).
  change (descBuf :: datas ++ [commitBuf]) with ([descBuf] ++ datas ++ [commitBuf]).
  rewrite !ring_writes_app. cbn [length ring_pos]. rewrite <- ring_pos_S in Hw3.
  eapply wrote_app; [done|]. eapply wrote_app; done.
Qed.

Lemma first_pos_range jsb : 0 <= j_S_start jsb -> 1 <= j_S_maxlen jsb -> 1 <= first_pos jsb <= j_S_maxlen jsb.
Proof.
  intros. unfold first_pos.
  destruct (Z.eqb_spec (j_S_start jsb) 0), (Z.ltb_spec (j_S_maxlen jsb) (j_S_start jsb)); cbn [orb]; lia.
Qed.

(** The steps of [commit_to_journal] put together. *)
Lemma commit_to_journal_run fs fs1 fs2 fs3 fs4 fs5 extents jsbBlock jsbBuf jsb dirty1 dirty2 descBuf datas :
  let bs := BlockSize fs in let maxlen := j_S_maxlen jsb in let pos := first_pos jsb in
  let last := ring_pos maxlen pos (length datas) in
  24 <= bs -> zlen jsbBuf = bs ->
  commit_tags bs (zlen dirty1) dirty1 0 12 (header_block bs JBD2_DESCRIPTOR (j_S_sequence jsb)) = Ok (descBuf, datas) ->
  journal_write "jbd2 commit: physical block for descriptor pos %d not found"
    "jbd2 commit: write descriptor block: %w" extents pos descBuf fs = (Ok tt, fs1) ->
  forM datas pos (fun buf pos =>
      let pos := next_pos maxlen pos in
      journal_write "jbd2 commit: physical block for data pos %d not found"
        "jbd2 commit: write data block: %w" extents pos buf ;; mret pos) fs1 = (Ok last, fs2) ->
  journal_write "jbd2 commit: physical block for commit pos %d not found" "jbd2 commit: write commit block: %w"
    extents (next_pos maxlen last) (put (header_block bs JBD2_COMMIT (j_S_sequence jsb)) 16 (le_split 8 (w64 now))) fs2 = (Ok tt, fs3) ->
  fs_WriteAt (block_offset bs jsbBlock) (next_jsb jsbBuf (j_S_sequence jsb) (next_pos maxlen (next_pos maxlen last))) fs3 = (Ok tt, fs4) ->
  writeDirtyBlocksDirectly dirty2 fs4 = (Ok tt, fs5) ->
  commit_to_journal extents jsbBlock jsbBuf jsb dirty1 dirty2 fs = (Ok tt, fs5).
Proof.
  intros bs maxlen pos last Hbs Hjl Etags E1 E2 E3 E4 E5. unfold commit_to_journal. rewrite get_bind. cbn zeta.
  change (if (j_S_start jsb =? 0) || (j_S_maxlen jsb <? j_S_start jsb) then 1 else j_S_start jsb) with pos.
  fold bs maxlen.
  do 3 (rewrite putUint_bind by (rewrite ?zlen_put, ?zlen_zeros by lia; lia)).
  fold (header_block bs JBD2_DESCRIPTOR (j_S_sequence jsb)). rewrite Etags, lift_ok_bind. cbn beta iota.
  rewrite (bind_ok _ _ _ _ _ E1), (bind_ok _ _ _ _ _ E2).
  do 3 (rewrite putUint_bind by (rewrite ?zlen_put, ?zlen_zeros by lia; lia)).
  fold (header_block bs JBD2_COMMIT (j_S_sequence jsb)).
  rewrite putUint_bind by (rewrite ?zlen_header_block by lia; lia).
  rewrite (bind_ok _ _ _ _ _ E3).
  do 2 (rewrite putUint_bind by (rewrite ?zlen_put; lia)).
  rewrite (bind_ok _ _ _ _ _ (wrap_ok _ _ _ _ _ E4)). by apply wrap_ok.
Qed.

Lemma commit_to_journal_ok fs d extents jsbBlock jsbBuf jsb dirty1 dirty2 :
  dev fs = Direct d -> fs_ok fs -> 24 <= BlockSize fs -> 12 + 8 * zlen dirty1 <= BlockSize fs ->
  ring_ok fs extents (j_S_maxlen jsb) ->
  0 <= j_S_start jsb -> 0 <= jsbBlock -> (jsbBlock + 1) * BlockSize fs <= zlen (fs_content fs) -> zlen jsbBuf = BlockSize fs ->
  (forall k b, (k, b) ∈ dirty2 -> 0 <= k /\ zlen b = BlockSize fs /\ (k + 1) * BlockSize fs <= zlen (fs_content fs)) ->
  exists descBuf fs',
    commit_to_journal extents jsbBlock jsbBuf jsb dirty1 dirty2 fs = (Ok tt, fs') /\
    wrote fs (commit_writes extents (BlockSize fs) jsbBlock jsbBuf jsb descBuf dirty1 dirty2) fs' /\
    zlen descBuf = BlockSize fs /\ sub descBuf 0 12 = sub (header_block (BlockSize fs) JBD2_DESCRIPTOR (j_S_sequence jsb)) 0 12 /\
    forall (j : nat) kb, dirty1 !! j = Some kb ->
      tag_block descBuf (12 + 8 * Z.of_nat j) = w32 kb.1 /\
      tag_flags descBuf (12 + 8 * Z.of_nat j) = logged_flags (zlen dirty1) (Z.of_nat j) kb.
Proof.
  intros Hd Hok Hbs Hroom Hring Hstart Hjb Hjfit Hjl Hd2.
  assert (Hfirst : 1 <= first_pos jsb <= j_S_maxlen jsb) by (apply first_pos_range; [done|apply Hring]).
  set (bs := BlockSize fs) in *. set (maxlen := j_S_maxlen jsb) in *.
  destruct (commit_tags_ok bs (zlen dirty1) dirty1 0 12 (header_block bs JBD2_DESCRIPTOR (j_S_sequence jsb)))
    as (descBuf & Etags & Hdl & Hpre & Htags); [lia|by rewrite zlen_header_block by lia|].
  rewrite zlen_header_block in Hdl by lia. exists descBuf.
  set (commitBuf := put (header_block bs JBD2_COMMIT (j_S_sequence jsb)) 16 (le_split 8 (w64 now))).
  set (datas := logged_block bs <$> dirty1) in *.
  destruct (ring_steps_ok fs d extents maxlen (first_pos jsb)
    "jbd2 commit: physical block for descriptor pos %d not found" "jbd2 commit: write descriptor block: %w"
    "jbd2 commit: physical block for data pos %d not found" "jbd2 commit: write data block: %w"
    "jbd2 commit: physical block for commit pos %d not found" "jbd2 commit: write commit block: %w"
    descBuf datas commitBuf) as (fs1 & fs2 & fs3 & E1 & E2 & E3 & Hw3); [done..| | |].
  { apply Forall_fmap, Forall_true. intros kb. cbn. apply zlen_logged. lia. }
  { unfold commitBuf. rewrite zlen_put, zlen_header_block; lia. }
  destruct (wrote_direct _ _ _ Hw3) as (d3 & Hd3). assert (Hok3 : fs_ok fs3) by apply Hw3.
  pose proof (wrote_bs _ _ _ Hw3) as Ebs3. pose proof (wrote_zlen _ _ _ Hw3) as El3. fold bs in Ebs3.
  set (jsbBuf' := next_jsb jsbBuf (j_S_sequence jsb) (ring_pos maxlen (first_pos jsb) (length dirty1 + 2))).
  destruct (write_direct fs3 d3 jsbBlock jsbBuf') as (fs4 & E4 & Hw4); [done|done|done|by rewrite Ebs3, El3| |].
  { unfold jsbBuf', next_jsb. by rewrite !zlen_put, Ebs3. }
  destruct (wrote_direct _ _ _ Hw4) as (d4 & Hd4). assert (Hok4 : fs_ok fs4) by apply Hw4.
  pose proof (wrote_bs _ _ _ Hw4) as Ebs4. pose proof (wrote_zlen _ _ _ Hw4) as El4.
  destruct (writeDirtyBlocksDirectly_wrote fs4 d4 dirty2) as (fs5 & E5 & Hw5); [done|done|by rewrite Ebs4, El4, Ebs3, El3|].
  exists fs5. split; [|split; [|done]].
  - assert (El : length datas = length dirty1) by apply length_fmap.
    apply (commit_to_journal_run fs fs1 fs2 fs3 fs4 fs5 extents jsbBlock jsbBuf jsb dirty1 dirty2 descBuf datas); try done.
    fold maxlen. rewrite El, <- !ring_pos_S. replace (S (S (length dirty1))) with (length dirty1 + 2)%nat by lia.
    rewrite Ebs3 in E4. exact E4.
  - unfold commit_writes. fold bs maxlen datas commitBuf jsbBuf'. eapply wrote_app; [exact Hw3|]. by apply (wrote_app _ [_] fs4).
Qed.

(** Blocks that no write names keep their content, also under an overlay. *)
Lemma sub_apply_blocks_other bs (c : list byte) ws k :
  0 < bs -> 0 <= k -> Forall (fun w => 0 <= w.1 /\ zlen w.2 = bs /\ w.1 <> k) ws ->
  sub (apply_blocks bs c ws) (k * bs) bs = sub c (k * bs) bs.
Proof.
  intros Hbs Hk. revert c. induction ws as [|[t b] ws IH]; intros c Hws; [done|].
  apply Forall_cons in Hws as [(Ht & Hb & Hne) Hws]. cbn [fst snd] in *.
  cbn [apply_blocks foldl]. fold (apply_blocks bs (put c (t * bs) b) ws). rewrite IH by done.
  by apply sub_put_block.
Qed.

Lemma sub_overlay_ext bs c c' dirty k :
  0 < bs -> 0 <= k -> sub c (k * bs) bs = sub c' (k * bs) bs ->
  sub (overlay bs c dirty) (k * bs) bs = sub (overlay bs c' dirty) (k * bs) bs.
Proof.
  intros Hbs Hk E. apply sub_ext; [nia|]. intros i Hi. rewrite !lookup_overlay.
  assert (Ei : c !! Z.to_nat i = c' !! Z.to_nat i); [|by rewrite Ei].
  apply (f_equal (lookup (Z.to_nat (i - k * bs)))) in E. rewrite !lookup_sub in E by nia.
  rewrite !decide_True in E by lia. by replace (k * bs + Z.of_nat (Z.to_nat (i - k * bs))) with i in E by lia.
Qed.

Lemma ring_writes_keys extents bs maxlen pos bufs :
  1 <= pos <= maxlen -> maxlen < 2 ^ 32 - 1 -> (forall k, 1 <= k <= maxlen -> findPhysicalBlock extents k <> None) ->
  Forall (fun buf => zlen buf = bs) bufs ->
  Forall (fun w => 0 <= w.1 /\ zlen w.2 = bs /\ exists k, findPhysicalBlock extents k = Some w.1) (ring_writes extents maxlen pos bufs).
Proof.
  intros Hpos Hmax Hall. revert pos Hpos. induction bufs as [|b bufs IH]; intros pos Hpos Hb; [constructor|].
  apply Forall_cons in Hb as [Hl Hb]. cbn [ring_writes]. constructor; [|apply IH; [by apply next_pos_range|done]].
  specialize (Hall pos Hpos). destruct (findPhysicalBlock extents pos) as [p|] eqn:E; [|done]. cbn.
  split; [by eapply find_nonneg|]. split; [done|]. by exists pos.
Qed.

(** What the journal part of a commit writes stays inside the journal. *)
Lemma commit_writes_outside extents bs c jsbBlock jsbBuf jsb descBuf dirty1 dirty2 dirty k :
  0 < bs -> 1 <= first_pos jsb <= j_S_maxlen jsb -> j_S_maxlen jsb < 2 ^ 32 - 1 ->
  (forall k, 1 <= k <= j_S_maxlen jsb -> findPhysicalBlock extents k <> None) ->
  findPhysicalBlock extents 0 = Some jsbBlock -> zlen descBuf = bs -> zlen jsbBuf = bs ->
  dirty_ok bs c dirty -> dirty2 ≡ₚ map_to_list dirty ->
  0 <= k -> (forall j, findPhysicalBlock extents j <> Some k) ->
  sub (apply_blocks bs c (commit_writes extents bs jsbBlock jsbBuf jsb descBuf dirty1 dirty2)) (k * bs) bs =
  sub (overlay bs c dirty) (k * bs) bs.
Proof.
  intros Hbs Hfirst Hmax Hall Hjb Hdl Hjl Hdirty Hperm Hk Hout. unfold commit_writes.
  set (commitBuf := put (header_block _ _ _) _ _).
  set (jw := ring_writes _ _ _ _). set (jsbBuf' := next_jsb _ _ _).
  change ((jsbBlock, jsbBuf') :: dirty2) with ([(jsbBlock, jsbBuf')] ++ dirty2).
  rewrite app_assoc, apply_blocks_app. set (c1 := apply_blocks bs c (jw ++ [(jsbBlock, jsbBuf')])).
  assert (Hl1 : zlen c1 = zlen c) by apply zlen_apply_blocks.
  rewrite (apply_blocks_overlay bs c1 dirty dirty2) by (try done; unfold dirty_ok; by rewrite Hl1).
  apply sub_overlay_ext; [done|done|]. apply sub_apply_blocks_other; [done|done|].
  apply Forall_app. split.
  - eapply Forall_impl; [apply ring_writes_keys; [exact Hfirst|exact Hmax|exact Hall|]|].
    + repeat (constructor; [done|]). apply Forall_app. split.
      * apply Forall_fmap, Forall_true. intros kb. apply zlen_logged. lia.
      * apply Forall_singleton. unfold commitBuf. rewrite zlen_put, zlen_header_block; lia.
    + intros [t b] (Ht & Hb & j & Hj). cbn [fst snd] in *. split; [done|]. split; [done|]. intros ->. by apply (Hout j).
  - apply Forall_singleton. cbn [fst snd]. split; [by eapply find_nonneg|]. split; [unfold jsbBuf', next_jsb; by rewrite !zlen_put|].
    intros ->. by apply (Hout 0).
Qed.

Lemma decode_jsb_start jsbBuf jsb : 24 <= zlen jsbBuf -> decode_jsb jsbBuf = Ok jsb -> 0 <= j_S_start jsb.
Proof.
  intros Hl. unfold decode_jsb, decode_header. rewrite !getUint_in by lia. cbn. intros [= <-]. cbn. apply le_get_range.
Qed.

(** The steps of [CommitTransaction] before it writes. *)
Lemma CommitTransaction_start fs d dirty iter1 iter2 extents jsbBlock jsbBuf jsb :
  fs_ok fs -> dev fs = InTx d dirty -> dirty <> ∅ ->
  has_journal (set_dev (Direct d) fs) extents jsbBuf jsb -> findPhysicalBlock extents 0 = Some jsbBlock ->
  CommitTransaction iter1 iter2 fs =
    commit_to_journal extents jsbBlock jsbBuf jsb (iter1 dirty) (iter2 dirty) (set_dev (Direct d) fs).
Proof.
  intros Hok Hdev Hne (sb & jinode & Hsb & Hj & _ & Hin & Hex & Hb & Hd & Hm) Hjb.
  assert (Hok0 : fs_ok (set_dev (Direct d) fs)).
  { unfold fs_ok, fs_content in *. rewrite Hdev in Hok. cbn in *. rewrite zlen_overlay in Hok. by destruct Hok as (? & ? & ? & ? & ?). }
  apply jblock_Some in Hb as (p & Hfind & Hp & Hfit & Hbuf & _); [|apply Hok0].
  rewrite Hjb in Hfind. injection Hfind as ->.
  unfold CommitTransaction. rewrite get_bind, Hdev. unfold mbind at 1, M_bind at 1, modify at 1.
  rewrite bool_decide_false by done.
  assert (E : deref_sb (set_dev (Direct d) fs) = (Ok sb, set_dev (Direct d) fs)) by (unfold deref_sb; by rewrite Hsb).
  rewrite (bind_ok _ _ _ _ _ E). cbn zeta. rewrite (proj2 (Z.eqb_neq _ _)) by done.
  rewrite (bind_ok _ _ _ _ _ (wrap_ok _ _ _ _ _ Hin)), (bind_ok _ _ _ _ _ (wrap_ok _ _ _ _ _ Hex)), Hjb.
  rewrite (bind_ok _ _ _ _ _ (wrap_ok _ _ _ _ _ (read_block (set_dev (Direct d) fs) p Hok0 Hp Hfit))).
  rewrite <- Hbuf, Hd, lift_ok_bind, Hm. done.
Qed.

(** C1: A commit writes the descriptor block with a tag per dirty block,
    the logged blocks, the commit block, the journal superblock and then the
    dirty blocks themselves, in this order; outside the journal the device
    holds afterwards exactly what the transaction saw. *)
Theorem CommitTransaction_writes fs d dirty iter1 iter2 extents jsbBlock jsbBuf jsb :
  fs_ok fs -> dev fs = InTx d dirty -> dirty <> ∅ ->
  iter1 dirty ≡ₚ map_to_list dirty -> iter2 dirty ≡ₚ map_to_list dirty ->
  24 <= BlockSize fs -> 12 + 8 * Z.of_nat (size dirty) <= BlockSize fs ->
  has_journal (set_dev (Direct d) fs) extents jsbBuf jsb -> findPhysicalBlock extents 0 = Some jsbBlock ->
  ring_ok (set_dev (Direct d) fs) extents (j_S_maxlen jsb) ->
  exists descBuf d',
    CommitTransaction iter1 iter2 fs = (Ok tt, set_dev (Direct d') fs) /\
    dev_content d' = apply_blocks (BlockSize fs) (dev_content d)
      (commit_writes extents (BlockSize fs) jsbBlock jsbBuf jsb descBuf (iter1 dirty) (iter2 dirty)) /\
    blocktype descBuf = JBD2_DESCRIPTOR /\
    (forall (j : nat) k b, iter1 dirty !! j = Some (k, b) ->
       tag_block descBuf (12 + 8 * Z.of_nat j) = w32 k /\
       tag_flags descBuf (12 + 8 * Z.of_nat j) = logged_flags (Z.of_nat (size dirty)) (Z.of_nat j) (k, b)) /\
    (forall k, 0 <= k -> (forall j, findPhysicalBlock extents j <> Some k) ->
       sub (dev_content d') (k * BlockSize fs) (BlockSize fs) = sub (fs_content fs) (k * BlockSize fs) (BlockSize fs)).
Proof.
  intros Hok Hdev Hne Hp1 Hp2 Hbs Hroom Hj Hjb Hring.
  rewrite (CommitTransaction_start fs d dirty iter1 iter2 extents jsbBlock jsbBuf jsb Hok Hdev Hne Hj Hjb).
  assert (Hcont : fs_content fs = overlay (BlockSize fs) (dev_content d) dirty) by (unfold fs_content; by rewrite Hdev).
  assert (Hboth : fs_ok (set_dev (Direct d) fs) /\ dirty_ok (BlockSize fs) (dev_content d) dirty).
  { unfold fs_ok in *. rewrite Hcont, zlen_overlay, Hdev in Hok. unfold fs_content. cbn in *. by destruct Hok as (? & ? & ? & ? & ?). }
  destruct Hboth as [Hok0 Hdirty].
  assert (Hl1 : zlen (iter1 dirty) = Z.of_nat (size dirty)) by (unfold zlen; by rewrite Hp1, length_map_to_list).
  pose proof Hj as (_ & _ & _ & _ & _ & _ & _ & Hb & Hd & _).
  apply jblock_Some in Hb as (p & Hfind & Hp & Hfit & _ & Hjl); [|apply Hok0].
  rewrite Hjb in Hfind. injection Hfind as <-. change (BlockSize (set_dev (Direct d) fs)) with (BlockSize fs) in *.
  assert (Hst : 0 <= j_S_start jsb) by (apply (decode_jsb_start jsbBuf); [lia|done]).
  destruct (commit_to_journal_ok (set_dev (Direct d) fs) d extents jsbBlock jsbBuf jsb (iter1 dirty) (iter2 dirty))
    as (descBuf & fs' & E & ((d' & ->) & _ & Hc) & Hdl & Hpre & Htags); [done|done|done|by rewrite Hl1|done..| |].
  { intros k b Hkb. rewrite Hp2 in Hkb. apply elem_of_map_to_list in Hkb. by apply Hdirty. }
  change (BlockSize (set_dev (Direct d) fs)) with (BlockSize fs) in *.
  exists descBuf, d'. split; [exact E|]. split; [exact Hc|].
  rewrite Hl1 in Htags. split; [|split; [by intros j k b; apply Htags|]].
  - unfold blocktype. transitivity (le_get 4 (sub descBuf 0 12) 4); [by rewrite le_get_sub by lia|].
    rewrite Hpre, le_get_sub by lia. apply header_block_type; [lia|unfold JBD2_DESCRIPTOR; lia].
  - intros k Hk Hout. unfold fs_content at 1 in Hc. cbn in Hc. rewrite Hc, Hcont. change (fs_content (set_dev (Direct d) fs)) with (dev_content d).
    apply commit_writes_outside; try done; try lia.
    all: try (by apply first_pos_range; [done|apply Hring]); try apply Hring; try done.
    intros i Hi. destruct Hring as [_ Hring]. destruct (Hring i Hi) as (q & -> & _). done.
Qed.

(** C38: A transaction with more dirty blocks than tags fit the descriptor
    block panics in the commit: the transaction is over, nothing of it has
    reached the device and all of it is lost. *)
Theorem CommitTransaction_overflow fs d dirty iter1 iter2 extents jsbBlock jsbBuf jsb :
  fs_ok fs -> dev fs = InTx d dirty -> dirty <> ∅ ->
  iter1 dirty ≡ₚ map_to_list dirty ->
  24 <= BlockSize fs -> BlockSize fs < 12 + 8 * Z.of_nat (size dirty) ->
  has_journal (set_dev (Direct d) fs) extents jsbBuf jsb -> findPhysicalBlock extents 0 = Some jsbBlock ->
  CommitTransaction iter1 iter2 fs = (Panic, set_dev (Direct d) fs).
Proof.
  intros Hok Hdev Hne Hp1 Hbs Hroom Hj Hjb.
  rewrite (CommitTransaction_start fs d dirty iter1 iter2 extents jsbBlock jsbBuf jsb Hok Hdev Hne Hj Hjb).
  assert (Hl1 : zlen (iter1 dirty) = Z.of_nat (size dirty)) by (unfold zlen; by rewrite Hp1, length_map_to_list).
  unfold commit_to_journal. rewrite get_bind. cbn zeta. change (BlockSize (set_dev (Direct d) fs)) with (BlockSize fs).
  do 3 (rewrite putUint_bind by (rewrite ?zlen_put, ?zlen_zeros by lia; lia)).
  rewrite commit_tags_panic; [done|rewrite !zlen_put, zlen_zeros; lia|rewrite !zlen_put, zlen_zeros, Hl1; lia].
Qed.
End commit.

(** ** Examples: transactions of one and of seven blocks

    A block of 64 bytes has room for six tags. *)
#[local] Existing Instance ex_env.

Definition ex_blocks (first n : Z) : gmap Z (list byte) :=
  gset_to_gmap (replicate 64 Byte.x2a) (list_to_set (seqZ first n)).
Definition ex_jfile : File := match dev ex_zero_fs with Direct d => d | InTx d _ => d end.
Definition ex_tx_fs (first n : Z) : FileSystem File := set_dev (InTx ex_jfile (ex_blocks first n)) ex_zero_fs.

Lemma ex_tx_ok first n : 0 <= first -> first + n <= 48 -> fs_ok (ex_tx_fs first n).
Proof.
  intros Hf Hn. destruct (ex_journal_ok (zeros 64) (zeros 64) (zeros 64)) as (Hbs & Hdiv & Hmax & Hok).
  unfold fs_ok, fs_content. cbn [ex_tx_fs dev set_dev dev_view dev_view_ok BlockSize]. rewrite zlen_overlay.
  change (dev_content ex_jfile) with (fs_content ex_zero_fs). split; [done|]. split; [exact Hdiv|]. split; [exact Hmax|].
  split; [done|]. intros k b Hb. unfold ex_blocks in Hb. apply lookup_gset_to_gmap_Some in Hb as [Hk%elem_of_list_to_set <-].
  apply elem_of_seqZ in Hk. change (BlockSize ex_zero_fs) with 64.
  assert (El : zlen (fs_content ex_zero_fs) = 3072) by (vm_compute; reflexivity). rewrite El.
  split; [lia|]. split; [reflexivity|lia].
Qed.

Lemma ex_ring k : 1 <= k <= 4 -> findPhysicalBlock ex_jextents k = Some (k + 1).
Proof.
  intros Hk. unfold ex_jextents. cbn [findPhysicalBlock].
  assert (Hc : k = 1 \/ k = 2 \/ k = 3 \/ k = 4) by lia. by destruct Hc as [->|[->|[->| ->]]].
Qed.

Lemma CommitTransaction_writes_witness :
  exists d', CommitTransaction map_to_list map_to_list (ex_tx_fs 46 1) = (Ok tt, set_dev (Direct d') (ex_tx_fs 46 1)) /\
    sub (f_data d') (46 * 64) 64 = replicate 64 Byte.x2a.
Proof.
  destruct (CommitTransaction_writes (ex_tx_fs 46 1) ex_jfile (ex_blocks 46 1) map_to_list map_to_list
    ex_jextents 1 ex_jsb_bytes ex_jsb) as (descBuf & d' & E & _ & _ & _ & Hout).
  - apply ex_tx_ok; lia.
  - reflexivity.
  - by_decision.
  - reflexivity.
  - reflexivity.
  - vm_compute. discriminate.
  - vm_compute. discriminate.
  - exact (Forall_inv (Forall_inv_tail (Forall_inv_tail ex_has_journal))).
  - reflexivity.
  - split; [cbn; lia|]. intros k Hk. exists (k + 1). split; [by apply ex_ring|]. split; [cbn in Hk; lia|].
    assert (El : zlen (fs_content (set_dev (Direct ex_jfile) (ex_tx_fs 46 1))) = 3072) by (vm_compute; reflexivity).
    rewrite El. cbn in *. lia.
  - exists d'. split; [exact E|]. etransitivity; [apply (Hout 46); [lia|exact ex_jfind]|]. vm_compute. reflexivity.
Defined.

Lemma CommitTransaction_overflow_witness :
  CommitTransaction map_to_list map_to_list (ex_tx_fs 6 7) = (Panic, set_dev (Direct ex_jfile) (ex_tx_fs 6 7)).
Proof.
  apply (CommitTransaction_overflow (ex_tx_fs 6 7) ex_jfile (ex_blocks 6 7) map_to_list map_to_list
    ex_jextents 1 ex_jsb_bytes ex_jsb).
  - apply ex_tx_ok; lia.
  - reflexivity.
  - by_decision.
  - reflexivity.
  - vm_compute. discriminate.
  - vm_compute. reflexivity.
  - exact (Forall_inv (Forall_inv_tail (Forall_inv_tail ex_has_journal))).
  - reflexivity.
Defined.
