(* ===== verification/FsInterface.v ===== *)
(** The interface between the host bridge and a file-system driver
    ([src/fs/fs.go]): its types, the error numbers, the operations as a
    class, and what a driver promises about the device under it. *)
From S2P Require Export Device.

(** ** Types *)

(** [Inode] of [NodeInfo] is not set by the ext4 adapter and stays 0 there; times are
    seconds. *)
Record NodeInfo := mkNodeInfo {
  ni_Inode : Z; ni_Mode : Z; ni_Uid : Z; ni_Gid : Z; ni_Size : Z;
  ni_Atime : Z; ni_Mtime : Z; ni_Ctime : Z;
  ni_Nlink : Z; ni_Blksize : Z; ni_Blocks : Z;
  ni_IsDir : bool; ni_IsRegular : bool; ni_IsSymlink : bool
}.

Record DirEntry := mkDirEntry { d_Inode : Z; d_Name : list byte; d_FileType : Z }.

Definition DirFileTypeRegular : Z := 1.
Definition DirFileTypeDir : Z := 2.
Definition DirFileTypeSymlink : Z := 7.

Record Statfs_t := mkStatfs {
  f_Bsize : Z; f_Frsize : Z; f_Blocks : Z; f_Bfree : Z; f_Bavail : Z;
  f_Files : Z; f_Ffree : Z; f_Favail : Z; f_Namemax : Z
}.

(** The error numbers of the FUSE interface that the code names; [None] of
    an [option errno] is the result 0. *)
Inductive errno := ENOENT | EIO | ENOATTR | EEXIST | ENOSPC | EBADF | ENOSYS.

#[export] Instance errno_eq_dec : EqDecision errno.
Proof. solve_decision. Defined.

(** ** Operations *)

(** An implementation of [fs.FileSystem]: its state is [S].  A buffer that
    an operation fills is threaded through. *)
Class FileSystem_ops (S : Type) := {
  op_Destroy : M S unit;
  op_Getattr : list byte -> M S NodeInfo;
  op_Readdir : list byte -> M S (list DirEntry);
  op_Readlink : list byte -> M S (list byte);
  op_Open : list byte -> Z -> M S unit;
  op_Read : list byte -> list byte -> Z -> M S (list byte * Z);
  op_Release : list byte -> M S unit;
  op_Create : list byte -> Z -> Z -> M S unit;
  op_Write : list byte -> list byte -> Z -> M S Z;
  op_Mkdir : list byte -> Z -> M S unit;
  op_Unlink : list byte -> M S unit;
  op_Rmdir : list byte -> M S unit;
  op_Rename : list byte -> list byte -> M S unit;
  op_Chmod : list byte -> Z -> M S unit;
  op_Chown : list byte -> Z -> Z -> M S unit;
  op_Truncate : list byte -> Z -> M S unit;
  op_Symlink : list byte -> list byte -> M S unit;
  op_Link : list byte -> list byte -> M S unit;
  op_Getxattr : list byte -> list byte -> M S (option errno * list byte);
  op_Setxattr : list byte -> list byte -> option (list byte) -> Z -> M S (option errno);
  op_Listxattr : list byte -> (list (list byte) -> list byte -> bool) -> M S (option errno * list (list byte));
  op_Removexattr : list byte -> list byte -> M S (option errno);
  op_Statfs : M S Statfs_t
}.

(** ** The interface between a driver and the device under it *)

(** An assertion about a device that every write keeps, whatever its range
    and whether it succeeds or fails. *)
Definition kept_by_writes {D} `{ReadWriterAt D} (Q : D -> Prop) : Prop :=
  forall d off p, Q d -> Q (WriteAt d off p).1.

(** The operations of [fs.FileSystem]. *)
Inductive operation {S} `{FileSystem_ops S} : forall A : Type, M S A -> Prop :=
  | oper_Destroy : operation unit op_Destroy
  | oper_Getattr path : operation NodeInfo (op_Getattr path)
  | oper_Readdir path : operation (list DirEntry) (op_Readdir path)
  | oper_Readlink path : operation (list byte) (op_Readlink path)
  | oper_Open path flags : operation unit (op_Open path flags)
  | oper_Read path buf ofst : operation (list byte * Z) (op_Read path buf ofst)
  | oper_Release path : operation unit (op_Release path)
  | oper_Create path flags mode : operation unit (op_Create path flags mode)
  | oper_Write path buf ofst : operation Z (op_Write path buf ofst)
  | oper_Mkdir path mode : operation unit (op_Mkdir path mode)
  | oper_Unlink path : operation unit (op_Unlink path)
  | oper_Rmdir path : operation unit (op_Rmdir path)
  | oper_Rename oldpath newpath : operation unit (op_Rename oldpath newpath)
  | oper_Chmod path mode : operation unit (op_Chmod path mode)
  | oper_Chown path uid gid : operation unit (op_Chown path uid gid)
  | oper_Truncate path size : operation unit (op_Truncate path size)
  | oper_Symlink target newpath : operation unit (op_Symlink target newpath)
  | oper_Link oldpath newpath : operation unit (op_Link oldpath newpath)
  | oper_Getxattr path name : operation (option errno * list byte) (op_Getxattr path name)
  | oper_Setxattr path name value flags : operation (option errno) (op_Setxattr path name value flags)
  | oper_Listxattr path fill : operation (option errno * list (list byte)) (op_Listxattr path fill)
  | oper_Removexattr path name : operation (option errno) (op_Removexattr path name)
  | oper_Statfs : operation Statfs_t op_Statfs.

(** A driver whose operations change the device by writes alone: [over Q]
    is [Q] of the device of a mounted file system. *)
Class OverDevice (S D : Type) `{ReadWriterAt D} `{FileSystem_ops S} := {
  over : (D -> Prop) -> S -> Prop;
  over_operation (Q : D -> Prop) A (op : M S A) : kept_by_writes Q -> operation A op -> preserves (over Q) op
}.
