(* ===== verification/Crc32c.v ===== *)
(** The checksum of btrfs ([calcCrc32c] of [src/btrfs/writer.go]): the
    table-driven routine computes the bit-serial CRC-32C. *)
From S2P Require Export Bytes.

(** ** The code *)

(** One round of the inner loop of [init], which fills the table. *)
Definition crc_step (crc : Z) : Z :=
  if negb (Z.land crc 1 =? 0) then Z.lxor 0x82F63B78 (Z.shiftr crc 1) else Z.shiftr crc 1.
Definition crc_entry (i : Z) : Z := Nat.iter 8 crc_step i.
Definition crc32cTable : list Z := crc_entry <$> seqZ 0 256.

(** [crc32cTable[byte(crc)^b] ^ (crc >> 8)] *)
Definition crc_update (crc : Z) (b : byte) : Z :=
  Z.lxor (nth (Z.to_nat (Z.lxor (w8 crc) (byte.unsigned b))) crc32cTable 0) (Z.shiftr crc 8).
Definition calcCrc32c (data : list byte) : Z := Z.lxor (foldl crc_update 0xFFFFFFFF data) 0xFFFFFFFF.

(** ** The reference: a shift register fed bit by bit, lowest bit first *)
Definition crc_feed (s : Z) (bit : bool) : Z :=
  if xorb (Z.testbit s 0) bit then Z.lxor 0x82F63B78 (Z.shiftr s 1) else Z.shiftr s 1.
Definition byte_bits (b : byte) : list bool := (fun i => Z.testbit (byte.unsigned b) i) <$> seqZ 0 8.
Definition crc_serial (data : list byte) : Z :=
  Z.lxor (foldl crc_feed 0xFFFFFFFF (data ≫= byte_bits)) 0xFFFFFFFF.

(** ** The register is linear *)
Lemma crc_step_bit s : crc_step s = if Z.testbit s 0 then Z.lxor 0x82F63B78 (Z.shiftr s 1) else Z.shiftr s 1.
Proof.
  unfold crc_step. change 1 with (Z.ones 1) at 1. rewrite Z.land_ones, Z.bit0_eqb by lia. change (2 ^ 1) with 2.
  pose proof (Z.mod_pos_bound s 2 ltac:(lia)). by destruct (Z.eqb_spec (s mod 2) 0), (Z.eqb_spec (s mod 2) 1); try lia.
Qed.

Lemma crc_step_linear a b : crc_step (Z.lxor a b) = Z.lxor (crc_step a) (crc_step b).
Proof.
  rewrite !crc_step_bit, Z.lxor_spec, Z.shiftr_lxor. apply Z.bits_inj'. intros n Hn.
  destruct (Z.testbit a 0), (Z.testbit b 0); cbn [xorb]; rewrite ?Z.lxor_spec; by repeat destruct (Z.testbit _ _).
Qed.

Lemma crc_iter_linear n a b :
  Nat.iter n crc_step (Z.lxor a b) = Z.lxor (Nat.iter n crc_step a) (Nat.iter n crc_step b).
Proof. induction n as [|n IH]; [done|]. by rewrite !Nat.iter_succ, IH, crc_step_linear. Qed.

Lemma crc_iter_shift n a : Nat.iter n crc_step (Z.shiftl a (Z.of_nat n)) = a.
Proof.
  revert a. induction n as [|n IH]; intros a; [apply Z.shiftl_0_r|].
  rewrite Nat.iter_succ_r. replace (crc_step (Z.shiftl a (Z.of_nat (S n)))) with (Z.shiftl a (Z.of_nat n)); [apply IH|].
  rewrite crc_step_bit, Z.shiftl_spec_low by lia. rewrite Z.shiftr_shiftl_l by lia. f_equal. lia.
Qed.

(** ** One byte *)
Lemma crc_feed_step s v : crc_step (Z.lxor s v) = Z.lxor (crc_feed s (Z.testbit v 0)) (Z.shiftr v 1).
Proof.
  rewrite crc_step_bit, Z.lxor_spec, Z.shiftr_lxor. unfold crc_feed.
  destruct (xorb _ _); [by rewrite Z.lxor_assoc|done].
Qed.

Lemma feed_bits n v s :
  0 <= v < 2 ^ Z.of_nat n ->
  foldl crc_feed s ((fun i => Z.testbit v i) <$> seqZ 0 (Z.of_nat n)) = Nat.iter n crc_step (Z.lxor s v).
Proof.
  revert v s. induction n as [|n IH]; intros v s Hv.
  { replace v with 0 by (cbn in Hv; lia). cbn. by rewrite Z.lxor_0_r. }
  rewrite Nat2Z.inj_succ in *. rewrite seqZ_cons by lia. cbn [fmap list_fmap foldl].
  rewrite Z.pred_succ. change (Z.succ 0) with (1 + 0). rewrite <- fmap_add_seqZ, <- list_fmap_compose.
  rewrite Nat.iter_succ_r, crc_feed_step, <- IH.
  - f_equal. apply list_fmap_ext. intros i x Hx. apply lookup_seqZ in Hx as [-> _]. cbn.
    rewrite Z.shiftr_spec by lia. f_equal. lia.
  - rewrite Z.shiftr_div_pow2 by lia. change (2 ^ 1) with 2. rewrite Z.pow_succ_r in Hv by lia.
    split; [apply Z.div_pos; lia|]. apply Z.div_lt_upper_bound; lia.
Qed.

Lemma lxor_mod n a b : 0 <= n -> Z.lxor a b mod 2 ^ n = Z.lxor (a mod 2 ^ n) (b mod 2 ^ n).
Proof.
  intros Hn. apply Z.bits_inj'. intros i Hi. rewrite Z.lxor_spec. destruct (Z.lt_ge_cases i n).
  - by rewrite !Z.mod_pow2_bits_low, Z.lxor_spec by lia.
  - by rewrite !Z.mod_pow2_bits_high by lia.
Qed.

(** Eight rounds clear the low byte: the table holds what it contributes. *)
Lemma iter_table x : 0 <= x ->
  Nat.iter 8 crc_step x = Z.lxor (crc_entry (x mod 2 ^ 8)) (Z.shiftr x 8).
Proof.
  intros Hx. replace x with (Z.lxor (x mod 2 ^ 8) (Z.shiftl (Z.shiftr x 8) (Z.of_nat 8))) at 1.
  { by rewrite crc_iter_linear, crc_iter_shift. }
  apply Z.bits_inj'. intros n Hn. rewrite Z.lxor_spec. destruct (Z.lt_ge_cases n 8).
  - rewrite Z.mod_pow2_bits_low, Z.shiftl_spec_low by lia. apply xorb_false_r.
  - rewrite Z.mod_pow2_bits_high, Z.shiftl_spec, Z.shiftr_spec by lia. rewrite xorb_false_l. f_equal. lia.
Qed.

Lemma table_lookup i : 0 <= i < 256 -> nth (Z.to_nat i) crc32cTable 0 = crc_entry i.
Proof.
  intros Hi. apply nth_lookup_Some. unfold crc32cTable. rewrite list_lookup_fmap, lookup_seqZ_lt by lia.
  cbn [fmap option_map option_fmap]. change (Some (crc_entry (0 + Z.of_nat (Z.to_nat i))) = Some (crc_entry i)).
  rewrite Z2Nat.id by lia. done.
Qed.

Lemma crc_update_feed s b : 0 <= s -> crc_update s b = foldl crc_feed s (byte_bits b).
Proof.
  intros Hs. pose proof (byte.unsigned_range b) as Hb. unfold byte_bits, crc_update.
  rewrite (feed_bits 8) by (change (2 ^ Z.of_nat 8) with (2 ^ 8); lia).
  rewrite iter_table by (apply Z.lxor_nonneg; lia). rewrite table_lookup.
  - f_equal.
    + f_equal. by rewrite w8_mod, lxor_mod, (Z.mod_small (byte.unsigned b)) by lia.
    + rewrite Z.shiftr_lxor, (Z.shiftr_div_pow2 (byte.unsigned b)), Z.div_small by lia. by rewrite Z.lxor_0_r.
  - pose proof (w8_range s). change 256 with (2 ^ 8). split; [apply Z.lxor_nonneg; lia|].
    rewrite w8_mod, <- (Z.mod_small (byte.unsigned b) (2 ^ 8)), <- lxor_mod by lia. by apply Z.mod_pos_bound.
Qed.

Lemma crc_feed_nonneg s d : 0 <= s -> 0 <= crc_feed s d.
Proof. intros. unfold crc_feed. destruct (xorb _ _); rewrite ?Z.lxor_nonneg, ?Z.shiftr_nonneg; lia. Qed.
Lemma crc_bits_nonneg l s : 0 <= s -> 0 <= foldl crc_feed s l.
Proof. revert s. induction l as [|d l IH]; intros s Hs; [done|]. by apply IH, crc_feed_nonneg. Qed.

Lemma crc_updates data s : 0 <= s -> foldl crc_update s data = foldl crc_feed s (data ≫= byte_bits).
Proof.
  revert s. induction data as [|b data IH]; intros s Hs; [done|].
  change ((b :: data) ≫= byte_bits) with (byte_bits b ++ (data ≫= byte_bits)).
  rewrite foldl_app. cbn [foldl]. rewrite crc_update_feed by done. apply IH, crc_bits_nonneg, Hs.
Qed.

Lemma lxor_range n a b : 0 <= n -> 0 <= a < 2 ^ n -> 0 <= b < 2 ^ n -> 0 <= Z.lxor a b < 2 ^ n.
Proof.
  intros Hn Ha Hb. replace (Z.lxor a b) with (Z.lxor a b mod 2 ^ n); [apply Z.mod_pos_bound; lia|].
  rewrite lxor_mod, !Z.mod_small by lia. done.
Qed.

Lemma crc_feed_range s d : 0 <= s < 2 ^ 32 -> 0 <= crc_feed s d < 2 ^ 32.
Proof.
  intros Hs. assert (0 <= Z.shiftr s 1 < 2 ^ 32).
  { rewrite Z.shiftr_div_pow2 by lia. change (2 ^ 1) with 2. split; [apply Z.div_pos; lia|].
    apply Z.div_lt_upper_bound; lia. }
  unfold crc_feed. destruct (xorb _ _); [apply lxor_range; lia|lia].
Qed.

Lemma calcCrc32c_range data : 0 <= calcCrc32c data < 2 ^ 32.
Proof.
  unfold calcCrc32c. apply lxor_range; [lia| |lia]. rewrite crc_updates by lia.
  assert (Hs : 0 <= 0xFFFFFFFF < 2 ^ 32) by lia. revert Hs. generalize 0xFFFFFFFF.
  induction (data ≫= byte_bits) as [|d l IH]; intros s Hs; [done|]. by apply IH, crc_feed_range.
Qed.

(** C39: The table-driven checksum is the bit-serial CRC-32C of the data, for
    all data. *)
Theorem calcCrc32c_serial data : calcCrc32c data = crc_serial data.
Proof. unfold calcCrc32c, crc_serial. f_equal. apply crc_updates. lia. Qed.

(** The check value of CRC-32C. *)
Example crc32c_check : calcCrc32c (bytes_of_string "123456789") = 0xE3069283.
Proof. vm_compute. reflexivity. Qed.
