(* ===== verification/BtrfsTree.v ===== *)
(** The btrfs driver: nodes, keys and the chunk map, the superblock, and
    walking a tree ([src/btrfs/types.go], [super.go], [tree.go]).

    The driver reads and writes the device directly; there are no
    transactions.  A walk calls a function on every item; the function may
    change what it has captured and may stop the walk with an error. *)
From S2P Require Export FsInterface Device Crc32c.

(** ** [byteReader] *)
Record byteReader := mkByteReader { br_buf : list byte; br_off : Z }.
Abbreviation Rd := (M byteReader).

Definition u (n : nat) : Rd Z :=
  r <- get ;;
  v <- lift (getUint n (br_buf r) (br_off r)) ;;
  modify (fun r => mkByteReader (br_buf r) (br_off r + Z.of_nat n)) ;;
  mret v.
Definition u8 : Rd Z := u 1.
Definition u16 : Rd Z := u 2.
Definition u32 : Rd Z := u 4.
Definition u64 : Rd Z := u 8.
Definition rcopy (n : Z) : Rd (list byte) :=
  r <- get ;;
  b <- lift (slice (br_buf r) (br_off r) (br_off r + n)) ;;
  modify (fun r => mkByteReader (br_buf r) (br_off r + n)) ;;
  mret b.
Definition skip (n : Z) : Rd unit := modify (fun r => mkByteReader (br_buf r) (br_off r + n)).

(** Decoding from the start of a buffer. *)
Definition decode {A} (d : Rd A) (buf : list byte) : res A := (d (mkByteReader buf 0)).1.

(** ** Nodes and keys *)
Definition nodeHeaderSize : Z := 101.
Definition btrfsMagic : Z := 0x4D5F53665248425F.
Definition superblockOffset : Z := 0x10000.
Definition superblockSize : Z := 4096.

Definition BTRFS_ROOT_ITEM_KEY : Z := 132.
Definition BTRFS_DIR_ITEM_KEY : Z := 84.
Definition BTRFS_DIR_INDEX_KEY : Z := 96.
Definition BTRFS_INODE_ITEM_KEY : Z := 1.
Definition BTRFS_EXTENT_DATA_KEY : Z := 108.
Definition BTRFS_CHUNK_ITEM_KEY : Z := 228.
Definition BTRFS_EXTENT_ITEM_KEY : Z := 168.
Definition BTRFS_FILE_EXTENT_INLINE : Z := 0.
Definition BTRFS_FILE_EXTENT_REG : Z := 1.
Definition BTRFS_BLOCK_GROUP_DATA : Z := 1.
Definition BTRFS_BLOCK_GROUP_METADATA : Z := 4.
Definition BTRFS_FT_REG_FILE : Z := 1.
Definition BTRFS_FT_DIR : Z := 2.
Definition BTRFS_FT_SYMLINK : Z := 7.

Record key := mkKey { objectid : Z; typ : Z; offset : Z }.

#[export] Instance key_eq_dec : EqDecision key.
Proof. solve_decision. Defined.

Definition key_less (k other : key) : bool :=
  if negb (objectid k =? objectid other) then objectid k <? objectid other
  else if negb (typ k =? typ other) then typ k <? typ other
  else offset k <? offset other.

Definition decodeKey : Rd key :=
  o <- u64 ;;
  t <- u8 ;;
  f <- u64 ;;
  mret (mkKey o t f).

Record nodeHeader := mkNodeHeader {
  h_csum : list byte; h_fsid : list byte; h_bytenr : Z; h_flags : Z; h_chunkUuid : list byte;
  h_generation : Z; h_owner : Z; h_nritems : Z; h_level : Z
}.

Definition decodeNodeHeader : Rd nodeHeader :=
  csum <- rcopy 32 ;;
  fsid <- rcopy 16 ;;
  bytenr <- u64 ;;
  flags <- u64 ;;
  chunkUuid <- rcopy 16 ;;
  generation <- u64 ;;
  owner <- u64 ;;
  nritems <- u32 ;;
  level <- u8 ;;
  mret (mkNodeHeader csum fsid bytenr flags chunkUuid generation owner nritems level).

Record leafItem := mkLeafItem { li_key : key; li_offset : Z; li_size : Z }.

Definition decodeLeafItem : Rd leafItem :=
  k <- decodeKey ;;
  off <- u32 ;;
  size <- u32 ;;
  mret (mkLeafItem k off size).

Record internalKeyPtr := mkInternalKeyPtr { ip_key : key; ip_blockptr : Z; ip_generation : Z }.

Definition decodeInternalPtr : Rd internalKeyPtr :=
  k <- decodeKey ;;
  blockptr <- u64 ;;
  generation <- u64 ;;
  mret (mkInternalKeyPtr k blockptr generation).

(** ** The chunk map *)
Record chunkMapping := mkChunkMapping { c_logical : Z; c_length : Z; c_physical : Z; c_flags : Z }.

(** The device of a [treeContext] is the one of the file system and is
    passed beside it. *)
Record treeContext := mkTreeContext { nodeSize : Z; chunks : list chunkMapping }.

Definition in_chunk (logical : Z) (c : chunkMapping) : bool :=
  (c_logical c <=? logical) && (logical <? w64 (c_logical c + c_length c)).

Fixpoint resolve (l : list chunkMapping) (logical : Z) : res Z :=
  match l with
  | [] => Err (Errorf "btrfs: no chunk mapping for logical 0x%x")
  | c :: l' =>
      if in_chunk logical c then Ok (w64 (c_physical c + (logical - c_logical c))) else resolve l' logical
  end.

Definition addChunk (logical length physical flags : Z) (tc : treeContext) : treeContext :=
  mkTreeContext (nodeSize tc) (chunks tc ++ [mkChunkMapping logical length physical flags]).

Section device.
Context {D : Type} `{ReadWriterAt D}.

(** [buf := make([]byte, n); _, err := dev.ReadAt(buf, int64(off))] *)
Definition dev_ReadAt (dev : D) (off n : Z) : res (list byte) :=
  let '(got, err) := ReadAt dev (i64 off) n in
  match err with
  | Some e => Err e
  | None => Ok (put (zeros n) 0 got)
  end.

(** The error, and the caller's buffer. *)
Definition readAt (dev : D) (buf : list byte) (off : Z) : option error * list byte :=
  let '(got, err) := ReadAt dev (i64 off) (zlen buf) in (err, put buf 0 got).

Definition readNode (dev : D) (addr nodeSize : Z) : res (list byte) := dev_ReadAt dev addr nodeSize.

(** ** Walking a tree *)
Section walk.
Context {B : Type}.

(** The function called on the items: it works on what it has captured, [B],
    and may add chunks to the context. *)
Variable cb : leafItem -> list byte -> M (treeContext * B) unit.

Definition wrap_res {A} (msg : string) (r : res A) : res A :=
  match r with Err e => Err (Wrapf msg e) | r => r end.

(** One item of a leaf; offsets are [uint32]. *)
Definition walk_item (buf : list byte) (r : byteReader) : M (treeContext * B) byteReader :=
  let '(item, r) := decodeLeafItem r in
  item <- lift item ;;
  let dataStart := w32 (nodeHeaderSize + li_offset item) in
  let dataEnd := w32 (dataStart + li_size item) in
  if zlen buf <? dataEnd then fail (Errorf "btrfs: item %d data out of bounds: off=%d size=%d bufLen=%d")
  else
    data <- lift (slice buf dataStart dataEnd) ;;
    cb item data ;;
    mret r.

(** [depth] bounds the height of the tree: the level of a node is what the
    node itself says. *)
Fixpoint walkTreeWithNodeCB (depth : nat) (dev : D) (addr : Z) : M (treeContext * B) unit :=
  match depth with
  | O => lift OutOfFuel
  | S depth =>
      s <- get ;;
      phys <- lift (resolve (chunks s.1) addr) ;;
      buf <- lift (wrap_res "btrfs: read node at 0x%x: %w" (readNode dev phys (nodeSize s.1))) ;;
      let '(h, r) := decodeNodeHeader (mkByteReader buf 0) in
      h <- lift h ;;
      if h_level h =? 0 then
        forM (seqZ 0 (h_nritems h)) r (fun _ r => walk_item buf r) ;;
        mret tt
      else
        forM (seqZ 0 (h_nritems h)) r (fun _ r =>
          let '(ptr, r) := decodeInternalPtr r in
          ptr <- lift ptr ;;
          walkTreeWithNodeCB depth dev (ip_blockptr ptr) ;;
          mret r) ;;
        mret tt
  end.
End walk.

Context `{env : Env}.

(** The level argument of the code is not looked at. *)
Definition walkTree {B} (dev : D) (addr : Z) (cb : leafItem -> list byte -> M (treeContext * B) unit)
    : M (treeContext * B) unit := walkTreeWithNodeCB cb fuel dev addr.

(** A function that leaves the context alone. *)
Definition captured {T B A} (m : M B A) : M (T * B) A := fun '(t, b) => let '(r, b') := m b in (r, (t, b')).

Definition readNodeAt (dev : D) (tc : treeContext) (logical : Z) : res (list byte) :=
  phys <- resolve (chunks tc) logical ;;
  wrap_res "read node at logical 0x%x -> phys 0x%x: %w" (readNode dev phys (nodeSize tc)).

(** ** The chunk tree *)
Definition chunk_fields : Rd (Z * Z * Z) :=
  length <- u64 ;;
  u64 ;; u64 ;;
  flags <- u64 ;;
  u32 ;; u32 ;; u32 ;;
  numStripes <- u16 ;;
  skip 2 ;;
  mret (length, flags, numStripes).

(** The physical offset is the one of the last stripe. *)
Definition stripe_offset : Rd Z := skip 8 ;; u64.

Definition parseChunkItem (item : leafItem) (data : list byte) : M (treeContext * unit) unit :=
  if zlen data <? 48 then mret tt
  else
    let '(f, r) := chunk_fields (mkByteReader data 0) in
    let! (length, flags, numStripes) := lift f in
    if (numStripes =? 0) || (zlen data <? 48 + numStripes * 32) then mret tt
    else
      physOffset <- lift ((skip ((numStripes - 1) * 32) ;; stripe_offset) r).1 ;;
      modify (fun s => (addChunk (offset (li_key item)) length physOffset flags s.1, s.2)).

Definition resolveChunkTree (dev : D) (rootAddr : Z) : M (treeContext * unit) unit :=
  walkTree dev rootAddr (fun item data =>
    if typ (li_key item) =? BTRFS_CHUNK_ITEM_KEY then parseChunkItem item data else mret tt).

(** ** The superblock *)
Record SuperBlock := mkSuperBlock {
  Csum : list byte; Fsid : list byte; Bytenr : Z; Flags : Z; Magic : Z; Generation : Z; Root : Z; ChunkRoot : Z;
  LogRoot : Z; LogRootTransid : Z; TotalBytes : Z; BytesUsed : Z; RootDirObjectid : Z; NumDevices : Z;
  SectorSize : Z; NodeSize : Z; LeafSize : Z; StripeSize : Z; SysChunkArraySize : Z; ChunkRootGeneration : Z;
  CompatFlags : Z; CompatRoFlags : Z; IncompatFlags : Z; CsumType : Z; RootLevel : Z; ChunkRootLevel : Z;
  LogRootLevel : Z; SysChunkData : list byte
}.

Definition sysChunkArrayOffset : Z := 811.
Definition sysChunkArrayMax : Z := 2048.

Definition decodeSuperBlock (buf : list byte) : Rd SuperBlock :=
  csum <- rcopy 32 ;;
  fsid <- rcopy 16 ;;
  bytenr <- u64 ;;
  flags <- u64 ;;
  magic <- u64 ;;
  if negb (magic =? btrfsMagic) then fail (Errorf "invalid btrfs magic: expected 0x%X, got 0x%X")
  else
    generation <- u64 ;;
    root <- u64 ;;
    chunkRoot <- u64 ;;
    logRoot <- u64 ;;
    logRootTransid <- u64 ;;
    totalBytes <- u64 ;;
    bytesUsed <- u64 ;;
    rootDirObjectid <- u64 ;;
    numDevices <- u64 ;;
    sectorSize <- u32 ;;
    nodeSize <- u32 ;;
    leafSize <- u32 ;;
    stripeSize <- u32 ;;
    sysChunkArraySize <- u32 ;;
    chunkRootGeneration <- u64 ;;
    compatFlags <- u64 ;;
    compatRoFlags <- u64 ;;
    incompatFlags <- u64 ;;
    csumType <- u16 ;;
    rootLevel <- u8 ;;
    chunkRootLevel <- u8 ;;
    logRootLevel <- u8 ;;
    let end_ := sysChunkArrayOffset + sysChunkArraySize in
    sysChunkData <- lift
      (if (0 <? sysChunkArraySize) && (sysChunkArraySize <=? sysChunkArrayMax) && (end_ <=? zlen buf)
       then slice buf sysChunkArrayOffset end_ else Ok []) ;;
    mret (mkSuperBlock csum fsid bytenr flags magic generation root chunkRoot logRoot logRootTransid totalBytes
            bytesUsed rootDirObjectid numDevices sectorSize nodeSize leafSize stripeSize sysChunkArraySize
            chunkRootGeneration compatFlags compatRoFlags incompatFlags csumType rootLevel chunkRootLevel
            logRootLevel sysChunkData).

Definition ReadSuperBlock (dev : D) : res SuperBlock :=
  buf <- wrap_res "btrfs: read superblock: %w" (dev_ReadAt dev superblockOffset superblockSize) ;;
  decode (decodeSuperBlock buf) buf.

(** The chunks of the system array; each takes more than 17 bytes, so a
    round per byte is enough. *)
Fixpoint parseSysChunks_loop (rounds : nat) (data : list byte) (pos : Z) (tc : treeContext) : res treeContext :=
  if zlen data <? pos + 17 then Ok tc
  else
    match rounds with
    | O => OutOfFuel
    | S rounds =>
        kbuf <- slice data pos (zlen data) ;;
        k <- decode decodeKey kbuf ;;
        let pos := pos + 17 in
        if negb (typ k =? BTRFS_CHUNK_ITEM_KEY) || (zlen data <? pos + 48) then Ok tc
        else
          cbuf <- slice data pos (zlen data) ;;
          let! (length, flags, numStripes) := decode chunk_fields cbuf in
          let stripeTotal := numStripes * 32 in
          if (numStripes =? 0) || (zlen data <? pos + 48 + stripeTotal) then Ok tc
          else
            sbuf <- slice data (pos + 48 + stripeTotal - 32) (zlen data) ;;
            physOffset <- decode stripe_offset sbuf ;;
            parseSysChunks_loop rounds data (pos + 48 + stripeTotal) (addChunk (offset k) length physOffset flags tc)
    end.

Definition parseSysChunks (sb : SuperBlock) (tc : treeContext) : res treeContext :=
  parseSysChunks_loop (length (SysChunkData sb)) (SysChunkData sb) 0 tc.
End device.

(** ** The file system *)

(** [tc] is [None] until [ReadSuperBlock] has read the chunk tree; the field
    [nextInode] of the source is not used. *)
Record FileSystem (D : Type) := mkFileSystem {
  dev : D;
  sb : option SuperBlock;
  tc : option treeContext;
  fsRoot : Z;
  fsRootLvl : Z;
  extentRoot : Z;
  extentRootLvl : Z;
  rootInode : Z;
  pathCache : gmap (list byte) Z
}.
Arguments mkFileSystem {D} _ _ _ _ _ _ _ _ _.
Arguments dev {D} _.
Arguments sb {D} _.
Arguments tc {D} _.
Arguments fsRoot {D} _.
Arguments fsRootLvl {D} _.
Arguments extentRoot {D} _.
Arguments extentRootLvl {D} _.
Arguments rootInode {D} _.
Arguments pathCache {D} _.

Abbreviation BT D := (M (FileSystem D)).

Definition New {D} (d : D) : FileSystem D := mkFileSystem d None None 0 0 0 0 0 ∅.

Section setters.
Context {D : Type}.
Implicit Types b : FileSystem D.

Definition set_dev (d : D) b : FileSystem D :=
  mkFileSystem d (sb b) (tc b) (fsRoot b) (fsRootLvl b) (extentRoot b) (extentRootLvl b) (rootInode b) (pathCache b).
Definition set_sb (v : SuperBlock) b : FileSystem D :=
  mkFileSystem (dev b) (Some v) (tc b) (fsRoot b) (fsRootLvl b) (extentRoot b) (extentRootLvl b) (rootInode b) (pathCache b).
Definition set_tc (v : treeContext) b : FileSystem D :=
  mkFileSystem (dev b) (sb b) (Some v) (fsRoot b) (fsRootLvl b) (extentRoot b) (extentRootLvl b) (rootInode b) (pathCache b).
Definition set_fsRoot (root lvl : Z) b : FileSystem D :=
  mkFileSystem (dev b) (sb b) (tc b) root lvl (extentRoot b) (extentRootLvl b) (rootInode b) (pathCache b).
Definition set_extentRoot (root lvl : Z) b : FileSystem D :=
  mkFileSystem (dev b) (sb b) (tc b) (fsRoot b) (fsRootLvl b) root lvl (rootInode b) (pathCache b).
Definition set_rootInode (v : Z) b : FileSystem D :=
  mkFileSystem (dev b) (sb b) (tc b) (fsRoot b) (fsRootLvl b) (extentRoot b) (extentRootLvl b) v (pathCache b).
Definition set_pathCache (v : gmap (list byte) Z) b : FileSystem D :=
  mkFileSystem (dev b) (sb b) (tc b) (fsRoot b) (fsRootLvl b) (extentRoot b) (extentRootLvl b) (rootInode b) v.
End setters.

Section operations.
Context {D : Type} `{ReadWriterAt D} `{Env}.

(** [b.sb] and [b.tc] where the code dereferences them. *)
Definition get_sb : BT D SuperBlock := fun b => (match sb b with Some s => Ok s | None => Panic end, b).
Definition get_tc : BT D treeContext := fun b => (match tc b with Some t => Ok t | None => Panic end, b).

Definition b_ReadAt (off n : Z) : BT D (list byte) := fun b => (dev_ReadAt (dev b) off n, b).
Definition b_WriteAt (off : Z) (p : list byte) : BT D unit := fun b =>
  let '(d, (_, err)) := WriteAt (dev b) (i64 off) p in
  (match err with Some e => Err e | None => Ok tt end, set_dev d b).
Definition b_resolve (logical : Z) : BT D Z := t <- get_tc ;; lift (resolve (chunks t) logical).
Definition b_readNode (addr nodeSize : Z) : BT D (list byte) := b_ReadAt addr nodeSize.

(** A walk of a tree with a function over what it has captured: the value
    captured last and the error, if any. *)
Definition b_walk {B} (addr : Z) (acc : B) (cb : leafItem -> list byte -> M B unit) : BT D (B * option error) :=
  t <- get_tc ;;
  b <- get ;;
  match walkTree (dev b) addr (fun item data => captured (cb item data)) (t, acc) with
  | (Ok _, (_, acc)) => mret (acc, None)
  | (Err e, (_, acc)) => mret (acc, Some e)
  | (Panic, _) => lift Panic
  | (OutOfFuel, _) => lift OutOfFuel
  end.

Definition walkFSTree {B} (acc : B) (cb : leafItem -> list byte -> M B unit) : BT D (B * option error) :=
  b <- get ;; b_walk (fsRoot b) acc cb.

Definition walkExtentTree {B} (acc : B) (cb : leafItem -> list byte -> M B unit) : BT D (B * option error) :=
  b <- get ;;
  if extentRoot b =? 0 then mret (acc, Some (Errorf "btrfs: extent tree not loaded"))
  else b_walk (extentRoot b) acc cb.

(** [return fmt.Errorf("stop")] in a function called by a walk, and the
    caller's test for it. *)
Definition stop : error := Errorf "stop".
Definition real_error (err : option error) : option error :=
  match err with Some e => if bool_decide (e = stop) then None else Some e | None => None end.

(** ** Mounting *)

(** The fields of a root item that [findFSTreeRoot] and
    [findExtentTreeRoot] read. *)
Definition root_fields : Rd (Z * Z * Z) :=
  skip 160 ;; skip 8 ;;
  dirID <- u64 ;;
  addr <- u64 ;;
  skip 8 ;; skip 8 ;; skip 8 ;; skip 8 ;; skip 4 ;; skip 17 ;;
  u8 ;;
  lvl <- u8 ;;
  mret (addr, lvl, dirID).

Definition find_root (objid : Z) : BT D ((Z * Z * Z) * option error) :=
  s <- get_sb ;;
  b_walk (Root s) (0, 0, 0) (fun item data =>
    if (typ (li_key item) =? BTRFS_ROOT_ITEM_KEY) && (objectid (li_key item) =? objid) then
      if zlen data <? 240 then mret tt
      else
        f <- lift (decode root_fields data) ;;
        modify (fun _ => f) ;;
        fail stop
    else mret tt).

Definition root_or_error (msg : string) (r : (Z * Z * Z) * option error) : res (Z * Z * Z) :=
  let '((addr, lvl, dirID), err) := r in
  if addr =? 0 then Err (Errorf msg)
  else match real_error err with Some e => Err e | None => Ok (addr, lvl, dirID) end.

Definition findFSTreeRoot : BT D (Z * Z * Z) :=
  r <- find_root 5 ;; lift (root_or_error "btrfs: default FS tree not found" r).
Definition findExtentTreeRoot : BT D (Z * Z * Z) :=
  r <- find_root 2 ;; lift (root_or_error "btrfs: extent tree root not found" r).

(** The chunk tree is read with the chunks of the system array, and adds to
    them as it goes. *)
Definition load_chunks (s : SuperBlock) : BT D treeContext :=
  b <- get ;;
  t <- lift (parseSysChunks s (mkTreeContext (NodeSize s) [])) ;;
  if 0 <? zlen (chunks t) then
    let '(r, (t, _)) := resolveChunkTree (dev b) (ChunkRoot s) (t, tt) in
    lift r ;;
    mret t
  else mret t.

Definition mount : BT D unit :=
  b <- get ;;
  s <- lift (ReadSuperBlock (dev b)) ;;
  modify (set_sb s) ;;
  t <- load_chunks s ;;
  modify (set_tc t) ;;
  let! (addr, lvl, dirID) := findFSTreeRoot in
  modify (set_fsRoot addr lvl) ;;
  modify (set_rootInode dirID) ;;
  r <- catch findExtentTreeRoot ;;
  match r with
  | inl (addr, lvl, _) => modify (set_extentRoot addr lvl)
  | inr _ => mret tt
  end.

Definition writeSuperBlock : BT D unit :=
  buf <- b_ReadAt superblockOffset superblockSize ;;
  s <- get_sb ;;
  buf <- lift (putUint64 buf 48 (Bytenr s)) ;;
  buf <- lift (putUint64 buf 56 (Flags s)) ;;
  buf <- lift (putUint64 buf 64 (Magic s)) ;;
  buf <- lift (putUint64 buf 72 (Generation s)) ;;
  buf <- lift (putUint64 buf 80 (Root s)) ;;
  buf <- lift (putUint64 buf 88 (ChunkRoot s)) ;;
  buf <- lift (putUint64 buf 96 (LogRoot s)) ;;
  buf <- lift (putUint64 buf 104 (LogRootTransid s)) ;;
  buf <- lift (putUint64 buf 112 (TotalBytes s)) ;;
  buf <- lift (putUint64 buf 120 (BytesUsed s)) ;;
  buf <- lift (putUint 1 buf 198 (RootLevel s)) ;;
  buf <- lift (putUint 1 buf 199 (ChunkRootLevel s)) ;;
  buf <- lift (putUint 1 buf 200 (LogRootLevel s)) ;;
  buf <- lift (putUint32 buf 0 (calcCrc32c (sub buf 32 (zlen buf - 32)))) ;;
  b_WriteAt superblockOffset buf.

Definition BlockSize : BT D Z := s <- get_sb ;; mret (SectorSize s).

Definition Statfs : BT D Statfs_t :=
  s <- get_sb ;;
  if SectorSize s =? 0 then lift Panic
  else
    let free := w64 (TotalBytes s - BytesUsed s) / SectorSize s in
    mret (mkStatfs (SectorSize s) (SectorSize s) (TotalBytes s / SectorSize s) free free 0 0 0 255).
End operations.
