(* ===== verification/BtrfsCompress.v ===== *)
(** The btrfs driver: compressed extents ([src/btrfs/compress.go]).

    The zlib and zstd codecs are library code and parameters; the LZO
    decoder is the driver's own. *)
From S2P Require Export BtrfsTree.

Definition BTRFS_COMPRESS_NONE : Z := 0.
Definition BTRFS_COMPRESS_ZLIB : Z := 1.
Definition BTRFS_COMPRESS_LZO : Z := 2.
Definition BTRFS_COMPRESS_ZSTD : Z := 3.

(** What the driver calls of [compress/zlib] and of the zstd package: opening
    a stream may fail, and so may reading it.  Compressing into a
    [bytes.Buffer] does not fail. *)
Class Codecs := {
  zlib_NewReader : list byte -> option error;
  zlib_ReadAll : list byte -> res (list byte);
  zlib_compress : list byte -> list byte;
  zstd_NewReader : list byte -> option error;
  zstd_Copy : list byte -> res (list byte)
}.

(** The documented behaviour of [compress/zlib]. *)
Class CodecLaws `{Codecs} := {
  zlib_opens : forall data, zlib_NewReader (zlib_compress data) = None;
  zlib_inverse : forall data, zlib_ReadAll (zlib_compress data) = Ok data
}.

(** ** LZO *)

(** [for i := 0; i < matchLen; i++ { out.WriteByte(out.Bytes()[start+i]) }] *)
Fixpoint lzo_match (n : nat) (start : Z) (out : list byte) : res (list byte) :=
  match n with
  | O => Ok out
  | S n => b <- index out start ;; lzo_match n (start + 1) (out ++ [b])
  end.

(** [litLen] literals, then a match. *)
Definition lzo_block (src : list byte) (t litLen ip : Z) (out : list byte) : res (Z * list byte) :=
  let litEnd := ip + litLen in
  let litEnd := if zlen src <? litEnd then zlen src else litEnd in
  lits <- slice src ip litEnd ;;
  let out := out ++ lits in
  let ip := litEnd in
  lo <- index src ip ;;
  hi <- index src (ip + 1) ;;
  let back := Z.lor (byte.unsigned lo) (Z.shiftl (byte.unsigned hi) 8) in
  let start := zlen out - back in
  let start := if start <? 0 then 0 else start in
  out <- lzo_match (Z.to_nat (3 + Z.land t 0x1f)) start out ;;
  Ok (ip + 2, out).

(** Every round consumes a byte. *)
Fixpoint lzo1x_loop (rounds : nat) (src : list byte) (ip : Z) (out : list byte) : res (list byte) :=
  if zlen src <=? ip then Ok out
  else
    match rounds with
    | O => OutOfFuel
    | S rounds =>
        b <- index src ip ;;
        let t := byte.unsigned b in
        let ip := ip + 1 in
        if t <? 64 then
          if zlen src <=? ip + 1 then Ok out
          else
            let! (ip, out) := lzo_block src t (Z.shiftr t 5) ip out in
            lzo1x_loop rounds src ip out
        else if t <? 128 then
          let! (ip, out) := lzo_block src t (Z.land (Z.shiftr t 5) 7) ip out in
          lzo1x_loop rounds src ip out
        else Err (Errorf "lzo: unsupported block type")
    end.

Definition lzo1xDecompress (src : list byte) : res (list byte) := lzo1x_loop (length src) src 0 [].

Definition pad_to (out : list byte) (n : Z) : list byte := if zlen out <? n then out ++ zeros (n - zlen out) else out.

Fixpoint decompressLZO_loop (rounds : nat) (data : list byte) (pos : Z) (out : list byte) : res (list byte) :=
  if zlen data <=? pos then Ok out
  else if zlen data <? pos + 4 then Ok out
  else
    match rounds with
    | O => OutOfFuel
    | S rounds =>
        segLen <- getUint32 data pos ;;
        let pos := pos + 4 in
        if (segLen =? 0) || (zlen data <? pos + segLen) then Ok out
        else
          seg <- slice data pos (pos + segLen) ;;
          dec <- lzo1xDecompress seg ;;
          decompressLZO_loop rounds data (pos + segLen) (out ++ dec)
    end.

Definition decompressLZO (data : list byte) (uncompressedLen : Z) : res (list byte) :=
  out <- decompressLZO_loop (length data) data 0 [] ;;
  Ok (pad_to out uncompressedLen).

(** ** The other codecs *)
Section codecs.
Context `{Codecs}.

Definition decompressZlib (data : list byte) : res (list byte) :=
  match zlib_NewReader data with
  | Some err => Err (Wrapf "btrfs: zlib init: %w" err)
  | None => wrap_res "btrfs: zlib decompress: %w" (zlib_ReadAll data)
  end.

Definition decompressZstd (data : list byte) (uncompressedLen : Z) : res (list byte) :=
  match zstd_NewReader data with
  | Some err => Err (Wrapf "btrfs: zstd init: %w" err)
  | None =>
      decoded <- wrap_res "btrfs: zstd decompress: %w" (zstd_Copy data) ;;
      Ok (if zlen decoded <? uncompressedLen then pad_to decoded uncompressedLen
          else sub decoded 0 uncompressedLen)
  end.

Definition compressZlib (data : list byte) : res (list byte) := Ok (zlib_compress data).

Definition decompressData (ctype : Z) (data : list byte) (uncompressedLen : Z) : res (list byte) :=
  if ctype =? BTRFS_COMPRESS_NONE then Ok data
  else if ctype =? BTRFS_COMPRESS_ZLIB then decompressZlib data
  else if ctype =? BTRFS_COMPRESS_LZO then decompressLZO data uncompressedLen
  else if ctype =? BTRFS_COMPRESS_ZSTD then decompressZstd data uncompressedLen
  else Err (Errorf "btrfs: unsupported compression type %d").
End codecs.

(** ** The LZO decoder always comes to an end *)
Lemma lzo_match_total n start out :
  match lzo_match n start out with Ok _ | Panic => True | _ => False end.
Proof.
  revert start out. induction n as [|n IH]; intros start out; [done|]. cbn [lzo_match]. unfold index.
  destruct (0 <=? start); [|done]. destruct (out !! _); [|done]. apply IH.
Qed.

(** A block advances the input. *)
Lemma lzo_block_total src t litLen ip out :
  0 <= litLen -> 0 <= ip <= zlen src ->
  match lzo_block src t litLen ip out with
  | Ok (ip', _) => ip <= ip' <= zlen src
  | Panic => True
  | _ => False
  end.
Proof.
  intros Hl Hip. unfold lzo_block. set (litEnd := if _ <? _ then _ else _). cbn zeta.
  assert (He : ip <= litEnd <= zlen src) by (unfold litEnd; destruct (Z.ltb_spec (zlen src) (ip + litLen)); lia).
  rewrite slice_in by lia. cbn [mbind res_bind].
  destruct (Z.ltb_spec (litEnd + 1) (zlen src)) as [Hlt|Hge].
  2: { destruct (index src litEnd) as [?|?| |] eqn:E; cbn [mbind res_bind]; [by rewrite index_out by lia| |done|];
       revert E; unfold index; by repeat case_match. }
  destruct (index_in src litEnd) as (x & _ & ->); [lia|]. cbn [mbind res_bind].
  destruct (index_in src (litEnd + 1)) as (y & _ & ->); [lia|]. cbn [mbind res_bind].
  pose proof (lzo_match_total (Z.to_nat (3 + Z.land t 31))
    (let start := zlen (out ++ sub src ip (litEnd - ip)) - Z.lor (byte.unsigned x) (Z.shiftl (byte.unsigned y) 8) in
     if start <? 0 then 0 else start) (out ++ sub src ip (litEnd - ip))) as Hm.
  cbn zeta in Hm. destruct (lzo_match _ _ _) as [o|e| |]; cbn; try done. lia.
Qed.

Lemma lzo1x_loop_total rounds src ip out :
  0 <= ip <= zlen src -> zlen src - ip <= Z.of_nat rounds -> lzo1x_loop rounds src ip out <> OutOfFuel.
Proof.
  revert ip out. induction rounds as [|rounds IH]; intros ip out Hip Hr; cbn [lzo1x_loop];
    destruct (Z.leb_spec (zlen src) ip); try done; [lia|].
  destruct (index_in src ip) as (b & _ & ->); [lia|]. cbn [mbind res_bind].
  assert (Hblock : forall litLen, 0 <= litLen ->
    (let! (ip, out) := lzo_block src (byte.unsigned b) litLen (ip + 1) out in lzo1x_loop rounds src ip out) <> OutOfFuel).
  { intros litLen Hl. pose proof (lzo_block_total src (byte.unsigned b) litLen (ip + 1) out Hl ltac:(lia)) as Hb.
    destruct (lzo_block _ _ _ _ _) as [[ip' out']|e| |]; cbn; try done. apply IH; lia. }
  pose proof (byte.unsigned_range b). destruct (_ <? 64).
  - destruct (_ <=? _); [done|]. apply Hblock. apply Z.shiftr_nonneg. lia.
  - destruct (_ <? 128); [|done]. apply Hblock. apply Z.land_nonneg. by right.
Qed.

Lemma lzo1xDecompress_total src : lzo1xDecompress src <> OutOfFuel.
Proof. apply lzo1x_loop_total; unfold zlen; lia. Qed.

Lemma decompressLZO_loop_total rounds data pos out :
  0 <= pos -> zlen data - pos <= Z.of_nat rounds -> decompressLZO_loop rounds data pos out <> OutOfFuel.
Proof.
  revert pos out. induction rounds as [|rounds IH]; intros pos out Hp Hr; cbn [decompressLZO_loop];
    destruct (Z.leb_spec (zlen data) pos); try done; destruct (Z.ltb_spec (zlen data) (pos + 4)); try done; [lia|].
  rewrite getUint_in by lia. cbn [mbind res_bind]. pose proof (le_get_range 4 data pos) as Hl.
  destruct (Z.eqb_spec (le_get 4 data pos) 0); [done|]. destruct (Z.ltb_spec (zlen data) (pos + 4 + le_get 4 data pos)); [done|].
  cbn [orb]. rewrite slice_in by lia. cbn [mbind res_bind].
  pose proof (lzo1xDecompress_total (sub data (pos + 4) (pos + 4 + le_get 4 data pos - (pos + 4)))) as Ht.
  destruct (lzo1xDecompress _); cbn; try done. apply IH; lia.
Qed.

Lemma zlen_pad_to out n : n <= zlen (pad_to out n).
Proof. unfold pad_to. destruct (Z.ltb_spec (zlen out) n); zlen. Qed.

(** C40: The LZO decoder comes to an end on every input, and what it returns has
    at least the announced length. *)
Theorem decompressLZO_total data uncompressedLen :
  match decompressLZO data uncompressedLen with
  | Ok out => uncompressedLen <= zlen out
  | OutOfFuel => False
  | _ => True
  end.
Proof.
  unfold decompressLZO. pose proof (decompressLZO_loop_total (length data) data 0 []) as Ht.
  destruct (decompressLZO_loop _ _ _ _); cbn; try done; [apply zlen_pad_to|].
  apply Ht; unfold zlen; lia || done.
Qed.
