(* ===== verification/BtrfsNode.v ===== *)
(** The btrfs driver: the bytes of a node.

    Reading the items of a leaf and laying items or pointers out in a node
    again ([src/btrfs/writer.go]), the payloads of directory entries and
    file extents, the order on keys; with the round trips. *)
From S2P Require Export BtrfsTree.

Record itemEntry := mkItem { it_key : key; it_data : list byte }.

#[export] Instance itemEntry_eq_dec : EqDecision itemEntry.
Proof. solve_decision. Defined.

(** ** Reading *)

(** [n] items from the [i]th on; the loop ends early where the next head
    would leave the block. *)
Fixpoint leaf_items (oob : string) (buf : list byte) (n : nat) (i : Z) : res (list itemEntry) :=
  match n with
  | O => Ok []
  | S n =>
      let off := nodeHeaderSize + i * 25 in
      if zlen buf <? off + 25 then Ok []
      else
        objectid <- getUint64 buf off ;;
        typ <- getUint 1 buf (off + 8) ;;
        offset <- getUint64 buf (off + 9) ;;
        ioff <- getUint32 buf (off + 17) ;;
        size <- getUint32 buf (off + 21) ;;
        let di := nodeHeaderSize + ioff in
        if zlen buf <? di + size then Err (Errorf oob)
        else
          d <- slice buf di (di + size) ;;
          rest <- leaf_items oob buf n (i + 1) ;;
          Ok (mkItem (mkKey objectid typ offset) d :: rest)
  end.

Definition parseLeaf (oob : string) (buf : list byte) : res (list itemEntry) :=
  nritems <- getUint32 buf 96 ;;
  leaf_items oob buf (Z.to_nat nritems) 0.

(** ** Writing *)

(** [encodeKeyInto(dst[off:off+17], k)] *)
Definition encodeKeyInto (dst : list byte) (off : Z) (k : key) : res (list byte) :=
  dst <- putUint64 dst off (objectid k) ;;
  dst <- putUint 1 dst (off + 8) (typ k) ;;
  putUint64 dst (off + 9) (offset k).

Definition encodeKey (k : key) : res (list byte) := encodeKeyInto (zeros 17) 0 k.

(** The data goes to the end of the block, from the last item down. *)
Fixpoint put_data (dst : list byte) (dataPos : Z) (items : list itemEntry) : res (list byte * Z) :=
  match items with
  | [] => Ok (dst, dataPos)
  | it :: items =>
      let dataPos := dataPos - zlen (it_data it) in
      dst <- put_at dst dataPos (it_data it) ;;
      put_data dst dataPos items
  end.

Fixpoint put_heads (dst : list byte) (i curDataOff : Z) (items : list itemEntry) : res (list byte) :=
  match items with
  | [] => Ok dst
  | it :: items =>
      let off := nodeHeaderSize + i * 25 in
      dst <- encodeKeyInto dst off (it_key it) ;;
      dst <- putUint32 dst (off + 17) (w32 (curDataOff - nodeHeaderSize)) ;;
      dst <- putUint32 dst (off + 21) (w32 (zlen (it_data it))) ;;
      put_heads dst (i + 1) (curDataOff + zlen (it_data it)) items
  end.

(** [binary.LittleEndian.PutUint32(dst[0:4], calcCrc32c(dst[32:]))] *)
Definition put_csum (dst : list byte) : res (list byte) :=
  rest <- slice dst 32 (zlen dst) ;;
  putUint32 dst 0 (calcCrc32c rest).

Definition packLeaf (buf : list byte) (items : list itemEntry) (generation leafLogical bs : Z) : res (list byte) :=
  head <- slice buf 0 nodeHeaderSize ;;
  dst <- copy_at (zeros bs) 0 head ;;
  let! (dst, dataPos) := put_data dst bs (rev items) in
  dst <- put_heads dst 0 dataPos items ;;
  dst <- putUint32 dst 96 (w32 (zlen items)) ;;
  dst <- putUint64 dst 80 generation ;;
  dst <- putUint64 dst 48 leafLogical ;;
  put_csum dst.

(** One pointer of an internal node; [generation] is the one of the
    superblock. *)
Definition put_ptr (dst : list byte) (off generation : Z) (p : internalKeyPtr) : res (list byte) :=
  dst <- encodeKeyInto dst off (ip_key p) ;;
  dst <- putUint64 dst (off + 17) (ip_blockptr p) ;;
  putUint64 dst (off + 25) generation.

Fixpoint put_ptrs (dst : list byte) (i generation : Z) (ptrs : list internalKeyPtr) : res (list byte) :=
  match ptrs with
  | [] => Ok dst
  | p :: ptrs =>
      dst <- put_ptr dst (nodeHeaderSize + i * 33) generation p ;;
      put_ptrs dst (i + 1) generation ptrs
  end.

(** [buf] is the block as it was, if it could be read. *)
Definition packNode (buf : option (list byte)) (ptrs : list internalKeyPtr) (level generation logical bs : Z)
    : res (list byte) :=
  dst <- match buf with
         | Some buf => head <- slice buf 0 nodeHeaderSize ;; copy_at (zeros bs) 0 head
         | None => Ok (zeros bs)
         end ;;
  dst <- putUint32 dst 96 (w32 (zlen ptrs)) ;;
  dst <- putUint 1 dst 100 level ;;
  dst <- putUint64 dst 80 generation ;;
  dst <- putUint64 dst 48 logical ;;
  dst <- put_ptrs dst 0 generation ptrs ;;
  put_csum dst.

(** ** The order on keys *)
Definition compareKeys (a b : key) : Z :=
  if objectid a <? objectid b then -1
  else if objectid b <? objectid a then 1
  else if typ a <? typ b then -1
  else if typ b <? typ a then 1
  else if offset a <? offset b then -1
  else if offset b <? offset a then 1
  else 0.

(** The place of a new item: before the first whose key is not less. *)
Fixpoint insert_item (it : itemEntry) (items : list itemEntry) : list itemEntry :=
  match items with
  | [] => [it]
  | x :: items => if key_less (it_key x) (it_key it) then x :: insert_item it items else it :: x :: items
  end.

Fixpoint insert_ptr (p : internalKeyPtr) (ptrs : list internalKeyPtr) : list internalKeyPtr :=
  match ptrs with
  | [] => [p]
  | x :: ptrs => if key_less (ip_key x) (ip_key p) then x :: insert_ptr p ptrs else p :: x :: ptrs
  end.

(** The index of the last item with a key, which is what [deleteFromLeaf]
    and [updateInLeaf] end up with. *)
Fixpoint last_index (k : key) (items : list itemEntry) : option nat :=
  match items with
  | [] => None
  | x :: items =>
      match last_index k items with
      | Some i => Some (S i)
      | None => if bool_decide (it_key x = k) then Some 0%nat else None
      end
  end.

Definition total_data (items : list itemEntry) : Z := foldr (fun it n => zlen (it_data it) + n) 0 items.
Definition needed (items : list itemEntry) : Z := nodeHeaderSize + zlen items * 25 + total_data items.

(** ** Payloads *)
Definition makeDirItem (childInode : Z) (name : list byte) (fileType : Z) : res (list byte) :=
  buf <- putUint64 (zeros (30 + zlen name)) 0 childInode ;;
  buf <- putUint 1 buf 8 BTRFS_INODE_ITEM_KEY ;;
  buf <- putUint64 buf 9 0 ;;
  buf <- putUint64 buf 17 0 ;;
  buf <- putUint16 buf 25 0 ;;
  buf <- putUint16 buf 27 (w16 (zlen name)) ;;
  buf <- putUint 1 buf 29 fileType ;;
  copy_at buf 30 name.

Definition makeExtentDataInline (fileOffset : Z) (data : list byte) : res (list byte) :=
  buf <- putUint64 (zeros (21 + zlen data)) 0 0 ;;
  buf <- putUint64 buf 8 (zlen data) ;;
  buf <- putUint 1 buf 16 0 ;;
  buf <- putUint 1 buf 17 0 ;;
  buf <- putUint16 buf 18 0 ;;
  buf <- putUint 1 buf 20 BTRFS_FILE_EXTENT_INLINE ;;
  copy_at buf 21 data.

Definition makeExtentDataRegularCompressed (generation logicalAddr diskSize ramSize compression : Z) : res (list byte) :=
  buf <- putUint64 (zeros 53) 0 generation ;;
  buf <- putUint64 buf 8 ramSize ;;
  buf <- putUint 1 buf 16 compression ;;
  buf <- putUint 1 buf 17 0 ;;
  buf <- putUint16 buf 18 0 ;;
  buf <- putUint 1 buf 20 BTRFS_FILE_EXTENT_REG ;;
  buf <- putUint64 buf 21 logicalAddr ;;
  buf <- putUint64 buf 29 diskSize ;;
  buf <- putUint64 buf 37 0 ;;
  putUint64 buf 45 ramSize.
