(* ===== verification/BtrfsWriter.v ===== *)
(** The btrfs driver: changing a tree ([src/btrfs/writer.go]).

    Finding the leaf of a key, inserting, updating and deleting items,
    splitting full nodes up to a new root, and allocating space.  Splitting
    registers the new node in the extent tree, which inserts into that tree
    and may split it in turn: the recursion carries fuel. *)
From stdpp Require Export sorting.
From S2P Require Export BtrfsNode.

Definition set_ChunkRoot (root level : Z) (s : SuperBlock) : SuperBlock :=
  mkSuperBlock (Csum s) (Fsid s) (Bytenr s) (Flags s) (Magic s) (Generation s) (Root s) root (LogRoot s)
    (LogRootTransid s) (TotalBytes s) (BytesUsed s) (RootDirObjectid s) (NumDevices s) (SectorSize s) (NodeSize s)
    (LeafSize s) (StripeSize s) (SysChunkArraySize s) (ChunkRootGeneration s) (CompatFlags s) (CompatRoFlags s)
    (IncompatFlags s) (CsumType s) (RootLevel s) level (LogRootLevel s) (SysChunkData s).

Record pathElement := mkPathElement { pe_logical : Z; pe_phys : Z; pe_level : Z; pe_index : Z }.

Record extentRange := mkExtentRange { er_logical : Z; er_length : Z }.

(** The order of [sort.Slice]; the result of [first_fit] does not depend on
    the order of ranges with one start. *)
Definition range_le (a b : extentRange) : Prop := er_logical a <= er_logical b.
#[export] Instance range_le_dec : RelDecision range_le.
Proof. intros a b. unfold range_le. apply _. Defined.

(** [((size + sectorSize - 1) / sectorSize) * sectorSize] in [uint64]. *)
Definition align_up (size sectorSize : Z) : Z := w64 (w64 (size + sectorSize - 1) / sectorSize * sectorSize).
Definition sector_size (s : SuperBlock) : Z := if SectorSize s =? 0 then 4096 else SectorSize s.

(** The candidate moves past every range it meets. *)
Fixpoint first_fit (sectorSize alignedSize candidate : Z) (occupied : list extentRange) : Z :=
  match occupied with
  | [] => candidate
  | occ :: occupied =>
      let end_ := w64 (er_logical occ + er_length occ) in
      if end_ <=? candidate then first_fit sectorSize alignedSize candidate occupied
      else if w64 (candidate + alignedSize) <=? er_logical occ then candidate
      else first_fit sectorSize alignedSize (align_up end_ sectorSize) occupied
  end.

(** The first chunk of the wanted kind, or else the first chunk. *)
Definition target_chunk (bgType : Z) (l : list chunkMapping) : option chunkMapping :=
  match list_find (fun c => negb (Z.land (c_flags c) bgType =? 0)) l with
  | Some (_, c) => Some c
  | None => head l
  end.

(** The pointer to follow for a key: the last one not above it, or the
    first; with its index. *)
Fixpoint best_ptr (n : nat) (i : Z) (k : key) (acc : Z * Z) : Rd (Z * Z) :=
  match n with
  | O => mret acc
  | S n =>
      p <- decodeInternalPtr ;;
      best_ptr n (i + 1) k (if (i =? 0) || negb (key_less k (ip_key p)) then (ip_blockptr p, i) else acc)
  end.

(** The header of a node and the pointer to follow in it. *)
Definition node_step (k : key) : Rd (nodeHeader * (Z * Z)) :=
  h <- decodeNodeHeader ;;
  best <- (if h_level h =? 0 then mret (0, 0) else best_ptr (Z.to_nat (h_nritems h)) 0 k (0, 0)) ;;
  mret (h, best).

Section writer.
Context {D : Type} `{ReadWriterAt D} `{Env}.
Implicit Types path : list pathElement.

(** ** Finding a leaf *)

(** The level the file system has on record for the root of a tree. *)
Definition root_level (logicalAddr : Z) : BT D (option Z) :=
  b <- get ;;
  if logicalAddr =? fsRoot b then mret (Some (fsRootLvl b))
  else if logicalAddr =? extentRoot b then mret (Some (extentRootLvl b))
  else
    s <- get_sb ;;
    mret (if logicalAddr =? ChunkRoot s then Some (ChunkRootLevel s) else None).

(** [lvl] is the level of [curr]; the level in the node is not looked at. *)
Fixpoint findLeafWithPath_loop (lvl : nat) (k : key) (curr : Z) path : BT D (list pathElement) :=
  match lvl with
  | O =>
      physLeaf <- b_resolve curr ;;
      mret (path ++ [mkPathElement curr physLeaf 0 (-1)])
  | S lvl =>
      phys <- b_resolve curr ;;
      s <- get_sb ;;
      buf <- b_readNode phys (NodeSize s) ;;
      let! (_, (bestPtr, bestIdx)) := lift (decode
        (h <- decodeNodeHeader ;;
         best <- best_ptr (Z.to_nat (h_nritems h)) 0 k (0, 0) ;;
         mret (h, best)) buf) in
      let path := path ++ [mkPathElement curr phys (Z.of_nat (S lvl)) bestIdx] in
      if bestPtr =? 0 then
        physLeaf <- b_resolve curr ;;
        mret (path ++ [mkPathElement curr physLeaf 0 (-1)])
      else findLeafWithPath_loop lvl k bestPtr path
  end.

Definition findLeafWithPath (root lvl : Z) (k : key) : BT D (list pathElement) :=
  findLeafWithPath_loop (Z.to_nat lvl) k root [].

(** Here the level comes from the nodes, so the recursion carries fuel. *)
Fixpoint findLeaf_rec (depth : nat) (root lvl : Z) (k : key) : BT D Z :=
  match depth with
  | O => lift OutOfFuel
  | S depth =>
      if lvl =? 0 then mret root
      else
        phys <- b_resolve root ;;
        s <- get_sb ;;
        buf <- b_readNode phys (NodeSize s) ;;
        let! (h, (bestPtr, _)) := lift (decode (node_step k) buf) in
        if h_level h =? 0 then mret root
        else if bestPtr =? 0 then mret root
        else findLeaf_rec depth bestPtr (h_level h - 1) k
  end.

Definition findLeaf (root lvl : Z) (k : key) : BT D Z := findLeaf_rec fuel root lvl k.

Definition resolveLeaf (logicalAddr : Z) (k : key) : BT D Z :=
  lvl <- root_level logicalAddr ;;
  match lvl with
  | Some lvl => findLeaf logicalAddr lvl k
  | None => mret logicalAddr
  end.

(** ** Updating and deleting an item *)

(** The block of the leaf a key belongs to, with its physical address. *)
Definition read_leaf (logicalAddr : Z) (k : key) : BT D (Z * Z * list byte) :=
  leafLogical <- resolveLeaf logicalAddr k ;;
  physAddr <- b_resolve leafLogical ;;
  s <- get_sb ;;
  buf <- wrap "btrfs: read leaf: %w" (b_ReadAt physAddr (NodeSize s)) ;;
  mret (leafLogical, physAddr, buf).

Definition write_leaf (leafLogical physAddr : Z) (buf : list byte) (items : list itemEntry) : BT D unit :=
  s <- get_sb ;;
  dst <- lift (packLeaf buf items (Generation s) leafLogical (NodeSize s)) ;;
  wrap "btrfs: write leaf: %w" (b_WriteAt physAddr dst).

Definition deleteFromLeaf (logicalAddr : Z) (k : key) : BT D unit :=
  let! (leafLogical, physAddr, buf) := read_leaf logicalAddr k in
  items <- lift (parseLeaf "btrfs: item %d data out of bounds" buf) ;;
  match last_index k items with
  | None => fail (Errorf "btrfs: key not found for deletion: %+v")
  | Some i => write_leaf leafLogical physAddr buf (delete i items)
  end.

Definition updateInLeaf (logicalAddr : Z) (k : key) (itemData : list byte) : BT D unit :=
  let! (leafLogical, physAddr, buf) := read_leaf logicalAddr k in
  items <- lift (parseLeaf "btrfs: item %d data out of bounds" buf) ;;
  match last_index k items with
  | None => fail (Errorf "btrfs: key not found for update: %+v")
  | Some i =>
      let items := <[i := mkItem k itemData]> items in
      s <- get_sb ;;
      if NodeSize s <? needed items then fail (Errorf "btrfs: leaf has no space for update (need %d, have %d)")
      else write_leaf leafLogical physAddr buf items
  end.

(** ** Allocation *)

(** What the extent tree and the file extents say is in use; an error of a
    walk is dropped and leaves what was found before it. *)
Definition occupied_ranges : BT D (list extentRange) :=
  s <- get_sb ;;
  let! (occ, _) := walkExtentTree [] (fun item data =>
    if typ (li_key item) =? BTRFS_EXTENT_ITEM_KEY then
      modify (fun occ => occ ++ [mkExtentRange (objectid (li_key item)) (offset (li_key item))])
    else if typ (li_key item) =? 169 then
      modify (fun occ => occ ++ [mkExtentRange (objectid (li_key item)) (NodeSize s)])
    else mret tt) in
  let! (occ, _) := walkFSTree occ (fun item data =>
    if (typ (li_key item) =? BTRFS_EXTENT_DATA_KEY) && (45 <=? zlen data) then
      ty <- lift (getUint 1 data 20) ;;
      if ty =? BTRFS_FILE_EXTENT_INLINE then mret tt
      else
        diskBytenr <- lift (getUint64 data 21) ;;
        diskNumBytes <- lift (getUint64 data 29) ;;
        if (0 <? diskBytenr) && (0 <? diskNumBytes) then
          modify (fun occ => occ ++ [mkExtentRange diskBytenr diskNumBytes])
        else mret tt
    else mret tt) in
  mret occ.

Definition allocateSpace (size bgType : Z) : BT D (Z * Z) :=
  t <- get_tc ;;
  match target_chunk bgType (chunks t) with
  | None => fail (Errorf "btrfs: no chunk mappings found for allocation")
  | Some c =>
      occupied <- occupied_ranges ;;
      s <- get_sb ;;
      let alignedSize := align_up size (sector_size s) in
      let candidate := first_fit (sector_size s) alignedSize (c_logical c) (merge_sort range_le occupied) in
      if w64 (candidate + alignedSize) <=? w64 (c_logical c + c_length c) then
        mret (candidate, w64 (c_physical c + (candidate - c_logical c)))
      else fail (Errorf "btrfs: out of disk space in block group %d")
  end.

(** ** Splitting *)
Definition writeItemsToLeaf (leafLogical : Z) (items : list itemEntry) (bs : Z) : BT D unit :=
  physAddr <- b_resolve leafLogical ;;
  buf <- catch (b_ReadAt physAddr bs) ;;
  let buf := match buf with inl buf => buf | inr _ => zeros bs end in
  s <- get_sb ;;
  dst <- lift (packLeaf buf items (Generation s) leafLogical bs) ;;
  b_WriteAt physAddr dst.

Definition writePointersToNode (logical : Z) (ptrs : list internalKeyPtr) (level bs : Z) : BT D unit :=
  phys <- b_resolve logical ;;
  buf <- catch (b_readNode phys bs) ;;
  s <- get_sb ;;
  dst <- lift (packNode (match buf with inl buf => Some buf | inr _ => None end) ptrs level (Generation s) logical bs) ;;
  b_WriteAt phys dst.

Definition first_key : Rd key :=
  h <- decodeNodeHeader ;;
  if h_nritems h =? 0 then mret (mkKey 0 0 0)
  else if h_level h =? 0 then item <- decodeLeafItem ;; mret (li_key item)
  else ptr <- decodeInternalPtr ;; mret (ip_key ptr).

Definition getNodeFirstKey (logical bs : Z) : BT D key :=
  phys <- b_resolve logical ;;
  buf <- b_readNode phys bs ;;
  lift (decode first_key buf).

Fixpoint decode_ptrs (n : nat) : Rd (list internalKeyPtr) :=
  match n with
  | O => mret []
  | S n => p <- decodeInternalPtr ;; l <- decode_ptrs n ;; mret (p :: l)
  end.

Definition node_ptrs : Rd (list internalKeyPtr) := h <- decodeNodeHeader ;; decode_ptrs (Z.to_nat (h_nritems h)).

(** The block of a new root over the old one and its new sibling. *)
Definition packRoot (lvl generation newRootLogical : Z) (leftKey : key) (rootAddr : Z) (splitPtr : internalKeyPtr)
    (bs : Z) : res (list byte) :=
  dst <- putUint32 (zeros bs) 96 2 ;;
  dst <- putUint 1 dst 100 lvl ;;
  dst <- putUint64 dst 80 generation ;;
  dst <- putUint64 dst 48 newRootLogical ;;
  dst <- putUint64 dst 112 5 ;;
  dst <- put_ptr dst nodeHeaderSize generation (mkInternalKeyPtr leftKey rootAddr 0) ;;
  dst <- put_ptr dst (nodeHeaderSize + 33) generation splitPtr ;;
  put_csum dst.

Section insertion.
(** [insertIntoLeaf], for the extents that a split registers. *)
Variable insert : Z -> key -> list byte -> BT D unit.

Definition registerExtent (logicalAddr length : Z) : BT D unit :=
  b <- get ;;
  if extentRoot b =? 0 then mret tt
  else
    s <- get_sb ;;
    payload <- lift (p <- putUint64 (zeros 24) 0 1 ;; p <- putUint64 p 8 (Generation s) ;; putUint64 p 16 1) ;;
    insert (extentRoot b) (mkKey logicalAddr BTRFS_EXTENT_ITEM_KEY length) payload.

(** The root moves, in the tree whose root it was. *)
Definition move_root (rootAddr newRootLogical : Z) : BT D unit :=
  b <- get ;;
  if rootAddr =? fsRoot b then modify (set_fsRoot newRootLogical (w8 (fsRootLvl b + 1)))
  else if rootAddr =? extentRoot b then modify (set_extentRoot newRootLogical (w8 (extentRootLvl b + 1)))
  else
    s <- get_sb ;;
    if rootAddr =? ChunkRoot s then modify (set_sb (set_ChunkRoot newRootLogical (w8 (ChunkRootLevel s + 1)) s))
    else mret tt.

Definition new_root (rootAddr : Z) (splitPtr : internalKeyPtr) (bs : Z) : BT D unit :=
  let! (newRootLogical, newRootPhys) := allocateSpace bs BTRFS_BLOCK_GROUP_METADATA in
  lvl <- root_level rootAddr ;;
  let lvl := match lvl with Some lvl => w8 (lvl + 1) | None => 1 end in
  s <- get_sb ;;
  leftKey <- catch (getNodeFirstKey rootAddr bs) ;;
  let leftKey := match leftKey with inl k => k | inr _ => mkKey 0 0 0 end in
  dst <- lift (packRoot lvl (Generation s) newRootLogical leftKey rootAddr splitPtr bs) ;;
  b_WriteAt newRootPhys dst ;;
  ignore (registerExtent newRootLogical bs) ;;
  move_root rootAddr newRootLogical.

(** [rpath] is the path from the node up to the root. *)
Fixpoint insertPtrIntoParent (rpath : list pathElement) (rootAddr : Z) (splitPtr : internalKeyPtr) (bs : Z)
    : BT D unit :=
  match rpath with
  | [] => new_root rootAddr splitPtr bs
  | parent :: rpath =>
      phys <- b_resolve (pe_logical parent) ;;
      buf <- b_readNode phys bs ;;
      ptrs <- lift (decode node_ptrs buf) ;;
      let newPtrs := insert_ptr splitPtr ptrs in
      if bs <? nodeHeaderSize + zlen newPtrs * 33 then
        let! (newParentLogical, _) := allocateSpace bs BTRFS_BLOCK_GROUP_METADATA in
        let mid := (length newPtrs / 2)%nat in
        writePointersToNode (pe_logical parent) (take mid newPtrs) (pe_level parent) bs ;;
        writePointersToNode newParentLogical (drop mid newPtrs) (pe_level parent) bs ;;
        ignore (registerExtent newParentLogical bs) ;;
        first <- lift (index (drop mid newPtrs) 0) ;;
        insertPtrIntoParent rpath rootAddr (mkInternalKeyPtr (ip_key first) newParentLogical 0) bs
      else writePointersToNode (pe_logical parent) newPtrs (pe_level parent) bs
  end.

Definition splitLeafWithPath (leaf : pathElement) (rpath : list pathElement) (rootAddr : Z) (all : list itemEntry)
    (bs : Z) : BT D unit :=
  let! (newLeafLogical, _) := wrap "btrfs: split leaf: fail to allocate node: %w"
                                (allocateSpace bs BTRFS_BLOCK_GROUP_METADATA) in
  let mid := (length all / 2)%nat in
  writeItemsToLeaf (pe_logical leaf) (take mid all) bs ;;
  writeItemsToLeaf newLeafLogical (drop mid all) bs ;;
  ignore (registerExtent newLeafLogical bs) ;;
  first <- lift (index (drop mid all) 0) ;;
  insertPtrIntoParent rpath rootAddr (mkInternalKeyPtr (it_key first) newLeafLogical 0) bs.
End insertion.

Fixpoint insertIntoLeaf_rec (depth : nat) (logicalAddr : Z) (k : key) (itemData : list byte) : BT D unit :=
  match depth with
  | O => lift OutOfFuel
  | S depth =>
      lvl <- root_level logicalAddr ;;
      path <- findLeafWithPath logicalAddr (default 0 lvl) k ;;
      match rev path with
      | [] => lift Panic
      | leaf :: rpath =>
          s <- get_sb ;;
          buf <- wrap "btrfs: read leaf: %w" (b_ReadAt (pe_phys leaf) (NodeSize s)) ;;
          items <- lift (parseLeaf "btrfs: item %d data at %d+%d out of bounds" buf) ;;
          if 0xFFF0 <=? zlen items then fail (Errorf "btrfs: leaf full")
          else
            let all := insert_item (mkItem k itemData) items in
            if NodeSize s <? needed all then
              splitLeafWithPath (insertIntoLeaf_rec depth) leaf rpath logicalAddr all (NodeSize s)
            else write_leaf (pe_logical leaf) (pe_phys leaf) buf all
      end
  end.

Definition insertIntoLeaf (logicalAddr : Z) (k : key) (itemData : list byte) : BT D unit :=
  insertIntoLeaf_rec fuel logicalAddr k itemData.
End writer.
