(* ===== verification/BtrfsFsck.v ===== *)
(** The btrfs driver: checking a volume ([src/btrfs/fsck.go]).

    The result object is the second half of a pair state; a message keeps
    its format string. *)
From S2P Require Export BtrfsNode.

Record BtrfsFsckProblem := mkProblem { p_Severity : string; p_Message : string }.
Record BtrfsFsckResult := mkFsckResult {
  NodesChecked : Z; ItemsChecked : Z; Problems : list BtrfsFsckProblem; Healthy : bool
}.

Definition add_warning (msg : string) (r : BtrfsFsckResult) : BtrfsFsckResult :=
  mkFsckResult (NodesChecked r) (ItemsChecked r) (Problems r ++ [mkProblem "warning" msg]) (Healthy r).
Definition add_error (msg : string) (r : BtrfsFsckResult) : BtrfsFsckResult :=
  mkFsckResult (NodesChecked r) (ItemsChecked r) (Problems r ++ [mkProblem "error" msg]) false.
Definition count_node (r : BtrfsFsckResult) : BtrfsFsckResult :=
  mkFsckResult (w32 (NodesChecked r + 1)) (ItemsChecked r) (Problems r) (Healthy r).
Definition count_items (n : Z) (r : BtrfsFsckResult) : BtrfsFsckResult :=
  mkFsckResult (NodesChecked r) (w32 (ItemsChecked r + n)) (Problems r) (Healthy r).

Section fsck.
Context {D : Type} `{ReadWriterAt D} {env : Env}.

Abbreviation FK := (M (FileSystem D * BtrfsFsckResult)).

(** One item of a leaf: its key must be above the one before it. *)
Definition check_item (acc : byteReader * option key) : FK (byteReader * option key) :=
  let '(r, prev) := acc in
  let '(item, r) := decodeLeafItem r in
  item <- lift item ;;
  match prev with
  | Some prevKey =>
      if compareKeys (li_key item) prevKey <=? 0 then update (add_error "Item key out of order at logical 0x%x, index %d")
      else mret tt
  | None => mret tt
  end ;;
  mret (r, Some (li_key item)).

Fixpoint verify_rec (depth : nat) (addr : Z) : FK unit :=
  match depth with
  | O => lift OutOfFuel
  | S depth =>
      t <- zoom get_tc ;;
      match resolve (chunks t) addr with
      | Err _ => update (add_error "Failed to resolve logical address 0x%x: %v")
      | Panic => lift Panic
      | OutOfFuel => lift OutOfFuel
      | Ok phys =>
          buf <- catch (zoom (b_readNode phys (nodeSize t))) ;;
          match buf with
          | inr _ => update (add_error "Failed to read node at physical address 0x%x: %v")
          | inl buf =>
              update count_node ;;
              body <- lift (slice buf 32 (zlen buf)) ;;
              csumExisting <- lift (getUint32 buf 0) ;;
              (if calcCrc32c body =? csumExisting then mret tt
               else update (add_error "CRC32c checksum mismatch at logical 0x%x (phys 0x%x): got 0x%x, calculated 0x%x")) ;;
              let '(h, r) := decodeNodeHeader (mkByteReader buf 0) in
              h <- lift h ;;
              if h_level h =? 0 then
                update (count_items (h_nritems h)) ;;
                forM (seqZ 0 (h_nritems h)) (r, None) (fun _ acc => check_item acc) ;;
                mret tt
              else
                forM (seqZ 0 (h_nritems h)) r (fun _ r =>
                  let '(ptr, r) := decodeInternalPtr r in
                  ptr <- lift ptr ;;
                  verify_rec depth (ip_blockptr ptr) ;;
                  mret r) ;;
                mret tt
          end
      end
  end.

(** The level argument of the code is not looked at. *)
Definition verifyTreeChecksums (addr : Z) : FK unit := verify_rec fuel addr.

Definition fsck_pass : FK unit :=
  b <- zoom get ;;
  match sb b with
  | None => update (add_error "Btrfs superblock not loaded")
  | Some s =>
      (if Magic s =? btrfsMagic then mret tt else update (add_error "Invalid Btrfs magic: 0x%X (expected 0x%X)")) ;;
      (if SectorSize s =? 4096 then mret tt else update (add_warning "Non-standard sector size: %d")) ;;
      verifyTreeChecksums (ChunkRoot s) ;;
      verifyTreeChecksums (fsRoot b) ;;
      if extentRoot b =? 0 then mret tt else verifyTreeChecksums (extentRoot b)
  end.

Definition Fsck : BT D BtrfsFsckResult := fun b =>
  let '(r, (b, res)) := fsck_pass (b, mkFsckResult 0 0 [] true) in
  (match r with Ok _ => Ok res | Err e => Err e | Panic => Panic | OutOfFuel => OutOfFuel end, b).
End fsck.
