(* ===== verification/BtrfsFs.v ===== *)
(** The btrfs driver: its operations ([src/btrfs/fs.go]).

    Every lookup walks the whole tree.  A walk that is stopped on purpose
    ends with an error that the caller recognizes.  Nothing here changes the
    superblock or the tree of roots on the device. *)
From S2P Require Export PathNames BtrfsCompress BtrfsWriter.

(** ** Paths *)
Definition splitPath (path : list byte) : res (list byte * list byte) :=
  if bool_decide (path = []) || bool_decide (path = [Byte.x2f]) then Err (Errorf "cannot split root path")
  else
    let idx := scan_back (fun c => negb (is_slash c)) path (length path) in
    if idx <? 0 then Err (Errorf "invalid path") else split_last (sub path 0 (idx + 1)).

(** [make([]byte, n)] *)
Definition make_bytes (n : Z) : res (list byte) := if (n <? 0) || (2 ^ 63 <=? n) then Panic else Ok (zeros n).

(** ** Directory entries *)
Definition is_dir_item (dirInode : Z) (k : key) : bool :=
  (objectid k =? dirInode) && ((typ k =? BTRFS_DIR_INDEX_KEY) || (typ k =? BTRFS_DIR_ITEM_KEY)).

(** Target, name length and file type; the name starts at byte 30. *)
Definition dir_fields : Rd (Z * Z * Z) :=
  locObj <- u64 ;;
  skip 1 ;; skip 8 ;; skip 8 ;; skip 2 ;;
  nameLen <- u16 ;;
  fileType <- u8 ;;
  mret (locObj, nameLen, fileType).

(** [fmt.Errorf("found")] *)
Definition found : error := Errorf "found".

Definition match_entry (dirInode : Z) (name : list byte) (item : leafItem) (data : list byte) : M (option (key * Z)) unit :=
  if negb (is_dir_item dirInode (li_key item)) || (zlen data <? 30) then mret tt
  else
    let! (locObj, nameLen, _) := lift (decode dir_fields data) in
    if (nameLen =? w16 (zlen name)) && (30 + nameLen <=? zlen data) then
      entryName <- lift (slice data 30 (30 + nameLen)) ;;
      if bool_decide (entryName = name) then
        modify (fun _ => Some (li_key item, locObj)) ;;
        fail found
      else mret tt
    else mret tt.

Record extentInfo := mkExtentInfo {
  e_fileOffset : Z; e_size : Z; e_inline : bool; e_inlineData : list byte; e_diskBytenr : Z; e_diskNumBytes : Z;
  e_compress : Z
}.

(** ** Inodes *)
Definition is_inode_item (inodeNum : Z) (k : key) : bool := (objectid k =? inodeNum) && (typ k =? BTRFS_INODE_ITEM_KEY).
Definition is_extent_item (inodeNum : Z) (k : key) : bool := (objectid k =? inodeNum) && (typ k =? BTRFS_EXTENT_DATA_KEY).
Definition inode_key (inodeNum : Z) : key := mkKey inodeNum BTRFS_INODE_ITEM_KEY 0.
Definition extent_key (inodeNum : Z) : key := mkKey inodeNum BTRFS_EXTENT_DATA_KEY 0.

(** The seconds of [time.Unix(sec, nsec)]. *)
Definition decodeTime (data : list byte) (dataOff : Z) : res Z :=
  if zlen data <? dataOff + 12 then Ok 0
  else
    sec <- getUint64 data dataOff ;;
    nsec <- getUint32 data (dataOff + 8) ;;
    Ok (i64 (i64 sec + nsec / 1000000000)).

Definition inode_fields : Rd (Z * Z * Z * Z * Z) :=
  skip 8 ;; skip 8 ;;
  size <- u64 ;;
  u64 ;; u64 ;;
  nlink <- u32 ;;
  uid <- u32 ;;
  gid <- u32 ;;
  mode <- u32 ;;
  mret (size, nlink, uid, gid, mode).

(** An inode item shorter than 100 bytes is passed over. *)
Definition inode_info (inodeNum : Z) (data : list byte) : res NodeInfo :=
  let! (size, nlink, uid, gid, mode) := decode inode_fields data in
  let dir := negb (Z.land mode 0x4000 =? 0) in
  let reg := negb dir && negb (Z.land mode 0x8000 =? 0) in
  let sym := negb dir && negb reg && (Z.land mode 0xA000 =? 0xA000) in
  atime <- decodeTime data 108 ;;
  ctime <- decodeTime data 120 ;;
  mtime <- decodeTime data 132 ;;
  Ok (mkNodeInfo inodeNum mode uid gid size atime mtime ctime nlink 4096 (w64 (size + 4095) / 4096) dir reg sym).

(** The seconds of the zero value of [time.Time]. *)
Definition zero_time : Z := -62135596800.
Definition empty_info (inodeNum : Z) : NodeInfo :=
  mkNodeInfo inodeNum 0 0 0 0 zero_time zero_time zero_time 0 0 0 false false false.

(** [uint64(time.Now().Unix())], as two fields of an inode get it: seconds
    and zero nanoseconds. *)
Definition put_time `{Env} (data : list byte) (off : Z) : res (list byte) :=
  data <- putUint64 data off now ;; putUint32 data (off + 8) 0.

Section operations.
Context {D : Type} `{ReadWriterAt D} {env : Env} `{Codecs}.

Definition ReadSuperBlock : BT D unit := mount.
Definition Destroy : BT D unit := mret tt.
Definition Superblock : BT D (option SuperBlock) := b <- get ;; mret (sb b).

Definition find_entry (dirInode : Z) (name : list byte) : BT D (key * Z) :=
  let! (r, err) := walkFSTree None (match_entry dirInode name) in
  match r, err with
  | Some r, _ => mret r
  | None, Some e => if bool_decide (e = found) then fail (Sentinel fs_ErrNotExist) else fail e
  | None, None => fail (Sentinel fs_ErrNotExist)
  end.

Definition lookupDirEntryKey (dirInode : Z) (name : list byte) : BT D (key * Z) := find_entry dirInode name.
Definition lookupDirEntry (dirInode : Z) (name : list byte) : BT D Z :=
  let! (_, childInode) := find_entry dirInode name in mret childInode.

(** The names between the slashes, empty ones left out. *)
Definition resolvePath (path : list byte) : BT D Z :=
  b <- get ;;
  if bool_decide (path = []) || bool_decide (path = [Byte.x2f]) then mret (rootInode b)
  else
    match pathCache b !! path with
    | Some cached => mret cached
    | None =>
        curInode <- forM (components path) (rootInode b) (fun name cur => lookupDirEntry cur name) ;;
        modify (fun b => set_pathCache (<[path := curInode]> (pathCache b)) b) ;;
        mret curInode
    end.

Definition forget (path : list byte) : BT D unit := modify (fun b => set_pathCache (delete path (pathCache b)) b).

Definition readInodeInfo (inodeNum : Z) : BT D NodeInfo :=
  let! (info, err) := walkFSTree (empty_info inodeNum) (fun item data =>
    if negb (is_inode_item inodeNum (li_key item)) || (zlen data <? 100) then mret tt
    else
      info <- lift (inode_info inodeNum data) ;;
      modify (fun _ => info) ;;
      fail stop) in
  match real_error err with Some e => fail e | None => mret info end.

(** A copy of the first item that satisfies [p]; [None] is the nil slice. *)
Definition first_item (p : key -> bool) : BT D (option (list byte) * option error) :=
  walkFSTree None (fun item d => if p (li_key item) then modify (fun _ => Some d) ;; fail stop else mret tt).

(** A copy of the last one, when the walk is not stopped. *)
Definition last_item (p : key -> bool) : BT D (key * list byte) :=
  let! (r, _) := walkFSTree (mkKey 0 0 0, []) (fun item d => if p (li_key item) then modify (fun _ => (li_key item, d)) else mret tt) in
  mret r.

Definition keys_of (p : key -> bool) : BT D (list key) :=
  let! (ks, _) := walkFSTree [] (fun item _ => if p (li_key item) then modify (fun ks => ks ++ [li_key item]) else mret tt) in
  mret ks.

(** The inode item an operation is about to change, or the error it ends
    with. *)
Definition inode_data (inodeNum : Z) : BT D (list byte) :=
  let! (data, err) := first_item (is_inode_item inodeNum) in
  match real_error err with
  | Some e => fail e
  | None =>
      let data := default [] data in
      if zlen data <? 100 then fail (Errorf "btrfs: inode %d not found or invalid") else mret data
  end.

Definition fs_root : BT D Z := b <- get ;; mret (fsRoot b).
Definition update_item (k : key) (data : list byte) : BT D unit := r <- fs_root ;; updateInLeaf r k data.
Definition insert_item_at (k : key) (data : list byte) : BT D unit := r <- fs_root ;; insertIntoLeaf r k data.
Definition delete_item (k : key) : BT D unit := r <- fs_root ;; deleteFromLeaf r k.

(** ** Reading *)
Definition Getattr (path : list byte) : BT D NodeInfo := n <- resolvePath path ;; readInodeInfo n.

Definition entry_type (fileType : Z) : Z :=
  if fileType =? BTRFS_FT_REG_FILE then DirFileTypeRegular
  else if fileType =? BTRFS_FT_DIR then DirFileTypeDir
  else if fileType =? BTRFS_FT_SYMLINK then DirFileTypeSymlink else 0.

(** Names are listed once: [seen] is the names of the entries so far. *)
Definition list_entry (dirInode : Z) (item : leafItem) (data : list byte) : M (list DirEntry) unit :=
  if negb ((objectid (li_key item) =? dirInode) && (typ (li_key item) =? BTRFS_DIR_INDEX_KEY)) || (zlen data <? 30)
  then mret tt
  else
    let! (childInode, nameLen, fileType) := lift (decode dir_fields data) in
    if (0 <? nameLen) && (30 + nameLen <=? zlen data) then
      name <- lift (slice data 30 (30 + nameLen)) ;;
      modify (fun entries =>
        if bool_decide (name ∈ (d_Name <$> entries)) then entries
        else entries ++ [mkDirEntry childInode name (entry_type fileType)])
    else mret tt.

Definition readDirEntries (dirInode : Z) : BT D (list DirEntry) :=
  let! (entries, err) := walkFSTree [] (list_entry dirInode) in
  match err with
  | Some e => if bool_decide (e = Sentinel io_EOF) then mret entries else fail e
  | None => mret entries
  end.

Definition Readdir (path : list byte) : BT D (list DirEntry) := n <- resolvePath path ;; readDirEntries n.

(** The first fields of a file extent: the number of bytes and the codec,
    the encryption byte, the type. *)
Definition extent_fields : Rd (Z * Z * Z * Z) :=
  skip 8 ;;
  ramBytes <- u64 ;;
  ctype <- u8 ;;
  enc <- u8 ;;
  u16 ;;
  extType <- u8 ;;
  mret (ramBytes, ctype, enc, extType).

Definition readSymlink (inodeNum : Z) : BT D (list byte) :=
  let! (target, err) := walkFSTree [] (fun item data =>
    if negb (is_extent_item inodeNum (li_key item)) || (zlen data <? 22) then mret tt
    else
      let! (_, ctype, _, extType) := lift (decode extent_fields data) in
      if extType =? BTRFS_FILE_EXTENT_INLINE then
        raw <- lift (slice data 21 (zlen data)) ;;
        target <- lift (if ctype =? BTRFS_COMPRESS_NONE then Ok raw else decompressData ctype raw (w64 (zlen raw * 2))) ;;
        modify (fun _ => target) ;;
        fail stop
      else mret tt) in
  match real_error err with Some e => fail e | None => mret target end.

Definition Readlink (path : list byte) : BT D (list byte) := n <- resolvePath path ;; readSymlink n.
Definition Open (path : list byte) (flags : Z) : BT D unit := resolvePath path ;; mret tt.
Definition Release (path : list byte) : BT D unit := mret tt.

(** The extents of a file in the order of the walk, and its size as they
    give it. *)
Definition disk_fields : Rd (Z * Z * Z) :=
  diskBytenr <- u64 ;; u64 ;; extOff <- u64 ;; numBytes <- u64 ;; mret (diskBytenr, extOff, numBytes).

Definition collect_extent (inodeNum : Z) (item : leafItem) (data : list byte) : M (list extentInfo * Z) unit :=
  if negb (is_extent_item inodeNum (li_key item)) || (zlen data <? 22) then mret tt
  else
    let fileOffset := offset (li_key item) in
    let '(f, r) := extent_fields (mkByteReader data 0) in
    let! (ramBytes, ctype, _, extType) := lift f in
    let add e := modify (fun '(extents, fileSize) =>
      let end_ := w64 (fileOffset + e_size e) in
      (extents ++ [e], if fileSize <? end_ then end_ else fileSize)) in
    if extType =? BTRFS_FILE_EXTENT_INLINE then
      rawData <- lift (slice data 21 (zlen data)) ;;
      add (mkExtentInfo fileOffset ramBytes true rawData 0 0 ctype)
    else if extType =? BTRFS_FILE_EXTENT_REG then
      let! (diskBytenr, extOff, numBytes) := lift (disk_fields r).1 in
      let uncompressed := if ctype =? BTRFS_COMPRESS_NONE then numBytes else ramBytes in
      add (mkExtentInfo fileOffset uncompressed false [] (w64 (diskBytenr + extOff)) numBytes ctype)
    else mret tt.

(** [b.dev.ReadAt(dst, int64(off))] *)
Definition b_ReadInto (off : Z) (dst : list byte) : BT D (list byte) := fun b =>
  let '(got, err) := ReadAt (dev b) (i64 off) (zlen dst) in
  (match err with Some e => Err e | None => Ok (put dst 0 got) end, b).

(** One extent: the buffer and the count so far go in and out; [inr] is
    [break]. *)
Definition read_extent (ofst : Z) (ext : extentInfo) (acc : list byte * Z) : BT D ((list byte * Z) + (list byte * Z)) :=
  let '(buf, totalRead) := acc in
  let extStart := e_fileOffset ext in
  let extEnd := w64 (extStart + e_size ext) in
  let bufEnd := w64 (ofst + zlen buf) in
  if extEnd <=? ofst then mret (inl acc)
  else if bufEnd <=? extStart then mret (inr acc)
  else
    let readStart := if ofst <? extStart then extStart else ofst in
    let readEnd := if extEnd <? bufEnd then extEnd else bufEnd in
    if readEnd <=? readStart then mret (inl acc)
    else
      let dstStart := w64 (readStart - ofst) in
      let toRead := i64 (readEnd - readStart) in
      let srcOff := w64 (readStart - extStart) in
      if e_inline ext then
        rawData <- lift (if e_compress ext =? BTRFS_COMPRESS_NONE then Ok (e_inlineData ext)
                         else decompressData (e_compress ext) (e_inlineData ext) (e_size ext)) ;;
        let inlineEnd := zlen rawData in
        let toRead := if inlineEnd <? w64 (srcOff + toRead) then i64 (inlineEnd - srcOff) else toRead in
        if toRead <=? 0 then mret (inl acc)
        else
          src <- lift (slice rawData srcOff (zlen rawData)) ;;
          dst <- lift (slice buf dstStart (w64 (dstStart + toRead))) ;;
          buf <- lift (put_at buf dstStart (put dst 0 src)) ;;
          mret (inl (buf, totalRead + toRead))
      else
        let room := w64 (zlen buf - dstStart) in
        let toRead := if room <? w64 (srcOff + toRead) then i64 room else toRead in
        if toRead <=? 0 then mret (inl acc)
        else if negb (e_compress ext =? BTRFS_COMPRESS_NONE) then
          blockBuf <- b_ReadAt (e_diskBytenr ext) (e_diskNumBytes ext) ;;
          dec <- lift (decompressData (e_compress ext) blockBuf (e_size ext)) ;;
          if srcOff <? zlen dec then
            let toCopy := if zlen dec <? w64 (srcOff + toRead) then w64 (zlen dec - srcOff) else toRead in
            src <- lift (slice dec srcOff (w64 (srcOff + toCopy))) ;;
            dst <- lift (slice buf dstStart (w64 (dstStart + toCopy))) ;;
            buf <- lift (put_at buf dstStart (put dst 0 src)) ;;
            mret (inl (buf, totalRead + toCopy))
          else mret (inl acc)
        else
          let toRead := if room <? w64 (srcOff + toRead) then i64 room else toRead in
          if toRead <=? 0 then mret (inl acc)
          else
            dst <- lift (slice buf dstStart (w64 (dstStart + toRead))) ;;
            dst <- b_ReadInto (w64 (e_diskBytenr ext + srcOff)) dst ;;
            buf <- lift (put_at buf dstStart dst) ;;
            mret (inl (buf, totalRead + toRead)).

Definition readFromExtents (extents : list extentInfo) (buf : list byte) (ofst : Z) : BT D (list byte * Z) :=
  forB extents (buf, 0) (read_extent ofst).

Definition readFile (inodeNum : Z) (buf : list byte) (ofst : Z) : BT D (list byte * Z) :=
  let! (r, err) := walkFSTree ([], 0) (collect_extent inodeNum) in
  let '(extents, fileSize) := r in
  match err with
  | Some e => if bool_decide (e = Sentinel io_EOF) then mret tt else fail e
  | None => mret tt
  end ;;
  if (ofst <? 0) || (fileSize =? 0) || (fileSize <=? ofst) then mret (buf, 0)
  else readFromExtents extents buf ofst.

Definition Read (path buf : list byte) (ofst : Z) : BT D (list byte * Z) :=
  n <- resolvePath path ;; readFile n buf ofst.

(** ** Making names *)
Definition insertInodeItem (inodeNum mode : Z) : BT D unit :=
  s <- get_sb ;;
  data <- lift (
    data <- putUint64 (zeros 160) 0 (Generation s) ;;
    data <- putUint64 data 8 (Generation s) ;;
    data <- putUint64 data 24 0 ;;
    data <- putUint32 data 40 1 ;;
    data <- putUint32 data 44 0 ;;
    data <- putUint32 data 48 0 ;;
    data <- putUint32 data 52 mode ;;
    data <- putUint32 data 56 0 ;;
    data <- putUint64 data 60 0 ;;
    data <- put_time data 96 ;;
    data <- put_time data 108 ;;
    data <- put_time data 120 ;;
    put_time data 132) ;;
  insert_item_at (inode_key inodeNum) data.

(** The access and change times of an inode, whatever becomes of the
    insertion. *)
Definition updateInodeTime (inodeNum now : Z) : BT D unit :=
  let! (data, _) := first_item (is_inode_item inodeNum) in
  match data with
  | None => mret tt
  | Some data =>
      data <- lift (data <- putUint64 data 120 now ;; putUint64 data 108 now) ;;
      ignore (insert_item_at (inode_key inodeNum) data)
  end.

(** One more than the largest inode number found, and than the largest index
    of a directory; the error of the walk is dropped. *)
Definition next_inode : BT D Z :=
  let! (maxInode, _) := walkFSTree 0 (fun item _ =>
    modify (fun m => if (typ (li_key item) =? BTRFS_INODE_ITEM_KEY) && (m <? objectid (li_key item))
                     then objectid (li_key item) else m)) in
  mret (w64 (maxInode + 1)).

Definition nextDirIndex (dirInode : Z) : BT D Z :=
  let! (maxIdx, _) := walkFSTree 0 (fun item _ =>
    modify (fun m => if (objectid (li_key item) =? dirInode) && (typ (li_key item) =? BTRFS_DIR_INDEX_KEY)
                        && (m <? offset (li_key item)) then offset (li_key item) else m)) in
  mret (w64 (maxIdx + 1)).

(** Enter a name at the end of a directory. *)
Definition enter_name (dirInode childInode : Z) (name : list byte) (fileType : Z) : BT D unit :=
  nextOff <- nextDirIndex dirInode ;;
  dirData <- lift (makeDirItem childInode name fileType) ;;
  insert_item_at (mkKey dirInode BTRFS_DIR_INDEX_KEY nextOff) dirData.

(** [if _, err := b.lookupDirEntry(dirInode, name); err == nil] *)
Definition refuse_existing (dirInode : Z) (name : list byte) : BT D unit :=
  r <- catch (lookupDirEntry dirInode name) ;;
  match r with
  | inl _ => fail (Errorf "btrfs: entry already exists: %s")
  | inr _ => mret tt
  end.

Definition createFile (path : list byte) (mode fileType : Z) : BT D unit :=
  let! (dir, name) := lift (splitPath path) in
  dirInode <- resolvePath dir ;;
  newInode <- next_inode ;;
  insertInodeItem newInode mode ;;
  refuse_existing dirInode name ;;
  enter_name dirInode newInode name fileType ;;
  forget dir.

Definition Create (path : list byte) (flags mode : Z) : BT D unit :=
  createFile path (Z.lor mode 0x8000) BTRFS_FT_REG_FILE.
Definition Mkdir (path : list byte) (mode : Z) : BT D unit := createFile path (Z.lor mode 0x4000) BTRFS_FT_DIR.

(** The walk that must have been stopped. *)
Definition stopped_item (msg : string) (inodeNum : Z) : BT D (list byte) :=
  let! (data, err) := first_item (is_inode_item inodeNum) in
  let data := default [] data in
  if bool_decide (err = Some stop) && negb (zlen data <? 100) then mret data else fail (Errorf msg).

Definition Symlink (target newpath : list byte) : BT D unit :=
  let! (dir, name) := lift (splitPath newpath) in
  dirInode <- resolvePath dir ;;
  newInode <- next_inode ;;
  insertInodeItem newInode (Z.lor 0xA000 511) ;;
  inodeData <- stopped_item "btrfs: symlink inode creation failed" newInode ;;
  inodeData <- lift (putUint64 inodeData 16 (zlen target)) ;;
  update_item (inode_key newInode) inodeData ;;
  extData <- lift (makeExtentDataInline 0 target) ;;
  insert_item_at (extent_key newInode) extData ;;
  refuse_existing dirInode name ;;
  enter_name dirInode newInode name BTRFS_FT_SYMLINK ;;
  forget dir.

Definition file_type (info : NodeInfo) : Z :=
  if ni_IsDir info then BTRFS_FT_DIR else if ni_IsSymlink info then BTRFS_FT_SYMLINK else BTRFS_FT_REG_FILE.

Definition Link (oldpath newpath : list byte) : BT D unit :=
  oldInodeNum <- resolvePath oldpath ;;
  oldInfo <- readInodeInfo oldInodeNum ;;
  if ni_IsDir oldInfo then fail (Errorf "btrfs: cannot link a directory")
  else
    let! (dir, name) := lift (splitPath newpath) in
    dirInode <- resolvePath dir ;;
    refuse_existing dirInode name ;;
    inodeData <- stopped_item "btrfs: old inode not found" oldInodeNum ;;
    inodeData <- lift (nlink <- getUint32 inodeData 40 ;;
                       inodeData <- putUint32 inodeData 40 (w32 (nlink + 1)) ;;
                       put_time inodeData 120) ;;
    update_item (inode_key oldInodeNum) inodeData ;;
    enter_name dirInode oldInodeNum name (file_type oldInfo) ;;
    forget dir ;;
    forget oldpath.

(** ** Removing names *)

(** Delete the items of a file, whatever becomes of each. *)
Definition delete_extents (inodeNum : Z) : BT D unit :=
  extentKeys <- keys_of (is_extent_item inodeNum) ;;
  forM extentKeys tt (fun ek _ => ignore (delete_item ek)).

(** The link count of an inode item, one less. *)
Definition drop_link (inodeData : list byte) : res (Z * list byte) :=
  nlink <- getUint32 inodeData 40 ;;
  let nlink := if 0 <? nlink then nlink - 1 else nlink in
  inodeData <- putUint32 inodeData 40 nlink ;;
  Ok (nlink, inodeData).

Definition removeEntry (path : list byte) (mustBeDir : bool) : BT D unit :=
  let! (dir, name) := lift (splitPath path) in
  dirInode <- resolvePath dir ;;
  let! (entryKey, childInodeNum) := lookupDirEntryKey dirInode name in
  childInfo <- readInodeInfo childInodeNum ;;
  if mustBeDir && negb (ni_IsDir childInfo) then fail (Errorf "btrfs: not a directory")
  else if negb mustBeDir && ni_IsDir childInfo then fail (Errorf "btrfs: is a directory")
  else
    (if ni_IsDir childInfo then
       entries <- readDirEntries childInodeNum ;;
       if 0 <? zlen entries then fail (Errorf "btrfs: directory not empty") else mret tt
     else mret tt) ;;
    delete_item entryKey ;;
    let! (inodeData, err) := first_item (is_inode_item childInodeNum) in
    match real_error err with Some e => fail e | None => mret tt end ;;
    let inodeData := default [] inodeData in
    (if 100 <=? zlen inodeData then
       let! (nlink, inodeData) := lift (drop_link inodeData) in
       inodeData <- lift (put_time inodeData 120) ;;
       if nlink =? 0 then
         delete_item (inode_key childInodeNum) ;;
         delete_extents childInodeNum
       else update_item (inode_key childInodeNum) inodeData
     else mret tt) ;;
    forget path ;;
    forget dir.

Definition Unlink (path : list byte) : BT D unit := removeEntry path false.
Definition Rmdir (path : list byte) : BT D unit := removeEntry path true.

(** An entry that a rename replaces. *)
Definition replace_target (dirInode : Z) (name : list byte) : BT D unit :=
  r <- catch (lookupDirEntryKey dirInode name) ;;
  match r with
  | inr _ => mret tt
  | inl (targetKey, targetInode) =>
      delete_item targetKey ;;
      let! (_, targetData) := last_item (is_inode_item targetInode) in
      if 100 <=? zlen targetData then
        let! (nlink, targetData) := lift (drop_link targetData) in
        if nlink =? 0 then
          ignore (delete_item (inode_key targetInode)) ;;
          delete_extents targetInode
        else ignore (update_item (inode_key targetInode) targetData)
      else mret tt
  end.

Definition touch_dir (dirNode : Z) : BT D unit :=
  let! (_, dData) := last_item (is_inode_item dirNode) in
  if 100 <=? zlen dData then
    dData <- lift (dData <- put_time dData 120 ;; put_time dData 132) ;;
    ignore (update_item (inode_key dirNode) dData)
  else mret tt.

Definition Rename (oldpath newpath : list byte) : BT D unit :=
  let! (oldDir, oldName) := lift (splitPath oldpath) in
  let! (newDir, newName) := lift (splitPath newpath) in
  oldDirInode <- resolvePath oldDir ;;
  newDirInode <- resolvePath newDir ;;
  let! (entryKey, childInodeNum) := lookupDirEntryKey oldDirInode oldName in
  childInfo <- readInodeInfo childInodeNum ;;
  replace_target newDirInode newName ;;
  delete_item entryKey ;;
  enter_name newDirInode childInodeNum newName (file_type childInfo) ;;
  touch_dir oldDirInode ;;
  touch_dir newDirInode ;;
  forget oldpath ;; forget newpath ;; forget oldDir ;; forget newDir.

(** ** Attributes *)
Definition Chmod (path : list byte) (mode : Z) : BT D unit :=
  inodeNum <- resolvePath path ;;
  data <- inode_data inodeNum ;;
  data <- lift (old <- getUint32 data 52 ;;
                data <- putUint32 data 52 (Z.lor (Z.land old 0xFFFF0000) (Z.land mode 0x0FFF)) ;;
                put_time data 120) ;;
  update_item (inode_key inodeNum) data.

Definition Chown (path : list byte) (uid gid : Z) : BT D unit :=
  inodeNum <- resolvePath path ;;
  data <- inode_data inodeNum ;;
  data <- lift (data <- (if negb (uid =? 0xFFFFFFFF) then putUint32 data 44 uid else Ok data) ;;
                data <- (if negb (gid =? 0xFFFFFFFF) then putUint32 data 48 gid else Ok data) ;;
                put_time data 120) ;;
  update_item (inode_key inodeNum) data.

(** ** Writing *)

(** [_, _ = b.dev.ReadAt(make([]byte, n), int64(off))] *)
Definition b_read_any (off n : Z) : BT D (list byte) := fun b =>
  (buf <- make_bytes n ;; Ok (put buf 0 (ReadAt (dev b) (i64 off) n).1), b).

(** The bytes a regular extent item points to: none where it does not
    resolve. *)
Definition regular_content (extData : list byte) : BT D (list byte) :=
  diskBytenr <- lift (getUint64 extData 21) ;;
  numBytes <- lift (getUint64 extData 45) ;;
  if (0 <? diskBytenr) && (0 <? numBytes) then
    phys <- catch (b_resolve diskBytenr) ;;
    match phys with
    | inl phys => b_read_any phys numBytes
    | inr _ => mret []
    end
  else mret [].

(** The content that [Write] starts from. *)
Definition current_content (extData : list byte) : BT D (list byte) :=
  if zlen extData =? 0 then mret []
  else
    extType <- lift (getUint 1 extData 20) ;;
    if extType =? BTRFS_FILE_EXTENT_INLINE then
      let! (ramBytes, ctype, _, _) := lift (decode extent_fields extData) in
      raw <- lift (slice extData 21 (zlen extData)) ;;
      if negb (ctype =? BTRFS_COMPRESS_NONE) then
        dec <- catch (lift (decompressData ctype raw ramBytes)) ;;
        mret (match dec with inl dec => dec | inr _ => [] end)
      else mret raw
    else if extType =? BTRFS_FILE_EXTENT_REG then regular_content extData
    else mret [].

(** Store [payload] in space of its own, registered in the extent tree. *)
Definition write_regular (wrapped : bool) (payload : list byte) (size alignedSize : Z) : BT D Z :=
  let! (logicalAddr, physAddr) := allocateSpace size BTRFS_BLOCK_GROUP_DATA in
  diskBuf <- lift (make_bytes alignedSize) ;;
  let write := b_WriteAt physAddr (put diskBuf 0 payload) in
  (if wrapped then wrap "btrfs: write regular extent: %w" write else write) ;;
  ignore (registerExtent insertIntoLeaf logicalAddr alignedSize) ;;
  mret logicalAddr.

Definition write_inline (inodeNum : Z) (foundExtKey : key) (extData finalContent : list byte) : BT D unit :=
  newExtItem <- lift (makeExtentDataInline 0 finalContent) ;;
  if 0 <? zlen extData then update_item foundExtKey newExtItem else insert_item_at (extent_key inodeNum) newExtItem.

(** Compressed where that makes it shorter. *)
Definition write_extent (inodeNum : Z) (finalContent : list byte) (newSize : Z) : BT D unit :=
  compressed <- lift (compressZlib finalContent) ;;
  let smaller := zlen compressed <? zlen finalContent in
  let payload := if smaller then compressed else finalContent in
  let compression := if smaller then BTRFS_COMPRESS_ZLIB else BTRFS_COMPRESS_NONE in
  let writeSize := if smaller then zlen compressed else newSize in
  s <- get_sb ;;
  let alignedSize := align_up writeSize (sector_size s) in
  logicalAddr <- write_regular true payload alignedSize alignedSize ;;
  delete_extents inodeNum ;;
  s <- get_sb ;;
  newExtItem <- lift (makeExtentDataRegularCompressed (Generation s) logicalAddr alignedSize newSize compression) ;;
  insert_item_at (extent_key inodeNum) newExtItem.

(** The size and the times of the inode; a failure to store them is
    dropped. *)
Definition grow_inode (inodeNum newSize : Z) : BT D unit :=
  let! (_, inodeData) := last_item (is_inode_item inodeNum) in
  if 100 <=? zlen inodeData then
    inodeData <- lift (
      oldSize <- getUint64 inodeData 16 ;;
      inodeData <- (if oldSize <? newSize then putUint64 inodeData 16 newSize else Ok inodeData) ;;
      inodeData <- put_time inodeData 120 ;;
      put_time inodeData 132) ;;
    ignore (update_item (inode_key inodeNum) inodeData)
  else mret tt.

Definition is_first_extent (inodeNum : Z) (k : key) : bool := is_extent_item inodeNum k && (offset k =? 0).

Definition Write (path buf : list byte) (ofst : Z) : BT D Z :=
  if zlen buf =? 0 then mret 0
  else
    inodeNum <- resolvePath path ;;
    let! (foundExtKey, extData) := last_item (is_first_extent inodeNum) in
    currentContent <- current_content extData ;;
    let newSize := w64 (w64 ofst + zlen buf) in
    finalContent <- lift (make_bytes newSize) ;;
    finalContent <- lift (copy_at (put finalContent 0 currentContent) ofst buf) ;;
    (if newSize <=? 2048 then write_inline inodeNum foundExtKey extData finalContent
     else write_extent inodeNum finalContent newSize) ;;
    grow_inode inodeNum newSize ;;
    forget path ;;
    mret (zlen buf).

(** ** Truncation *)

(** The content moved to a new uncompressed extent of [size] bytes. *)
Definition truncate_regular (inodeNum : Z) (extKey : key) (oldContent : list byte) (size : Z) : BT D unit :=
  newContent <- lift (make_bytes size) ;;
  s <- get_sb ;;
  let alignedSize := align_up (w64 size) (sector_size s) in
  logicalAddr <- write_regular false (put newContent 0 oldContent) (w64 size) alignedSize ;;
  ignore (delete_item extKey) ;;
  s <- get_sb ;;
  newExtItem <- lift (makeExtentDataRegularCompressed (Generation s) logicalAddr alignedSize (w64 size) BTRFS_COMPRESS_NONE) ;;
  insert_item_at (extent_key inodeNum) newExtItem.

Definition truncate_extent (inodeNum : Z) (extKey : key) (extData : list byte) (size : Z) : BT D unit :=
  extType <- lift (getUint 1 extData 20) ;;
  if extType =? BTRFS_FILE_EXTENT_INLINE then
    header <- lift (slice extData 0 21) ;;
    oldInlineData <- lift (slice extData 21 (zlen extData)) ;;
    if size <=? 2048 then
      newInlineData <- lift (make_bytes size) ;;
      header <- lift (putUint64 header 8 (w64 size)) ;;
      update_item extKey (header ++ put newInlineData 0 oldInlineData)
    else truncate_regular inodeNum extKey oldInlineData size
  else if extType =? BTRFS_FILE_EXTENT_REG then
    oldContent <- regular_content extData ;;
    truncate_regular inodeNum extKey oldContent size
  else mret tt.

Definition Truncate (path : list byte) (size : Z) : BT D unit :=
  inodeNum <- resolvePath path ;;
  data <- inode_data inodeNum ;;
  data <- lift (data <- putUint64 data 16 (w64 size) ;;
                data <- put_time data 120 ;;
                put_time data 132) ;;
  update_item (inode_key inodeNum) data ;;
  (if size =? 0 then
     extentKeys <- keys_of (is_extent_item inodeNum) ;;
     forM extentKeys tt (fun ek _ => delete_item ek)
   else
     let! (extKey, extData) := last_item (is_extent_item inodeNum) in
     if 0 <? zlen extData then truncate_extent inodeNum extKey extData size else mret tt) ;;
  forget path.

(** ** Extended attributes are not supported *)
Definition Getxattr (path name : list byte) : BT D (option errno * list byte) := mret (Some ENOSYS, []).
Definition Setxattr (path name : list byte) (value : option (list byte)) (flags : Z) : BT D (option errno) :=
  mret (Some ENOSYS).
Definition Listxattr (path : list byte) (fill : list (list byte) -> list byte -> bool)
    : BT D (option errno * list (list byte)) := mret (Some ENOSYS, []).
Definition Removexattr (path name : list byte) : BT D (option errno) := mret (Some ENOSYS).
End operations.

#[export] Instance Btrfs_ops {D} `{ReadWriterAt D} {env : Env} `{Codecs} : FileSystem_ops (FileSystem D) := {
  op_Destroy := Destroy; op_Getattr := Getattr; op_Readdir := Readdir; op_Readlink := Readlink;
  op_Open := Open; op_Read := Read; op_Release := Release; op_Create := Create; op_Write := Write;
  op_Mkdir := Mkdir; op_Unlink := Unlink; op_Rmdir := Rmdir; op_Rename := Rename; op_Chmod := Chmod;
  op_Chown := Chown; op_Truncate := Truncate; op_Symlink := Symlink; op_Link := Link;
  op_Getxattr := Getxattr; op_Setxattr := Setxattr; op_Listxattr := Listxattr; op_Removexattr := Removexattr;
  op_Statfs := Statfs
}.
