(* ===== verification/BtrfsLeaf.v ===== *)
(** The btrfs driver: what the bytes of a node hold.

    [leaf_holds] and [node_holds] describe the block of a leaf and of an
    internal node; laying a node out gives them, and every reader of the
    driver, the parser, the walk and the search, sees what they say. *)
From S2P Require Export BtrfsNode BtrfsWriter.

Definition key_wf (k : key) : Prop :=
  0 <= objectid k < 2 ^ 64 /\ 0 <= typ k < 2 ^ 8 /\ 0 <= offset k < 2 ^ 64.

(** The key at [off]. *)
Definition key_at (buf : list byte) (off : Z) (k : key) : Prop :=
  le_get 8 buf off = objectid k /\ le_get 1 buf (off + 8) = typ k /\ le_get 8 buf (off + 9) = offset k.

(** The head of an item, and its data [ioff] bytes behind the header. *)
Definition head_at (buf : list byte) (off ioff : Z) (it : itemEntry) : Prop :=
  key_at buf off (it_key it) /\ le_get 4 buf (off + 17) = ioff /\ le_get 4 buf (off + 21) = zlen (it_data it).
Definition data_at (buf : list byte) (ioff : Z) (d : list byte) : Prop :=
  0 <= ioff /\ nodeHeaderSize + ioff + zlen d <= zlen buf /\ sub buf (nodeHeaderSize + ioff) (zlen d) = d.

Definition item_at (buf : list byte) (i : Z) (it : itemEntry) : Prop :=
  let off := nodeHeaderSize + i * 25 in
  off + 25 <= zlen buf /\ exists ioff, head_at buf off ioff it /\ data_at buf ioff (it_data it).

Definition leaf_holds (buf : list byte) (items : list itemEntry) : Prop :=
  le_get 1 buf 100 = 0 /\ le_get 4 buf 96 = zlen items /\
  forall (i : nat) it, items !! i = Some it -> item_at buf (Z.of_nat i) it.

Definition ptr_at (buf : list byte) (off : Z) (p : internalKeyPtr) : Prop :=
  key_at buf off (ip_key p) /\ le_get 8 buf (off + 17) = ip_blockptr p /\ le_get 8 buf (off + 25) = ip_generation p.

Definition node_holds (buf : list byte) (level : Z) (ptrs : list internalKeyPtr) : Prop :=
  le_get 1 buf 100 = level /\ le_get 4 buf 96 = zlen ptrs /\
  forall (i : nat) p, ptrs !! i = Some p ->
    let off := nodeHeaderSize + Z.of_nat i * 33 in off + 33 <= zlen buf /\ ptr_at buf off p.

(** The stored checksum is the one of the rest of the block. *)
Definition csum_ok (buf : list byte) : Prop := le_get 4 buf 0 = calcCrc32c (sub buf 32 (zlen buf - 32)).

(** ** Reading *)
Lemma leaf_items_spec oob buf items i :
  0 <= i -> (forall (j : nat) it, items !! j = Some it -> item_at buf (i + Z.of_nat j) it) ->
  leaf_items oob buf (length items) i = Ok items.
Proof.
  revert i. induction items as [|it items IH]; intros i Hi Hat; [done|]. cbn [length leaf_items].
  destruct (Hat 0%nat it eq_refl) as (Hin & ioff & ((K1 & K2 & K3) & F1 & F2) & Hd1 & Hd2 & Hd3).
  cbn in Hin. rewrite Z.add_0_r in *. set (off := nodeHeaderSize + i * 25) in *.
  assert (0 <= off) by (unfold off, nodeHeaderSize; lia).
  destruct (Z.ltb_spec (zlen buf) (off + 25)); [lia|].
  repeat (rewrite getUint_in by lia; cbn [mbind res_bind]). rewrite K1, K2, K3, F1, F2.
  destruct (Z.ltb_spec (zlen buf) (nodeHeaderSize + ioff + zlen (it_data it))); [lia|].
  rewrite slice_in by (unfold nodeHeaderSize, zlen in *; lia). cbn [mbind res_bind].
  rewrite IH; [|lia|].
  - cbn. replace (nodeHeaderSize + ioff + zlen (it_data it) - (nodeHeaderSize + ioff)) with (zlen (it_data it)) by lia.
    rewrite Hd3. by destruct it as [[] ?].
  - intros j it' Hj. replace (i + 1 + Z.of_nat j) with (i + Z.of_nat (S j)) by lia. by apply Hat.
Qed.

Lemma parseLeaf_holds oob buf items :
  nodeHeaderSize <= zlen buf -> leaf_holds buf items -> parseLeaf oob buf = Ok items.
Proof.
  unfold nodeHeaderSize. intros Hl (_ & Hn & Hat). unfold parseLeaf. rewrite getUint_in by lia. cbn [mbind res_bind].
  rewrite Hn. unfold zlen at 1. rewrite Nat2Z.id. by apply leaf_items_spec.
Qed.

(** ** The reader of fields *)
Lemma u_at n buf off :
  0 <= off -> off + Z.of_nat n <= zlen buf ->
  u n (mkByteReader buf off) = (Ok (le_get n buf off), mkByteReader buf (off + Z.of_nat n)).
Proof. intros. unfold u. rewrite get_bind. cbn [br_buf br_off]. by rewrite getUint_in. Qed.

Lemma rcopy_at n buf off :
  0 <= off -> 0 <= n -> off + n <= zlen buf ->
  rcopy n (mkByteReader buf off) = (Ok (sub buf off n), mkByteReader buf (off + n)).
Proof.
  intros. unfold rcopy. rewrite get_bind. cbn [br_buf br_off]. rewrite slice_in by lia.
  by replace (off + n - off) with n by lia.
Qed.

(** Run the reads of a decoder one after the other. *)
Ltac read_fields :=
  repeat match goal with
  | |- context [mbind _ (u ?n) (mkByteReader ?b ?o)] =>
      rewrite (bind_ok _ _ _ _ _ (u_at n b o ltac:(lia) ltac:(lia)))
  | |- context [mbind _ (rcopy ?n) (mkByteReader ?b ?o)] =>
      rewrite (bind_ok _ _ _ _ _ (rcopy_at n b o ltac:(lia) ltac:(lia) ltac:(lia)))
  end;
  change (Z.of_nat 1) with 1; change (Z.of_nat 2) with 2; change (Z.of_nat 4) with 4; change (Z.of_nat 8) with 8.

(** [o + 8 + 1] is [o + 9]. *)
Ltac sum_offsets :=
  rewrite <- ?Z.add_assoc;
  repeat match goal with
  | |- context [Z.pos ?a + Z.pos ?b] =>
      let c := eval vm_compute in (Z.pos a + Z.pos b) in change (Z.pos a + Z.pos b) with c
  end.

Lemma decodeKey_at buf off k :
  0 <= off -> off + 17 <= zlen buf -> key_at buf off k ->
  decodeKey (mkByteReader buf off) = (Ok k, mkByteReader buf (off + 17)).
Proof.
  intros Ho Hl (K1 & K2 & K3). unfold decodeKey, u64, u8. read_fields. sum_offsets.
  rewrite K1, K2, K3. by destruct k.
Qed.

Lemma decodeLeafItem_at buf off ioff it :
  0 <= off -> off + 25 <= zlen buf -> head_at buf off ioff it ->
  decodeLeafItem (mkByteReader buf off) =
    (Ok (mkLeafItem (it_key it) ioff (zlen (it_data it))), mkByteReader buf (off + 25)).
Proof.
  intros Ho Hl (K & F1 & F2). unfold decodeLeafItem.
  rewrite (bind_ok _ _ _ _ _ (decodeKey_at buf off _ Ho ltac:(lia) K)). unfold u32. read_fields. sum_offsets.
  by rewrite F1, F2.
Qed.

Lemma decodeInternalPtr_at buf off p :
  0 <= off -> off + 33 <= zlen buf -> ptr_at buf off p ->
  decodeInternalPtr (mkByteReader buf off) = (Ok p, mkByteReader buf (off + 33)).
Proof.
  intros Ho Hl (K & F1 & F2). unfold decodeInternalPtr.
  rewrite (bind_ok _ _ _ _ _ (decodeKey_at buf off _ Ho ltac:(lia) K)). unfold u64. read_fields. sum_offsets.
  rewrite F1, F2. by destruct p.
Qed.

(** The header: what the driver uses of it is the number of items and the
    level. *)
Lemma decodeNodeHeader_at buf :
  nodeHeaderSize <= zlen buf -> exists h,
    decodeNodeHeader (mkByteReader buf 0) = (Ok h, mkByteReader buf nodeHeaderSize) /\
    h_nritems h = le_get 4 buf 96 /\ h_level h = le_get 1 buf 100.
Proof.
  unfold nodeHeaderSize. intros Hl. eexists. unfold decodeNodeHeader, u64, u32, u8. read_fields. sum_offsets.
  split; [reflexivity|done].
Qed.

(** ** Writing *)

(** [l'] is [l] but for the [n] bytes at [off]. *)
Definition wrote (l l' : list byte) (off n : Z) : Prop :=
  zlen l' = zlen l /\ forall o m, 0 <= o -> o + m <= off \/ off + n <= o -> sub l' o m = sub l o m.

Lemma wrote_refl l off n : wrote l l off n.
Proof. by split. Qed.
Lemma wrote_weaken l l' off n off' n' : wrote l l' off n -> off' <= off -> off + n <= off' + n' -> wrote l l' off' n'.
Proof. intros [Hl Hs] ? ?. split; [done|]. intros o m Ho Hd. apply Hs; lia. Qed.
Lemma wrote_compose l1 l2 l3 off n : wrote l1 l2 off n -> wrote l2 l3 off n -> wrote l1 l3 off n.
Proof. intros [Hl1 H1] [Hl2 H2]. split; [congruence|]. intros o m Ho Hd. rewrite H2 by lia. apply H1; lia. Qed.
Lemma wrote_put l off s : 0 <= off -> wrote l (put l off s) off (zlen s).
Proof. intros. split; [zlen|]. intros o m Hom Hd. apply sub_put_disj; lia. Qed.
Lemma wrote_get l l' off n k o :
  wrote l l' off n -> 0 <= o -> o + Z.of_nat k <= off \/ off + n <= o -> le_get k l' o = le_get k l o.
Proof. intros [_ Hs] Ho Hd. unfold le_get. by rewrite Hs. Qed.

Lemma putUint_spec k l off v :
  0 <= off -> off + Z.of_nat k <= zlen l -> exists l',
    putUint k l off v = Ok l' /\ wrote l l' off (Z.of_nat k) /\ le_get k l' off = v mod 2 ^ (Z.of_nat k * 8).
Proof.
  intros. eexists. split; [by apply putUint_in|]. split; [|by apply le_get_put_same].
  pose proof (wrote_put l off (le_split k v) ltac:(lia)) as W. by rewrite zlen_le_split in W.
Qed.

(** Take the next [putUint] of the goal apart. *)
Ltac put_field :=
  match goal with
  | |- context [putUint ?k ?l ?o ?v] =>
      let l' := fresh "l'" in let E := fresh "E" in let W := fresh "W" in let G := fresh "G" in
      destruct (putUint_spec k l o v) as (l' & E & W & G);
      [lia | repeat match goal with W' : wrote ?a ?b _ _ |- context [zlen ?b] => rewrite (proj1 W') end; lia |];
      rewrite E; cbn [mbind res_bind]; clear E
  end.

(** A chain of writes within one region. *)
Ltac wrote_all :=
  first
    [ eapply wrote_weaken; [eassumption|lia|lia]
    | eapply wrote_compose; [eapply wrote_weaken; [eassumption|lia|lia]|wrote_all] ].

(** The value of a field after the writes behind it. *)
Ltac field_kept :=
  repeat match goal with
  | W : wrote ?l ?l' _ _ |- le_get _ ?l' _ = _ =>
      first [ rewrite (wrote_get _ _ _ _ _ _ W) by lia ]
  end.

Lemma encodeKeyInto_spec l off k :
  0 <= off -> off + 17 <= zlen l -> key_wf k -> exists l',
    encodeKeyInto l off k = Ok l' /\ wrote l l' off 17 /\ key_at l' off k.
Proof.
  intros Ho Hl (K1 & K2 & K3). unfold encodeKeyInto. repeat put_field.
  eexists. split; [reflexivity|]. change (Z.of_nat 8) with 8 in *; change (Z.of_nat 1) with 1 in *.
  split.
  - wrote_all.
  - unfold key_at. repeat split; field_kept; rewrite ?G, ?G0, ?G1; apply Z.mod_small; lia.
Qed.

Definition item_wf (it : itemEntry) : Prop := key_wf (it_key it).

Lemma key_at_wrote l l' off n o k :
  wrote l l' off n -> 0 <= o -> o + 17 <= off \/ off + n <= o -> key_at l o k -> key_at l' o k.
Proof.
  intros W Ho Hd (K1 & K2 & K3). unfold key_at. rewrite !(wrote_get _ _ _ _ _ _ W) by lia. done.
Qed.
Lemma head_at_wrote l l' off n o ioff it :
  wrote l l' off n -> 0 <= o -> o + 25 <= off \/ off + n <= o -> head_at l o ioff it -> head_at l' o ioff it.
Proof.
  intros W Ho Hd (K & F1 & F2). split; [eapply key_at_wrote; [done..| |done]; lia|].
  rewrite !(wrote_get _ _ _ _ _ _ W) by lia. done.
Qed.

(** Where the data of the [i]th item starts. *)
Definition data_start (cur : Z) (items : list itemEntry) (i : nat) : Z := cur + total_data (take i items).

Lemma put_heads_spec items l i cur :
  0 <= i -> 101 <= cur -> cur + total_data items < 2 ^ 32 -> Forall item_wf items ->
  101 + (i + zlen items) * 25 <= zlen l -> exists l',
    put_heads l i cur items = Ok l' /\ wrote l l' (101 + i * 25) (zlen items * 25) /\
    forall (j : nat) it, items !! j = Some it ->
      head_at l' (101 + (i + Z.of_nat j) * 25) (data_start cur items j - 101) it.
Proof.
  revert l i cur. induction items as [|it items IH]; intros l i cur Hi Hc Ht Hwf Hl.
  { exists l. split; [done|]. split; [apply wrote_refl|]. done. }
  inversion_clear Hwf as [|? ? Hk Hwf']. cbn [put_heads]. unfold nodeHeaderSize.
  assert (Hz : zlen (it :: items) = 1 + zlen items) by (unfold zlen; cbn [length]; lia). rewrite Hz in *.
  cbn [total_data foldr] in Ht. fold (total_data items) in Ht. pose proof (zlen_nonneg (it_data it)).
  assert (Htd : 0 <= total_data items).
  { clear. induction items as [|x items IH]; [done|]. cbn. fold (total_data items). pose proof (zlen_nonneg (it_data x)). lia. }
  pose proof (zlen_nonneg (A := itemEntry) items).
  destruct (encodeKeyInto_spec l (101 + i * 25) (it_key it) ltac:(lia) ltac:(lia) Hk) as (l1 & -> & W1 & K1).
  cbn [mbind res_bind]. do 2 put_field. rewrite !w32_id in G, G0 by lia.
  change (Z.of_nat 4) with 4 in *. rewrite Z.mod_small in G, G0 by lia.
  assert (Hl1 : zlen l'0 = zlen l) by (rewrite (proj1 W0), (proj1 W), (proj1 W1); done).
  destruct (IH l'0 (i + 1) (cur + zlen (it_data it))) as (l2 & E & W2 & Hat); [lia..|done|lia|].
  exists l2. split; [done|]. split; [|intros [|j] it' Hj].
  - wrote_all.
  - injection Hj as <-. rewrite Z.add_0_r. unfold data_start. cbn [take total_data foldr]. rewrite Z.add_0_r.
    eapply head_at_wrote; [exact W2|lia|lia|]. split; [|split].
    + eapply key_at_wrote; [exact W0|lia|lia|]. eapply key_at_wrote; [exact W|lia|lia|exact K1].
    + rewrite (wrote_get _ _ _ _ _ _ W0) by lia. done.
    + done.
  - cbn in Hj. specialize (Hat j it' Hj). unfold data_start in *. cbn [take total_data foldr].
    fold (total_data (take j items)). replace (i + Z.of_nat (S j)) with (i + 1 + Z.of_nat j) by lia.
    by replace (cur + (zlen (it_data it) + total_data (take j items))) with
      (cur + zlen (it_data it) + total_data (take j items)) by lia.
Qed.

Lemma total_data_app l1 l2 : total_data (l1 ++ l2) = total_data l1 + total_data l2.
Proof. induction l1 as [|x l1 IH]; [done|]. cbn. fold (total_data (l1 ++ l2)) (total_data l1). lia. Qed.
Lemma total_data_nonneg l : 0 <= total_data l.
Proof. induction l as [|x l IH]; [done|]. cbn. fold (total_data l). pose proof (zlen_nonneg (it_data x)). lia. Qed.

Lemma put_data_spec items l pos :
  total_data items <= pos -> pos <= zlen l -> exists l',
    put_data l pos (rev items) = Ok (l', pos - total_data items) /\
    wrote l l' (pos - total_data items) (total_data items) /\
    forall (j : nat) it, items !! j = Some it ->
      sub l' (data_start (pos - total_data items) items j) (zlen (it_data it)) = it_data it.
Proof.
  revert l pos. induction items as [|it items IH] using rev_ind; intros l pos Hp Hl.
  { exists l. cbn. rewrite Z.sub_0_r. split; [done|]. split; [apply wrote_refl|done]. }
  rewrite total_data_app in *. cbn [total_data foldr] in *. rewrite Z.add_0_r in *.
  pose proof (zlen_nonneg (it_data it)). pose proof (total_data_nonneg items). rewrite rev_app_distr. cbn [rev app put_data].
  rewrite put_at_in by lia. cbn [mbind res_bind].
  pose proof (wrote_put l (pos - zlen (it_data it)) (it_data it) ltac:(lia)) as W.
  destruct (IH (put l (pos - zlen (it_data it)) (it_data it)) (pos - zlen (it_data it))) as (l' & E & W' & Hat); [lia|zlen|].
  replace (pos - (total_data items + zlen (it_data it))) with (pos - zlen (it_data it) - total_data items) by lia.
  exists l'. split; [done|]. split; [wrote_all|]. intros j it' Hj. unfold data_start in *.
  apply lookup_app_Some in Hj as [Hj|[Hj Hj']].
  - rewrite take_app_le by (apply lookup_lt_Some in Hj; lia). by apply Hat.
  - apply list_lookup_singleton_Some in Hj' as [Hj' <-]. rewrite take_app_ge by done.
    rewrite Hj'. cbn [take]. rewrite app_nil_r.
    replace (pos - zlen (it_data it) - total_data items + total_data items) with (pos - zlen (it_data it)) by lia.
    destruct W' as [_ Hs]. rewrite Hs by lia. apply sub_put_same; lia.
Qed.

Lemma wrote_sub l l' off n o m : wrote l l' off n -> 0 <= o -> o + m <= off \/ off + n <= o -> sub l' o m = sub l o m.
Proof. intros [_ Hs]. apply Hs. Qed.

(** [data_start] stays inside the data. *)
Lemma data_start_le cur items (j : nat) it :
  items !! j = Some it ->
  cur <= data_start cur items j /\ data_start cur items j + zlen (it_data it) <= cur + total_data items.
Proof.
  intros Hj. unfold data_start. rewrite <- (take_drop_middle _ _ _ Hj) at 3. rewrite total_data_app.
  cbn [total_data foldr]. fold (total_data (drop (S j) items)).
  pose proof (total_data_nonneg (take j items)). pose proof (total_data_nonneg (drop (S j) items)). lia.
Qed.

(** The fields of the header that a new node gets. *)
Definition header_is (buf : list byte) (generation logical : Z) : Prop :=
  le_get 8 buf 80 = generation mod 2 ^ 64 /\ le_get 8 buf 48 = logical mod 2 ^ 64.

Lemma put_csum_spec l :
  32 <= zlen l -> exists l', put_csum l = Ok l' /\ wrote l l' 0 4 /\ csum_ok l'.
Proof.
  intros Hl. unfold put_csum. rewrite slice_in by lia. cbn [mbind res_bind]. put_field.
  exists l'. split; [done|]. split; [done|]. unfold csum_ok.
  rewrite G, (Z.mod_small _ _ (calcCrc32c_range _)), (proj1 W). f_equal. symmetry.
  apply (wrote_sub _ _ _ _ _ _ W); lia.
Qed.

Lemma packLeaf_spec buf items generation logical :
  zlen buf < 2 ^ 32 -> needed items <= zlen buf -> Forall item_wf items -> le_get 1 buf 100 = 0 -> exists dst,
    packLeaf buf items generation logical (zlen buf) = Ok dst /\ zlen dst = zlen buf /\
    leaf_holds dst items /\ csum_ok dst /\ header_is dst generation logical.
Proof.
  unfold needed, nodeHeaderSize. intros Hbs Hfit Hwf Hlvl. set (bs := zlen buf) in *.
  pose proof (zlen_nonneg items). pose proof (total_data_nonneg items).
  unfold packLeaf, nodeHeaderSize. rewrite slice_in by lia. cbn [mbind res_bind]. rewrite Z.sub_0_r.
  rewrite copy_at_in by zlen. cbn [mbind res_bind]. set (l0 := put (zeros bs) 0 (sub buf 0 101)).
  assert (Hl0 : zlen l0 = bs) by (unfold l0; zlen).
  destruct (put_data_spec items l0 bs) as (l1 & -> & W1 & Hdata); [lia..|]. cbn [mbind res_bind].
  destruct (put_heads_spec items l1 0 (bs - total_data items)) as (l2 & -> & W2 & Hheads);
    [lia..|done|rewrite (proj1 W1); lia|]. cbn [mbind res_bind].
  assert (Hl2 : zlen l2 = bs) by (rewrite (proj1 W2), (proj1 W1); done).
  do 3 put_field. destruct (put_csum_spec l'1) as (dst & -> & W4 & Hcs);
    [rewrite (proj1 W3), (proj1 W0), (proj1 W); lia|].
  change (Z.of_nat 4) with 4 in *; change (Z.of_nat 8) with 8 in *.
  assert (Hld : zlen dst = bs) by (rewrite (proj1 W4), (proj1 W3), (proj1 W0), (proj1 W); done).
  assert (Hfront : wrote l2 dst 0 100) by wrote_all.
  exists dst. split; [done|]. split; [done|]. split; [|split; [done|]].
  2: { split; field_kept; rewrite ?G0, ?G1; done. }
  split; [|split].
  - rewrite (wrote_get _ _ _ _ _ _ Hfront), (wrote_get _ _ _ _ _ _ W2), (wrote_get _ _ _ _ _ _ W1) by lia.
    unfold l0, le_get. rewrite sub_put_inside by zlen. by rewrite sub_sub by lia.
  - field_kept. rewrite G. rewrite w32_id by lia. apply Z.mod_small. lia.
  - intros j it Hj. pose proof (lookup_lt_Some _ _ _ Hj) as Hjl.
    assert (Hj2 : Z.of_nat j < zlen items) by (unfold zlen; lia). unfold item_at, nodeHeaderSize. cbn zeta.
    split; [lia|]. exists (data_start (bs - total_data items) items j - 101).
    pose proof (data_start_le (bs - total_data items) items j it Hj) as [Hd1 Hd2].
    split; [eapply head_at_wrote; [exact Hfront|lia|lia|by apply Hheads]|]. split; [lia|]. split; [unfold nodeHeaderSize; lia|].
    unfold nodeHeaderSize. replace (101 + (data_start (bs - total_data items) items j - 101)) with
      (data_start (bs - total_data items) items j) by lia. pose proof (zlen_nonneg (it_data it)).
    rewrite (wrote_sub _ _ _ _ _ _ Hfront), (wrote_sub _ _ _ _ _ _ W2) by lia. by apply Hdata.
Qed.

(** ** Internal nodes *)
Definition ptr_wf (p : internalKeyPtr) : Prop := key_wf (ip_key p) /\ 0 <= ip_blockptr p < 2 ^ 64.

(** The pointer as it is stored: with the generation of the superblock. *)
Definition stamped (generation : Z) (p : internalKeyPtr) : internalKeyPtr :=
  mkInternalKeyPtr (ip_key p) (ip_blockptr p) generation.

Lemma ptr_at_wrote l l' off n o p :
  wrote l l' off n -> 0 <= o -> o + 33 <= off \/ off + n <= o -> ptr_at l o p -> ptr_at l' o p.
Proof.
  intros W Ho Hd (K & F1 & F2). split; [eapply key_at_wrote; [done..| |done]; lia|].
  rewrite !(wrote_get _ _ _ _ _ _ W) by lia. done.
Qed.

Lemma put_ptr_spec l off generation p :
  0 <= off -> off + 33 <= zlen l -> ptr_wf p -> 0 <= generation < 2 ^ 64 -> exists l',
    put_ptr l off generation p = Ok l' /\ wrote l l' off 33 /\ ptr_at l' off (stamped generation p).
Proof.
  intros Ho Hl [Hk Hb] Hg. unfold put_ptr.
  destruct (encodeKeyInto_spec l off (ip_key p) Ho ltac:(lia) Hk) as (l1 & -> & W1 & K1).
  cbn [mbind res_bind]. repeat put_field. eexists. split; [reflexivity|]. change (Z.of_nat 8) with 8 in *.
  split; [wrote_all|]. split; [|split].
  - eapply key_at_wrote; [exact W0|lia|lia|]. eapply key_at_wrote; [exact W|lia|lia|exact K1].
  - field_kept. rewrite G. by apply Z.mod_small.
  - rewrite G0. by apply Z.mod_small.
Qed.

Lemma put_ptrs_spec ptrs l i generation :
  0 <= i -> Forall ptr_wf ptrs -> 0 <= generation < 2 ^ 64 -> 101 + (i + zlen ptrs) * 33 <= zlen l -> exists l',
    put_ptrs l i generation ptrs = Ok l' /\ wrote l l' (101 + i * 33) (zlen ptrs * 33) /\
    forall (j : nat) p, ptrs !! j = Some p -> ptr_at l' (101 + (i + Z.of_nat j) * 33) (stamped generation p).
Proof.
  revert l i. induction ptrs as [|p ptrs IH]; intros l i Hi Hwf Hg Hl.
  { exists l. split; [done|]. split; [apply wrote_refl|]. done. }
  inversion_clear Hwf as [|? ? Hp Hwf']. cbn [put_ptrs]. unfold nodeHeaderSize.
  assert (Hz : zlen (p :: ptrs) = 1 + zlen ptrs) by (unfold zlen; cbn [length]; lia). rewrite Hz in *.
  pose proof (zlen_nonneg (A := internalKeyPtr) ptrs).
  destruct (put_ptr_spec l (101 + i * 33) generation p ltac:(lia) ltac:(lia) Hp Hg) as (l1 & -> & W1 & P1). cbn [mbind res_bind].
  destruct (IH l1 (i + 1)) as (l2 & E & W2 & Hat); [lia|done|done|rewrite (proj1 W1); lia|].
  exists l2. split; [done|]. split; [wrote_all|]. intros [|j] q Hj.
  - injection Hj as <-. rewrite Z.add_0_r. eapply ptr_at_wrote; [exact W2|lia|lia|exact P1].
  - cbn in Hj. replace (i + Z.of_nat (S j)) with (i + 1 + Z.of_nat j) by lia. by apply Hat.
Qed.

Lemma packNode_spec buf ptrs level generation logical bs :
  0 <= bs < 2 ^ 32 -> nodeHeaderSize + zlen ptrs * 33 <= bs -> Forall ptr_wf ptrs -> 0 <= level < 2 ^ 8 ->
  0 <= generation < 2 ^ 64 -> (forall b, buf = Some b -> zlen b = bs) -> exists dst,
    packNode buf ptrs level generation logical bs = Ok dst /\ zlen dst = bs /\
    node_holds dst level (stamped generation <$> ptrs) /\ csum_ok dst /\ header_is dst generation logical.
Proof.
  unfold nodeHeaderSize. intros Hbs Hfit Hwf Hlvl Hg Hbuf. pose proof (zlen_nonneg (A := internalKeyPtr) ptrs).
  assert (Hl0 : exists l0, match buf with
         | Some buf => head <- slice buf 0 nodeHeaderSize ;; copy_at (zeros bs) 0 head
         | None => Ok (zeros bs) end = Ok l0 /\ zlen l0 = bs).
  { unfold nodeHeaderSize. destruct buf as [b|]; [|eexists; split; [done|zlen]]. specialize (Hbuf b eq_refl).
    rewrite slice_in by lia. cbn [mbind res_bind]. rewrite copy_at_in by zlen. eexists. split; [done|zlen]. }
  destruct Hl0 as (l0 & E0 & Hl0). unfold packNode. rewrite E0. cbn [mbind res_bind]. do 4 put_field.
  destruct (put_ptrs_spec ptrs l'2 0 generation) as (l2 & -> & W3 & Hat);
    [lia|done|done|rewrite (proj1 W2), (proj1 W1), (proj1 W0), (proj1 W); lia|]. cbn [mbind res_bind].
  assert (Hl2 : zlen l2 = bs) by (rewrite (proj1 W3), (proj1 W2), (proj1 W1), (proj1 W0), (proj1 W); done).
  destruct (put_csum_spec l2) as (dst & -> & W4 & Hcs); [lia|].
  change (Z.of_nat 4) with 4 in *; change (Z.of_nat 8) with 8 in *; change (Z.of_nat 1) with 1 in *.
  exists dst. split; [done|]. split; [by rewrite (proj1 W4)|]. split; [|split; [done|split; field_kept; rewrite ?G1, ?G2; done]].
  split; [|split].
  - field_kept. rewrite G0. by apply Z.mod_small.
  - field_kept. rewrite G, w32_id by lia. rewrite Z.mod_small by lia. unfold zlen. by rewrite length_fmap.
  - intros j q (p & -> & Hj)%list_lookup_fmap_Some. pose proof (lookup_lt_Some _ _ _ Hj) as Hjl.
    assert (Z.of_nat j < zlen ptrs) by (unfold zlen; lia). cbn zeta. unfold nodeHeaderSize. split; [rewrite (proj1 W4); lia|].
    eapply ptr_at_wrote; [exact W4|lia|lia|]. by apply Hat.
Qed.

(** Decoding the pointers of a node. *)
Lemma decode_ptrs_at buf ptrs i :
  0 <= i ->
  (forall (j : nat) p, ptrs !! j = Some p ->
     let off := nodeHeaderSize + (i + Z.of_nat j) * 33 in off + 33 <= zlen buf /\ ptr_at buf off p) ->
  decode_ptrs (length ptrs) (mkByteReader buf (nodeHeaderSize + i * 33)) =
    (Ok ptrs, mkByteReader buf (nodeHeaderSize + (i + zlen ptrs) * 33)).
Proof.
  revert i. induction ptrs as [|p ptrs IH]; intros i Hi Hat.
  { cbn. unfold zlen. cbn. by rewrite Z.add_0_r. }
  cbn [length decode_ptrs]. destruct (Hat 0%nat p eq_refl) as [Hin Hp]. rewrite Z.add_0_r in *.
  unfold nodeHeaderSize in *. rewrite (bind_ok _ _ _ _ _ (decodeInternalPtr_at _ (101 + i * 33) _ ltac:(lia) Hin Hp)).
  replace (101 + i * 33 + 33) with (101 + (i + 1) * 33) by lia. erewrite bind_ok; [|apply IH; [lia|]].
  - unfold mret, M_ret. do 2 f_equal. unfold zlen. cbn [length]. lia.
  - intros j p' Hj. replace (i + 1 + Z.of_nat j) with (i + Z.of_nat (S j)) by lia. by apply Hat.
Qed.

Lemma node_ptrs_holds buf level ptrs :
  nodeHeaderSize <= zlen buf -> node_holds buf level ptrs -> decode node_ptrs buf = Ok ptrs.
Proof.
  intros Hl (_ & Hn & Hat). destruct (decodeNodeHeader_at buf Hl) as (h & E & Eh1 & _). unfold decode, node_ptrs.
  rewrite (bind_ok _ _ _ _ _ E), Eh1, Hn. unfold zlen. rewrite Nat2Z.id.
  change nodeHeaderSize with (nodeHeaderSize + 0 * 33). by rewrite (decode_ptrs_at buf ptrs 0).
Qed.

(** C34: Round trip of blocks: a leaf laid out from items that fit, and an
    internal node laid out from pointers that fit, read back as those items
    and as those pointers with the generation of the superblock, whatever
    the block held before (for a leaf: a leaf), with a checksum that is
    right. *)
Theorem block_roundtrip oob buf bs items ptrs level generation logical :
  zlen buf = bs -> bs < 2 ^ 32 -> le_get 1 buf 100 = 0 -> needed items <= bs -> Forall item_wf items ->
  nodeHeaderSize + zlen ptrs * 33 <= bs -> Forall ptr_wf ptrs -> 0 <= level < 2 ^ 8 -> 0 <= generation < 2 ^ 64 ->
  (exists leaf, packLeaf buf items generation logical bs = Ok leaf /\ zlen leaf = bs /\ csum_ok leaf /\
     parseLeaf oob leaf = Ok items) /\
  (exists node, packNode (Some buf) ptrs level generation logical bs = Ok node /\ zlen node = bs /\ csum_ok node /\
     decode node_ptrs node = Ok (stamped generation <$> ptrs) /\ le_get 1 node 100 = level).
Proof.
  intros <- Hbs Hlvl Hfit Hwf Hpfit Hpwf Hlev Hg.
  assert (nodeHeaderSize <= zlen buf) by (pose proof (zlen_nonneg (A := internalKeyPtr) ptrs); lia). split.
  - destruct (packLeaf_spec buf items generation logical) as (leaf & E & El & Hh & Hc & _); [done..|].
    exists leaf. split_and!; try done. apply parseLeaf_holds; [lia|done].
  - destruct (packNode_spec (Some buf) ptrs level generation logical (zlen buf)) as (node & E & El & Hh & Hc & _);
      [pose proof (zlen_nonneg buf); lia|done..|naive_solver|].
    exists node. split_and!; try done; [eapply node_ptrs_holds; [lia|done]|apply Hh].
Qed.

Lemma block_roundtrip_witness :
  let buf := zeros 256 in let it := mkItem (mkKey 256 1 0) [Byte.x01; Byte.x02] in
  let p := mkInternalKeyPtr (mkKey 256 1 0) 0x10000 0 in
  (exists leaf, packLeaf buf [it] 7 0x10000 256 = Ok leaf /\ zlen leaf = 256 /\ csum_ok leaf /\
     parseLeaf "oob" leaf = Ok [it]) /\
  (exists node, packNode (Some buf) [p] 1 7 0x10000 256 = Ok node /\ zlen node = 256 /\ csum_ok node /\
     decode node_ptrs node = Ok (stamped 7 <$> [p]) /\ le_get 1 node 100 = 1).
Proof.
  cbv zeta. apply (block_roundtrip "oob" (zeros 256) 256); [reflexivity|lia|reflexivity|by apply Z.leb_le| |by apply Z.leb_le| |lia|lia].
  - apply Forall_singleton. unfold item_wf, key_wf. cbn. lia.
  - apply Forall_singleton. unfold ptr_wf, key_wf. cbn. lia.
Defined.
