(* ===== verification/BtrfsKeys.v ===== *)
(** The btrfs driver: the order on keys, and sorted lists of items.

    [insert_item], [delete_key] and [update_key] on a list are what the
    driver does to the items of a leaf; on a sorted list they are insertion,
    removal and replacement by key. *)
From S2P Require Export BtrfsLeaf.

(** ** The order *)
Definition key_lt (a b : key) : Prop :=
  objectid a < objectid b \/ (objectid a = objectid b /\
    (typ a < typ b \/ (typ a = typ b /\ offset a < offset b))).

Lemma key_less_spec a b : key_less a b = true <-> key_lt a b.
Proof.
  unfold key_less, key_lt. destruct (Z.eqb_spec (objectid a) (objectid b)), (Z.eqb_spec (typ a) (typ b)); cbn [negb];
    rewrite Z.ltb_lt; lia.
Qed.
Lemma key_less_false a b : key_less a b = false <-> ~ key_lt a b.
Proof. rewrite <- key_less_spec. by destruct (key_less a b). Qed.

Lemma key_lt_le a b c : key_lt a b -> ~ key_lt c b -> key_lt a c.
Proof. unfold key_lt. lia. Qed.
Lemma key_lt_trans a b c : key_lt a b -> key_lt b c -> key_lt a c.
Proof. unfold key_lt. lia. Qed.
Lemma key_lt_irrefl a : ~ key_lt a a.
Proof. unfold key_lt. lia. Qed.
Lemma key_lt_asym a b : key_lt a b -> ~ key_lt b a.
Proof. unfold key_lt. lia. Qed.
Lemma key_lt_total a b : ~ key_lt a b -> ~ key_lt b a -> a = b.
Proof. destruct a, b. unfold key_lt. cbn. intros. f_equal; lia. Qed.

(** [compareKeys] of the check is the same order. *)
Lemma compareKeys_spec a b :
  (compareKeys a b < 0 <-> key_lt a b) /\ (compareKeys a b = 0 <-> a = b) /\ (0 < compareKeys a b <-> key_lt b a).
Proof.
  destruct a as [o t f], b as [o' t' f']. unfold compareKeys, key_lt. cbn [objectid typ offset].
  assert (Heq : mkKey o t f = mkKey o' t' f' <-> o = o' /\ t = t' /\ f = f').
  { split; [by intros [= -> -> ->]|by intros (-> & -> & ->)]. }
  rewrite Heq. repeat (case_match; rewrite ?Z.ltb_lt, ?Z.ltb_ge in *); lia.
Qed.

(** ** Sorted lists of items *)
Definition item_lt (x y : itemEntry) : Prop := key_lt (it_key x) (it_key y).
Definition sorted (l : list itemEntry) : Prop := StronglySorted item_lt l.

Lemma insert_item_app_l it A B :
  Forall (fun x => key_lt (it_key x) (it_key it)) A -> insert_item it (A ++ B) = A ++ insert_item it B.
Proof.
  induction 1 as [|x A Hx _ IH]; [done|]. cbn [app insert_item].
  by rewrite (proj2 (key_less_spec _ _) Hx), IH.
Qed.
Lemma insert_item_app_r it B C :
  Forall (fun x => ~ key_lt (it_key x) (it_key it)) C -> insert_item it (B ++ C) = insert_item it B ++ C.
Proof.
  intros HC. induction B as [|x B IH]; cbn [app insert_item].
  - destruct HC as [|y C Hy _]; [done|]. cbn [insert_item]. by rewrite (proj2 (key_less_false _ _) Hy).
  - destruct (key_less _ _); [by rewrite IH|done].
Qed.

Lemma insert_item_perm it l : insert_item it l ≡ₚ it :: l.
Proof.
  induction l as [|x l IH]; [done|]. cbn [insert_item]. destruct (key_less _ _); [|done].
  rewrite IH. constructor.
Qed.

(** Inserting keeps a list sorted, unless the key is there already. *)
Lemma insert_item_sorted it l : sorted l -> it_key it ∉ (it_key <$> l) -> sorted (insert_item it l).
Proof.
  induction 1 as [|x l Hl IH Hx]; intros Hk; [by repeat constructor|]. cbn [insert_item].
  destruct (key_less _ _) eqn:E.
  - apply key_less_spec in E. constructor; [apply IH; set_solver|]. rewrite insert_item_perm. by constructor.
  - apply key_less_false in E.
    assert (Hlt : key_lt (it_key it) (it_key x)).
    { destruct (key_less (it_key it) (it_key x)) eqn:E'; [by apply key_less_spec|]. apply key_less_false in E'.
      exfalso. apply Hk. rewrite (key_lt_total (it_key it) (it_key x)) by done. set_solver. }
    constructor; [by constructor|]. constructor; [done|]. eapply Forall_impl; [exact Hx|].
    intros y Hy. by apply key_lt_trans with (it_key x).
Qed.

(** What [deleteFromLeaf] and [updateInLeaf] make of the items, if the key
    is there. *)
Definition delete_key (k : key) (items : list itemEntry) : list itemEntry := filter (fun it => it_key it <> k) items.
Definition update_key (k : key) (d : list byte) (items : list itemEntry) : list itemEntry :=
  map (fun it => if bool_decide (it_key it = k) then mkItem k d else it) items.

Lemma last_index_None k items : last_index k items = None <-> k ∉ (it_key <$> items).
Proof.
  induction items as [|x items IH]; cbn [last_index fmap list_fmap]; [set_solver|].
  destruct (last_index k items) eqn:E.
  - split; [done|]. intros Hk. exfalso. assert (Some n = None); [apply IH; set_solver|done].
  - case_bool_decide; split; try done; set_solver.
Qed.

Lemma sorted_tail_keys x l : Forall (item_lt x) l -> it_key x ∉ (it_key <$> l).
Proof.
  intros Hx (y & Ey & Hy)%list_elem_of_fmap. rewrite Forall_forall in Hx. specialize (Hx y Hy).
  unfold item_lt in Hx. rewrite Ey in Hx. by apply key_lt_irrefl in Hx.
Qed.

Lemma delete_key_id k items : k ∉ (it_key <$> items) -> delete_key k items = items.
Proof.
  unfold delete_key. induction items as [|x items IH]; intros Hk; [done|]. rewrite filter_cons.
  rewrite decide_True by set_solver. f_equal. apply IH. set_solver.
Qed.
Lemma update_key_id k d items : k ∉ (it_key <$> items) -> update_key k d items = items.
Proof.
  unfold update_key. induction items as [|x items IH]; intros Hk; [done|]. cbn [map].
  rewrite bool_decide_false by set_solver. f_equal. apply IH. set_solver.
Qed.

Lemma delete_last_index k items i :
  sorted items -> last_index k items = Some i -> delete i items = delete_key k items.
Proof.
  intros Hs. revert i. induction Hs as [|x items _ IH Hx]; intros i E; [done|]. cbn [last_index] in E.
  unfold delete_key in *. rewrite filter_cons. destruct (last_index k items) as [j|] eqn:Ej.
  - simplify_eq. change (delete (S j) (x :: items)) with (x :: delete j items).
    rewrite (IH j eq_refl), decide_True; [done|]. intros <-.
    apply sorted_tail_keys in Hx. by apply last_index_None in Hx; simplify_eq.
  - case_bool_decide; simplify_eq. rewrite decide_False by naive_solver. cbn.
    symmetry. apply delete_key_id. by apply last_index_None.
Qed.

Lemma update_last_index k d items i :
  sorted items -> last_index k items = Some i -> <[i := mkItem k d]> items = update_key k d items.
Proof.
  intros Hs. revert i. induction Hs as [|x items _ IH Hx]; intros i E; [done|]. cbn [last_index] in E.
  unfold update_key in *. cbn [map]. destruct (last_index k items) as [j|] eqn:Ej.
  - simplify_eq. change (<[S j := mkItem k d]> (x :: items)) with (x :: <[j := mkItem k d]> items).
    rewrite (IH j eq_refl), bool_decide_false; [done|]. intros <-.
    apply sorted_tail_keys in Hx. by apply last_index_None in Hx; simplify_eq.
  - case_bool_decide; simplify_eq. cbn. f_equal. symmetry. apply update_key_id. by apply last_index_None.
Qed.

Lemma delete_key_sorted k l : sorted l -> sorted (delete_key k l).
Proof.
  unfold delete_key. induction 1 as [|x l Hl IH Hx]; [constructor|]. rewrite filter_cons. case_decide; [|done].
  constructor; [done|]. rewrite Forall_forall in *. intros y [_ Hy]%list_elem_of_filter. by apply Hx.
Qed.
Lemma update_key_keys k d l : it_key <$> update_key k d l = it_key <$> l.
Proof. unfold update_key. induction l as [|x l IH]; [done|]. cbn. f_equal; [by case_bool_decide; subst|done]. Qed.
Lemma sorted_keys l : sorted l <-> StronglySorted key_lt (it_key <$> l).
Proof.
  unfold sorted. induction l as [|x l IH]; [split; constructor|]. rewrite fmap_cons. split; intros Hs; inversion_clear Hs as [|? ? Hl Hx].
  - constructor; [by apply IH|]. by rewrite Forall_fmap.
  - constructor; [by apply IH|]. by rewrite Forall_fmap in Hx.
Qed.
Lemma update_key_sorted k d l : sorted l -> sorted (update_key k d l).
Proof. by rewrite !sorted_keys, update_key_keys. Qed.

Lemma delete_key_app k l1 l2 : delete_key k (l1 ++ l2) = delete_key k l1 ++ delete_key k l2.
Proof. apply filter_app. Qed.
Lemma update_key_app k d l1 l2 : update_key k d (l1 ++ l2) = update_key k d l1 ++ update_key k d l2.
Proof. apply map_app. Qed.
