(* ===== verification/BtrfsWalk.v ===== *)
(** The btrfs driver: walking a tree is visiting its items in order.

    A tree of height [n] is given by its contents, [tree n]; [holds] says
    that the blocks below an address hold it.  The walk of the driver, which
    decides by the level it finds in each node, then runs its callback on
    [flatten]. *)
From S2P Require Export BtrfsLeaf.

(** ** Trees *)
Fixpoint tree (n : nat) : Type :=
  match n with
  | O => list itemEntry
  | S n => list (internalKeyPtr * tree n)
  end.

Fixpoint flatten (n : nat) : tree n -> list itemEntry :=
  match n with
  | O => fun t => t
  | S n => fun t => concat (map (fun c => flatten n c.2) t)
  end.

(** The callback on the items of a list. *)
Definition item_of (it : itemEntry) : leafItem := mkLeafItem (it_key it) 0 (zlen (it_data it)).
Definition visit {B} (cb : leafItem -> list byte -> M B unit) (items : list itemEntry) : M B unit :=
  forM items tt (fun it _ => cb (item_of it) (it_data it)).

(** Where an item lies in its block does not matter to a callback. *)
Definition key_only {B} (cb : leafItem -> list byte -> M B unit) : Prop :=
  forall k o1 o2 s d x, cb (mkLeafItem k o1 s) d x = cb (mkLeafItem k o2 s) d x.

Lemma visit_app {B} (cb : leafItem -> list byte -> M B unit) l1 l2 s :
  visit cb (l1 ++ l2) s = (visit cb l1 ;; visit cb l2) s.
Proof. unfold visit. rewrite forM_app. apply bind_ext. by intros []. Qed.

(** A computation that is another one and then a value. *)
Lemma bind_via {S A B C} (m : M S A) (m' : M S C) (r : A) (k : A -> M S B) s :
  m s = (m' ;; mret r) s -> mbind k m s = (m' ;; k r) s.
Proof. unfold mbind, M_bind. intros ->. by destruct (m' s) as [[?|?| |] ?]. Qed.

Section trees.
Context {D : Type} `{Device D}.

(** The block at a logical address, where it lies inside the device. *)
Definition node_at (d : D) (t : treeContext) (addr : Z) : option (list byte) :=
  match resolve (chunks t) addr with
  | Ok phys =>
      if bool_decide (0 <= phys < 2 ^ 63 /\ phys + nodeSize t <= zlen (dev_content d))
      then Some (sub (dev_content d) phys (nodeSize t)) else None
  | _ => None
  end.

Fixpoint holds (d : D) (tc : treeContext) (n : nat) (addr : Z) : tree n -> Prop :=
  match n with
  | O => fun t => exists buf, node_at d tc addr = Some buf /\ leaf_holds buf t
  | S n' => fun t =>
      exists buf, node_at d tc addr = Some buf /\ node_holds buf (Z.of_nat (S n')) (map fst t) /\
        Forall (fun c => holds d tc n' (ip_blockptr c.1) c.2) t
  end.

(** Nodes of the sizes btrfs has, up to 64 KiB. *)
Definition size_ok (tc : treeContext) : Prop := nodeHeaderSize < nodeSize tc <= 65536.

Lemma dev_ReadAt_in (d : D) off n :
  dev_ok d -> 0 <= off < 2 ^ 63 -> 0 < n -> off + n <= zlen (dev_content d) ->
  dev_ReadAt d off n = Ok (sub (dev_content d) off n).
Proof.
  intros Hok Ho Hn Hl. unfold dev_ReadAt. rewrite i64_id, dev_read by (done || lia).
  f_equal. apply put_all. zlen.
Qed.

Lemma node_at_inv (d : D) tc addr buf :
  dev_ok d -> size_ok tc -> node_at d tc addr = Some buf ->
  exists phys, resolve (chunks tc) addr = Ok phys /\ 0 <= phys < 2 ^ 63 /\
    phys + nodeSize tc <= zlen (dev_content d) /\ buf = sub (dev_content d) phys (nodeSize tc) /\
    zlen buf = nodeSize tc /\ readNode d phys (nodeSize tc) = Ok buf.
Proof.
  unfold node_at, size_ok, nodeHeaderSize. intros Hok Hs E.
  destruct (resolve _ _) as [phys|?| |] eqn:Er; [|done..]. case_bool_decide as Hb; [|done]. destruct Hb as [Hb1 Hb2].
  simplify_eq. exists phys. split; [done|]. do 2 (split; [lia|]). split; [done|]. split; [zlen|].
  apply dev_ReadAt_in; done || lia.
Qed.

(** ** One leaf *)
Section callback.
Context {B : Type}.
Variable cb : leafItem -> list byte -> M B unit.
Hypothesis Hcb : key_only cb.

Let wcb : leafItem -> list byte -> M (treeContext * B) unit := fun item d => captured (cb item d).

Lemma captured_bind {S T A A'} (m : M S A) (k : A -> M S A') (x : T * S) :
  captured (mbind k m) x = mbind (fun a => captured (k a)) (captured m) x.
Proof. destruct x as [t s]. unfold captured, mbind, M_bind. by destruct (m s) as [[?|?| |] ?]. Qed.

Lemma walk_item_at buf i it s :
  zlen buf < 2 ^ 32 -> 0 <= i -> item_at buf i it ->
  walk_item wcb buf (mkByteReader buf (nodeHeaderSize + i * 25)) s =
  (captured (cb (item_of it) (it_data it)) ;; mret (mkByteReader buf (nodeHeaderSize + (i + 1) * 25))) s.
Proof.
  unfold nodeHeaderSize. intros Hl Hi (Hin & ioff & Hh & Hd1 & Hd2 & Hd3). unfold walk_item.
  unfold nodeHeaderSize in *. rewrite (decodeLeafItem_at _ (101 + i * 25) _ _ ltac:(lia) Hin Hh). rewrite lift_ok_bind.
  cbn [li_offset li_size]. pose proof (zlen_nonneg (it_data it)). cbv zeta. unfold nodeHeaderSize.
  rewrite (w32_id (101 + ioff)), (w32_id (101 + ioff + _)) by lia.
  destruct (Z.ltb_spec (zlen buf) (101 + ioff + zlen (it_data it))); [lia|].
  rewrite slice_in by lia. rewrite lift_ok_bind.
  replace (101 + ioff + zlen (it_data it) - (101 + ioff)) with (zlen (it_data it)) by lia. rewrite Hd3.
  replace (101 + i * 25 + 25) with (101 + (i + 1) * 25) by lia.
  unfold mbind, M_bind, wcb, captured. destruct s as [t x]. by rewrite (Hcb _ ioff 0).
Qed.

Lemma walk_items buf items i s :
  zlen buf < 2 ^ 32 -> 0 <= i -> (forall (j : nat) it, items !! j = Some it -> item_at buf (i + Z.of_nat j) it) ->
  (forM (seqZ i (zlen items)) (mkByteReader buf (nodeHeaderSize + i * 25)) (fun _ r => walk_item wcb buf r) ;; mret tt) s =
  captured (visit cb items) s.
Proof.
  intros Hl. revert i s. induction items as [|it items IH]; intros i [t x] Hi Hat; [done|].
  rewrite seqZ_cons by (unfold zlen; cbn [length]; lia).
  replace (Z.pred (zlen (it :: items))) with (zlen items) by (unfold zlen; cbn [length]; lia).
  change (Z.succ i) with (i + 1). unfold visit. cbn [forM]. rewrite captured_bind, !M_assoc.
  specialize (Hat 0%nat it eq_refl) as Hit. rewrite Z.add_0_r in Hit.
  rewrite (bind_via _ _ _ _ _ (walk_item_at buf i it (t, x) Hl Hi Hit)). apply bind_ext. intros [] s'.
  apply IH; [lia|]. intros j it' Hj. replace (i + 1 + Z.of_nat j) with (i + Z.of_nat (S j)) by lia. by apply Hat.
Qed.

(** ** Trees *)

(** The pointers of a node, each followed by [k]. *)
Lemma walk_ptrs (k : Z -> M (treeContext * B) unit) buf ptrs i s :
  0 <= i ->
  (forall (j : nat) p, ptrs !! j = Some p ->
     let off := nodeHeaderSize + (i + Z.of_nat j) * 33 in off + 33 <= zlen buf /\ ptr_at buf off p) ->
  (forM (seqZ i (zlen ptrs)) (mkByteReader buf (nodeHeaderSize + i * 33)) (fun _ r =>
     let '(ptr, r) := decodeInternalPtr r in ptr <- lift ptr ;; k (ip_blockptr ptr) ;; mret r) ;; mret tt) s =
  forM ptrs tt (fun p _ => k (ip_blockptr p)) s.
Proof.
  revert i s. induction ptrs as [|p ptrs IH]; intros i s Hi Hat; [done|].
  rewrite seqZ_cons by (unfold zlen; cbn [length]; lia).
  replace (Z.pred (zlen (p :: ptrs))) with (zlen ptrs) by (unfold zlen; cbn [length]; lia).
  change (Z.succ i) with (i + 1). cbn [forM]. rewrite M_assoc.
  destruct (Hat 0%nat p eq_refl) as [Hin Hp]. rewrite Z.add_0_r in *.
  unfold nodeHeaderSize in *. rewrite (decodeInternalPtr_at _ (101 + i * 33) _ ltac:(lia) Hin Hp), M_assoc, lift_ok_bind.
  rewrite M_assoc. apply bind_ext. intros [] s'. rewrite M_left_id.
  replace (101 + i * 33 + 33) with (101 + (i + 1) * 33) by lia.
  apply IH; [lia|]. intros j p' Hj. replace (i + 1 + Z.of_nat j) with (i + Z.of_nat (S j)) by lia. by apply Hat.
Qed.

Lemma walk_tree (d : D) tc n addr t depth acc :
  dev_ok d -> size_ok tc -> holds d tc n addr t -> (n < depth)%nat ->
  walkTreeWithNodeCB wcb depth d addr (tc, acc) = captured (visit cb (flatten n t)) (tc, acc).
Proof.
  intros Hok Hs. revert addr t depth acc. induction n as [|n IH]; intros addr t [|depth] acc Ht Hd; try lia.
  - destruct Ht as (buf & Hb & Hl0 & Hln & Hat). cbn [walkTreeWithNodeCB flatten].
    destruct (node_at_inv _ _ _ _ Hok Hs Hb) as (phys & Er & _ & _ & _ & El & Erd). unfold size_ok in Hs.
    rewrite get_bind. cbn [fst]. rewrite Er, lift_ok_bind, Erd. cbn [wrap_res]. rewrite lift_ok_bind.
    destruct (decodeNodeHeader_at buf ltac:(lia)) as (h & -> & Eh1 & Eh2). rewrite lift_ok_bind, Eh2, Hl0, Eh1, Hln.
    change nodeHeaderSize with (nodeHeaderSize + 0 * 25) at 1. cbn [Z.eqb].
    apply walk_items; [lia|lia|exact Hat].
  - destruct Ht as (buf & Hb & (Hl0 & Hln & Hat) & Hkids). cbn [walkTreeWithNodeCB flatten].
    destruct (node_at_inv _ _ _ _ Hok Hs Hb) as (phys & Er & _ & _ & _ & El & Erd). unfold size_ok in Hs.
    rewrite get_bind. cbn [fst]. rewrite Er, lift_ok_bind, Erd. cbn [wrap_res]. rewrite lift_ok_bind.
    destruct (decodeNodeHeader_at buf ltac:(lia)) as (h & -> & Eh1 & Eh2). rewrite lift_ok_bind, Eh2, Hl0, Eh1, Hln.
    change nodeHeaderSize with (nodeHeaderSize + 0 * 33) at 1. rewrite (proj2 (Z.eqb_neq _ 0)) by lia.
    rewrite walk_ptrs by (lia || exact Hat). clear -IH Hkids Hd. revert acc.
    induction Hkids as [|[p c] t Hc _ IHt]; intros acc; [done|]. cbn [map concat forM fst snd].
    change (flatten (S n) ((p, c) :: t)) with (flatten n c ++ flatten (S n) t).
    unfold captured in *. cbn in Hc.
    rewrite visit_app. unfold mbind at 1, M_bind at 1. rewrite (IH _ _ depth acc Hc ltac:(lia)).
    unfold mbind, M_bind. destruct (visit cb (flatten n c) acc) as [[[]|?| |] acc']; [|done..].
    exact (IHt acc').
Qed.
End callback.
End trees.
