(* ===== verification/BtrfsForest.v ===== *)
(** The btrfs driver: changing one leaf of a tree.

    [t_modify] applies a function to the leaf that a key leads to.  The
    search of the driver finds the address of that leaf; writing the new leaf
    over it gives a tree that holds [t_modify]; and in a search tree this is
    insertion, removal or replacement in the flattened list. *)
From S2P Require Export BtrfsKeys BtrfsWalk.

(** ** The child a key leads to *)
Fixpoint best_scan (i : Z) (k : key) (acc : Z * Z) (ptrs : list internalKeyPtr) : Z * Z :=
  match ptrs with
  | [] => acc
  | p :: ptrs => best_scan (i + 1) k (if (i =? 0) || negb (key_less k (ip_key p)) then (ip_blockptr p, i) else acc) ptrs
  end.
Definition best (k : key) (ptrs : list internalKeyPtr) : nat := Z.to_nat (best_scan 0 k (0, 0) ptrs).2.

Lemma best_scan_snoc i k acc ptrs p :
  best_scan i k acc (ptrs ++ [p]) =
  if (i + zlen ptrs =? 0) || negb (key_less k (ip_key p)) then (ip_blockptr p, i + zlen ptrs)
  else best_scan i k acc ptrs.
Proof.
  revert i acc. induction ptrs as [|q ptrs IH]; intros i acc; cbn [app best_scan].
  - unfold zlen. cbn [length]. by rewrite Z.add_0_r.
  - rewrite IH. replace (i + 1 + zlen ptrs) with (i + zlen (q :: ptrs)) by (unfold zlen; cbn [length]; lia). done.
Qed.

Lemma best_scan_split k ptrs :
  ptrs <> [] -> exists l1 p l2, ptrs = l1 ++ p :: l2 /\ best_scan 0 k (0, 0) ptrs = (ip_blockptr p, zlen l1) /\
    (l1 = [] \/ ~ key_lt k (ip_key p)) /\ Forall (fun q => key_lt k (ip_key q)) l2.
Proof.
  induction ptrs as [|p ptrs IH] using rev_ind; [done|]. intros _. rewrite best_scan_snoc, Z.add_0_l.
  destruct (key_less k (ip_key p)) eqn:E; cbn [negb].
  - apply key_less_spec in E. rewrite orb_false_r. destruct (decide (ptrs = [])) as [->|Hne].
    + exists [], p, []. by repeat split; [left|].
    + rewrite (proj2 (Z.eqb_neq _ 0)) by (destruct ptrs; unfold zlen; cbn [length]; done || lia).
      destruct (IH Hne) as (l1 & q & l2 & -> & -> & Hq & Hl2). exists l1, q, (l2 ++ [p]).
      rewrite <- app_assoc. split; [done|]. split; [done|]. split; [done|]. apply Forall_app. split; [done|]. by constructor.
  - rewrite orb_true_r. apply key_less_false in E. exists ptrs, p, []. split; [done|]. split; [done|]. split; [by right|done].
Qed.

(** ** Operations on trees *)
Fixpoint t_modify (n : nat) (k : key) (f : list itemEntry -> list itemEntry) : tree n -> tree n :=
  match n with
  | O => f
  | S n => fun t => alter (fun c => (c.1, t_modify n k f c.2)) (best k (map fst t)) t
  end.

(** The leaf a key leads to, and its address; [addr] is that of the tree. *)
Fixpoint t_leaf (n : nat) (k : key) : tree n -> list itemEntry :=
  match n with
  | O => fun t => t
  | S n => fun t => match t !! best k (map fst t) with Some c => t_leaf n k c.2 | None => [] end
  end.
Fixpoint t_addr (n : nat) (k : key) (addr : Z) : tree n -> Z :=
  match n with
  | O => fun _ => addr
  | S n => fun t => match t !! best k (map fst t) with Some c => t_addr n k (ip_blockptr c.1) c.2 | None => addr end
  end.

(** The addresses of the nodes. *)
Fixpoint nodes (n : nat) (addr : Z) : tree n -> list Z :=
  match n with
  | O => fun _ => [addr]
  | S n => fun t => addr :: concat (map (fun c => nodes n (ip_blockptr c.1) c.2) t)
  end.

(** A node has children, at addresses other than 0. *)
Fixpoint proper (n : nat) : tree n -> Prop :=
  match n with
  | O => fun _ => True
  | S n => fun t => t <> [] /\ Forall (fun c => ip_blockptr c.1 <> 0 /\ proper n c.2) t
  end.

(** The order of a search tree, for two children [c] before [c']: the key
    of [c'] is above what is in [c] and not above what is in itself.  (The
    first child takes what is below its own key as well.) *)
Definition child_lt {n} (c c' : internalKeyPtr * tree n) : Prop :=
  Forall (fun it => key_lt (it_key it) (ip_key c'.1)) (flatten n c.2) /\
  Forall (fun it => ~ key_lt (it_key it) (ip_key c'.1)) (flatten n c'.2).

Fixpoint ordered (n : nat) : tree n -> Prop :=
  match n with
  | O => sorted
  | S n => fun t => Forall (fun c => ordered n c.2) t /\ StronglySorted child_lt t
  end.

Lemma best_child {n} k (t : list (internalKeyPtr * tree n)) :
  t <> [] -> exists l1 c l2, t = l1 ++ c :: l2 /\ best k (map fst t) = length l1 /\
    best_scan 0 k (0, 0) (map fst t) = (ip_blockptr c.1, zlen l1) /\
    (l1 = [] \/ ~ key_lt k (ip_key c.1)) /\ Forall (fun c' => key_lt k (ip_key c'.1)) l2.
Proof.
  intros Hne. destruct (best_scan_split k (map fst t)) as (m1 & p & m2 & E & Eb & Hp & Hm2).
  { by destruct t. }
  apply map_eq_app in E as (l1 & l2' & -> & <- & E). apply map_eq_cons in E as (c & l2 & -> & <- & <-).
  exists l1, c, l2. split; [done|]. split; [|split; [|split]].
  - unfold best. rewrite Eb. cbn. unfold zlen. rewrite length_map. lia.
  - rewrite Eb. unfold zlen. by rewrite length_map.
  - destruct Hp as [Hp|Hp]; [left|by right]. by destruct l1.
  - by rewrite Forall_map in Hm2.
Qed.

Lemma t_modify_child {n} k f (l1 l2 : list (internalKeyPtr * tree n)) c :
  best k (map fst (l1 ++ c :: l2)) = length l1 ->
  t_modify (S n) k f (l1 ++ c :: l2) = l1 ++ (c.1, t_modify n k f c.2) :: l2.
Proof.
  intros Hb. change (t_modify (S n) k f (l1 ++ c :: l2)) with
    (alter (fun c => (c.1, t_modify n k f c.2)) (best k (map fst (l1 ++ c :: l2))) (l1 ++ c :: l2)).
  rewrite Hb. rewrite <- (Nat.add_0_r (length l1)) at 1. by rewrite alter_app_r.
Qed.
Lemma t_leaf_child {n} k (l1 l2 : list (internalKeyPtr * tree n)) c :
  best k (map fst (l1 ++ c :: l2)) = length l1 -> t_leaf (S n) k (l1 ++ c :: l2) = t_leaf n k c.2.
Proof.
  intros Hb. change (t_leaf (S n) k (l1 ++ c :: l2)) with
    (match (l1 ++ c :: l2) !! best k (map fst (l1 ++ c :: l2)) with Some c => t_leaf n k c.2 | None => [] end).
  by rewrite Hb, list_lookup_middle.
Qed.
Lemma t_addr_child {n} k addr (l1 l2 : list (internalKeyPtr * tree n)) c :
  best k (map fst (l1 ++ c :: l2)) = length l1 -> t_addr (S n) k addr (l1 ++ c :: l2) = t_addr n k (ip_blockptr c.1) c.2.
Proof.
  intros Hb. change (t_addr (S n) k addr (l1 ++ c :: l2)) with
    (match (l1 ++ c :: l2) !! best k (map fst (l1 ++ c :: l2)) with
     | Some c => t_addr n k (ip_blockptr c.1) c.2 | None => addr end).
  by rewrite Hb, list_lookup_middle.
Qed.

Lemma flatten_app {n} (l1 l2 : list (internalKeyPtr * tree n)) :
  flatten (S n) (l1 ++ l2) = flatten (S n) l1 ++ flatten (S n) l2.
Proof. cbn [flatten]. by rewrite map_app, concat_app. Qed.
Lemma flatten_cons {n} c (l : list (internalKeyPtr * tree n)) :
  flatten (S n) (c :: l) = flatten n c.2 ++ flatten (S n) l.
Proof. done. Qed.

(** Induction on the path that a key takes through a tree. *)
Lemma tree_path_ind (k : key) (P : forall n, tree n -> Prop) :
  (forall t, P 0%nat t) ->
  (forall n l1 c l2, best k (map fst (l1 ++ c :: l2)) = length l1 ->
     best_scan 0 k (0, 0) (map fst (l1 ++ c :: l2)) = (ip_blockptr c.1, zlen l1) ->
     (l1 = [] \/ ~ key_lt k (ip_key c.1)) -> Forall (fun c' : internalKeyPtr * tree n => key_lt k (ip_key c'.1)) l2 ->
     proper (S n) (l1 ++ c :: l2) -> proper n c.2 -> P n c.2 -> P (S n) (l1 ++ c :: l2)) ->
  forall n t, proper n t -> P n t.
Proof.
  intros H0 HS n. induction n as [|n IH]; intros t Ht; [apply H0|].
  pose proof Ht as [Hne Hk]. destruct (best_child k t Hne) as (l1 & c & l2 & -> & Hb & Hs & Hc & Hl2).
  assert (Hp : proper n c.2) by (rewrite Forall_forall in Hk; apply (Hk c); set_solver).
  by apply HS, IH.
Qed.

(** ** The flattened list *)

(** The leaf a key leads to lies between what is below the key and what is
    above it. *)
Lemma flatten_path (k : key) n (t : tree n) :
  proper n t -> ordered n t -> exists A C,
    flatten n t = A ++ t_leaf n k t ++ C /\ (forall f, flatten n (t_modify n k f t) = A ++ f (t_leaf n k t) ++ C) /\
    Forall (fun x => key_lt (it_key x) k) A /\ Forall (fun x => key_lt k (it_key x)) C.
Proof.
  revert n t. refine (tree_path_ind k _ _ _).
  { intros t _. exists [], []. cbn. rewrite app_nil_r. split; [done|]. split; [intros; by rewrite app_nil_r|]. by split. }
  intros n l1 c l2 Hb _ Hc Hl2 _ _ IH [Hall Hss].
  destruct IH as (A & C & E & Ef & HA & HC); [rewrite Forall_forall in Hall; apply (Hall c); set_solver|].
  apply StronglySorted_app in Hss as (H12 & _ & Hss). apply StronglySorted_cons in Hss as [Hs2 _].
  exists (flatten (S n) l1 ++ A), (C ++ flatten (S n) l2).
  rewrite (t_leaf_child k l1 l2 c Hb), (flatten_app l1 (c :: l2)), flatten_cons, E. split; [by rewrite <- !app_assoc|].
  split; [intros f; rewrite (t_modify_child k f l1 l2 c Hb), (flatten_app l1), flatten_cons; cbn [snd]; by rewrite Ef, <- !app_assoc|].
  split; apply Forall_app; split; [|exact HA|exact HC|].
  - apply Forall_concat, Forall_map, Forall_forall. intros x Hx. destruct Hc as [->|Hc]; [by apply not_elem_of_nil in Hx|].
    destruct (H12 x c Hx) as [Hlt _]; [set_solver|]. eapply Forall_impl; [exact Hlt|].
    intros it Hit. by apply key_lt_le with (ip_key c.1).
  - apply Forall_concat, Forall_map, Forall_forall. intros x Hx.
    rewrite Forall_forall in Hs2, Hl2. destruct (Hs2 x Hx) as [_ Hge]. specialize (Hl2 x Hx).
    eapply Forall_impl; [exact Hge|]. intros it Hit. by apply key_lt_le with (ip_key x.1).
Qed.

(** In a search tree, inserting, deleting and replacing in the leaf is doing
    it in the flattened list. *)
Lemma flatten_insert it n (t : tree n) :
  proper n t -> ordered n t ->
  flatten n (t_modify n (it_key it) (insert_item it) t) = insert_item it (flatten n t).
Proof.
  intros Hp Ho. destruct (flatten_path (it_key it) n t Hp Ho) as (A & C & -> & -> & HA & HC).
  rewrite insert_item_app_l by done. rewrite insert_item_app_r; [done|].
  eapply Forall_impl; [exact HC|]. intros x. apply key_lt_asym.
Qed.

Lemma not_key_lt (k : key) (l : list itemEntry) (R : key -> key -> Prop) :
  (forall a b, R a b -> a <> b) -> Forall (fun x => R (it_key x) k) l -> k ∉ (it_key <$> l).
Proof.
  intros HR Hl (y & Ey & Hy)%list_elem_of_fmap. rewrite Forall_forall in Hl. by apply (HR _ _ (Hl y Hy)).
Qed.

Lemma key_lt_neq a b : key_lt a b -> a <> b.
Proof. intros Hab ->. by apply key_lt_irrefl in Hab. Qed.
Lemma key_gt_neq a b : key_lt b a -> a <> b.
Proof. intros Hab ->. by apply key_lt_irrefl in Hab. Qed.

(** A function on lists of items that leaves alone what has other keys. *)
Lemma flatten_keyed (k : key) (f : list itemEntry -> list itemEntry) n (t : tree n) :
  (forall l1 l2, f (l1 ++ l2) = f l1 ++ f l2) -> (forall l, k ∉ (it_key <$> l) -> f l = l) ->
  proper n t -> ordered n t -> flatten n (t_modify n k f t) = f (flatten n t).
Proof.
  intros Happ Hid Hp Ho. destruct (flatten_path k n t Hp Ho) as (A & C & -> & -> & HA & HC).
  rewrite !Happ. rewrite (Hid A), (Hid C); [done| |].
  - exact (not_key_lt k C (fun a b => key_lt b a) key_gt_neq HC).
  - exact (not_key_lt k A key_lt key_lt_neq HA).
Qed.

Lemma flatten_delete k n (t : tree n) :
  proper n t -> ordered n t -> flatten n (t_modify n k (delete_key k) t) = delete_key k (flatten n t).
Proof. apply flatten_keyed; [intros; apply delete_key_app|apply delete_key_id]. Qed.
Lemma flatten_update k d n (t : tree n) :
  proper n t -> ordered n t -> flatten n (t_modify n k (update_key k d) t) = update_key k d (flatten n t).
Proof. apply flatten_keyed; [intros; apply update_key_app|apply update_key_id]. Qed.

(** ** Invariants *)
Lemma leaf_sorted k n (t : tree n) : proper n t -> ordered n t -> sorted (t_leaf n k t).
Proof.
  revert n t. refine (tree_path_ind k _ _ _); [done|].
  intros n l1 c l2 Hb _ _ _ _ _ IH [Hall _]. rewrite (t_leaf_child k l1 l2 c Hb). apply IH.
  rewrite Forall_forall in Hall. apply (Hall c). set_solver.
Qed.

Lemma flatten_sorted n (t : tree n) : ordered n t -> sorted (flatten n t).
Proof.
  induction n as [|n IH]; [done|]. intros [Hall Hss]. induction Hss as [|c t Hss IHt Hc]; [constructor|].
  inversion_clear Hall as [|? ? Hc' Ht]. rewrite flatten_cons. apply StronglySorted_app. split; [|split; [by apply IH|by apply IHt]].
  intros x y Hx Hy. apply list_elem_of_In, in_concat in Hy as (l & Hl & Hy).
  apply in_map_iff in Hl as (c' & <- & Hc2). apply list_elem_of_In in Hc2, Hy.
  rewrite Forall_forall in Hc. destruct (Hc c' Hc2) as [H1 H2]. rewrite Forall_forall in H1, H2.
  exact (key_lt_le _ _ _ (H1 x Hx) (H2 y Hy)).
Qed.

Lemma proper_modify k f n (t : tree n) : proper n t -> proper n (t_modify n k f t).
Proof.
  revert n t. refine (tree_path_ind k _ _ _); [done|].
  intros n l1 c l2 Hb _ _ _ [_ Hall] _ IH. rewrite (t_modify_child k f l1 l2 c Hb). split; [by destruct l1|].
  apply Forall_app in Hall as [H1 H2]. inversion_clear H2 as [|? ? [Hc _] H3]. apply Forall_app. by repeat constructor.
Qed.

Lemma nodes_modify k f n addr (t : tree n) : proper n t -> nodes n addr (t_modify n k f t) = nodes n addr t.
Proof.
  intros Hp. revert n t Hp addr. refine (tree_path_ind k _ _ _); [done|].
  intros n l1 c l2 Hb _ _ _ _ _ IH addr. rewrite (t_modify_child k f l1 l2 c Hb). cbn [nodes].
  rewrite !map_app. cbn [map fst snd]. by rewrite IH.
Qed.

Lemma addr_in_nodes k n addr (t : tree n) : proper n t -> t_addr n k addr t ∈ nodes n addr t.
Proof.
  intros Hp. revert n t Hp addr. refine (tree_path_ind k _ _ _); [set_solver|].
  intros n l1 c l2 Hb _ _ _ _ _ IH addr. rewrite (t_addr_child k addr l1 l2 c Hb). cbn [nodes]. right.
  apply list_elem_of_In, in_concat. exists (nodes n (ip_blockptr c.1) c.2).
  split; [|by apply list_elem_of_In, IH]. apply in_map_iff. exists c. split; [done|]. apply in_elt.
Qed.

(** The child that [k] leads to is replaced by a search tree of its keys and
    [k] itself. *)
Lemma replace_child {n} k (l1 l2 : list (internalKeyPtr * tree n)) c t' :
  ordered (S n) (l1 ++ c :: l2) -> (l1 = [] \/ ~ key_lt k (ip_key c.1)) ->
  Forall (fun c' : internalKeyPtr * tree n => key_lt k (ip_key c'.1)) l2 -> ordered n t' ->
  (forall x, x ∈ flatten n t' -> it_key x = k \/ it_key x ∈ (it_key <$> flatten n c.2)) ->
  ordered (S n) (l1 ++ (c.1, t') :: l2) /\
  (forall x, x ∈ flatten (S n) (l1 ++ (c.1, t') :: l2) -> it_key x = k \/ it_key x ∈ (it_key <$> flatten (S n) (l1 ++ c :: l2))).
Proof.
  intros [Hall Hss] Hc Hl2 Ho Hkeys. apply Forall_app in Hall as [Ha1 Ha2]. inversion_clear Ha2 as [|? ? Hac Ha3].
  rewrite !(flatten_app l1), !flatten_cons. cbn [snd].
  split; [|intros x; rewrite !fmap_app; intros [?|[?%Hkeys|?]%elem_of_app]%elem_of_app; set_solver].
  split; [apply Forall_app; by repeat constructor|].
  apply StronglySorted_app in Hss as (H12 & Hs1 & Hss). apply StronglySorted_cons in Hss as [Hc2 Hs2].
  apply StronglySorted_app. split; [|split; [done|]].
  - intros x y Hx [->|Hy]%elem_of_cons; [|apply H12; set_solver].
    destruct (H12 x c Hx) as [Hlt Hge]; [set_solver|]. split; [done|]. cbn [fst snd].
    apply Forall_forall. intros it [->|Hit]%Hkeys.
    + destruct Hc as [->|Hc]; [by apply not_elem_of_nil in Hx|done].
    + apply list_elem_of_fmap in Hit as (z & -> & Hz). rewrite Forall_forall in Hge. by apply Hge.
  - apply StronglySorted_cons. split; [|done]. rewrite Forall_forall in Hc2, Hl2 |- *. intros y Hy.
    destruct (Hc2 y Hy) as [Hlt Hge]. split; [|done]. cbn [fst snd].
    apply Forall_forall. intros it [->|Hit]%Hkeys; [by apply Hl2|].
    apply list_elem_of_fmap in Hit as (z & -> & Hz). rewrite Forall_forall in Hlt. by apply Hlt.
Qed.

(** The new leaf may hold the key itself besides keys it had. *)
Lemma ordered_modify k f n (t : tree n) :
  proper n t -> ordered n t -> sorted (f (t_leaf n k t)) ->
  (forall x, x ∈ f (t_leaf n k t) -> it_key x = k \/ it_key x ∈ (it_key <$> t_leaf n k t)) ->
  ordered n (t_modify n k f t) /\
  (forall x, x ∈ flatten n (t_modify n k f t) -> it_key x = k \/ it_key x ∈ (it_key <$> flatten n t)).
Proof.
  revert n t. refine (tree_path_ind k _ _ _); [done|].
  intros n l1 c l2 Hb _ Hc Hl2 _ _ IH Ho. rewrite (t_leaf_child k l1 l2 c Hb). intros Hs Hk.
  rewrite (t_modify_child k f l1 l2 c Hb). assert (Hac : ordered n c.2).
  { destruct Ho as [Hall _]. rewrite Forall_forall in Hall. apply (Hall c). set_solver. }
  destruct (IH Hac Hs Hk). by apply replace_child.
Qed.
