(* ===== verification/BtrfsSplit.v ===== *)
(** The btrfs driver: what a split makes of a search tree.

    A leaf with no room for a new item is cut in two: its block keeps the
    first half, a new block takes the second, and the node above gets a
    pointer to the new block.  [split_leaf] is that change on trees; it has
    the items of the tree with the new item in its leaf, and it keeps the
    search tree. *)
From S2P Require Export BtrfsForest BtrfsFs.

(** ** The node above a leaf *)
Fixpoint t_alter (n : nat) (k : key) (F : tree 1 -> tree 1) : tree (S n) -> tree (S n) :=
  match n with
  | O => F
  | S n => fun t => alter (fun c => (c.1, t_alter n k F c.2)) (best k (map fst t)) t
  end.

(** The node itself, and its address. *)
Fixpoint t_node (n : nat) (k : key) : tree (S n) -> tree 1 :=
  match n with
  | O => fun t => t
  | S n => fun t => match t !! best k (map fst t) with Some c => t_node n k c.2 | None => [] end
  end.
Fixpoint t_node_addr (n : nat) (k : key) (addr : Z) : tree (S n) -> Z :=
  match n with
  | O => fun _ => addr
  | S n => fun t =>
      match t !! best k (map fst t) with Some c => t_node_addr n k (ip_blockptr c.1) c.2 | None => addr end
  end.

Section child.
Context {n : nat} (k : key) (l1 l2 : list (internalKeyPtr * tree (S n))) (c : internalKeyPtr * tree (S n)).
Hypothesis Hb : best k (map fst (l1 ++ c :: l2)) = length l1.

Lemma t_alter_child F : t_alter (S n) k F (l1 ++ c :: l2) = l1 ++ (c.1, t_alter n k F c.2) :: l2.
Proof.
  change (t_alter (S n) k F (l1 ++ c :: l2)) with
    (alter (fun c => (c.1, t_alter n k F c.2)) (best k (map fst (l1 ++ c :: l2))) (l1 ++ c :: l2)).
  rewrite Hb. rewrite <- (Nat.add_0_r (length l1)) at 1. by rewrite alter_app_r.
Qed.
Lemma t_node_child : t_node (S n) k (l1 ++ c :: l2) = t_node n k c.2.
Proof.
  change (t_node (S n) k (l1 ++ c :: l2)) with
    (match (l1 ++ c :: l2) !! best k (map fst (l1 ++ c :: l2)) with Some c => t_node n k c.2 | None => [] end).
  by rewrite Hb, list_lookup_middle.
Qed.
Lemma t_node_addr_child addr : t_node_addr (S n) k addr (l1 ++ c :: l2) = t_node_addr n k (ip_blockptr c.1) c.2.
Proof.
  change (t_node_addr (S n) k addr (l1 ++ c :: l2)) with
    (match (l1 ++ c :: l2) !! best k (map fst (l1 ++ c :: l2)) with
     | Some c => t_node_addr n k (ip_blockptr c.1) c.2 | None => addr end).
  by rewrite Hb, list_lookup_middle.
Qed.
End child.

(** Induction on the path of a key down to that node. *)
Lemma node_path_ind (k : key) (P : forall n, tree (S n) -> Prop) :
  (forall t, proper 1 t -> P 0%nat t) ->
  (forall n l1 c l2, best k (map fst (l1 ++ c :: l2)) = length l1 ->
     best_scan 0 k (0, 0) (map fst (l1 ++ c :: l2)) = (ip_blockptr c.1, zlen l1) ->
     (l1 = [] \/ ~ key_lt k (ip_key c.1)) -> Forall (fun c' : internalKeyPtr * tree (S n) => key_lt k (ip_key c'.1)) l2 ->
     proper (S (S n)) (l1 ++ c :: l2) -> proper (S n) c.2 -> P n c.2 -> P (S n) (l1 ++ c :: l2)) ->
  forall n t, proper (S n) t -> P n t.
Proof.
  intros H0 HS n. induction n as [|n IH]; intros t Ht; [by apply H0|].
  pose proof Ht as [Hne Hk]. destruct (best_child (n := S n) k t Hne) as (l1 & c & l2 & -> & Hb & Hs & Hc & Hl2).
  assert (Hp : proper (S n) c.2) by (rewrite Forall_forall in Hk; apply (Hk c); set_solver).
  by apply HS, IH.
Qed.

Lemma node_proper k n (t : tree (S n)) : proper (S n) t -> proper 1 (t_node n k t).
Proof.
  revert n t. refine (node_path_ind k _ _ _); [done|]. intros n l1 c l2 Hb _ _ _ _ _ IH. by rewrite (t_node_child k l1 l2 c Hb).
Qed.

Lemma node_ordered k n (t : tree (S n)) : proper (S n) t -> ordered (S n) t -> ordered 1 (t_node n k t).
Proof.
  revert n t. refine (node_path_ind k _ _ _); [done|]. intros n l1 c l2 Hb _ _ _ _ _ IH [Hall _].
  rewrite (t_node_child k l1 l2 c Hb). apply IH. rewrite Forall_forall in Hall. apply (Hall c). set_solver.
Qed.

(** The leaf of a key is the one it has in that node. *)
Lemma leaf_in_node k n (t : tree (S n)) addr :
  proper (S n) t -> t_leaf (S n) k t = t_leaf 1 k (t_node n k t) /\
    t_addr (S n) k addr t = t_addr 1 k (t_node_addr n k addr t) (t_node n k t).
Proof.
  intros Hp. revert n t Hp addr. refine (node_path_ind k _ _ _); [done|]. intros n l1 c l2 Hb _ _ _ _ _ IH addr.
  rewrite (t_node_child k l1 l2 c Hb), (t_node_addr_child k l1 l2 c Hb), (t_leaf_child k l1 l2 c Hb), (t_addr_child k addr l1 l2 c Hb).
  apply IH.
Qed.

(** ** Pointers *)

(** The keys of the pointers of a node ascend, and a pointer is not above
    the items below it. *)
Fixpoint indexed (n : nat) : tree n -> Prop :=
  match n with
  | O => fun _ => True
  | S n => fun t =>
      StronglySorted (fun c c' : internalKeyPtr * tree n => key_lt (ip_key c.1) (ip_key c'.1)) t /\
      Forall (fun c => Forall (fun it => ~ key_lt (it_key it) (ip_key c.1)) (flatten n c.2) /\ indexed n c.2) t
  end.

(** No pointer on the path of a key is above the key. *)
Fixpoint covers (n : nat) (k : key) : tree n -> Prop :=
  match n with
  | O => fun _ => True
  | S n => fun t =>
      match t !! best k (map fst t) with Some c => ~ key_lt k (ip_key c.1) /\ covers n k c.2 | None => False end
  end.

Lemma covers_child {n} k (l1 l2 : list (internalKeyPtr * tree n)) c :
  best k (map fst (l1 ++ c :: l2)) = length l1 ->
  covers (S n) k (l1 ++ c :: l2) <-> ~ key_lt k (ip_key c.1) /\ covers n k c.2.
Proof.
  intros Hb. change (covers (S n) k (l1 ++ c :: l2)) with
    (match (l1 ++ c :: l2) !! best k (map fst (l1 ++ c :: l2)) with
     | Some c => ~ key_lt k (ip_key c.1) /\ covers n k c.2 | None => False end).
  by rewrite Hb, list_lookup_middle.
Qed.

Lemma node_indexed k n (t : tree (S n)) :
  proper (S n) t -> indexed (S n) t -> covers (S n) k t -> indexed 1 (t_node n k t) /\ covers 1 k (t_node n k t).
Proof.
  revert n t. refine (node_path_ind k _ _ _); [done|]. intros n l1 c l2 Hb _ _ _ _ _ IH [_ Hi].
  rewrite (covers_child k l1 l2 c Hb), (t_node_child k l1 l2 c Hb). intros [_ Hc]. apply IH; [|done].
  rewrite Forall_forall in Hi. apply (Hi c). set_solver.
Qed.

(** ** A change of that node

    [node_change]: what the new node must satisfy for the whole tree to be a
    search tree with the items that the leaf [f] gives. *)
Record node_change (k : key) (x : Z) (f : list itemEntry -> list itemEntry) (t t' : tree 1) : Prop := {
  nc_flatten : flatten 1 t' = flatten 1 (t_modify 1 k f t);
  nc_ordered : ordered 1 t';
  nc_keys : forall y, y ∈ flatten 1 t' -> it_key y = k \/ it_key y ∈ (it_key <$> flatten 1 t);
  nc_proper : proper 1 t';
  nc_indexed : indexed 1 t';
  nc_nodes : forall addr, nodes 1 addr t' ≡ₚ x :: nodes 1 addr t
}.

Section alter.
Variables (k : key) (x : Z) (f : list itemEntry -> list itemEntry) (F : tree 1 -> tree 1).

Lemma flatten_alter n (t : tree (S n)) :
  proper (S n) t -> node_change k x f (t_node n k t) (F (t_node n k t)) ->
  flatten (S n) (t_alter n k F t) = flatten (S n) (t_modify (S n) k f t).
Proof.
  revert n t. refine (node_path_ind k _ _ _); [by intros t _ []|]. intros n l1 c l2 Hb _ _ _ _ _ IH.
  rewrite (t_node_child k l1 l2 c Hb), (t_alter_child k l1 l2 c Hb), (t_modify_child k f l1 l2 c Hb). intros Hc.
  rewrite !(flatten_app (n := S n) l1), !flatten_cons. cbn [snd]. by rewrite (IH Hc).
Qed.

Lemma proper_alter n (t : tree (S n)) :
  proper (S n) t -> node_change k x f (t_node n k t) (F (t_node n k t)) -> proper (S n) (t_alter n k F t).
Proof.
  revert n t. refine (node_path_ind k _ _ _); [by intros t _ []|]. intros n l1 c l2 Hb _ _ _ [_ Hall] _ IH.
  rewrite (t_node_child k l1 l2 c Hb), (t_alter_child k l1 l2 c Hb). intros Hc. split; [by destruct l1|].
  apply Forall_app in Hall as [H1 H2]. inversion_clear H2 as [|? ? [Hnz _] H3]. apply Forall_app.
  split; [done|]. constructor; [split; [done|by apply IH]|done].
Qed.

Lemma nodes_alter n (t : tree (S n)) addr :
  proper (S n) t -> node_change k x f (t_node n k t) (F (t_node n k t)) ->
  nodes (S n) addr (t_alter n k F t) ≡ₚ x :: nodes (S n) addr t.
Proof.
  intros Hp. revert n t Hp addr. refine (node_path_ind k _ _ _); [by intros t _ addr []|].
  intros n l1 c l2 Hb _ _ _ _ _ IH addr.
  rewrite (t_node_child k l1 l2 c Hb), (t_alter_child k l1 l2 c Hb). intros Hc.
  change (addr :: concat (map (fun c => nodes (S n) (ip_blockptr c.1) c.2) (l1 ++ (c.1, t_alter n k F c.2) :: l2))
    ≡ₚ x :: addr :: concat (map (fun c => nodes (S n) (ip_blockptr c.1) c.2) (l1 ++ c :: l2))).
  rewrite !map_app, !concat_app. cbn [map concat fst snd]. rewrite (IH _ Hc). solve_Permutation.
Qed.

(** The order, with what the keys of the new tree can be. *)
Lemma ordered_alter n (t : tree (S n)) :
  proper (S n) t -> ordered (S n) t -> node_change k x f (t_node n k t) (F (t_node n k t)) ->
  ordered (S n) (t_alter n k F t) /\
  (forall y, y ∈ flatten (S n) (t_alter n k F t) -> it_key y = k \/ it_key y ∈ (it_key <$> flatten (S n) t)).
Proof.
  revert n t. refine (node_path_ind k _ _ _); [by intros t _ _ []|]. intros n l1 c l2 Hb _ Hc Hl2 _ _ IH Ho.
  rewrite (t_node_child k l1 l2 c Hb), (t_alter_child k l1 l2 c Hb). intros Hch. assert (Hac : ordered (S n) c.2).
  { destruct Ho as [Hall _]. rewrite Forall_forall in Hall. apply (Hall c). set_solver. }
  destruct (IH Hac Hch). by apply (replace_child (n := S n)).
Qed.

Lemma indexed_alter n (t : tree (S n)) :
  proper (S n) t -> ordered (S n) t -> node_change k x f (t_node n k t) (F (t_node n k t)) ->
  indexed (S n) t -> covers (S n) k t -> indexed (S n) (t_alter n k F t).
Proof.
  revert n t. refine (node_path_ind k _ _ _); [by intros t _ _ []|]. intros n l1 c l2 Hb _ _ _ _ Hp IH [Hall _].
  rewrite (t_node_child k l1 l2 c Hb), (t_alter_child k l1 l2 c Hb), (covers_child k l1 l2 c Hb). intros Hch [Hss Hi] [Hkc Hcov].
  assert (Hac : ordered (S n) c.2) by (rewrite Forall_forall in Hall; apply (Hall c); set_solver).
  apply Forall_app in Hi as [Hi1 Hi2]. inversion_clear Hi2 as [|? ? [Hlow Hic] Hi3]. split.
  - apply StronglySorted_app in Hss as (H12 & Hs1 & [Hc2 Hs2]%StronglySorted_cons).
    apply StronglySorted_app. split; [|split; [done|by constructor]].
    intros a b Ha [->|Hb']%elem_of_cons; [apply (H12 a c)|apply (H12 a b)]; set_solver.
  - apply Forall_app. split; [done|]. constructor; [|done]. cbn [fst snd]. split; [|by apply IH].
    destruct (ordered_alter n c.2 Hp Hac Hch) as [_ Hkeys]. rewrite Forall_forall in Hlow |- *.
    intros y [->|(z & -> & Hz)%list_elem_of_fmap]%Hkeys; [done|by apply Hlow].
Qed.
End alter.

(** ** Cutting a leaf *)
Definition low_key (c : internalKeyPtr * tree 0) : Prop := Forall (fun it => ~ key_lt (it_key it) (ip_key c.1)) (flatten 0 c.2).

Lemma indexed_1 (t : tree 1) :
  indexed 1 t <-> StronglySorted (fun c c' : internalKeyPtr * tree 0 => key_lt (ip_key c.1) (ip_key c'.1)) t /\ Forall low_key t.
Proof. cbn [indexed]. split; intros [H1 H2]; (split; [done|]); eapply Forall_impl; [exact H2|by intros c []|exact H2|done]. Qed.

(** The key of an item is not below the pointer of its leaf, and below the
    pointers behind it. *)
Lemma cut_leaf (l1 l2 : list (internalKeyPtr * tree 0)) p q (L R : list itemEntry) y :
  ordered 1 (l1 ++ (p, L ++ y :: R) :: l2) -> indexed 1 (l1 ++ (p, L ++ y :: R) :: l2) ->
  L <> [] -> ip_key q = it_key y ->
  let t' : tree 1 := l1 ++ (p, L) :: (q, y :: R) :: l2 in
  flatten 1 t' = flatten 1 (l1 ++ (p, L ++ y :: R) :: l2) /\ ordered 1 t' /\ indexed 1 t'.
Proof.
  intros [Ha Hs] [Hi Hlow]%indexed_1 HL Hq t'.
  apply Forall_app in Ha as [Ha1 Ha2]. inversion_clear Ha2 as [|? ? Hac Ha3]. cbn [snd] in Hac.
  apply StronglySorted_app in Hac as (HLR & HsL & HsR). pose proof HsR as [HyR _]%StronglySorted_cons.
  apply Forall_app in Hlow as [Hw1 Hw2]. inversion_clear Hw2 as [|? ? Hwc Hw3]. apply Forall_app in Hwc as [HwL HwR].
  apply StronglySorted_app in Hs as (H12 & Hs1 & [Hc2 Hs2]%StronglySorted_cons).
  apply StronglySorted_app in Hi as (I12 & Is1 & [Ic2 Is2]%StronglySorted_cons). cbn [fst snd] in *.
  rewrite Forall_forall in Hc2. assert (Hpq : key_lt (ip_key p) (ip_key q)).
  { destruct L as [|z L]; [done|]. inversion_clear HwL as [|? ? Hz _]. rewrite Hq. specialize (HLR z y ltac:(set_solver) ltac:(set_solver)).
    unfold item_lt, key_lt in *. lia. }
  assert (Hql : Forall (fun it => ~ key_lt (it_key it) (ip_key q)) (y :: R)).
  { constructor; [rewrite Hq; apply key_lt_irrefl|]. eapply Forall_impl; [exact HyR|]. intros z Hz. rewrite Hq. by apply key_lt_asym. }
  split; [|split].
  - unfold t'. cbn [flatten]. rewrite !map_app, !concat_app. cbn [map concat snd flatten]. by rewrite <- app_assoc.
  - split; [apply Forall_app; split; [done|]; constructor; [done|by constructor]|].
    apply StronglySorted_app. split; [|split; [done|]].
    + intros a b Hla Hb. destruct (H12 a (p, L ++ y :: R) Hla ltac:(by left)) as [Hap _]. cbn [fst snd flatten] in *.
      apply elem_of_cons in Hb as [->|[->|Hb]%elem_of_cons]; [by split|split; [|exact Hql]|apply (H12 a b Hla); by right].
      eapply Forall_impl; [exact Hap|]. intros z Hz. by apply (key_lt_trans _ _ _ Hz).
    + constructor; [constructor; [done|]|constructor].
      * apply Forall_forall. intros b Hb. destruct (Hc2 b Hb) as [Hlt Hge]. split; [|done]. by apply Forall_app in Hlt as [_ ?].
      * split; [|exact Hql]. apply Forall_forall. intros z Hz. cbn [fst flatten snd] in *. rewrite Hq. apply HLR; set_solver.
      * apply Forall_forall. intros b Hb. destruct (Hc2 b Hb) as [Hlt Hge]. split; [|done]. by apply Forall_app in Hlt as [? _].
  - apply indexed_1. split; [|apply Forall_app; split; [done|]; constructor; [done|by constructor]].
    apply StronglySorted_app. split; [|split; [done|]].
    + intros a b Hla Hb. specialize (I12 a (p, L ++ y :: R) Hla ltac:(by left)) as Hap. cbn [fst] in Hap.
      apply elem_of_cons in Hb as [->|[->|Hb]%elem_of_cons]; [done|by apply (key_lt_trans _ _ _ Hap)|apply (I12 a b Hla); by right].
    + constructor; [constructor; [done|]|by constructor]. apply Forall_forall.
      intros b Hb. destruct (Hc2 b Hb) as [Hlt _]. cbn [fst snd flatten] in *. rewrite Hq. rewrite Forall_forall in Hlt. apply Hlt. set_solver.
Qed.

(** Every pointer of a node that is written gets the generation of the
    superblock. *)
Definition restamp (generation : Z) (t : tree 1) : tree 1 := (fun c => (stamped generation c.1, c.2)) <$> t.

Lemma restamp_flatten g t : flatten 1 (restamp g t) = flatten 1 t.
Proof. cbn [flatten]. unfold restamp. by rewrite <- list_fmap_compose. Qed.
Lemma restamp_nodes g t addr : nodes 1 addr (restamp g t) = nodes 1 addr t.
Proof. cbn [nodes]. unfold restamp. by rewrite <- list_fmap_compose. Qed.
Lemma restamp_ptrs g t : map fst (restamp g t) = stamped g <$> map fst t.
Proof. unfold restamp. by rewrite <- !list_fmap_compose. Qed.
Lemma restamp_proper g t : proper 1 t -> proper 1 (restamp g t).
Proof. intros [Hne Ht]. split; [by destruct t|]. unfold restamp. by rewrite Forall_fmap. Qed.
Lemma restamp_ordered g t : ordered 1 t -> ordered 1 (restamp g t).
Proof.
  intros [Ha Hs]. unfold restamp. split; [by rewrite Forall_fmap|]. eapply StronglySorted_fmap; [|exact Hs]. by intros a b.
Qed.
Lemma restamp_indexed g t : indexed 1 t -> indexed 1 (restamp g t).
Proof.
  rewrite !indexed_1. intros [Hs Ha]. unfold restamp. split; [|by rewrite Forall_fmap].
  eapply StronglySorted_fmap; [|exact Hs]. by intros a b.
Qed.

(** ** The split *)
Definition left_half (all : list itemEntry) : list itemEntry := take (length all / 2) all.
Definition right_half (all : list itemEntry) : list itemEntry := drop (length all / 2) all.
(** The pointer to the right half at [x]. *)
Definition split_ptr (x : Z) (all : list itemEntry) : internalKeyPtr :=
  mkInternalKeyPtr (default (mkKey 0 0 0) (it_key <$> head (right_half all))) x 0.

Definition split_node (g x : Z) (it : itemEntry) (t : list (internalKeyPtr * tree 0)) : list (internalKeyPtr * tree 0) :=
  let i := best (it_key it) (map fst t) in
  match t !! i with
  | Some c =>
      let all := insert_item it c.2 in
      restamp g (take i t ++ (c.1, left_half all) :: (split_ptr x all, right_half all) :: drop (S i) t)
  | None => t
  end.
Definition split_leaf (n : nat) (g x : Z) (it : itemEntry) : tree (S n) -> tree (S n) :=
  t_alter n (it_key it) (split_node g x it).

Lemma split_node_child g x it (l1 l2 : list (internalKeyPtr * tree 0)) c :
  best (it_key it) (map fst (l1 ++ c :: l2)) = length l1 ->
  let all := insert_item it c.2 in
  split_node g x it (l1 ++ c :: l2) = restamp g (l1 ++ (c.1, left_half all) :: (split_ptr x all, right_half all) :: l2).
Proof.
  intros Hb all. unfold split_node. rewrite Hb, list_lookup_middle by done.
  rewrite take_app_length. f_equal. rewrite (drop_app_ge l1) by apply Nat.le_succ_diag_r.
  by rewrite Nat.sub_succ_l, Nat.sub_diag.
Qed.

(** At least two items make two halves. *)
Lemma halves (all : list itemEntry) :
  (2 <= length all)%nat -> exists y R, all = left_half all ++ y :: R /\ left_half all <> [] /\ right_half all = y :: R.
Proof.
  intros Hl. assert (1 <= length all / 2)%nat by (apply Nat.div_le_lower_bound; lia).
  assert (length all / 2 < length all)%nat by (apply Nat.div_lt; lia).
  assert (Hd : length (right_half all) <> 0%nat) by (unfold right_half; rewrite length_drop; lia).
  destruct (right_half all) as [|y R] eqn:E; [done|]. exists y, R. split; [by rewrite <- E; symmetry; apply take_drop|].
  split; [|done]. unfold left_half. intros Ht%(f_equal length). rewrite length_take in Ht. change (length []) with 0%nat in Ht. lia.
Qed.

(** The leaf gets items with the keys it had and [k]. *)
Lemma indexed_insert k (l1 l2 : list (internalKeyPtr * tree 0)) p (leaf all : list itemEntry) :
  indexed 1 (l1 ++ (p, leaf) :: l2) -> ~ key_lt k (ip_key p) ->
  (forall z, z ∈ all -> it_key z = k \/ it_key z ∈ (it_key <$> leaf)) -> indexed 1 (l1 ++ (p, all) :: l2).
Proof.
  intros [Hi [Hw1 Hw2]%Forall_app]%indexed_1 Hkp Hkeys. inversion_clear Hw2 as [|? ? Hwc Hw3]. apply indexed_1.
  split; [|apply Forall_app; split; [done|]; constructor; [|done]].
  - apply StronglySorted_app in Hi as (I12 & Is1 & [Ic2 Is2]%StronglySorted_cons). apply StronglySorted_app.
    split; [|split; [done|by constructor]]. intros a b Ha [->|Hb]%elem_of_cons; [apply (I12 a (p, leaf))|apply (I12 a b)]; set_solver.
  - apply Forall_forall. unfold low_key in Hwc. rewrite Forall_forall in Hwc. cbn [fst snd flatten] in *.
    intros z [->|(w & -> & Hw)%list_elem_of_fmap]%Hkeys; [done|by apply Hwc].
Qed.

Lemma split_node_change g x it (t : tree 1) :
  let k := it_key it in
  proper 1 t -> ordered 1 t -> indexed 1 t -> covers 1 k t -> k ∉ (it_key <$> t_leaf 1 k t) -> t_leaf 1 k t <> [] -> x <> 0 ->
  node_change k x (insert_item it) t (split_node g x it t).
Proof.
  intros k Hp Ho Hi Hcov Hk Hne Hx. pose proof Hp as [Htne Hkids].
  destruct (best_child (n := 0) k t Htne) as (l1 & [p leaf] & l2 & -> & Hb & _ & Hc & Hl2).
  rewrite (t_leaf_child (n := 0) k l1 l2 _ Hb) in Hk, Hne. cbn [t_leaf snd] in Hk, Hne.
  pose proof (leaf_sorted k 1 _ Hp Ho) as Hs. rewrite (t_leaf_child (n := 0) k l1 l2 _ Hb) in Hs. cbn [t_leaf snd] in Hs.
  apply (covers_child (n := 0) k l1 l2 _ Hb) in Hcov as [Hkp _].
  set (all := insert_item it leaf). assert (Hall : (2 <= length all)%nat).
  { unfold all. rewrite (Permutation_length (insert_item_perm it leaf)). destruct leaf; [done|cbn; lia]. }
  assert (Hkeys : forall z, z ∈ all -> it_key z = k \/ it_key z ∈ (it_key <$> leaf)).
  { unfold all. intros z. rewrite (insert_item_perm it leaf). intros [->|Hz]%elem_of_cons; [by left|right; by apply list_elem_of_fmap_2]. }
  destruct (replace_child (n := 0) k l1 l2 (p, leaf) all Ho Hc Hl2) as [Ho' Hk']; [by apply insert_item_sorted|exact Hkeys|].
  pose proof (indexed_insert k l1 l2 p leaf all Hi Hkp Hkeys) as Hi'.
  destruct (halves all Hall) as (y & R & Eall & HL & ER).
  rewrite Eall in Ho', Hi', Hk'. destruct (cut_leaf l1 l2 p (split_ptr x all) (left_half all) R y Ho' Hi' HL) as (Ef & Ho2 & Hi2).
  { unfold split_ptr. by rewrite ER. }
  rewrite (split_node_child g x it l1 l2 (p, leaf) Hb). cbn [fst snd]. fold all. rewrite ER.
  apply Forall_app in Hkids as [Hk1 Hk2]. inversion_clear Hk2 as [|? ? Hkc Hk3].
  split.
  - rewrite restamp_flatten, Ef. rewrite <- Eall. by rewrite (t_modify_child (n := 0) k (insert_item it) l1 l2 (p, leaf) Hb).
  - by apply restamp_ordered.
  - rewrite restamp_flatten, Ef. exact Hk'.
  - apply restamp_proper. split; [by destruct l1|]. apply Forall_app. split; [done|]. constructor; [done|]. by constructor.
  - by apply restamp_indexed.
  - intros addr. rewrite restamp_nodes. cbn [nodes]. rewrite !map_app, !concat_app. cbn [map concat fst snd nodes split_ptr ip_blockptr].
    solve_Permutation.
Qed.

(** The new pointer gets to its place. *)
Lemma insert_ptr_place p (A B : list internalKeyPtr) :
  StronglySorted (fun p q => key_lt (ip_key p) (ip_key q)) (A ++ p :: B) -> insert_ptr p (A ++ B) = A ++ p :: B.
Proof.
  induction A as [|a A IH]; intros Hs.
  - destruct B as [|b B]; [done|]. cbn [app insert_ptr]. apply StronglySorted_cons in Hs as [Hp _]. inversion_clear Hp as [|? ? Hb _].
    by rewrite (proj2 (key_less_false _ _) (key_lt_asym _ _ Hb)).
  - apply StronglySorted_cons in Hs as [Ha Hs]. cbn [app insert_ptr]. rewrite Forall_forall in Ha.
    rewrite (proj2 (key_less_spec _ _)) by (apply Ha; set_solver). by rewrite IH.
Qed.

Lemma insert_ptr_perm p ptrs : insert_ptr p ptrs ≡ₚ p :: ptrs.
Proof. induction ptrs as [|q ptrs IH]; [done|]. cbn [insert_ptr]. destruct (key_less _ _); [|done]. rewrite IH. constructor. Qed.

Lemma insert_ptr_stamped g p ptrs : insert_ptr (stamped g p) (stamped g <$> ptrs) = stamped g <$> insert_ptr p ptrs.
Proof.
  induction ptrs as [|q ptrs IH]; [done|]. cbn [fmap list_fmap insert_ptr]. cbn [stamped ip_key]. destruct (key_less _ _); [|done].
  by rewrite IH.
Qed.

Lemma split_node_ptrs g x it (t : tree 1) :
  let k := it_key it in
  proper 1 t -> node_change k x (insert_item it) t (split_node g x it t) ->
  map fst (split_node g x it t) = stamped g <$> insert_ptr (split_ptr x (insert_item it (t_leaf 1 k t))) (map fst t).
Proof.
  intros k Hp Hch. destruct (best_child (n := 0) k t (proj1 Hp)) as (l1 & [p leaf] & l2 & -> & Hb & _).
  pose proof (nc_indexed _ _ _ _ _ Hch) as [Hs _]%indexed_1. revert Hs.
  rewrite (split_node_child g x it l1 l2 (p, leaf) Hb), (t_leaf_child (n := 0) k l1 l2 _ Hb). cbn [t_leaf snd fst].
  set (all := insert_item it leaf). rewrite <- insert_ptr_stamped. intros Hs.
  assert (Hps : StronglySorted (fun p q => key_lt (ip_key p) (ip_key q))
    (map fst (restamp g (l1 ++ (p, left_half all) :: (split_ptr x all, right_half all) :: l2)))).
  { change (map fst ?l) with (fst <$> l). eapply StronglySorted_fmap; [|exact Hs]. done. }
  clear Hs. revert Hps. rewrite !restamp_ptrs, !map_app. cbn [map fst].
  rewrite !(cons_middle (stamped g p)), !app_assoc. intros Hps. by rewrite insert_ptr_place.
Qed.
