(* ===== verification/BtrfsStore.v ===== *)
(** The btrfs driver: operations on the tree of a file system.

    [fs_tree b n t]: the blocks below the root of the file-system tree hold
    the search tree [t].  Under it, insertion without a split, update and
    deletion succeed, write one block, and change the items as the functions
    of [BtrfsKeys] say; a walk is a visit of the items. *)
From S2P Require Export BtrfsForest BtrfsFs.

(** Two nodes do not share a byte of the device. *)
Definition apart (tc : treeContext) (a a' : Z) : Prop :=
  match resolve (chunks tc) a, resolve (chunks tc) a' with
  | Ok p, Ok p' => p + nodeSize tc <= p' \/ p' + nodeSize tc <= p
  | _, _ => False
  end.

Lemma apart_sym tc a a' : apart tc a a' -> apart tc a' a.
Proof. unfold apart. destruct (resolve _ a), (resolve _ a'); try done. lia. Qed.

Section store.
Context {D : Type} `{Device D} {env : Env}.
Implicit Types b : FileSystem D.

(** ** Frames *)

(** The block of a node is replaced; the device is otherwise the same. *)
Lemma write_node (d : D) tc addr buf dst :
  dev_ok d -> size_ok tc -> node_at d tc addr = Some buf -> zlen dst = nodeSize tc ->
  exists phys d', resolve (chunks tc) addr = Ok phys /\ i64 phys = phys /\
    WriteAt d phys dst = (d', (zlen dst, None)) /\ dev_ok d' /\ wrote (dev_content d) (dev_content d') phys (nodeSize tc) /\
    node_at d' tc addr = Some dst /\ (forall a, apart tc addr a -> node_at d' tc a = node_at d tc a).
Proof.
  intros Hok Hs Hb Hl. destruct (node_at_inv _ _ _ _ Hok Hs Hb) as (phys & Er & Hp & Hin & -> & _ & _).
  unfold size_ok, nodeHeaderSize in Hs.
  destruct (dev_write d phys dst Hok) as (d' & Ew & Hok' & Ec); [lia|lia|].
  exists phys, d'. split; [done|]. split; [by apply i64_id|]. split; [done|]. split; [done|]. rewrite Ec.
  split; [rewrite <- Hl; apply wrote_put; lia|]. unfold node_at. rewrite Er, Ec. rewrite zlen_put. split.
  - rewrite bool_decide_true by done. f_equal. rewrite <- Hl. apply sub_put_same; lia.
  - intros a Ha. unfold apart in Ha. rewrite Er in Ha. destruct (resolve _ a) as [p'|?| |]; try done.
    case_bool_decide; [|done]. f_equal. apply sub_put_disj; lia.
Qed.

(** A node of a child. *)
Lemma elem_nodes n (l : list (internalKeyPtr * tree n)) c a :
  c ∈ l -> a ∈ nodes n (ip_blockptr c.1) c.2 -> a ∈ concat (map (fun c => nodes n (ip_blockptr c.1) c.2) l).
Proof.
  intros Hc Ha. apply list_elem_of_In, in_concat. exists (nodes n (ip_blockptr c.1) c.2).
  split; [|by apply list_elem_of_In]. apply in_map_iff. exists c. split; [done|by apply list_elem_of_In].
Qed.

Lemma nodes_child n addr (l1 l2 : list (internalKeyPtr * tree n)) c :
  nodes (S n) addr (l1 ++ c :: l2) =
  addr :: concat (map (fun c => nodes n (ip_blockptr c.1) c.2) l1) ++ nodes n (ip_blockptr c.1) c.2 ++
    concat (map (fun c => nodes n (ip_blockptr c.1) c.2) l2).
Proof. cbn [nodes]. rewrite map_app, concat_app. cbn [map concat]. done. Qed.

Lemma holds_frame (d d' : D) tc n addr t :
  (forall a, a ∈ nodes n addr t -> node_at d' tc a = node_at d tc a) -> holds d tc n addr t -> holds d' tc n addr t.
Proof.
  revert addr t. induction n as [|n IH]; intros addr t Hsame (buf & Hb & Hrest).
  - exists buf. split; [|done]. rewrite Hsame; [done|]. cbn. by apply list_elem_of_singleton.
  - destruct Hrest as [Hn Hk]. exists buf. split; [rewrite Hsame; [done|]; by left|]. split; [done|].
    rewrite Forall_forall in Hk |- *. intros c Hc. apply IH; [|by apply Hk].
    intros a Ha. apply Hsame. right. by eapply elem_nodes.
Qed.

(** Writing the leaf a key leads to. *)
Lemma holds_modify (d d' : D) tc k f n (t : tree n) :
  proper n t -> forall addr, StronglySorted (apart tc) (nodes n addr t) -> holds d tc n addr t ->
  (exists dst, node_at d' tc (t_addr n k addr t) = Some dst /\ leaf_holds dst (f (t_leaf n k t))) ->
  (forall a, apart tc (t_addr n k addr t) a -> node_at d' tc a = node_at d tc a) ->
  holds d' tc n addr (t_modify n k f t).
Proof.
  revert n t. refine (tree_path_ind k _ _ _); [done|].
  intros n l1 c l2 Hb _ _ _ _ Hpc IH addr Hss (buf & Hbuf & Hn & Hkids). pose proof (addr_in_nodes k n (ip_blockptr c.1) c.2 Hpc) as Hin.
  rewrite (t_addr_child k addr l1 l2 c Hb), (t_leaf_child k l1 l2 c Hb), (t_modify_child k f l1 l2 c Hb).
  rewrite nodes_child in Hss. apply StronglySorted_cons in Hss as [Haddr Hss].
  apply StronglySorted_app in Hss as (H1r & _ & Hss). apply StronglySorted_app in Hss as (Hc2 & Hsc & _).
  rewrite Forall_forall in Haddr. intros Hdst Hsame. exists buf. split; [|split].
  - rewrite Hsame; [done|]. apply apart_sym, Haddr. apply elem_of_app. right. apply elem_of_app. by left.
  - rewrite map_app in *. exact Hn.
  - apply Forall_app in Hkids as [Hk1 Hk2]. inversion_clear Hk2 as [|? ? Hkc Hk3].
    apply Forall_app. split; [|constructor; [by apply IH|]].
    + rewrite Forall_forall in Hk1 |- *. intros x Hx. eapply holds_frame; [|by apply Hk1].
      intros a Ha. apply Hsame, apart_sym, H1r; [by eapply elem_nodes|apply elem_of_app; by left].
    + rewrite Forall_forall in Hk3 |- *. intros x Hx. eapply holds_frame; [|by apply Hk3].
      intros a Ha. apply Hsame, Hc2; [done|by eapply elem_nodes].
Qed.

Lemma holds_leaf (d : D) tc k n (t : tree n) :
  proper n t -> forall addr, holds d tc n addr t -> exists buf, node_at d tc (t_addr n k addr t) = Some buf /\
    leaf_holds buf (t_leaf n k t).
Proof.
  revert n t. refine (tree_path_ind k _ _ _); [done|].
  intros n l1 c l2 Hb _ _ _ _ _ IH addr (buf & _ & _ & Hkids).
  rewrite (t_addr_child k addr l1 l2 c Hb), (t_leaf_child k l1 l2 c Hb). apply IH.
  apply Forall_app in Hkids as [_ Hkids]. by inversion_clear Hkids.
Qed.

(** ** Searching *)
Lemma best_ptr_at k ptrs buf i acc :
  0 <= i ->
  (forall (j : nat) p, ptrs !! j = Some p ->
     let off := nodeHeaderSize + (i + Z.of_nat j) * 33 in off + 33 <= zlen buf /\ ptr_at buf off p) ->
  best_ptr (length ptrs) i k acc (mkByteReader buf (nodeHeaderSize + i * 33)) =
    (Ok (best_scan i k acc ptrs), mkByteReader buf (nodeHeaderSize + (i + zlen ptrs) * 33)).
Proof.
  revert i acc. induction ptrs as [|p ptrs IH]; intros i acc Hi Hat.
  { cbn. unfold zlen. cbn. by rewrite Z.add_0_r. }
  cbn [length best_ptr best_scan]. destruct (Hat 0%nat p eq_refl) as [Hin Hp]. rewrite Z.add_0_r in *.
  unfold nodeHeaderSize in *. rewrite (bind_ok _ _ _ _ _ (decodeInternalPtr_at _ (101 + i * 33) _ ltac:(lia) Hin Hp)).
  replace (101 + i * 33 + 33) with (101 + (i + 1) * 33) by lia. rewrite IH; [|lia|].
  - do 2 f_equal. unfold zlen. cbn [length]. lia.
  - intros j p' Hj. replace (i + 1 + Z.of_nat j) with (i + Z.of_nat (S j)) by lia. by apply Hat.
Qed.

(** What the two searches read of a node. *)
Lemma node_best k buf level ptrs :
  nodeHeaderSize <= zlen buf -> node_holds buf level ptrs -> exists h, h_level h = level /\
    decode (h <- decodeNodeHeader ;; best <- best_ptr (Z.to_nat (h_nritems h)) 0 k (0, 0) ;; mret (h, best)) buf =
      Ok (h, best_scan 0 k (0, 0) ptrs) /\
    (level <> 0 -> decode (node_step k) buf = Ok (h, best_scan 0 k (0, 0) ptrs)).
Proof.
  intros Hl (Hlvl & Hn & Hat). destruct (decodeNodeHeader_at buf Hl) as (h & E & Eh1 & Eh2). exists h.
  split; [by rewrite Eh2|]. unfold decode, node_step. rewrite !(bind_ok _ _ _ _ _ E), Eh2, Hlvl.
  assert (Eb : best_ptr (Z.to_nat (h_nritems h)) 0 k (0, 0) (mkByteReader buf nodeHeaderSize) =
    (Ok (best_scan 0 k (0, 0) ptrs), mkByteReader buf (nodeHeaderSize + (0 + zlen ptrs) * 33))).
  { rewrite Eh1, Hn. unfold zlen at 1. rewrite Nat2Z.id. change nodeHeaderSize with (nodeHeaderSize + 0 * 33) at 1.
    by apply best_ptr_at. }
  split; [|intros Hnz; rewrite (proj2 (Z.eqb_neq level 0)) by done]; by rewrite (bind_ok _ _ _ _ _ Eb).
Qed.

Section context.
Variables (tc0 : treeContext) (s : SuperBlock).

(** ** The tree of a file system *)

(** Every leaf has [m] bytes to spare. *)
Fixpoint leaves_fit (m : Z) (n : nat) : tree n -> Prop :=
  match n with
  | O => fun t => needed t + m <= nodeSize tc0
  | S n => fun t => Forall (fun c => leaves_fit m n c.2) t
  end.

Record mounted b : Prop := {
  m_dev : dev_ok (dev b);
  m_tc : tc b = Some tc0;
  m_sb : sb b = Some s;
  m_size : NodeSize s = nodeSize tc0 /\ size_ok tc0
}.

(** A search tree of height [n] below [root]. *)
Record tree_at b (root : Z) (n : nat) (t : tree n) : Prop := {
  ta_mounted : mounted b;
  ta_holds : holds (dev b) tc0 n root t;
  ta_apart : StronglySorted (apart tc0) (nodes n root t);
  ta_fuel : (n < fuel)%nat;
  ta_proper : proper n t;
  ta_ordered : ordered n t;
  ta_fit : leaves_fit 0 n t;
  ta_wf : Forall item_wf (flatten n t)
}.

Record fs_tree b (n : nat) (t : tree n) : Prop := {
  ft_mounted : mounted b;
  ft_holds : holds (dev b) tc0 n (fsRoot b) t;
  ft_apart : StronglySorted (apart tc0) (nodes n (fsRoot b) t);
  ft_level : fsRootLvl b = Z.of_nat n;
  ft_fuel : (n < fuel)%nat;
  ft_proper : proper n t;
  ft_ordered : ordered n t;
  ft_fit : leaves_fit 0 n t;
  ft_wf : Forall item_wf (flatten n t)
}.

Lemma fs_tree_at b n t : fs_tree b n t -> tree_at b (fsRoot b) n t.
Proof. intros []. by split. Qed.
Lemma at_fs_tree b n t : tree_at b (fsRoot b) n t -> fsRootLvl b = Z.of_nat n -> fs_tree b n t.
Proof. intros [] ?. by split. Qed.

Lemma get_tc_ok b : mounted b -> get_tc b = (Ok tc0, b).
Proof. intros Hm. unfold get_tc. by rewrite (m_tc _ Hm). Qed.
Lemma get_sb_ok b : mounted b -> get_sb b = (Ok s, b).
Proof. intros Hm. unfold get_sb. by rewrite (m_sb _ Hm). Qed.
Lemma b_resolve_ok b a phys : mounted b -> resolve (chunks tc0) a = Ok phys -> b_resolve a b = (Ok phys, b).
Proof. intros Hm E. unfold b_resolve. rewrite (bind_ok _ _ _ _ _ (get_tc_ok b Hm)), E. done. Qed.

(** Reading the block of a node. *)
Lemma read_node b addr buf :
  mounted b -> node_at (dev b) tc0 addr = Some buf -> exists phys,
    b_resolve addr b = (Ok phys, b) /\ resolve (chunks tc0) addr = Ok phys /\
    b_ReadAt phys (NodeSize s) b = (Ok buf, b) /\ zlen buf = nodeSize tc0.
Proof.
  intros Hm Hb. destruct (m_size _ Hm) as [Hns Hs].
  destruct (node_at_inv _ _ _ _ (m_dev _ Hm) Hs Hb) as (phys & Er & _ & _ & _ & El & Erd). exists phys.
  split; [by apply b_resolve_ok|]. split; [done|]. split; [|done]. unfold b_ReadAt. rewrite Hns.
  unfold readNode in Erd. by rewrite Erd.
Qed.

(** One level of the search. *)
Lemma findLeafWithPath_step b k n (l1 l2 : list (internalKeyPtr * tree n)) c addr path :
  mounted b -> best_scan 0 k (0, 0) (map fst (l1 ++ c :: l2)) = (ip_blockptr c.1, zlen l1) -> ip_blockptr c.1 <> 0 ->
  holds (dev b) tc0 (S n) addr (l1 ++ c :: l2) -> holds (dev b) tc0 n (ip_blockptr c.1) c.2 /\ exists phys,
    findLeafWithPath_loop (S n) k addr path b =
    findLeafWithPath_loop n k (ip_blockptr c.1) (path ++ [mkPathElement addr phys (Z.of_nat (S n)) (zlen l1)]) b.
Proof.
  intros Hm Hsc Hnz (buf & Hbuf & Hn & Hkids). apply Forall_app in Hkids as [_ Hkids]. inversion_clear Hkids as [|? ? Hc _].
  split; [done|]. destruct (read_node b addr buf Hm Hbuf) as (phys & E & Er & Erd & El). exists phys.
  cbn [findLeafWithPath_loop]. rewrite (bind_ok _ _ _ _ _ E), (bind_ok _ _ _ _ _ (get_sb_ok b Hm)).
  unfold b_readNode. rewrite (bind_ok _ _ _ _ _ Erd). pose proof (m_size _ Hm) as [_ Hs]. unfold size_ok in Hs.
  destruct (node_best k buf _ _ ltac:(lia) Hn) as (h & _ & Eb & _). rewrite (eq_trans Eb (f_equal (fun x => Ok (h, x)) Hsc)).
  rewrite lift_ok_bind. by rewrite (proj2 (Z.eqb_neq _ 0)) by done.
Qed.

Lemma findLeafWithPath_ok b k n (t : tree n) :
  mounted b -> proper n t -> forall addr path, holds (dev b) tc0 n addr t -> exists pre phys,
    findLeafWithPath_loop n k addr path b = (Ok (path ++ pre ++ [mkPathElement (t_addr n k addr t) phys 0 (-1)]), b) /\
    resolve (chunks tc0) (t_addr n k addr t) = Ok phys.
Proof.
  intros Hm. revert n t. refine (tree_path_ind k _ _ _).
  - intros t addr path (buf & Hb & _). destruct (read_node b addr buf Hm Hb) as (phys & E & Er & _).
    exists [], phys. split; [|done]. cbn [findLeafWithPath_loop]. by rewrite (bind_ok _ _ _ _ _ E).
  - intros n l1 c l2 Hb Hsc _ _ [_ Hp] _ IH addr path Hh.
    apply Forall_app in Hp as [_ Hp]. inversion_clear Hp as [|? ? [Hnz _] _].
    rewrite (t_addr_child k addr l1 l2 c Hb).
    destruct (findLeafWithPath_step b k n l1 l2 c addr path Hm Hsc Hnz Hh) as (Hc & phys & ->).
    destruct (IH (ip_blockptr c.1) (path ++ [mkPathElement addr phys (Z.of_nat (S n)) (zlen l1)]) Hc) as (pre & ph & Ef & Er').
    exists (mkPathElement addr phys (Z.of_nat (S n)) (zlen l1) :: pre), ph. split; [|done]. rewrite Ef. by rewrite <- app_assoc.
Qed.

Lemma findLeaf_ok b k n (t : tree n) :
  mounted b -> proper n t -> forall addr depth, holds (dev b) tc0 n addr t -> (n < depth)%nat ->
  findLeaf_rec depth addr (Z.of_nat n) k b = (Ok (t_addr n k addr t), b).
Proof.
  intros Hm. revert n t. refine (tree_path_ind k _ _ _).
  - intros t addr [|depth] _ Hd; [lia|]. done.
  - intros n l1 c l2 Hb Hsc _ _ [_ Hp] _ IH addr [|depth] (buf & Hbuf & Hn & Hkids) Hd; [lia|].
    apply Forall_app in Hkids as [_ Hkids]. inversion_clear Hkids as [|? ? Hc _].
    apply Forall_app in Hp as [_ Hp]. inversion_clear Hp as [|? ? [Hnz _] _].
    rewrite (t_addr_child k addr l1 l2 c Hb). destruct (read_node b addr buf Hm Hbuf) as (phys & E & Er & Erd & El).
    cbn [findLeaf_rec]. rewrite (proj2 (Z.eqb_neq _ 0)) by lia.
    rewrite (bind_ok _ _ _ _ _ E), (bind_ok _ _ _ _ _ (get_sb_ok b Hm)).
    unfold b_readNode. rewrite (bind_ok _ _ _ _ _ Erd). pose proof (m_size _ Hm) as [_ Hs]. unfold size_ok in Hs.
    destruct (node_best k buf _ _ ltac:(lia) Hn) as (h & Eh & _ & Eb). specialize (Eb ltac:(lia)).
    rewrite (eq_trans Eb (f_equal (fun x => Ok (h, x)) Hsc)), lift_ok_bind, Eh.
    rewrite (proj2 (Z.eqb_neq _ 0)) by lia. rewrite (proj2 (Z.eqb_neq _ 0)) by done.
    replace (Z.of_nat (S n) - 1) with (Z.of_nat n) by lia. apply IH; [done|lia].
Qed.

Lemma mounted_set_dev b d' : mounted b -> dev_ok d' -> mounted (set_dev d' b).
Proof. intros [] ?. by split. Qed.

(** ** Writing the leaf of a key *)

Lemma leaf_fit m k n (t : tree n) : proper n t -> leaves_fit m n t -> needed (t_leaf n k t) + m <= nodeSize tc0.
Proof.
  revert n t. refine (tree_path_ind k _ _ _); [done|].
  intros n l1 c l2 Hb _ _ _ _ _ IH Hf. rewrite (t_leaf_child k l1 l2 c Hb). apply IH.
  apply Forall_app in Hf as [_ Hf]. by inversion_clear Hf.
Qed.
Lemma fit_weaken m m' n (t : tree n) : m' <= m -> leaves_fit m n t -> leaves_fit m' n t.
Proof.
  intros Hm. induction n as [|n IH]; [cbn; lia|]. cbn [leaves_fit]. intros Hf.
  eapply Forall_impl; [exact Hf|]. intros c. apply IH.
Qed.
Lemma fit_modify m k f n (t : tree n) :
  proper n t -> leaves_fit m n t -> needed (f (t_leaf n k t)) + m <= nodeSize tc0 -> leaves_fit m n (t_modify n k f t).
Proof.
  revert n t. refine (tree_path_ind k _ _ _); [done|].
  intros n l1 c l2 Hb _ _ _ _ _ IH Hf. rewrite (t_leaf_child k l1 l2 c Hb), (t_modify_child k f l1 l2 c Hb). intros Hn.
  apply Forall_app in Hf as [Hf1 Hf2]. inversion_clear Hf2 as [|? ? Hc Hf3]. apply Forall_app.
  split; [done|]. constructor; [by apply IH|done].
Qed.

(** What a function on the items of the leaf of [k] must keep. *)
Definition leaf_change (k : key) (f : list itemEntry -> list itemEntry) (leaf : list itemEntry) : Prop :=
  needed (f leaf) <= nodeSize tc0 /\ sorted (f leaf) /\ Forall item_wf (f leaf) /\
  forall x, x ∈ f leaf -> it_key x = k \/ it_key x ∈ (it_key <$> leaf).

(** The device after the leaf of [k] is written: only that block differs. *)
Definition block_written b (root : Z) n (t : tree n) (k : key) (d' : D) : Prop :=
  exists phys, resolve (chunks tc0) (t_addr n k root t) = Ok phys /\
    wrote (dev_content (dev b)) (dev_content d') phys (nodeSize tc0) /\
    forall a, apart tc0 (t_addr n k root t) a -> node_at d' tc0 a = node_at (dev b) tc0 a.

Lemma write_leaf_at b root k f n (t : tree n) buf phys :
  tree_at b root n t -> node_at (dev b) tc0 (t_addr n k root t) = Some buf -> leaf_holds buf (t_leaf n k t) ->
  resolve (chunks tc0) (t_addr n k root t) = Ok phys -> leaf_change k f (t_leaf n k t) ->
  exists d', write_leaf (t_addr n k root t) phys buf (f (t_leaf n k t)) b = (Ok tt, set_dev d' b) /\
    tree_at (set_dev d' b) root n (t_modify n k f t) /\ block_written b root n t k d'.
Proof.
  intros [Hm Hh Ha Hfu Hp Ho Hf Hw] Hbuf [Hl0 _] Er (Hfit & Hsort & Hwf & Hkeys).
  pose proof (m_size _ Hm) as [Hns Hs].
  destruct (read_node b _ buf Hm Hbuf) as (_ & _ & _ & _ & El).
  destruct (packLeaf_spec buf (f (t_leaf n k t)) (Generation s) (t_addr n k root t)) as (dst & Ep & Eld & Hhold & _);
    [unfold size_ok in Hs; lia|lia|done|done|].
  destruct (write_node (dev b) tc0 _ buf dst (m_dev _ Hm) Hs Hbuf ltac:(lia)) as (ph & d' & Er' & Ei & Ew & Hok' & Hwr & Hnew & Hsame).
  assert (ph = phys) as -> by congruence. exists d'. split; [|split; [|by exists phys]].
  - unfold write_leaf. rewrite (bind_ok _ _ _ _ _ (get_sb_ok b Hm)), Hns, <- El, Ep, lift_ok_bind.
    apply wrap_ok. unfold b_WriteAt. by rewrite Ei, Ew.
  - destruct (ordered_modify k f n t Hp Ho Hsort Hkeys) as [Ho' _]. split; cbn [dev set_dev]; try done.
    + by apply mounted_set_dev.
    + eapply holds_modify; [done|done|done|by exists dst|done].
    + by rewrite nodes_modify.
    + by apply proper_modify.
    + apply fit_modify; [done..|lia].
    + destruct (flatten_path k n t Hp Ho) as (A & C & E & Ef & _). rewrite Ef, E in *.
      rewrite !Forall_app in *. naive_solver.
Qed.

Lemma write_leaf_ok b k f n (t : tree n) buf phys :
  fs_tree b n t -> node_at (dev b) tc0 (t_addr n k (fsRoot b) t) = Some buf -> leaf_holds buf (t_leaf n k t) ->
  resolve (chunks tc0) (t_addr n k (fsRoot b) t) = Ok phys -> leaf_change k f (t_leaf n k t) ->
  exists d', write_leaf (t_addr n k (fsRoot b) t) phys buf (f (t_leaf n k t)) b = (Ok tt, set_dev d' b) /\
    fs_tree (set_dev d' b) n (t_modify n k f t) /\ block_written b (fsRoot b) n t k d'.
Proof.
  intros Hft Hbuf Hl Er Hf.
  destruct (write_leaf_at b (fsRoot b) k f n t buf phys (fs_tree_at _ _ _ Hft) Hbuf Hl Er Hf) as (d' & E & Ht & Hw).
  exists d'. split; [done|]. split; [|done]. apply at_fs_tree; [exact Ht|]. exact (ft_level _ _ _ Hft).
Qed.

(** ** The three operations *)
Lemma root_level_fs b n t : fs_tree b n t -> root_level (fsRoot b) b = (Ok (Some (Z.of_nat n)), b).
Proof. intros Hft. unfold root_level. rewrite get_bind, Z.eqb_refl. by rewrite (ft_level _ _ _ Hft). Qed.

(** A key is in the tree where it is in the leaf it leads to. *)
Lemma key_in_leaf k n (t : tree n) :
  proper n t -> ordered n t -> k ∈ (it_key <$> flatten n t) <-> k ∈ (it_key <$> t_leaf n k t).
Proof.
  intros Hp Ho. destruct (flatten_path k n t Hp Ho) as (A & C & -> & _ & HA & HC). rewrite !fmap_app, !elem_of_app.
  pose proof (not_key_lt k A key_lt key_lt_neq HA). pose proof (not_key_lt k C (fun x y => key_lt y x) key_gt_neq HC).
  naive_solver.
Qed.

Lemma leaf_wf k n (t : tree n) : proper n t -> ordered n t -> Forall item_wf (flatten n t) -> Forall item_wf (t_leaf n k t).
Proof.
  intros Hp Ho. destruct (flatten_path k n t Hp Ho) as (A & C & -> & _). rewrite !Forall_app. naive_solver.
Qed.

(** What [deleteFromLeaf] and [updateInLeaf] read. *)
Lemma read_leaf_ok b k n (t : tree n) :
  fs_tree b n t -> exists phys buf, read_leaf (fsRoot b) k b = (Ok (t_addr n k (fsRoot b) t, phys, buf), b) /\
    resolve (chunks tc0) (t_addr n k (fsRoot b) t) = Ok phys /\
    node_at (dev b) tc0 (t_addr n k (fsRoot b) t) = Some buf /\ leaf_holds buf (t_leaf n k t) /\
    (forall oob, parseLeaf oob buf = Ok (t_leaf n k t)).
Proof.
  intros Hft. pose proof (ft_mounted _ _ _ Hft) as Hm. destruct (m_size _ Hm) as [Hns Hs].
  destruct (holds_leaf (dev b) tc0 k n t (ft_proper _ _ _ Hft) _ (ft_holds _ _ _ Hft)) as (buf & Hbuf & Hl).
  destruct (read_node b _ buf Hm Hbuf) as (phys & E & Er & Erd & El). exists phys, buf.
  split; [|split; [done|split; [done|split; [done|]]]].
  - unfold read_leaf, resolveLeaf. rewrite M_assoc, (bind_ok _ _ _ _ _ (root_level_fs b n t Hft)).
    unfold findLeaf. rewrite (bind_ok _ _ _ _ _ (findLeaf_ok b k n t Hm (ft_proper _ _ _ Hft) _ _ (ft_holds _ _ _ Hft) (ft_fuel _ _ _ Hft))).
    rewrite (bind_ok _ _ _ _ _ E), (bind_ok _ _ _ _ _ (get_sb_ok b Hm)).
    by rewrite (bind_ok _ _ _ _ _ (wrap_ok _ _ _ _ _ Erd)).
  - intros oob. apply parseLeaf_holds; [|done]. unfold size_ok in Hs. lia.
Qed.

Lemma total_data_perm l l' : l ≡ₚ l' -> total_data l = total_data l'.
Proof. induction 1; cbn; rewrite ?IHPermutation; unfold total_data in *; cbn; lia. Qed.
Lemma needed_insert it l : needed (insert_item it l) = needed l + 25 + zlen (it_data it).
Proof.
  unfold needed, zlen. rewrite (total_data_perm _ _ (insert_item_perm it l)), (Permutation_length (insert_item_perm it l)).
  cbn [total_data foldr length]. fold (total_data l). unfold zlen. lia.
Qed.
Lemma needed_cons x l : needed (x :: l) = needed l + 25 + zlen (it_data x).
Proof. unfold needed, zlen. cbn [length total_data foldr]. fold (total_data l). unfold zlen. lia. Qed.
Lemma needed_delete k l : needed (delete_key k l) <= needed l.
Proof.
  unfold delete_key. induction l as [|x l IH]; [done|]. rewrite filter_cons, needed_cons. pose proof (zlen_nonneg (it_data x)).
  case_decide; [rewrite needed_cons|]; lia.
Qed.

Lemma delete_item_ok b k n (t : tree n) :
  fs_tree b n t -> k ∈ (it_key <$> flatten n t) -> exists d',
    delete_item k b = (Ok tt, set_dev d' b) /\ fs_tree (set_dev d' b) n (t_modify n k (delete_key k) t) /\
    block_written b (fsRoot b) n t k d'.
Proof.
  intros Hft Hk. pose proof (ft_proper _ _ _ Hft) as Hp. pose proof (ft_ordered _ _ _ Hft) as Ho.
  rewrite (key_in_leaf k n t Hp Ho) in Hk. pose proof (leaf_sorted k n t Hp Ho) as Hsort.
  destruct (read_leaf_ok b k n t Hft) as (phys & buf & E & Er & Hbuf & Hl & Hparse).
  destruct (last_index k (t_leaf n k t)) as [i|] eqn:Ei; [|by apply last_index_None in Ei].
  destruct (write_leaf_ok b k (delete_key k) n t buf phys Hft Hbuf Hl Er) as (d' & Ew & Hft' & Hbw).
  { split; [pose proof (needed_delete k (t_leaf n k t)); pose proof (leaf_fit 0 k n t Hp (ft_fit _ _ _ Hft)); lia|].
    split; [by apply delete_key_sorted|]. pose proof (leaf_wf k n t Hp Ho (ft_wf _ _ _ Hft)) as Hwf.
    unfold delete_key. split; [|intros x [_ Hx]%list_elem_of_filter; right; by apply list_elem_of_fmap_2].
    rewrite Forall_forall in Hwf |- *. intros x [_ Hx]%list_elem_of_filter. by apply Hwf. }
  exists d'. split; [|done]. unfold delete_item, fs_root, deleteFromLeaf. rewrite M_assoc, get_bind, M_left_id.
  rewrite (bind_ok _ _ _ _ _ E), Hparse, lift_ok_bind, Ei. by rewrite (delete_last_index k _ i Hsort Ei).
Qed.

Lemma update_item_ok b k data n (t : tree n) :
  fs_tree b n t -> k ∈ (it_key <$> flatten n t) -> needed (update_key k data (t_leaf n k t)) <= nodeSize tc0 -> exists d',
    update_item k data b = (Ok tt, set_dev d' b) /\ fs_tree (set_dev d' b) n (t_modify n k (update_key k data) t) /\
    block_written b (fsRoot b) n t k d'.
Proof.
  intros Hft Hk Hfit. pose proof (ft_proper _ _ _ Hft) as Hp. pose proof (ft_ordered _ _ _ Hft) as Ho.
  rewrite (key_in_leaf k n t Hp Ho) in Hk. pose proof (leaf_sorted k n t Hp Ho) as Hsort.
  destruct (read_leaf_ok b k n t Hft) as (phys & buf & E & Er & Hbuf & Hl & Hparse).
  destruct (last_index k (t_leaf n k t)) as [i|] eqn:Ei; [|by apply last_index_None in Ei].
  destruct (write_leaf_ok b k (update_key k data) n t buf phys Hft Hbuf Hl Er) as (d' & Ew & Hft' & Hbw).
  { split; [done|]. split; [by apply update_key_sorted|]. pose proof (leaf_wf k n t Hp Ho (ft_wf _ _ _ Hft)) as Hwf.
    assert (Hkeys : forall x, x ∈ update_key k data (t_leaf n k t) -> it_key x ∈ (it_key <$> t_leaf n k t)).
    { intros x Hx. rewrite <- (update_key_keys k data). by apply list_elem_of_fmap_2. }
    split; [|by right; apply Hkeys]. rewrite Forall_forall in Hwf |- *. intros x (y & Ey & Hy)%Hkeys%list_elem_of_fmap.
    unfold item_wf. rewrite Ey. by apply Hwf. }
  exists d'. split; [|done]. unfold update_item, fs_root, updateInLeaf. rewrite M_assoc, get_bind, M_left_id.
  rewrite (bind_ok _ _ _ _ _ E), Hparse, lift_ok_bind, Ei, (update_last_index k data _ i Hsort Ei).
  pose proof (ft_mounted _ _ _ Hft) as Hm. destruct (m_size _ Hm) as [Hns _].
  rewrite (bind_ok _ _ _ _ _ (get_sb_ok b Hm)), (proj2 (Z.ltb_ge _ _)) by lia. done.
Qed.

(** Insertion below any root whose level is on record, without a split. *)
Lemma insert_at b root k data n (t : tree n) depth :
  tree_at b root n t -> root_level root b = (Ok (Some (Z.of_nat n)), b) -> k ∉ (it_key <$> flatten n t) -> key_wf k ->
  needed (t_leaf n k t) + 25 + zlen data <= nodeSize tc0 -> exists d',
    insertIntoLeaf_rec (S depth) root k data b = (Ok tt, set_dev d' b) /\
    tree_at (set_dev d' b) root n (t_modify n k (insert_item (mkItem k data)) t) /\ block_written b root n t k d'.
Proof.
  intros Ht Hlvl Hk Hkwf Hfit. pose proof (ta_proper _ _ _ _ Ht) as Hp. pose proof (ta_ordered _ _ _ _ Ht) as Ho.
  pose proof (ta_mounted _ _ _ _ Ht) as Hm. destruct (m_size _ Hm) as [Hns Hs].
  rewrite (key_in_leaf k n t Hp Ho) in Hk. pose proof (leaf_sorted k n t Hp Ho) as Hsort.
  destruct (holds_leaf (dev b) tc0 k n t Hp _ (ta_holds _ _ _ _ Ht)) as (buf & Hbuf & Hl).
  destruct (read_node b _ buf Hm Hbuf) as (phys & E & Er & Erd & El).
  pose proof (needed_insert (mkItem k data) (t_leaf n k t)) as Hni. cbn [it_data] in Hni.
  destruct (write_leaf_at b root k (insert_item (mkItem k data)) n t buf phys Ht Hbuf Hl Er) as (d' & Ew & Ht' & Hbw).
  { split; [lia|]. split; [by apply insert_item_sorted|]. pose proof (leaf_wf k n t Hp Ho (ta_wf _ _ _ _ Ht)) as Hwf.
    split; [rewrite insert_item_perm; by constructor|].
    intros x. rewrite (insert_item_perm (mkItem k data)). intros [->|Hx]%elem_of_cons; [by left|right].
    by apply list_elem_of_fmap_2. }
  exists d'. split; [|done]. cbn [insertIntoLeaf_rec].
  rewrite (bind_ok _ _ _ _ _ Hlvl). change (default 0 (Some (Z.of_nat n))) with (Z.of_nat n).
  unfold findLeafWithPath. rewrite Nat2Z.id.
  destruct (findLeafWithPath_ok b k n t Hm Hp root [] (ta_holds _ _ _ _ Ht)) as (pre & ph & Ef & Er').
  assert (ph = phys) as -> by congruence. rewrite (bind_ok _ _ _ _ _ Ef). cbn [app]. rewrite rev_app_distr. cbn [rev app].
  rewrite (bind_ok _ _ _ _ _ (get_sb_ok b Hm)). cbn [pe_phys pe_logical].
  rewrite (bind_ok _ _ _ _ _ (wrap_ok _ _ _ _ _ Erd)), (parseLeaf_holds _ buf _ ltac:(unfold size_ok in Hs; lia) Hl), lift_ok_bind.
  assert (zlen (t_leaf n k t) < 0xFFF0).
  { unfold size_ok, needed in *. pose proof (total_data_nonneg (t_leaf n k t)). pose proof (zlen_nonneg data). unfold nodeHeaderSize in *. lia. }
  rewrite (proj2 (Z.leb_gt _ _)), (proj2 (Z.ltb_ge _ _)) by lia. done.
Qed.

Lemma insert_item_ok b k data n (t : tree n) :
  fs_tree b n t -> k ∉ (it_key <$> flatten n t) -> key_wf k ->
  needed (t_leaf n k t) + 25 + zlen data <= nodeSize tc0 -> exists d',
    insert_item_at k data b = (Ok tt, set_dev d' b) /\
    fs_tree (set_dev d' b) n (t_modify n k (insert_item (mkItem k data)) t) /\ block_written b (fsRoot b) n t k d'.
Proof.
  intros Hft Hk Hkwf Hfit. unfold insert_item_at, fs_root, insertIntoLeaf. pose proof (ft_fuel _ _ _ Hft).
  destruct fuel as [|depth] eqn:Ef; [lia|].
  destruct (insert_at b (fsRoot b) k data n t depth (fs_tree_at _ _ _ Hft) (root_level_fs b n t Hft) Hk Hkwf Hfit) as (d' & E & Ht & Hw).
  exists d'. rewrite M_assoc, get_bind, M_left_id. split; [done|]. split; [|done]. apply at_fs_tree; [exact Ht|].
  exact (ft_level _ _ _ Hft).
Qed.
End context.
End store.
