(* ===== verification/BtrfsGrow.v ===== *)
(** The btrfs driver: insertion into a full leaf.

    [insertIntoLeaf] takes a new block, divides the items of the leaf and
    the new item between the old block and the new one, registers the new
    block in the extent tree, and gives the node above a pointer to it.  With
    room in that node and in the extent tree this is [split_leaf]. *)
From S2P Require Export BtrfsSplit BtrfsStore.

Ltac in_app := rewrite ?elem_of_cons, ?elem_of_app; auto.

Section grow.
Context {D : Type} `{Device D} {env : Env}.
Variables (tc0 : treeContext) (s : SuperBlock).
Implicit Types b : FileSystem D.

(** ** Writing a node *)

(** The block of a node is written and holds [Q]; nodes apart from it are as
    they were. *)
Definition rewritten (d d' : D) (addr : Z) (Q : list byte -> Prop) : Prop :=
  dev_ok d' /\ (exists dst, node_at d' tc0 addr = Some dst /\ Q dst) /\
  forall a, apart tc0 addr a -> node_at d' tc0 a = node_at d tc0 a.

Lemma write_back b addr buf dst phys :
  mounted tc0 s b -> node_at (dev b) tc0 addr = Some buf -> zlen dst = nodeSize tc0 ->
  resolve (chunks tc0) addr = Ok phys -> exists d',
    b_WriteAt phys dst b = (Ok tt, set_dev d' b) /\ rewritten (dev b) d' addr (eq dst).
Proof.
  intros Hm Hbuf Hl Er. destruct (m_size _ _ _ Hm) as [_ Hs].
  destruct (write_node (dev b) tc0 _ buf dst (m_dev _ _ _ Hm) Hs Hbuf Hl) as (ph & d' & Er' & Ei & Ew & Hok' & _ & Hnew & Hsame).
  assert (ph = phys) as -> by congruence. exists d'. unfold b_WriteAt. rewrite Ei, Ew. split; [done|].
  split; [done|]. split; [by exists dst|done].
Qed.

Lemma writeItemsToLeaf_ok b addr buf items :
  mounted tc0 s b -> node_at (dev b) tc0 addr = Some buf -> le_get 1 buf 100 = 0 ->
  needed items <= nodeSize tc0 -> Forall item_wf items -> exists d',
    writeItemsToLeaf addr items (NodeSize s) b = (Ok tt, set_dev d' b) /\
    rewritten (dev b) d' addr (fun dst => leaf_holds dst items).
Proof.
  intros Hm Hbuf Hl0 Hfit Hwf. destruct (m_size _ _ _ Hm) as [Hns Hs].
  destruct (read_node tc0 s b addr buf Hm Hbuf) as (phys & E & Er & Erd & El).
  destruct (packLeaf_spec buf items (Generation s) addr) as (dst & Ep & Eld & Hhold & _);
    [unfold size_ok in Hs; lia|lia|done|done|].
  destruct (write_back b addr buf dst phys Hm Hbuf ltac:(lia) Er) as (d' & Ew & Hok & (dst' & Hn & <-) & Hsame).
  exists d'. split; [|split; [done|]; split; [by exists dst|done]]. unfold writeItemsToLeaf.
  rewrite (bind_ok _ _ _ _ _ E), (bind_ok _ _ _ _ _ (catch_ok _ _ _ _ Erd)), (bind_ok _ _ _ _ _ (get_sb_ok tc0 s b Hm)).
  by rewrite Hns, <- El, Ep, lift_ok_bind.
Qed.

Lemma writePointersToNode_ok b addr buf ptrs level :
  mounted tc0 s b -> node_at (dev b) tc0 addr = Some buf -> nodeHeaderSize + zlen ptrs * 33 <= nodeSize tc0 ->
  Forall ptr_wf ptrs -> 0 <= level < 2 ^ 8 -> 0 <= Generation s < 2 ^ 64 -> exists d',
    writePointersToNode addr ptrs level (NodeSize s) b = (Ok tt, set_dev d' b) /\
    rewritten (dev b) d' addr (fun dst => node_holds dst level (stamped (Generation s) <$> ptrs)).
Proof.
  intros Hm Hbuf Hfit Hwf Hlvl Hg. destruct (m_size _ _ _ Hm) as [Hns Hs]. unfold size_ok in Hs.
  destruct (read_node tc0 s b addr buf Hm Hbuf) as (phys & E & Er & Erd & El).
  destruct (packNode_spec (Some buf) ptrs level (Generation s) addr (nodeSize tc0)) as (dst & Ep & Eld & Hhold & _);
    [unfold nodeHeaderSize in Hs; lia|done|done|done|done|naive_solver|].
  destruct (write_back b addr buf dst phys Hm Hbuf Eld Er) as (d' & Ew & Hok & (dst' & Hn & <-) & Hsame).
  exists d'. split; [|split; [done|]; split; [by exists dst|done]]. unfold writePointersToNode, b_readNode.
  rewrite (bind_ok _ _ _ _ _ E), (bind_ok _ _ _ _ _ (catch_ok _ _ _ _ Erd)), (bind_ok _ _ _ _ _ (get_sb_ok tc0 s b Hm)).
  by rewrite Hns, Ep, lift_ok_bind.
Qed.

(** What is stored in a node are pointers of the right widths. *)
Lemma node_holds_wf buf level ptrs : node_holds buf level ptrs -> Forall ptr_wf ptrs.
Proof.
  intros (_ & _ & Hat). apply Forall_forall. intros p (i & Hi)%list_elem_of_lookup. destruct (Hat i p Hi) as (_ & (K1 & K2 & K3) & F & _).
  unfold ptr_wf, key_wf. rewrite <- K1, <- K2, <- K3, <- F. split_and!; apply le_get_range.
Qed.

(** ** The node above the leaf *)
Lemma node_in_nodes k n addr (t : tree (S n)) :
  proper (S n) t -> forall a, a ∈ nodes 1 (t_node_addr n k addr t) (t_node n k t) -> a ∈ nodes (S n) addr t.
Proof.
  intros Hp. revert n t Hp addr. refine (node_path_ind k _ _ _); [done|]. intros n l1 c l2 Hb _ _ _ _ _ IH addr a.
  rewrite (t_node_child k l1 l2 c Hb), (t_node_addr_child k l1 l2 c Hb), (nodes_child (S n)).
  intros Ha%IH. in_app.
Qed.

(** Writing in the blocks of that node and its leaves. *)
Lemma holds_alter (d d' : D) k F n (t : tree (S n)) :
  proper (S n) t -> forall addr, StronglySorted (apart tc0) (nodes (S n) addr t) -> holds d tc0 (S n) addr t ->
  holds d' tc0 1 (t_node_addr n k addr t) (F (t_node n k t)) ->
  (forall a, a ∈ nodes (S n) addr t ->
     (forall a', a' ∈ nodes 1 (t_node_addr n k addr t) (t_node n k t) -> apart tc0 a' a) -> node_at d' tc0 a = node_at d tc0 a) ->
  holds d' tc0 (S n) addr (t_alter n k F t).
Proof.
  revert n t. refine (node_path_ind k _ _ _); [done|].
  intros n l1 c l2 Hb _ _ _ _ Hp IH addr Hss (buf & Hbuf & Hn & Hkids). pose proof (node_in_nodes k n (ip_blockptr c.1) c.2 Hp) as Hin.
  rewrite (t_node_child k l1 l2 c Hb), (t_node_addr_child k l1 l2 c Hb), (t_alter_child k l1 l2 c Hb).
  rewrite (nodes_child (S n)) in Hss |- *. apply StronglySorted_cons in Hss as [Haddr Hss].
  apply StronglySorted_app in Hss as (H1r & _ & (Hc2 & Hsc & _)%StronglySorted_app).
  rewrite Forall_forall in Haddr. intros Hnew Hsame. exists buf. split; [|split].
  - rewrite Hsame; [done|by left|]. intros a' Ha'. apply apart_sym, Haddr. in_app.
  - rewrite map_app in *. exact Hn.
  - apply Forall_app in Hkids as [Hk1 Hk2]. inversion_clear Hk2 as [|? ? Hkc Hk3].
    apply Forall_app. split; [|constructor; [apply IH; [done..|]|]].
    + rewrite Forall_forall in Hk1 |- *. intros x Hx. eapply holds_frame; [|by apply Hk1]. intros a Ha.
      pose proof (elem_nodes (S n) l1 x a Hx Ha). apply Hsame; [in_app|]. intros a' Ha'. apply apart_sym, H1r; in_app.
    + intros a Ha Hap. apply Hsame; [in_app|done].
    + rewrite Forall_forall in Hk3 |- *. intros x Hx. eapply holds_frame; [|by apply Hk3]. intros a Ha.
      pose proof (elem_nodes (S n) l2 x a Hx Ha). apply Hsame; [in_app|]. intros a' Ha'. apply Hc2; in_app.
Qed.

Lemma fit_alter m k F n (t : tree (S n)) :
  proper (S n) t -> leaves_fit tc0 m (S n) t -> leaves_fit tc0 m 1 (F (t_node n k t)) -> leaves_fit tc0 m (S n) (t_alter n k F t).
Proof.
  revert n t. refine (node_path_ind k _ _ _); [done|]. intros n l1 c l2 Hb _ _ _ _ _ IH Hf.
  rewrite (t_node_child k l1 l2 c Hb), (t_alter_child k l1 l2 c Hb). intros Hn.
  apply Forall_app in Hf as [Hf1 Hf2]. inversion_clear Hf2 as [|? ? Hc Hf3]. apply Forall_app.
  split; [done|]. constructor; [by apply IH|done].
Qed.

Lemma node_fit m k n (t : tree (S n)) : proper (S n) t -> leaves_fit tc0 m (S n) t -> leaves_fit tc0 m 1 (t_node n k t).
Proof.
  revert n t. refine (node_path_ind k _ _ _); [done|]. intros n l1 c l2 Hb _ _ _ _ _ IH Hf.
  rewrite (t_node_child k l1 l2 c Hb). apply Forall_app in Hf as [_ Hf]. inversion_clear Hf. by apply IH.
Qed.

Lemma holds_node (d : D) k n (t : tree (S n)) :
  proper (S n) t -> forall addr, holds d tc0 (S n) addr t -> holds d tc0 1 (t_node_addr n k addr t) (t_node n k t).
Proof.
  revert n t. refine (node_path_ind k _ _ _); [done|]. intros n l1 c l2 Hb _ _ _ _ _ IH addr (buf & _ & _ & Hkids).
  rewrite (t_node_child k l1 l2 c Hb), (t_node_addr_child k l1 l2 c Hb). apply IH.
  apply Forall_app in Hkids as [_ Hkids]. by inversion_clear Hkids.
Qed.

(** The path that the search finds ends with that node and the leaf. *)
Lemma findLeafWithPath_node b k n (t : tree (S n)) :
  mounted tc0 s b -> proper (S n) t -> forall addr path, holds (dev b) tc0 (S n) addr t -> exists pre ph1 i ph0,
    findLeafWithPath_loop (S n) k addr path b =
      (Ok (path ++ pre ++ [mkPathElement (t_node_addr n k addr t) ph1 1 i; mkPathElement (t_addr (S n) k addr t) ph0 0 (-1)]), b) /\
    resolve (chunks tc0) (t_addr (S n) k addr t) = Ok ph0.
Proof.
  intros Hm. revert n t. refine (node_path_ind k _ _ _).
  - intros t Hp addr path Hh. destruct (best_child (n := 0) k t (proj1 Hp)) as (l1 & c & l2 & -> & Hb & Hsc & _).
    destruct Hp as [_ [_ Hp]%Forall_app]. inversion_clear Hp as [|? ? [Hnz _] _].
    destruct (findLeafWithPath_step tc0 s b k 0 l1 l2 c addr path Hm Hsc Hnz Hh) as (Hc & phys & ->).
    destruct (findLeafWithPath_ok tc0 s b k 0 c.2 Hm I _ (path ++ [mkPathElement addr phys 1 (zlen l1)]) Hc) as (pre & ph & E & Er).
    rewrite (t_addr_child (n := 0) k addr l1 l2 c Hb). exists [], phys, (zlen l1), ph. split; [|done].
    destruct Hc as (buf & Hbuf & _). destruct (read_node tc0 s b _ buf Hm Hbuf) as (ph' & E' & Er' & _). cbn [t_addr] in Er.
    assert (ph' = ph) as -> by congruence. cbn [findLeafWithPath_loop t_node_addr t_addr app].
    by rewrite (bind_ok _ _ _ _ _ E'), <- app_assoc.
  - intros n l1 c l2 Hb Hsc _ _ [_ Hp] _ IH addr path Hh.
    apply Forall_app in Hp as [_ Hp]. inversion_clear Hp as [|? ? [Hnz _] _].
    rewrite (t_addr_child (n := S n) k addr l1 l2 c Hb), (t_node_addr_child k l1 l2 c Hb).
    destruct (findLeafWithPath_step tc0 s b k (S n) l1 l2 c addr path Hm Hsc Hnz Hh) as (Hc & phys & ->).
    destruct (IH (ip_blockptr c.1) (path ++ [mkPathElement addr phys (Z.of_nat (S (S n))) (zlen l1)]) Hc) as (pre & ph1 & i & ph0 & E & Er).
    exists (mkPathElement addr phys (Z.of_nat (S (S n))) (zlen l1) :: pre), ph1, i, ph0. split; [|done].
    rewrite E. by rewrite <- app_assoc.
Qed.

(** ** The steps of a split *)

(** The tree of the file system and the extent tree, with no block in
    common. *)
Record two_trees b (n : nat) (t : tree n) (ne : nat) (te : tree ne) : Prop := {
  tt_fs : fs_tree tc0 s b n t;
  tt_ext : tree_at tc0 s b (extentRoot b) ne te;
  tt_roots : extentRoot b <> 0 /\ extentRoot b <> fsRoot b;
  tt_level : extentRootLvl b = Z.of_nat ne;
  tt_indexed : indexed n t;
  tt_apart : StronglySorted (apart tc0) (nodes n (fsRoot b) t ++ nodes ne (extentRoot b) te)
}.

(** The two halves of the leaf. *)
Lemma write_halves b la x old new L R :
  mounted tc0 s b -> node_at (dev b) tc0 la = Some old -> le_get 1 old 100 = 0 ->
  node_at (dev b) tc0 x = Some new -> le_get 1 new 100 = 0 -> apart tc0 x la ->
  needed L <= nodeSize tc0 -> needed R <= nodeSize tc0 -> Forall item_wf L -> Forall item_wf R -> exists d1 d2,
    writeItemsToLeaf la L (NodeSize s) b = (Ok tt, set_dev d1 b) /\
    writeItemsToLeaf x R (NodeSize s) (set_dev d1 b) = (Ok tt, set_dev d2 b) /\ dev_ok d2 /\
    holds d2 tc0 0 la L /\ holds d2 tc0 0 x R /\
    forall a, apart tc0 la a -> apart tc0 x a -> node_at d2 tc0 a = node_at (dev b) tc0 a.
Proof.
  intros Hm Hold Hl0 Hnew Hx0 Hap HfL HfR HwL HwR.
  destruct (writeItemsToLeaf_ok b la old L Hm Hold Hl0 HfL HwL) as (d1 & E1 & Hok1 & (dl & Hdl & HL) & Hs1).
  assert (Hm1 : mounted tc0 s (set_dev d1 b)) by by apply mounted_set_dev.
  assert (Hnew1 : node_at (dev (set_dev d1 b)) tc0 x = Some new).
  { cbn [dev set_dev]. rewrite Hs1; [done|]. by apply apart_sym. }
  destruct (writeItemsToLeaf_ok (set_dev d1 b) x new R Hm1 Hnew1 Hx0 HfR HwR) as (d2 & E2 & Hok2 & (dr & Hdr & HR) & Hs2).
  cbn [dev set_dev] in Hs2. exists d1, d2. split; [exact E1|]. split; [exact E2|]. split; [done|]. split; [|split; [by exists dr|]].
  - exists dl. rewrite Hs2 by done. done.
  - intros a Ha Hxa. by rewrite Hs2, Hs1.
Qed.

(** The new block is entered in the extent tree. *)
Definition block_extent (x : Z) : key := mkKey x BTRFS_EXTENT_ITEM_KEY (NodeSize s).

Lemma registerExtent_ok b ne (te : tree ne) x depth :
  tree_at tc0 s b (extentRoot b) ne te -> extentRoot b <> 0 -> extentRoot b <> fsRoot b -> extentRootLvl b = Z.of_nat ne ->
  block_extent x ∉ (it_key <$> flatten ne te) -> key_wf (block_extent x) ->
  needed (t_leaf ne (block_extent x) te) + 49 <= nodeSize tc0 -> exists d' te' payload,
    registerExtent (insertIntoLeaf_rec (S depth)) x (NodeSize s) b = (Ok tt, set_dev d' b) /\
    tree_at tc0 s (set_dev d' b) (extentRoot b) ne te' /\
    flatten ne te' = insert_item (mkItem (block_extent x) payload) (flatten ne te) /\
    nodes ne (extentRoot b) te' = nodes ne (extentRoot b) te /\
    forall a, Forall (fun a' => apart tc0 a' a) (nodes ne (extentRoot b) te) -> node_at d' tc0 a = node_at (dev b) tc0 a.
Proof.
  intros Ht Hnz Hroots Hlvl Hk Hwf Hroom. pose proof (ta_mounted _ _ _ _ _ _ Ht) as Hm. pose proof (ta_proper _ _ _ _ _ _ Ht) as Hp.
  assert (Hpay : exists payload, (p <- putUint64 (zeros 24) 0 1 ;; p <- putUint64 p 8 (Generation s) ;; putUint64 p 16 1) = Ok payload /\
    zlen payload = 24).
  { assert (zlen (zeros 24) = 24) by reflexivity. repeat put_field. eexists. split; [reflexivity|].
    by rewrite (proj1 W1), (proj1 W0), (proj1 W). }
  destruct Hpay as (payload & Epay & Hlp).
  assert (Hrl : root_level (extentRoot b) b = (Ok (Some (Z.of_nat ne)), b)).
  { unfold root_level. rewrite get_bind, (proj2 (Z.eqb_neq _ _)), Z.eqb_refl by done. by rewrite Hlvl. }
  destruct (insert_at tc0 s b (extentRoot b) (block_extent x) payload ne te depth Ht Hrl Hk Hwf) as (d' & E & Ht' & phys & _ & _ & Hsame);
    [rewrite Hlp; lia|].
  exists d', (t_modify ne (block_extent x) (insert_item (mkItem (block_extent x) payload)) te), payload. split; [|split; [done|split; [|split]]].
  - unfold registerExtent. rewrite get_bind, (proj2 (Z.eqb_neq _ _)) by done. rewrite (bind_ok _ _ _ _ _ (get_sb_ok tc0 s b Hm)).
    by rewrite Epay, lift_ok_bind.
  - exact (flatten_insert (mkItem (block_extent x) payload) ne te Hp (ta_ordered _ _ _ _ _ _ Ht)).
  - by apply nodes_modify.
  - intros a Ha. apply Hsame. rewrite Forall_forall in Ha. apply Ha. by apply addr_in_nodes.
Qed.

(** The node above gets the new pointer. *)
Lemma insertPtrIntoParent_room b (insert : Z -> key -> list byte -> BT D unit) parent rpath root p buf level ptrs :
  mounted tc0 s b -> node_at (dev b) tc0 (pe_logical parent) = Some buf -> node_holds buf level ptrs -> pe_level parent = level ->
  ptr_wf p -> nodeHeaderSize + (zlen ptrs + 1) * 33 <= nodeSize tc0 -> 0 <= Generation s < 2 ^ 64 -> exists d',
    insertPtrIntoParent insert (parent :: rpath) root p (NodeSize s) b = (Ok tt, set_dev d' b) /\
    rewritten (dev b) d' (pe_logical parent) (fun dst => node_holds dst level (stamped (Generation s) <$> insert_ptr p ptrs)).
Proof.
  intros Hm Hbuf Hn Hlvl Hp Hroom Hg. destruct (m_size _ _ _ Hm) as [Hns Hs]. unfold size_ok in Hs.
  destruct (read_node tc0 s b _ buf Hm Hbuf) as (phys & E & Er & Erd & El).
  assert (Hlen : zlen (insert_ptr p ptrs) = zlen ptrs + 1).
  { unfold zlen. rewrite (Permutation_length (insert_ptr_perm p ptrs)). cbn [length]. lia. }
  destruct (writePointersToNode_ok b (pe_logical parent) buf (insert_ptr p ptrs) level Hm Hbuf) as (d' & Ew & Hrw); [lia| | |done|].
  { rewrite insert_ptr_perm. constructor; [done|]. by eapply node_holds_wf. }
  { destruct Hn as [<- _]. apply le_get_range. }
  exists d'. split; [|done]. cbn [insertPtrIntoParent]. rewrite (bind_ok _ _ _ _ _ E). unfold b_readNode.
  rewrite (bind_ok _ _ _ _ _ Erd), (node_ptrs_holds buf level ptrs ltac:(lia) Hn), lift_ok_bind. cbn zeta.
  rewrite (proj2 (Z.ltb_ge _ _)) by lia. by rewrite Hlvl.
Qed.

(** ** The trees after a split *)
Lemma apart_perm (l l' : list Z) : l ≡ₚ l' -> StronglySorted (apart tc0) l -> StronglySorted (apart tc0) l'.
Proof.
  induction 1 as [|x l l' Hp IH|x y l|l1 l2 l3 _ IH1 _ IH2]; [done| | |by auto].
  - intros [Hx Hl]%StronglySorted_cons. constructor; [by apply IH|]. by rewrite <- Hp.
  - rewrite !StronglySorted_cons. intros [Hy [Hx Hl]]. inversion_clear Hy as [|? ? Hyx Hy']. split_and!; [|done|done].
    constructor; [by apply apart_sym|done].
Qed.

Lemma node_apart k n (t : tree (S n)) addr :
  proper (S n) t -> StronglySorted (apart tc0) (nodes (S n) addr t) ->
  StronglySorted (apart tc0) (nodes 1 (t_node_addr n k addr t) (t_node n k t)).
Proof.
  intros Hp. revert n t Hp addr. refine (node_path_ind k _ _ _); [done|]. intros n l1 c l2 Hb _ _ _ _ _ IH addr.
  rewrite (t_node_child k l1 l2 c Hb), (t_node_addr_child k l1 l2 c Hb), (nodes_child (S n)).
  intros [_ (_ & _ & (_ & Hc & _)%StronglySorted_app)%StronglySorted_app]%StronglySorted_cons. by apply IH.
Qed.

(** The node above and its leaves. *)
Lemma split_holds (d d' : D) g x it na (t : tree 1) :
  let k := it_key it in let all := insert_item it (t_leaf 1 k t) in
  proper 1 t -> StronglySorted (apart tc0) (nodes 1 na t) -> holds d tc0 1 na t ->
  (exists buf, node_at d' tc0 na = Some buf /\ node_holds buf 1 (map fst (split_node g x it t))) ->
  holds d' tc0 0 (t_addr 1 k na t) (left_half all) -> holds d' tc0 0 x (right_half all) ->
  (forall a, a ∈ nodes 1 na t -> apart tc0 na a -> apart tc0 (t_addr 1 k na t) a -> node_at d' tc0 a = node_at d tc0 a) ->
  holds d' tc0 1 na (split_node g x it t).
Proof.
  intros k all Hp Hss (buf0 & _ & _ & Hkids) (buf & Hbuf & Hn) HL HR Hsame. exists buf. split; [done|]. split; [exact Hn|]. clear Hn.
  destruct (best_child (n := 0) k t (proj1 Hp)) as (l1 & c & l2 & -> & Hb & _). unfold all in HL, HR.
  rewrite (split_node_child g x it l1 l2 c Hb). rewrite (t_leaf_child (n := 0) k l1 l2 c Hb) in HL, HR.
  rewrite (t_addr_child (n := 0) k na l1 l2 c Hb) in HL, Hsame. cbn [t_leaf t_addr] in HL, HR, Hsame.
  rewrite (nodes_child 0) in Hss, Hsame. apply StronglySorted_cons in Hss as [Hna Hss].
  apply StronglySorted_app in Hss as (H1r & _ & (Hc2 & _ & _)%StronglySorted_app). rewrite Forall_forall in Hna.
  apply Forall_app in Hkids as [Hk1 Hk2]. inversion_clear Hk2 as [|? ? Hkc Hk3].
  assert (Hin : ip_blockptr c.1 ∈ nodes 0 (ip_blockptr c.1) c.2) by (cbn; by apply list_elem_of_singleton).
  unfold restamp. rewrite Forall_fmap. apply Forall_app. split; [|constructor; [exact HL|constructor; [exact HR|]]].
  - rewrite Forall_forall in Hk1 |- *. intros y Hy. change (holds d' tc0 0 (ip_blockptr y.1) y.2). eapply holds_frame; [|by apply Hk1]. intros a Ha.
    pose proof (elem_nodes 0 l1 y a Hy Ha). apply Hsame; [in_app|apply Hna; in_app|apply apart_sym, H1r; in_app].
  - rewrite Forall_forall in Hk3 |- *. intros y Hy. change (holds d' tc0 0 (ip_blockptr y.1) y.2). eapply holds_frame; [|by apply Hk3]. intros a Ha.
    pose proof (elem_nodes 0 l2 y a Hy Ha). apply Hsame; [in_app|apply Hna; in_app|apply Hc2; in_app].
Qed.

Lemma split_fit g x it (t : tree 1) :
  let all := insert_item it (t_leaf 1 (it_key it) t) in
  proper 1 t -> leaves_fit tc0 0 1 t -> needed (left_half all) <= nodeSize tc0 -> needed (right_half all) <= nodeSize tc0 ->
  leaves_fit tc0 0 1 (split_node g x it t).
Proof.
  intros all Hp Hf HL HR. destruct (best_child (n := 0) (it_key it) t (proj1 Hp)) as (l1 & c & l2 & -> & Hb & _). unfold all in HL, HR.
  rewrite (t_leaf_child (n := 0) _ l1 l2 c Hb) in HL, HR. rewrite (split_node_child g x it l1 l2 c Hb). cbn [t_leaf] in HL, HR.
  apply Forall_app in Hf as [Hf1 Hf2]. inversion_clear Hf2 as [|? ? _ Hf3]. unfold restamp. cbn [leaves_fit]. rewrite Forall_fmap.
  apply Forall_app. split; [exact Hf1|]. constructor; [|constructor; [|exact Hf3]].
  - change (needed (left_half (insert_item it c.2)) + 0 <= nodeSize tc0). lia.
  - change (needed (right_half (insert_item it c.2)) + 0 <= nodeSize tc0). lia.
Qed.

(** ** Insertion with a split *)

(** What a split needs: an item that the leaf has no room for, halves that
    fit, room for a pointer in the node above, a new block [x] apart from
    the others whose old contents have level 0, and room in the extent
    tree for its extent. *)
Record room_to_split b (n : nat) (t : tree (S n)) (ne : nat) (te : tree ne) (it : itemEntry) (x : Z) : Prop := {
  rs_key : it_key it ∉ (it_key <$> flatten (S n) t);
  rs_wf : item_wf it;
  rs_covers : covers (S n) (it_key it) t;
  rs_full : nodeSize tc0 < needed (insert_item it (t_leaf (S n) (it_key it) t));
  rs_left : needed (left_half (insert_item it (t_leaf (S n) (it_key it) t))) <= nodeSize tc0;
  rs_right : needed (right_half (insert_item it (t_leaf (S n) (it_key it) t))) <= nodeSize tc0;
  rs_node : nodeHeaderSize + (zlen (t_node n (it_key it) t : list (internalKeyPtr * tree 0)) + 1) * 33 <= nodeSize tc0;
  rs_space : exists phys, allocateSpace (NodeSize s) BTRFS_BLOCK_GROUP_METADATA b = (Ok (x, phys), b);
  rs_block : exists buf, node_at (dev b) tc0 x = Some buf /\ le_get 1 buf 100 = 0;
  rs_addr : 0 < x < 2 ^ 64;
  rs_apart : Forall (apart tc0 x) (nodes (S n) (fsRoot b) t ++ nodes ne (extentRoot b) te);
  rs_extent : block_extent x ∉ (it_key <$> flatten ne te);
  rs_extent_room : needed (t_leaf ne (block_extent x) te) + 49 <= nodeSize tc0;
  rs_generation : 0 <= Generation s < 2 ^ 64
}.

(** An empty leaf has no two halves that fit. *)
Lemma full_leaf_nonempty b n t ne te it x :
  room_to_split b n t ne te it x -> t_leaf (S n) (it_key it) t <> [].
Proof. intros Hr E. pose proof (rs_full _ _ _ _ _ _ _ Hr) as Hf. pose proof (rs_right _ _ _ _ _ _ _ Hr) as Hn. rewrite E in *. cbn [insert_item] in *. unfold right_half in Hn. cbn in *. lia. Qed.

(** The change of the node above the leaf. *)
Lemma room_node_change b n t ne te it x :
  two_trees b (S n) t ne te -> room_to_split b n t ne te it x ->
  node_change (it_key it) x (insert_item it) (t_node n (it_key it) t) (split_node (Generation s) x it (t_node n (it_key it) t)).
Proof.
  intros Htt Hr. pose proof (tt_fs _ _ _ _ _ Htt) as Hft. pose proof (ft_proper _ _ _ _ _ Hft) as Hp. pose proof (ft_ordered _ _ _ _ _ Hft) as Ho.
  destruct (leaf_in_node (it_key it) n t (fsRoot b) Hp) as [El _].
  destruct (node_indexed (it_key it) n t Hp (tt_indexed _ _ _ _ _ Htt) (rs_covers _ _ _ _ _ _ _ Hr)) as [Hi Hc].
  apply split_node_change; [by apply node_proper|by apply node_ordered|done|done| | |].
  - rewrite <- El, <- (key_in_leaf (it_key it) (S n) t Hp Ho). exact (rs_key _ _ _ _ _ _ _ Hr).
  - rewrite <- El. by eapply full_leaf_nonempty.
  - pose proof (rs_addr _ _ _ _ _ _ _ Hr). lia.
Qed.

Lemma tree_at_frame b d' root n (t : tree n) :
  tree_at tc0 s b root n t -> dev_ok d' -> (forall a, a ∈ nodes n root t -> node_at d' tc0 a = node_at (dev b) tc0 a) ->
  tree_at tc0 s (set_dev d' b) root n t.
Proof. intros [] Hok Hsame. split; try done; [by apply mounted_set_dev|]. by eapply holds_frame. Qed.

Lemma leaf_apart k na (t : tree 1) :
  proper 1 t -> StronglySorted (apart tc0) (nodes 1 na t) -> apart tc0 na (t_addr 1 k na t).
Proof.
  intros Hp Hss. destruct (best_child (n := 0) k t (proj1 Hp)) as (l1 & c & l2 & -> & Hb & _).
  rewrite (t_addr_child (n := 0) k na l1 l2 c Hb). rewrite (nodes_child 0) in Hss. apply StronglySorted_cons in Hss as [Hna _].
  rewrite Forall_forall in Hna. apply Hna. cbn [nodes]. in_app. right; left. by apply list_elem_of_singleton.
Qed.

(** The leaf and the node above it are blocks of the tree. *)
Lemma leaf_and_node k n addr (t : tree (S n)) :
  proper (S n) t -> StronglySorted (apart tc0) (nodes (S n) addr t) ->
  let na := t_node_addr n k addr t in let la := t_addr (S n) k addr t in
  na ∈ nodes (S n) addr t /\ la ∈ nodes (S n) addr t /\ la ∈ nodes 1 na (t_node n k t) /\ na ∈ nodes 1 na (t_node n k t) /\ apart tc0 na la.
Proof.
  intros Hp Hss na la. pose proof (node_in_nodes k n addr t Hp) as Hin. destruct (leaf_in_node k n t addr Hp) as [_ El].
  pose proof (node_apart k n t addr Hp Hss) as Hs1. pose proof (node_proper k n t Hp) as Hp1.
  pose proof (addr_in_nodes k 1 na (t_node n k t) Hp1) as Hla. fold na in El. rewrite <- El in Hla.
  split_and!; [apply Hin; by left|by apply Hin|done|by left|]. unfold la. rewrite El. by apply leaf_apart.
Qed.

(** The two halves and the extent are written. *)
Lemma split_blocks b n t ne te it x depth :
  two_trees b (S n) t ne te -> room_to_split b n t ne te it x ->
  let k := it_key it in let all := insert_item it (t_leaf (S n) k t) in let la := t_addr (S n) k (fsRoot b) t in
  exists d1 d2 d3 te' payload,
    writeItemsToLeaf la (left_half all) (NodeSize s) b = (Ok tt, set_dev d1 b) /\
    writeItemsToLeaf x (right_half all) (NodeSize s) (set_dev d1 b) = (Ok tt, set_dev d2 b) /\
    registerExtent (insertIntoLeaf_rec (S depth)) x (NodeSize s) (set_dev d2 b) = (Ok tt, set_dev d3 b) /\
    tree_at tc0 s (set_dev d3 b) (extentRoot b) ne te' /\
    flatten ne te' = insert_item (mkItem (block_extent x) payload) (flatten ne te) /\
    nodes ne (extentRoot b) te' = nodes ne (extentRoot b) te /\
    holds d3 tc0 0 la (left_half all) /\ holds d3 tc0 0 x (right_half all) /\ Forall item_wf all /\
    (forall a, a ∈ nodes (S n) (fsRoot b) t -> apart tc0 la a -> node_at d3 tc0 a = node_at (dev b) tc0 a).
Proof.
  intros [Hft Hte [Her0 Hroots] Hlvl Hi Hss] [Hk Hwf _ Hfull HL HR _ _ (nb & Hnb & Hx0) Hx Hxap Hek Her Hg] k all la.
  fold k in Hfull, HL, HR. fold all in Hfull, HL, HR.
  pose proof (ft_mounted _ _ _ _ _ Hft) as Hm. pose proof (ft_proper _ _ _ _ _ Hft) as Hp. pose proof (ft_ordered _ _ _ _ _ Hft) as Ho.
  apply StronglySorted_app in Hss as (Hfe & Hsf & Hse). apply Forall_app in Hxap as [Hxf Hxe]. rewrite Forall_forall in Hxf, Hxe.
  pose proof (addr_in_nodes k (S n) (fsRoot b) t Hp) as Hla. fold la in Hla.
  destruct (holds_leaf (dev b) tc0 k (S n) t Hp _ (ft_holds _ _ _ _ _ Hft)) as (old & Hold & Hl0 & _). fold la in Hold.
  assert (Hwfs : Forall item_wf all).
  { unfold all. rewrite insert_item_perm. constructor; [done|]. exact (leaf_wf k (S n) t Hp Ho (ft_wf _ _ _ _ _ Hft)). }
  pose proof Hwfs as HwLR. rewrite <- (take_drop (length all / 2) all) in HwLR. apply Forall_app in HwLR as [HwL HwR].
  destruct (write_halves b la x old nb (left_half all) (right_half all) Hm Hold Hl0 Hnb Hx0 (Hxf _ Hla) HL HR HwL HwR)
    as (d1 & d2 & E1 & E2 & Hok2 & HhL & HhR & Hs2).
  assert (Hte2 : tree_at tc0 s (set_dev d2 b) (extentRoot b) ne te).
  { apply tree_at_frame; [done|done|]. intros a Ha. apply Hs2; [by apply Hfe|by apply Hxe]. }
  destruct (registerExtent_ok (set_dev d2 b) ne te x depth Hte2 Her0 Hroots Hlvl Hek) as (d3 & te' & payload & E3 & Hte3 & Ef3 & En3 & Hs3);
    [|done|].
  { destruct (m_size _ _ _ Hm) as [Hns Hsz]. unfold size_ok, nodeHeaderSize in Hsz. unfold key_wf, block_extent. cbn [objectid typ offset].
    unfold BTRFS_EXTENT_ITEM_KEY. rewrite Hns. lia. }
  cbn [dev set_dev] in Hs3.
  assert (Hfr : forall a, (forall a', a' ∈ nodes ne (extentRoot b) te -> apart tc0 a' a) -> node_at d3 tc0 a = node_at d2 tc0 a).
  { intros a Ha. apply Hs3. by apply Forall_forall. }
  exists d1, d2, d3, te', payload. split_and!; try done.
  - eapply holds_frame; [|exact HhL]. intros a ->%list_elem_of_singleton. apply Hfr. intros a' Ha'. apply apart_sym. by apply Hfe.
  - eapply holds_frame; [|exact HhR]. intros a ->%list_elem_of_singleton. apply Hfr. intros a' Ha'. apply apart_sym. by apply Hxe.
  - intros a Ha Hal. rewrite Hfr; [apply Hs2; [done|by apply Hxf]|]. intros a' Ha'. apply apart_sym. by apply Hfe.
Qed.

(** Then the node above. *)
Lemma split_steps b n t ne te it x depth ph0 ph1 i rpath :
  two_trees b (S n) t ne te -> room_to_split b n t ne te it x ->
  let k := it_key it in let all := insert_item it (t_leaf (S n) k t) in
  let na := t_node_addr n k (fsRoot b) t in let t1 := t_node n k t in
  exists d' te' payload,
    splitLeafWithPath (insertIntoLeaf_rec (S depth)) (mkPathElement (t_addr (S n) k (fsRoot b) t) ph0 0 (-1))
      (mkPathElement na ph1 1 i :: rpath) (fsRoot b) all (NodeSize s) b = (Ok tt, set_dev d' b) /\
    tree_at tc0 s (set_dev d' b) (extentRoot b) ne te' /\
    flatten ne te' = insert_item (mkItem (block_extent x) payload) (flatten ne te) /\
    nodes ne (extentRoot b) te' = nodes ne (extentRoot b) te /\
    holds d' tc0 1 na (split_node (Generation s) x it t1) /\
    (forall a, a ∈ nodes (S n) (fsRoot b) t -> (forall a', a' ∈ nodes 1 na t1 -> apart tc0 a' a) ->
       node_at d' tc0 a = node_at (dev b) tc0 a).
Proof.
  intros Htt Hr k all na t1. pose proof (room_node_change b n t ne te it x Htt Hr) as Hch. fold k in Hch. fold t1 in Hch.
  destruct (split_blocks b n t ne te it x depth Htt Hr) as (d1 & d2 & d3 & te' & payload & E1 & E2 & E3 & Hte3 & Ef & En & HhL & HhR & Hwfs & Hs3).
  fold k all in E1, E2, HhL, HhR, Hwfs, Hs3. set (la := t_addr (S n) k (fsRoot b) t) in *.
  pose proof (full_leaf_nonempty b n t ne te it x Hr) as Hne. fold k in Hne.
  destruct Hr as [_ _ _ _ _ _ Hroom [px Halloc] _ Hx Hxap _ _ Hg]. fold k t1 in Hroom.
  destruct Htt as [Hft _ _ _ _ Hss]. pose proof (ft_mounted _ _ _ _ _ Hft) as Hm. pose proof (ft_proper _ _ _ _ _ Hft) as Hp.
  apply StronglySorted_app in Hss as (Hfe & Hsf & Hse). apply Forall_app in Hxap as [Hxf Hxe]. rewrite Forall_forall in Hxf.
  destruct (leaf_and_node k n (fsRoot b) t Hp Hsf) as (Hna & Hla & Hla1 & Hna1 & Hnl). fold la na t1 in Hna, Hla, Hla1, Hna1, Hnl.
  destruct (leaf_in_node k n t (fsRoot b) Hp) as [El Ela]. fold na t1 in El, Ela. fold la in Ela.
  pose proof (holds_node (dev b) k n t Hp _ (ft_holds _ _ _ _ _ Hft)) as Hh1. fold na t1 in Hh1.
  pose proof Hh1 as (buf & Hbuf & Hn & _).
  destruct (halves all) as (y & R & Eall & _ & ER).
  { unfold all. rewrite (Permutation_length (insert_item_perm it _)). destruct (t_leaf (S n) k t); [done|cbn; lia]. }
  destruct (insertPtrIntoParent_room (set_dev d3 b) (insertIntoLeaf_rec (S depth)) (mkPathElement na ph1 1 i) rpath (fsRoot b)
    (split_ptr x all) buf 1 (map fst t1)) as (d4 & E4 & Hok4 & (dst & Hdst & Hnew) & Hs4);
    [exact (ta_mounted _ _ _ _ _ _ Hte3)|by rewrite <- Hbuf; apply Hs3; [|by apply apart_sym]|exact Hn|done|..|done|].
  { unfold split_ptr. rewrite ER. split; [|cbn [ip_blockptr]; lia]. rewrite Eall in Hwfs. rewrite Forall_app, Forall_cons in Hwfs.
    by destruct Hwfs as (_ & ? & _). }
  { unfold zlen. rewrite length_map. exact Hroom. }
  cbn [dev set_dev pe_logical] in Hdst, Hs4. exists d4, te', payload. split; [|split; [|split; [exact Ef|split; [exact En|split]]]].
  - unfold splitLeafWithPath. rewrite (bind_ok _ _ _ _ _ (wrap_ok _ _ _ _ _ Halloc)). cbn zeta. cbn [pe_logical].
    rewrite (bind_ok _ _ _ _ _ E1), (bind_ok _ _ _ _ _ E2), (bind_ok _ _ _ _ _ (ignore_ok _ _ _ _ E3)).
    unfold right_half in ER. rewrite ER. change (index (y :: R) 0) with (Ok y). rewrite lift_ok_bind. unfold split_ptr, right_half in E4. rewrite ER in E4.
    exact E4.
  - eapply (tree_at_frame (set_dev d3 b) d4); [exact Hte3|done|]. intros a Ha. apply Hs4. apply Hfe; [done|]. by rewrite <- En.
  - apply (split_holds (dev b) d4); [by apply node_proper|by apply node_apart|exact Hh1|..].
    + exists dst. split; [done|]. rewrite (split_node_ptrs (Generation s) x it t1 (node_proper k n t Hp) Hch). fold k. rewrite <- El. exact Hnew.
    + fold k. rewrite <- El, <- Ela. eapply holds_frame; [|exact HhL]. intros a ->%list_elem_of_singleton. by apply Hs4.
    + fold k. rewrite <- El. eapply holds_frame; [|exact HhR]. intros a ->%list_elem_of_singleton. apply Hs4, apart_sym. by apply Hxf.
    + fold k. rewrite <- Ela. intros a Ha Hna' Hla'. rewrite Hs4 by done. apply Hs3; [|done]. by apply (node_in_nodes k n).
  - intros a Ha Hap. rewrite Hs4 by by apply Hap. apply Hs3; [done|]. by apply Hap.
Qed.

(** The tree of the file system after the split. *)
Lemma split_fs_tree b d' n t ne te it x :
  two_trees b (S n) t ne te -> room_to_split b n t ne te it x -> dev_ok d' ->
  let k := it_key it in let na := t_node_addr n k (fsRoot b) t in
  holds d' tc0 1 na (split_node (Generation s) x it (t_node n k t)) ->
  (forall a, a ∈ nodes (S n) (fsRoot b) t -> (forall a', a' ∈ nodes 1 na (t_node n k t) -> apart tc0 a' a) ->
     node_at d' tc0 a = node_at (dev b) tc0 a) ->
  let t' := split_leaf n (Generation s) x it t in
  fs_tree tc0 s (set_dev d' b) (S n) t' /\ indexed (S n) t' /\ flatten (S n) t' = insert_item it (flatten (S n) t) /\
  nodes (S n) (fsRoot b) t' ≡ₚ x :: nodes (S n) (fsRoot b) t.
Proof.
  intros Htt Hr Hok k na Hh Hsame t'. pose proof (room_node_change b n t ne te it x Htt Hr) as Hch.
  destruct Htt as [Hft _ _ _ Hi Hss]. destruct Hr as [_ Hwf Hcov _ HL HR _ _ _ _ Hxap _ _ _].
  apply StronglySorted_app in Hss as (_ & Hsf & _). apply Forall_app in Hxap as [Hxf _].
  pose proof Hft as [Hm Hh0 _ Hlvl Hfuel Hp Ho Hfit Hwfs].
  assert (Ef : flatten (S n) t' = insert_item it (flatten (S n) t)).
  { unfold t', split_leaf. rewrite (flatten_alter _ x (insert_item it)) by done. by apply flatten_insert. }
  assert (En : nodes (S n) (fsRoot b) t' ≡ₚ x :: nodes (S n) (fsRoot b) t) by by apply (nodes_alter _ x (insert_item it)).
  split; [|split; [|done]]; [|by apply (indexed_alter _ x (insert_item it))].
  split; cbn [dev set_dev fsRoot fsRootLvl]; [by apply mounted_set_dev|by apply (holds_alter (dev b))| |done|done|..].
  - eapply apart_perm; [symmetry; exact En|]. by constructor.
  - by apply (proper_alter _ x (insert_item it)).
  - by apply (ordered_alter _ x (insert_item it)).
  - apply fit_alter; [done|done|]. destruct (leaf_in_node k n t 0 Hp) as [El _].
    apply split_fit; [by apply node_proper|by apply node_fit|fold k; rewrite <- El; exact HL|fold k; rewrite <- El; exact HR].
  - rewrite Ef, insert_item_perm. by constructor.
Qed.

(** C6: Insertion into a full leaf: the driver takes a new block, divides the
    items, enters the block in the extent tree and gives the node above a
    pointer to it.  The items of the tree are then the old ones and the new
    one, the extent tree has one item more, for the new block, and both are
    search trees again, with no block in common and the pointers of the
    nodes in order. *)
Theorem insertIntoLeaf_splits b n t ne te it x :
  two_trees b (S n) t ne te -> room_to_split b n t ne te it x -> exists d' t' te' payload,
    insertIntoLeaf (fsRoot b) (it_key it) (it_data it) b = (Ok tt, set_dev d' b) /\
    two_trees (set_dev d' b) (S n) t' ne te' /\
    flatten (S n) t' = insert_item it (flatten (S n) t) /\
    flatten ne te' = insert_item (mkItem (block_extent x) payload) (flatten ne te) /\
    nodes (S n) (fsRoot b) t' ≡ₚ x :: nodes (S n) (fsRoot b) t.
Proof.
  intros Htt Hr. set (k := it_key it). pose proof (tt_fs _ _ _ _ _ Htt) as Hft. pose proof Hft as [Hm Hh _ Hlvl Hfuel Hp Ho Hfit _].
  unfold insertIntoLeaf. destruct fuel as [|[|depth]] eqn:Efu; [lia|lia|].
  destruct (findLeafWithPath_node b k n t Hm Hp (fsRoot b) [] Hh) as (pre & ph1 & i & ph0 & Epath & Er).
  destruct (split_steps b n t ne te it x depth ph0 ph1 i (rev pre) Htt Hr) as (d' & te' & payload & E & Hte' & Ef & En & Hh' & Hsame).
  destruct (split_fs_tree b d' n t ne te it x Htt Hr (m_dev _ _ _ (ta_mounted _ _ _ _ _ _ Hte')) Hh' Hsame) as (Hft' & Hi' & Ef' & En').
  exists d', (split_leaf n (Generation s) x it t), te', payload. split; [|split; [|done]].
  - cbn [insertIntoLeaf_rec]. rewrite (bind_ok _ _ _ _ _ (root_level_fs tc0 s b (S n) t Hft)).
    change (default 0 (Some (Z.of_nat (S n)))) with (Z.of_nat (S n)). unfold findLeafWithPath. rewrite Nat2Z.id.
    rewrite (bind_ok _ _ _ _ _ Epath). cbn [app]. rewrite rev_app_distr. cbn [rev app].
    rewrite (bind_ok _ _ _ _ _ (get_sb_ok tc0 s b Hm)). cbn [pe_phys pe_logical].
    destruct (holds_leaf (dev b) tc0 k (S n) t Hp _ Hh) as (buf & Hbuf & Hl).
    destruct (read_node tc0 s b _ buf Hm Hbuf) as (phys & _ & Er' & Erd & El). assert (phys = ph0) as -> by congruence.
    destruct (m_size _ _ _ Hm) as [Hns Hs]. unfold size_ok, nodeHeaderSize in Hs.
    rewrite (bind_ok _ _ _ _ _ (wrap_ok _ _ _ _ _ Erd)), (parseLeaf_holds _ buf _ ltac:(unfold nodeHeaderSize; lia) Hl), lift_ok_bind.
    pose proof (leaf_fit tc0 0 k (S n) t Hp Hfit) as Hlf. unfold needed, nodeHeaderSize in Hlf. pose proof (total_data_nonneg (t_leaf (S n) k t)).
    pose proof (rs_full _ _ _ _ _ _ _ Hr). rewrite (proj2 (Z.leb_gt _ _)) by lia. destruct it as [k' data]. cbn [it_key it_data] in *.
    cbn zeta. rewrite (proj2 (Z.ltb_lt _ _)) by (rewrite Hns; done). exact E.
  - destruct Htt as [_ _ Hroots Helvl _ Hss]. split; try done. cbn [dev set_dev fsRoot extentRoot].
    rewrite En. eapply apart_perm; [symmetry; apply Permutation_app_tail, En'|]. constructor; [done|].
    exact (rs_apart _ _ _ _ _ _ _ Hr).
Qed.
End grow.
