(* ===== verification/BtrfsNames.v ===== *)
(** The btrfs driver: names and inodes, as functions of the items.

    Under [fs_tree] a walk depends on the flattened list only; each lookup of
    the driver is the corresponding search of that list.  Making a file puts
    two items in. *)
From S2P Require Export BtrfsStore.

(** ** Visits *)

(** A visit that goes on at every item. *)
Lemma visit_fold {B} (cb : leafItem -> list byte -> M B unit) (g : itemEntry -> B -> B) items acc :
  (forall it x, cb (item_of it) (it_data it) x = (Ok tt, g it x)) ->
  visit cb items acc = (Ok tt, foldl (fun x it => g it x) acc items).
Proof.
  intros Hcb. unfold visit. revert acc. induction items as [|it items IH]; intros acc; [done|]. cbn [forM foldl].
  by rewrite (bind_ok _ _ _ _ _ (Hcb it acc)).
Qed.

(** A visit that stops at the first item with [p]. *)
Lemma visit_first {B} (cb : leafItem -> list byte -> M B unit) (p : itemEntry -> bool) (f : itemEntry -> B) e items acc :
  (forall it x, cb (item_of it) (it_data it) x = if p it then (Err e, f it) else (Ok tt, x)) ->
  visit cb items acc = match filter p items with [] => (Ok tt, acc) | it :: _ => (Err e, f it) end.
Proof.
  intros Hcb. unfold visit. induction items as [|it items IH]; [done|]. cbn [forM]. rewrite filter_cons.
  destruct (p it) eqn:Ep.
  - rewrite decide_True by done. apply bind_err. by rewrite Hcb, Ep.
  - rewrite decide_False by by intros []. rewrite <- IH. assert (Ec : cb (item_of it) (it_data it) acc = (Ok tt, acc)) by by rewrite Hcb, Ep.
    by rewrite (bind_ok _ _ _ _ _ Ec).
Qed.

Lemma skip_at n buf off : skip n (mkByteReader buf off) = (Ok tt, mkByteReader buf (off + n)).
Proof. done. Qed.

(** [read_fields] with the skips. *)
Ltac read_more :=
  repeat match goal with
  | |- context [mbind _ (skip ?n) (mkByteReader ?b ?o)] => rewrite (bind_ok _ _ _ _ _ (skip_at n b o))
  | |- context [mbind _ (u ?n) (mkByteReader ?b ?o)] =>
      rewrite (bind_ok _ _ _ _ _ (u_at n b o ltac:(lia) ltac:(lia)))
  end;
  change (Z.of_nat 1) with 1; change (Z.of_nat 2) with 2; change (Z.of_nat 4) with 4; change (Z.of_nat 8) with 8;
  sum_offsets.

Lemma dir_fields_at data :
  30 <= zlen data -> decode dir_fields data = Ok (le_get 8 data 0, le_get 2 data 27, le_get 1 data 29).
Proof. intros. unfold decode, dir_fields, u64, u16, u8. read_more. done. Qed.

Lemma inode_fields_at data :
  100 <= zlen data ->
  decode inode_fields data = Ok (le_get 8 data 16, le_get 4 data 40, le_get 4 data 44, le_get 4 data 48, le_get 4 data 52).
Proof. intros. unfold decode, inode_fields, u64, u32. read_more. done. Qed.

Lemma extent_fields_at data :
  22 <= zlen data ->
  extent_fields (mkByteReader data 0) =
    (Ok (le_get 8 data 8, le_get 1 data 16, le_get 1 data 17, le_get 1 data 20), mkByteReader data 21).
Proof. intros. unfold extent_fields, u64, u16, u8. read_more. done. Qed.

(** ** Searching the items *)
Definition names_entry (dirInode : Z) (name : list byte) (it : itemEntry) : bool :=
  let d := it_data it in
  is_dir_item dirInode (it_key it) && (30 <=? zlen d) && (le_get 2 d 27 =? w16 (zlen name)) &&
  (30 + le_get 2 d 27 <=? zlen d) && bool_decide (sub d 30 (le_get 2 d 27) = name).

(** The first entry of a directory with a name: its key and the inode. *)
Definition entry_in (dirInode : Z) (name : list byte) (items : list itemEntry) : option (key * Z) :=
  match filter (names_entry dirInode name) items with
  | it :: _ => Some (it_key it, le_get 8 (it_data it) 0)
  | [] => None
  end.

(** What a lookup gives when these items carry the name, in the order of
    their keys: the inode of the first one. *)
Definition leads (entries : list itemEntry) : res Z :=
  match entries with
  | it :: _ => Ok (le_get 8 (it_data it) 0)
  | [] => Err (Sentinel fs_ErrNotExist)
  end.

(** The largest value of [f] among the items with [p]. *)
Definition highest (p : key -> bool) (f : key -> Z) (items : list itemEntry) : Z :=
  foldl (fun m it => if p (it_key it) && (m <? f (it_key it)) then f (it_key it) else m) 0 items.
Definition max_inode : list itemEntry -> Z := highest (fun k => typ k =? BTRFS_INODE_ITEM_KEY) objectid.
Definition max_index (dirInode : Z) : list itemEntry -> Z :=
  highest (fun k => (objectid k =? dirInode) && (typ k =? BTRFS_DIR_INDEX_KEY)) offset.

Lemma highest_from p f items m :
  let h := foldl (fun m it => if p (it_key it) && (m <? f (it_key it)) then f (it_key it) else m) m items in
  m <= h /\ Forall (fun it => p (it_key it) = true -> f (it_key it) <= h) items.
Proof.
  revert m. induction items as [|it items IH]; intros m; [cbn; split; [lia|done]|]. cbn [foldl]. cbn zeta in *.
  destruct (p (it_key it)) eqn:Ep; cbn [andb].
  - destruct (Z.ltb_spec m (f (it_key it))) as [Hlt|Hge].
    + destruct (IH (f (it_key it))) as [H1 H2]. split; [lia|]. by constructor.
    + destruct (IH m) as [H1 H2]. split; [lia|]. constructor; [lia|done].
  - destruct (IH m) as [H1 H2]. split; [lia|]. constructor; [by rewrite Ep|done].
Qed.

Lemma highest_bound p f items k : k ∈ (it_key <$> items) -> p k = true -> f k <= highest p f items.
Proof.
  intros (it & -> & Hit)%list_elem_of_fmap Hp. destruct (highest_from p f items 0) as [_ H].
  rewrite Forall_forall in H. by apply H.
Qed.
Lemma highest_nonneg p f items : 0 <= highest p f items.
Proof. by destruct (highest_from p f items 0). Qed.

(** ** Payloads *)
Lemma makeDirItem_ok child name ft :
  0 <= child < 2 ^ 64 -> 0 <= ft < 2 ^ 8 -> zlen name < 2 ^ 16 -> exists d,
    makeDirItem child name ft = Ok d /\ zlen d = 30 + zlen name /\ le_get 8 d 0 = child /\
    le_get 2 d 27 = zlen name /\ le_get 1 d 29 = ft /\ sub d 30 (zlen name) = name.
Proof.
  intros Hc Hf Hn. pose proof (zlen_nonneg name). unfold makeDirItem.
  assert (Hz : zlen (zeros (30 + zlen name)) = 30 + zlen name) by zlen.
  repeat put_field. change (Z.of_nat 1) with 1 in *; change (Z.of_nat 2) with 2 in *; change (Z.of_nat 8) with 8 in *.
  assert (Hl : zlen l'5 = 30 + zlen name).
  { repeat match goal with W : wrote _ ?l _ _ |- context [zlen ?l] => rewrite (proj1 W) end. done. }
  rewrite copy_at_in by lia. eexists. split; [reflexivity|]. split; [by rewrite zlen_put|].
  rewrite !le_get_put_disj by lia. split; [|split; [|split]].
  - field_kept. rewrite G. apply Z.mod_small. lia.
  - field_kept. rewrite G4, w16_id by lia. apply Z.mod_small. lia.
  - rewrite G5. apply Z.mod_small. lia.
  - apply sub_put_same; lia.
Qed.

(** The item of a new inode. *)
Lemma new_inode_ok `{Env} generation mode :
  0 <= mode < 2 ^ 32 -> exists d,
    (data <- putUint64 (zeros 160) 0 generation ;;
     data <- putUint64 data 8 generation ;;
     data <- putUint64 data 24 0 ;;
     data <- putUint32 data 40 1 ;;
     data <- putUint32 data 44 0 ;;
     data <- putUint32 data 48 0 ;;
     data <- putUint32 data 52 mode ;;
     data <- putUint32 data 56 0 ;;
     data <- putUint64 data 60 0 ;;
     data <- put_time data 96 ;;
     data <- put_time data 108 ;;
     data <- put_time data 120 ;;
     put_time data 132) = Ok d /\ zlen d = 160 /\ le_get 8 d 16 = 0 /\ le_get 4 d 40 = 1 /\ le_get 4 d 52 = mode.
Proof.
  intros Hm. unfold put_time. assert (Hz : zlen (zeros 160) = 160) by zlen. assert (H16 : le_get 8 (zeros 160) 16 = 0) by done.
  repeat put_field. eexists. split; [reflexivity|].
  change (Z.of_nat 4) with 4 in *; change (Z.of_nat 8) with 8 in *. split; [|split; [|split]].
  - repeat match goal with W : wrote _ ?l _ _ |- context [zlen ?l] => rewrite (proj1 W) end. done.
  - by field_kept.
  - field_kept. rewrite G2. done.
  - field_kept. rewrite G5. apply Z.mod_small. lia.
Qed.

Section names.
Context {D : Type} `{Device D} {env : Env} `{Codecs} {tc0 : treeContext} {s : SuperBlock}.
Implicit Types b : FileSystem D.

(** The outcome of a walk. *)
Definition walked {B} (r : res unit * B) : res (B * option error) :=
  match r with
  | (Ok _, x) => Ok (x, None)
  | (Err e, x) => Ok (x, Some e)
  | (Panic, _) => Panic
  | (OutOfFuel, _) => OutOfFuel
  end.

Lemma walk_held {B} b n addr (t : tree n) (acc : B) cb :
  mounted tc0 s b -> holds (dev b) tc0 n addr t -> (n < fuel)%nat -> key_only cb ->
  b_walk addr acc cb b = (walked (visit cb (flatten n t) acc), b).
Proof.
  intros Hm Ht Hf Hcb. unfold b_walk. rewrite (bind_ok _ _ _ _ _ (get_tc_ok tc0 s b Hm)), get_bind. unfold walkTree.
  rewrite (walk_tree cb Hcb (dev b) tc0 n addr t fuel acc (m_dev _ _ _ Hm) (proj2 (m_size _ _ _ Hm)) Ht Hf).
  unfold captured. by destruct (visit cb (flatten n t) acc) as [[?|?| |] ?].
Qed.

Lemma walk_fs {B} b n t (acc : B) cb :
  fs_tree tc0 s b n t -> key_only cb -> walkFSTree acc cb b = (walked (visit cb (flatten n t) acc), b).
Proof.
  intros Hft Hcb. unfold walkFSTree. rewrite get_bind. apply walk_held; [|apply Hft..|done].
  apply (ft_mounted _ _ _ _ _ Hft).
Qed.

(** A lookup that stops at the first item. *)
Lemma match_entry_at dirInode name it x :
  match_entry dirInode name (item_of it) (it_data it) x =
    if names_entry dirInode name it then (Err found, Some (it_key it, le_get 8 (it_data it) 0)) else (Ok tt, x).
Proof.
  unfold match_entry, names_entry. cbn [item_of li_key].
  destruct (is_dir_item _ _); cbn [negb orb andb]; [|done].
  destruct (Z.ltb_spec (zlen (it_data it)) 30); [by rewrite (proj2 (Z.leb_gt _ _))|].
  rewrite (proj2 (Z.leb_le 30 _)) by done. cbn [orb andb]. rewrite (dir_fields_at _ ltac:(done)), lift_ok_bind.
  destruct (_ =? _); [|done]. destruct (Z.leb_spec (30 + le_get 2 (it_data it) 27) (zlen (it_data it))); [|done]. cbn [andb].
  pose proof (le_get_range 2 (it_data it) 27). rewrite slice_in, lift_ok_bind by lia.
  replace (30 + le_get 2 (it_data it) 27 - 30) with (le_get 2 (it_data it) 27) by lia. by case_bool_decide.
Qed.

Lemma find_entry_ok b n t dirInode name :
  fs_tree tc0 s b n t ->
  find_entry dirInode name b =
    (match entry_in dirInode name (flatten n t) with Some r => Ok r | None => Err (Sentinel fs_ErrNotExist) end, b).
Proof.
  intros Hft. unfold find_entry. unfold mbind, M_bind. rewrite (walk_fs b n t None _ Hft) by done.
  rewrite (visit_first _ _ _ _ _ _ (match_entry_at dirInode name)). unfold entry_in. by destruct (filter _ _).
Qed.

Lemma lookupDirEntry_ok b n t dirInode name :
  fs_tree tc0 s b n t ->
  lookupDirEntry dirInode name b =
    (match entry_in dirInode name (flatten n t) with Some (_, i) => Ok i | None => Err (Sentinel fs_ErrNotExist) end, b).
Proof.
  intros Hft. unfold lookupDirEntry. unfold mbind, M_bind. rewrite (find_entry_ok b n t dirInode name Hft).
  by destruct (entry_in _ _ _) as [[]|].
Qed.

Lemma lookup_leads b n t dirInode name :
  fs_tree tc0 s b n t -> lookupDirEntry dirInode name b = (leads (filter (names_entry dirInode name) (flatten n t)), b).
Proof.
  intros Hft. rewrite (lookupDirEntry_ok b n t dirInode name Hft). unfold entry_in. by destruct (filter _ _).
Qed.

Lemma next_inode_ok b n t : fs_tree tc0 s b n t -> next_inode b = (Ok (w64 (max_inode (flatten n t) + 1)), b).
Proof.
  intros Hft. unfold next_inode. unfold mbind at 1, M_bind at 1. rewrite (walk_fs b n t 0 _ Hft) by done.
  by rewrite (visit_fold _ (fun it m => if (typ (it_key it) =? BTRFS_INODE_ITEM_KEY) && (m <? objectid (it_key it))
                                     then objectid (it_key it) else m)).
Qed.

Lemma nextDirIndex_ok b n t dirInode :
  fs_tree tc0 s b n t -> nextDirIndex dirInode b = (Ok (w64 (max_index dirInode (flatten n t) + 1)), b).
Proof.
  intros Hft. unfold nextDirIndex. unfold mbind at 1, M_bind at 1. rewrite (walk_fs b n t 0 _ Hft) by done.
  by rewrite (visit_fold _ (fun it m => if (objectid (it_key it) =? dirInode) && (typ (it_key it) =? BTRFS_DIR_INDEX_KEY)
                                        && (m <? offset (it_key it)) then offset (it_key it) else m)).
Qed.
End names.
