(* ===== verification/BtrfsAlloc.v ===== *)
(** The btrfs driver: allocated space is free.

    The range that [allocateSpace] hands out lies in the chunk it chose and
    meets no extent of the extent tree and no extent of a file, provided the
    addresses are far enough from the end of the 64-bit range. *)
From S2P Require Export BtrfsNames.

(** ** Alignment *)
Lemma align_up_bounds e n : 0 < n -> 0 <= e -> e + n < 2 ^ 64 -> e <= align_up e n < e + n.
Proof.
  intros Hn He Hm. unfold align_up. rewrite (w64_id (e + n - 1)) by lia.
  pose proof (Z.mul_div_le (e + n - 1) n Hn). pose proof (Z.mul_succ_div_gt (e + n - 1) n Hn).
  assert (0 <= (e + n - 1) / n) by (apply Z.div_pos; lia). rewrite w64_id; nia.
Qed.

(** ** First fit *)
Definition range_end (r : extentRange) : Z := er_logical r + er_length r.
Definition range_ok (room : Z) (r : extentRange) : Prop :=
  0 <= er_logical r /\ 0 <= er_length r /\ range_end r + room < 2 ^ 64.
Definition disjoint_from (l n : Z) (r : extentRange) : Prop := range_end r <= l \/ l + n <= er_logical r.

Lemma first_fit_spec sector size l c :
  0 < sector -> 0 < size -> StronglySorted range_le l -> Forall (range_ok (sector + size)) l ->
  0 <= c -> c + size < 2 ^ 64 ->
  let x := first_fit sector size c l in
  c <= x /\ x + size < 2 ^ 64 /\ Forall (disjoint_from x size) l.
Proof.
  intros Hsec Hsz. revert c. induction l as [|r l IH]; intros c Hs Hok Hc Hcs; [cbn; split_and!; done || lia|].
  apply StronglySorted_cons in Hs as [Hr Hs]. inversion_clear Hok as [|? ? Hro Hok']. cbn [first_fit].
  destruct Hro as (H1 & H2 & H3). unfold range_end in H3. rewrite w64_id by lia.
  destruct (Z.leb_spec (er_logical r + er_length r) c).
  - destruct (IH c Hs Hok' Hc Hcs) as (I1 & I2 & I3). split_and!; [done|done|]. constructor; [left; unfold range_end; lia|done].
  - rewrite w64_id by lia. destruct (Z.leb_spec (c + size) (er_logical r)).
    + split_and!; [lia|done|]. constructor; [by right|]. eapply Forall_impl; [exact Hr|]. intros r' Hr'.
      unfold range_le in Hr'. right. lia.
    + destruct (align_up_bounds (er_logical r + er_length r) sector) as [A1 A2]; [lia..|].
      destruct (IH (align_up (er_logical r + er_length r) sector)) as (I1 & I2 & I3); [done|done|lia|lia|].
      split_and!; [lia|done|]. constructor; [left; unfold range_end; lia|done].
Qed.

Lemma align_up_least e n y : 0 < n -> 0 <= e -> e + n < 2 ^ 64 -> y mod n = 0 -> e <= y -> align_up e n <= y.
Proof.
  intros Hn He Hm Hy Hle. unfold align_up. rewrite (w64_id (e + n - 1)) by lia.
  pose proof (Z.mul_div_le (e + n - 1) n Hn). assert (0 <= (e + n - 1) / n) by (apply Z.div_pos; lia).
  rewrite w64_id by nia. apply Z.div_exact in Hy; [|lia]. rewrite Hy, (Z.mul_comm _ n).
  apply Z.mul_le_mono_nonneg_l; [lia|]. apply Z.lt_succ_r, Z.div_lt_upper_bound; [done|]. lia.
Qed.

(** No aligned place before the one that [first_fit] finds is free. *)
Lemma first_fit_least sector size l c y :
  0 < sector -> 0 < size -> Forall (range_ok (sector + size)) l -> 0 <= c -> c + size < 2 ^ 64 ->
  y mod sector = 0 -> c <= y -> Forall (disjoint_from y size) l -> first_fit sector size c l <= y.
Proof.
  intros Hsec Hsz Hok. revert c. induction Hok as [|r l (H1 & H2 & H3) Hok IH]; intros c Hc Hcs Hy Hle Hfree; [done|].
  inversion_clear Hfree as [|? ? Hr Hfree']. cbn [first_fit]. unfold range_end in H3. rewrite w64_id by lia.
  destruct (Z.leb_spec (er_logical r + er_length r) c); [by apply IH|].
  rewrite w64_id by lia. destruct (Z.leb_spec (c + size) (er_logical r)); [done|].
  destruct (align_up_bounds (er_logical r + er_length r) sector) as [A1 A2]; [lia..|].
  destruct Hr as [Hr|Hr]; [|lia]. unfold range_end in Hr.
  apply IH; [lia|lia|done| |done]. apply align_up_least; done || lia.
Qed.

#[export] Instance range_le_total : Total range_le.
Proof. intros a b. unfold range_le. lia. Qed.
#[export] Instance range_le_trans : Transitive range_le.
Proof. intros a b c. unfold range_le. lia. Qed.

(** ** The ranges in use *)
Definition extent_range (node : Z) (it : itemEntry) : list extentRange :=
  if typ (it_key it) =? BTRFS_EXTENT_ITEM_KEY then [mkExtentRange (objectid (it_key it)) (offset (it_key it))]
  else if typ (it_key it) =? 169 then [mkExtentRange (objectid (it_key it)) node]
  else [].
Definition file_range (it : itemEntry) : list extentRange :=
  let d := it_data it in
  if (typ (it_key it) =? BTRFS_EXTENT_DATA_KEY) && (45 <=? zlen d) && negb (le_get 1 d 20 =? BTRFS_FILE_EXTENT_INLINE) &&
     ((0 <? le_get 8 d 21) && (0 <? le_get 8 d 29))
  then [mkExtentRange (le_get 8 d 21) (le_get 8 d 29)] else [].

(** What the two trees say is in use. *)
Definition in_use (node : Z) (extents files : list itemEntry) : list extentRange :=
  (extents ≫= extent_range node) ++ (files ≫= file_range).

Lemma foldl_bind {A B} (f : A -> list B) l acc : foldl (fun x a => x ++ f a) acc l = acc ++ (l ≫= f).
Proof.
  revert acc. induction l as [|a l IH]; intros acc; [by rewrite app_nil_r|]. cbn [foldl]. rewrite IH.
  by rewrite <- app_assoc.
Qed.

Section alloc.
Context {D : Type} `{Device D} {env : Env} {tc0 : treeContext} {s : SuperBlock}.
Implicit Types b : FileSystem D.

(** The extent tree, read-only here. *)
Record ext_tree b (n : nat) (t : tree n) : Prop := {
  et_root : extentRoot b <> 0;
  et_holds : holds (dev b) tc0 n (extentRoot b) t;
  et_fuel : (n < fuel)%nat
}.

Lemma occupied_ok b ne te n t :
  fs_tree tc0 s b n t -> ext_tree b ne te ->
  occupied_ranges b = (Ok (in_use (NodeSize s) (flatten ne te) (flatten n t)), b).
Proof.
  intros Hft [Her Heh Hef]. pose proof (ft_mounted _ _ _ _ _ Hft) as Hm. unfold occupied_ranges.
  rewrite (bind_ok _ _ _ _ _ (get_sb_ok tc0 s b Hm)). unfold walkExtentTree. rewrite M_assoc, get_bind, (proj2 (Z.eqb_neq _ 0)) by done.
  unfold mbind at 1, M_bind at 1. rewrite (walk_held b ne (extentRoot b) te _ _ Hm Heh Hef) by done.
  rewrite (visit_fold _ (fun it occ => occ ++ extent_range (NodeSize s) it)), foldl_bind.
  2: { intros it x. cbn [item_of li_key]. unfold extent_range. destruct (_ =? _); [done|]. destruct (_ =? _); [done|]. by rewrite app_nil_r. }
  cbn [walked app]. unfold mbind at 1, M_bind at 1. rewrite (walk_fs b n t _ _ Hft) by done.
  rewrite (visit_fold _ (fun it occ => occ ++ file_range it)), foldl_bind; [done|].
  intros it x. cbn [item_of li_key]. unfold file_range. destruct (_ =? BTRFS_EXTENT_DATA_KEY); cbn [andb]; [|by rewrite app_nil_r].
  destruct (Z.leb_spec 45 (zlen (it_data it))); cbn [andb]; [|by rewrite app_nil_r]. rewrite (getUint_in 1 _ 20), lift_ok_bind by lia.
  destruct (_ =? BTRFS_FILE_EXTENT_INLINE); cbn [negb andb]; [by rewrite app_nil_r|].
  rewrite (getUint_in 8 _ 21), lift_ok_bind, (getUint_in 8 _ 29), lift_ok_bind by lia. destruct (_ && _); [done|by rewrite app_nil_r].
Qed.

(** What [allocateSpace] computes of the two trees. *)
Lemma allocateSpace_ok b ne te n t size bgType c :
  fs_tree tc0 s b n t -> ext_tree b ne te -> target_chunk bgType (chunks tc0) = Some c ->
  let sector := sector_size s in let aligned := align_up size sector in
  let x := first_fit sector aligned (c_logical c) (merge_sort range_le (in_use (NodeSize s) (flatten ne te) (flatten n t))) in
  allocateSpace size bgType b =
    (if w64 (x + aligned) <=? w64 (c_logical c + c_length c) then Ok (x, w64 (c_physical c + (x - c_logical c)))
     else Err (Errorf "btrfs: out of disk space in block group %d"), b).
Proof.
  intros Hft Het Hc sector aligned x. pose proof (ft_mounted _ _ _ _ _ Hft) as Hm. unfold allocateSpace.
  rewrite (bind_ok _ _ _ _ _ (get_tc_ok tc0 s b Hm)), Hc.
  rewrite (bind_ok _ _ _ _ _ (occupied_ok b ne te n t Hft Het)), (bind_ok _ _ _ _ _ (get_sb_ok tc0 s b Hm)). cbn zeta.
  fold sector aligned x. by destruct (_ <=? _).
Qed.

Lemma target_chunk_in bgType l c : target_chunk bgType l = Some c -> c ∈ l.
Proof.
  unfold target_chunk. destruct (list_find _ _) as [[i c']|] eqn:El.
  - intros [= <-]. apply list_find_Some in El as (El & _). by eapply list_elem_of_lookup_2.
  - destruct l; [done|]. intros [= <-]. by left.
Qed.

(** C19: Allocation: with both trees on the device, [allocateSpace] either
    reports that the chunk is full or gives a range, rounded up to sectors,
    that lies in one chunk, of the wanted kind if there is one, that meets no
    range in use, and whose physical address is the one of the chunk.  It
    changes nothing. *)
Theorem allocateSpace_free b ne te n t size bgType c :
  fs_tree tc0 s b n t -> ext_tree b ne te -> target_chunk bgType (chunks tc0) = Some c ->
  let sector := sector_size s in let aligned := align_up size sector in
  let used := in_use (NodeSize s) (flatten ne te) (flatten n t) in
  0 < sector -> 0 < size -> size + sector < 2 ^ 64 -> 0 <= c_logical c -> c_logical c + aligned < 2 ^ 64 ->
  0 <= c_logical c + c_length c < 2 ^ 64 -> Forall (range_ok (sector + aligned)) used ->
  match allocateSpace size bgType b with
  | (Ok (l, p), b') => b' = b /\ c ∈ chunks tc0 /\ c_logical c <= l /\ l + aligned <= c_logical c + c_length c /\
      size <= aligned /\ p = w64 (c_physical c + (l - c_logical c)) /\ Forall (disjoint_from l aligned) used
  | (Err e, b') => b' = b /\ e = Errorf "btrfs: out of disk space in block group %d"
  | _ => False
  end.
Proof.
  intros Hft Het Hc sector aligned used Hsec Hsize Hov Hcl Hca Hcc Hused.
  rewrite (allocateSpace_ok b ne te n t size bgType c Hft Het Hc). fold sector aligned used.
  destruct (align_up_bounds size sector) as [A1 A2]; [done|lia|done|]. fold aligned in A1, A2.
  destruct (first_fit_spec sector aligned (merge_sort range_le used) (c_logical c)) as (F1 & F2 & F3);
    [done|lia|apply (StronglySorted_merge_sort _)|by rewrite merge_sort_Permutation|done|done|].
  set (x := first_fit _ _ _ _) in *. rewrite merge_sort_Permutation in F3. rewrite !w64_id by lia.
  destruct (Z.leb_spec (x + aligned) (c_logical c + c_length c)); [|done].
  split_and!; try done. by eapply target_chunk_in.
Qed.

(** C33: Space is found when there is some: if an address of the chunk at a
    multiple of the sector size has the wanted room free, [allocateSpace]
    succeeds, at that address or before it. *)
Theorem allocateSpace_finds b ne te n t size bgType c y :
  fs_tree tc0 s b n t -> ext_tree b ne te -> target_chunk bgType (chunks tc0) = Some c ->
  let sector := sector_size s in let aligned := align_up size sector in
  let used := in_use (NodeSize s) (flatten ne te) (flatten n t) in
  0 < sector -> 0 < size -> size + sector < 2 ^ 64 -> 0 <= c_logical c -> c_logical c + c_length c < 2 ^ 64 ->
  Forall (range_ok (sector + aligned)) used ->
  c_logical c <= y -> y mod sector = 0 -> y + aligned <= c_logical c + c_length c -> Forall (disjoint_from y aligned) used ->
  exists l p, allocateSpace size bgType b = (Ok (l, p), b) /\ l <= y.
Proof.
  intros Hft Het Hc sector aligned used Hsec Hsize Hov Hcl Hcc Hused Hy Hmod Hroom Hfree.
  rewrite (allocateSpace_ok b ne te n t size bgType c Hft Het Hc). fold sector aligned used.
  destruct (align_up_bounds size sector) as [A1 A2]; [done|lia|done|]. fold aligned in A1, A2.
  assert (Hu : Forall (range_ok (sector + aligned)) (merge_sort range_le used)) by by rewrite merge_sort_Permutation.
  destruct (first_fit_spec sector aligned (merge_sort range_le used) (c_logical c)) as (F1 & F2 & _);
    [done|lia|apply (StronglySorted_merge_sort _)|done|done|lia|].
  pose proof (first_fit_least sector aligned (merge_sort range_le used) (c_logical c) y Hsec ltac:(lia) Hu Hcl ltac:(lia) Hmod Hy
    ltac:(by rewrite merge_sort_Permutation)) as Hle. set (x := first_fit _ _ _ _) in *. rewrite !w64_id by lia.
  rewrite (proj2 (Z.leb_le _ _)) by lia. by eexists _, _.
Qed.
End alloc.
