(* ===== verification/BtrfsCreate.v ===== *)
(** The btrfs driver: making a file enters an inode and a name.

    [createFile] on a search tree with room in its leaves: the flattened
    items gain the inode item and the directory entry, both under keys that
    were free, and the name is found afterwards. *)
From S2P Require Export BtrfsNames.

Section create.
Context {D : Type} `{Device D} {env : Env} `{Codecs} {tc0 : treeContext} {s : SuperBlock}.
Implicit Types b : FileSystem D.

(** ** The cache of paths is not part of the tree *)
Lemma fs_tree_cache b n t c : fs_tree tc0 s b n t -> fs_tree tc0 s (set_pathCache c b) n t.
Proof. intros [[] ? ? ? ? ? ? ? ?]. by split; [split|..]. Qed.

Definition same_but_cache b b' : Prop := exists c, b' = set_pathCache c b.

Lemma b_walk_same {B} addr (acc : B) cb b : (b_walk addr acc cb b).2 = b.
Proof.
  unfold b_walk, get_tc, mbind, M_bind. destruct (tc b); [|done]. cbn.
  by destruct (walkTree _ _ _ _) as [[?|?| |] [? ?]].
Qed.

Lemma lookup_same dirInode name b : (lookupDirEntry dirInode name b).2 = b.
Proof.
  unfold lookupDirEntry, find_entry, walkFSTree, mbind, M_bind. cbn.
  pose proof (b_walk_same (fsRoot b) None (match_entry dirInode name) b) as Hw.
  destruct (b_walk _ _ _ _) as [[[[[]|] [?|]]|?| |] b']; cbn in *; subst; try done. by case_bool_decide.
Qed.

Lemma resolvePath_same path b : same_but_cache b (resolvePath path b).2.
Proof.
  assert (Hrefl : same_but_cache b b) by (exists (pathCache b); by destruct b).
  assert (Hp : preserves (same_but_cache b) (resolvePath path)).
  { unfold resolvePath. pass_tac.
    - intros b' (c & ->). rewrite lookup_same. by exists c.
    - apply preserves_modify. intros b' (c & ->). eexists. by destruct b. }
  by apply Hp.
Qed.

(** ** Insertion, on the flattened list *)
Lemma insert_ok b n t k data m :
  fs_tree tc0 s b n t -> leaves_fit tc0 (m + 25 + zlen data) n t -> 0 <= m -> k ∉ (it_key <$> flatten n t) -> key_wf k ->
  exists d' t', insert_item_at k data b = (Ok tt, set_dev d' b) /\ fs_tree tc0 s (set_dev d' b) n t' /\
    flatten n t' = insert_item (mkItem k data) (flatten n t) /\ leaves_fit tc0 m n t'.
Proof.
  intros Hft Hroom Hm Hk Hwf. pose proof (ft_proper _ _ _ _ _ Hft) as Hp. pose proof (ft_ordered _ _ _ _ _ Hft) as Ho.
  pose proof (leaf_fit tc0 _ k n t Hp Hroom) as Hleaf.
  destruct (insert_item_ok tc0 s b k data n t Hft Hk Hwf) as (d' & E & Hft' & _); [lia|].
  exists d', (t_modify n k (insert_item (mkItem k data)) t). split; [done|]. split; [done|].
  split; [by apply (flatten_insert (mkItem k data))|]. pose proof (zlen_nonneg data).
  apply fit_modify; [done|eapply fit_weaken; [|exact Hroom]; lia|].
  rewrite needed_insert. cbn [it_data]. lia.
Qed.

(** ** What the new items are *)
Lemma max_inode_fresh items o : o = max_inode items + 1 -> inode_key o ∉ (it_key <$> items).
Proof.
  intros -> Hk. pose proof (highest_bound (fun k => typ k =? BTRFS_INODE_ITEM_KEY) objectid items _ Hk eq_refl) as Hb.
  cbn in Hb. unfold max_inode in Hb. lia.
Qed.
Lemma max_index_fresh dirInode items i :
  i = max_index dirInode items + 1 -> mkKey dirInode BTRFS_DIR_INDEX_KEY i ∉ (it_key <$> items).
Proof.
  intros -> Hk. pose proof (highest_bound (fun k => (objectid k =? dirInode) && (typ k =? BTRFS_DIR_INDEX_KEY)) offset items _ Hk) as Hb.
  cbn in Hb. rewrite Z.eqb_refl in Hb. specialize (Hb eq_refl). unfold max_index in Hb. lia.
Qed.

Lemma highest_insert p f it items :
  p (it_key it) = false -> highest p f (insert_item it items) = highest p f items.
Proof.
  intros Hp. unfold highest. generalize 0. induction items as [|x items IH]; intros m; cbn [insert_item foldl].
  - by rewrite Hp.
  - destruct (key_less _ _); cbn [foldl]; [apply IH|]. by rewrite Hp.
Qed.

(** Searches of a list with one more item. *)
Lemma filter_insert_other (p : itemEntry -> bool) it items :
  p it = false -> filter p (insert_item it items) = filter p items.
Proof.
  intros Hp. induction items as [|x items IH]; cbn [insert_item].
  - rewrite filter_cons, decide_False; [done|]. by rewrite Hp; intros [].
  - destruct (key_less _ _).
    + rewrite !filter_cons, IH. done.
    + rewrite (filter_cons _ it), decide_False; [done|]. by rewrite Hp; intros [].
Qed.
Lemma filter_insert_new (p : itemEntry -> bool) it items :
  p it = true -> filter p items = [] -> filter p (insert_item it items) = [it].
Proof.
  intros Hp Hnone.
  assert (Hf : filter p (insert_item it items) ≡ₚ filter p (it :: items)) by by rewrite (insert_item_perm it items).
  rewrite filter_cons, Hnone, decide_True in Hf by by rewrite Hp. by apply Permutation_singleton_r in Hf.
Qed.

(** An item behind all those that are looked for comes last. *)
Lemma filter_insert_last (p : itemEntry -> bool) it items :
  p it = true -> sorted items -> (forall x, x ∈ items -> p x = true -> item_lt x it) ->
  filter p (insert_item it items) = filter p items ++ [it].
Proof.
  intros Hp Hs. induction Hs as [|x items Hs IH Hx]; intros Hlt; cbn [insert_item].
  - by rewrite filter_cons, decide_True by by rewrite Hp.
  - destruct (key_less _ _) eqn:E.
    + rewrite !filter_cons, IH by set_solver. by case_decide.
    + apply key_less_false in E. assert (Hn : filter p (x :: items) = []).
      { apply elem_of_nil_inv. intros y [Hpy%Is_true_eq_true Hy]%list_elem_of_filter. pose proof (Hlt y Hy Hpy) as Hyt.
        apply elem_of_cons in Hy as [-> | Hy]; [done|]. rewrite Forall_forall in Hx.
        exact (E (key_lt_trans _ _ _ (Hx y Hy) Hyt)). }
      by rewrite (filter_cons _ it), decide_True, Hn by by rewrite Hp.
Qed.

Lemma entry_in_None dirInode name items : entry_in dirInode name items = None -> filter (names_entry dirInode name) items = [].
Proof. unfold entry_in. by destruct (filter _ _). Qed.

Lemma inode_item_names dirInode name o d : names_entry dirInode name (mkItem (inode_key o) d) = false.
Proof. unfold names_entry, is_dir_item. cbn. by rewrite andb_false_r. Qed.

(** ** Reading an inode *)
Definition info_of (inodeNum : Z) (d : list byte) : NodeInfo :=
  match inode_info inodeNum d with Ok i => i | _ => empty_info inodeNum end.

Lemma decodeTime_total d o : 0 <= o -> exists v, decodeTime d o = Ok v.
Proof.
  intros Ho. unfold decodeTime. destruct (Z.ltb_spec (zlen d) (o + 12)); [by eexists|].
  rewrite !getUint_in by lia. by eexists.
Qed.

Lemma inode_info_ok inodeNum d :
  100 <= zlen d -> inode_info inodeNum d = Ok (info_of inodeNum d) /\
    ni_Inode (info_of inodeNum d) = inodeNum /\ ni_Size (info_of inodeNum d) = le_get 8 d 16 /\
    ni_Nlink (info_of inodeNum d) = le_get 4 d 40 /\ ni_Mode (info_of inodeNum d) = le_get 4 d 52 /\
    ni_IsDir (info_of inodeNum d) = negb (Z.land (le_get 4 d 52) 0x4000 =? 0) /\
    ni_IsRegular (info_of inodeNum d) = negb (ni_IsDir (info_of inodeNum d)) && negb (Z.land (le_get 4 d 52) 0x8000 =? 0) /\
    ni_IsSymlink (info_of inodeNum d) = negb (ni_IsDir (info_of inodeNum d)) && negb (ni_IsRegular (info_of inodeNum d)) &&
      (Z.land (le_get 4 d 52) 0xA000 =? 0xA000).
Proof.
  intros Hl. destruct (decodeTime_total d 108 ltac:(lia)) as [t1 E1], (decodeTime_total d 120 ltac:(lia)) as [t2 E2],
    (decodeTime_total d 132 ltac:(lia)) as [t3 E3].
  assert (Ei : exists i, inode_info inodeNum d = Ok i /\ i = info_of inodeNum d /\ i = mkNodeInfo inodeNum (le_get 4 d 52)
    (le_get 4 d 44) (le_get 4 d 48) (le_get 8 d 16) t1 t3 t2 (le_get 4 d 40) 4096 (w64 (le_get 8 d 16 + 4095) / 4096)
    (negb (Z.land (le_get 4 d 52) 0x4000 =? 0))
    (negb (negb (Z.land (le_get 4 d 52) 0x4000 =? 0)) && negb (Z.land (le_get 4 d 52) 0x8000 =? 0))
    (negb (negb (Z.land (le_get 4 d 52) 0x4000 =? 0)) &&
     negb (negb (negb (Z.land (le_get 4 d 52) 0x4000 =? 0)) && negb (Z.land (le_get 4 d 52) 0x8000 =? 0)) &&
     (Z.land (le_get 4 d 52) 0xA000 =? 0xA000))).
  { unfold info_of, inode_info. rewrite inode_fields_at by done. cbn [mbind res_bind]. rewrite E1, E2, E3. cbn [mbind res_bind]. eauto. }
  destruct Ei as (i & -> & -> & ->). done.
Qed.

(** The first inode item of a number that is long enough. *)
Definition inode_in (inodeNum : Z) (items : list itemEntry) : option (list byte) :=
  it_data <$> head (filter (fun it => is_inode_item inodeNum (it_key it) && (100 <=? zlen (it_data it))) items).

Lemma readInodeInfo_ok b n t inodeNum :
  fs_tree tc0 s b n t ->
  readInodeInfo inodeNum b =
    (Ok (match inode_in inodeNum (flatten n t) with Some d => info_of inodeNum d | None => empty_info inodeNum end), b).
Proof.
  intros Hft. unfold readInodeInfo. unfold mbind at 1, M_bind at 1. rewrite (walk_fs b n t _ _ Hft) by done.
  rewrite (visit_first _ (fun it => is_inode_item inodeNum (it_key it) && (100 <=? zlen (it_data it)))
    (fun it => info_of inodeNum (it_data it)) stop).
  - unfold inode_in. by destruct (filter _ _).
  - intros it x. cbn [item_of li_key]. destruct (is_inode_item _ _); cbn [negb orb andb]; [|done].
    destruct (Z.ltb_spec (zlen (it_data it)) 100); [by rewrite (proj2 (Z.leb_gt _ _)) by lia|].
    rewrite (proj2 (Z.leb_le _ _)) by lia. destruct (inode_info_ok inodeNum (it_data it)) as [-> _]; [done|]. done.
Qed.


(** ** Creating *)
Lemma key_wf_of o t f : 0 <= o < 2 ^ 64 -> 0 <= t < 2 ^ 8 -> 0 <= f < 2 ^ 64 -> key_wf (mkKey o t f).
Proof. done. Qed.

Lemma inode_in_insert o d items :
  o = max_inode items + 1 -> 100 <= zlen d -> inode_in o (insert_item (mkItem (inode_key o) d) items) = Some d.
Proof.
  intros Ho Hd. unfold inode_in. rewrite (filter_insert_new _ (mkItem (inode_key o) d)); [done| |].
  - cbn. unfold is_inode_item. cbn. rewrite Z.eqb_refl. by apply Z.leb_le.
  - apply elem_of_nil_inv. intros x [Hp Hx]%list_elem_of_filter. apply Is_true_eq_true in Hp.
    apply andb_prop in Hp as [[Hp1 Hp2]%andb_prop _]. apply Z.eqb_eq in Hp1.
    pose proof (highest_bound (fun k => typ k =? BTRFS_INODE_ITEM_KEY) objectid items (it_key x)) as Hb.
    specialize (Hb ltac:(by apply list_elem_of_fmap_2) Hp2). unfold max_inode in Ho. lia.
Qed.

Lemma insertInodeItem_ok b n t mode m :
  fs_tree tc0 s b n t -> leaves_fit tc0 (m + 185) n t -> 0 <= m -> 0 <= mode < 2 ^ 32 ->
  max_inode (flatten n t) + 1 < 2 ^ 64 -> exists d d' t',
    insertInodeItem (max_inode (flatten n t) + 1) mode b = (Ok tt, set_dev d' b) /\ fs_tree tc0 s (set_dev d' b) n t' /\
    flatten n t' = insert_item (mkItem (inode_key (max_inode (flatten n t) + 1)) d) (flatten n t) /\
    leaves_fit tc0 m n t' /\ zlen d = 160 /\ le_get 8 d 16 = 0 /\ le_get 4 d 40 = 1 /\ le_get 4 d 52 = mode.
Proof.
  intros Hft Hroom Hm Hmode Hmax. pose proof (ft_mounted _ _ _ _ _ Hft) as Hmt.
  destruct (new_inode_ok (Generation s) mode Hmode) as (d & Ed & Hl & Hf). exists d.
  pose proof (highest_nonneg (fun k => typ k =? BTRFS_INODE_ITEM_KEY) objectid (flatten n t)) as Hnn. fold (max_inode (flatten n t)) in Hnn.
  destruct (insert_ok b n t (inode_key (max_inode (flatten n t) + 1)) d m Hft) as (d' & t' & E & Hft' & Et & Hroom');
    [rewrite Hl; by replace (m + 25 + 160) with (m + 185) by lia|done|by apply max_inode_fresh|apply key_wf_of; unfold BTRFS_INODE_ITEM_KEY; lia|].
  exists d', t'. split; [|destruct Hf as (? & ? & ?); split_and!; assumption]. unfold insertInodeItem. rewrite (bind_ok _ _ _ _ _ (get_sb_ok tc0 s b Hmt)).
  by rewrite Ed, lift_ok_bind.
Qed.

Lemma enter_name_ok b n t dirInode child name ft m :
  fs_tree tc0 s b n t -> leaves_fit tc0 (m + 55 + zlen name) n t -> 0 <= m -> 0 <= ft < 2 ^ 8 -> 0 <= child < 2 ^ 64 ->
  0 <= dirInode < 2 ^ 64 -> zlen name < 2 ^ 16 -> max_index dirInode (flatten n t) + 1 < 2 ^ 64 -> exists d d' t',
    enter_name dirInode child name ft b = (Ok tt, set_dev d' b) /\ fs_tree tc0 s (set_dev d' b) n t' /\
    flatten n t' = insert_item (mkItem (mkKey dirInode BTRFS_DIR_INDEX_KEY (max_index dirInode (flatten n t) + 1)) d) (flatten n t) /\
    leaves_fit tc0 m n t' /\ le_get 8 d 0 = child /\ le_get 1 d 29 = ft /\
    forall dirInode' name',
      names_entry dirInode' name' (mkItem (mkKey dirInode BTRFS_DIR_INDEX_KEY (max_index dirInode (flatten n t) + 1)) d) =
      bool_decide (dirInode' = dirInode /\ name' = name).
Proof.
  intros Hft Hroom Hm Hftr Hc Hdir Hname Hmax. set (idx := max_index dirInode (flatten n t) + 1) in *.
  destruct (makeDirItem_ok child name ft Hc Hftr Hname) as (d & Ed & Hl & F0 & F27 & F29 & Fn). exists d.
  pose proof (highest_nonneg (fun k => (objectid k =? dirInode) && (typ k =? BTRFS_DIR_INDEX_KEY)) offset (flatten n t)) as Hnn.
  fold (max_index dirInode (flatten n t)) in Hnn.
  destruct (insert_ok b n t (mkKey dirInode BTRFS_DIR_INDEX_KEY idx) d m Hft) as (d' & t' & E & Hft' & Et & Hroom');
    [rewrite Hl; by replace (m + 25 + (30 + zlen name)) with (m + 55 + zlen name) by lia|done|by apply max_index_fresh
    |apply key_wf_of; unfold idx, BTRFS_DIR_INDEX_KEY; lia|].
  exists d', t'. split_and!; try assumption.
  - unfold enter_name. rewrite (bind_ok _ _ _ _ _ (nextDirIndex_ok b n t dirInode Hft)).
    rewrite w64_id by lia. fold idx. by rewrite Ed, lift_ok_bind.
  - intros dirInode' name'. pose proof (zlen_nonneg name). unfold names_entry, is_dir_item. cbn [it_key it_data objectid typ].
    rewrite F27, Hl, Fn, !(proj2 (Z.leb_le _ _)) by lia. rewrite (Z.eqb_refl BTRFS_DIR_INDEX_KEY), !andb_true_r. cbn [orb].
    rewrite ?andb_true_r. destruct (Z.eqb_spec dirInode dirInode') as [<-|]; cbn [andb]; [|by rewrite bool_decide_false by naive_solver].
    destruct (decide (name = name')) as [<-|]; [|by rewrite andb_comm, !bool_decide_false by naive_solver].
    by rewrite w16_id, Z.eqb_refl, !bool_decide_true by (done || lia).
Qed.

(** C7: Making a file, or a directory, in a tree with room enters one inode and
    one name: the name was free and now leads to the new inode, which has
    the mode, one link and size 0; its number and the index of the entry
    were not in use; every other lookup gives what it gave; and the blocks
    hold a search tree again. *)
Theorem createFile_enters b b1 n t path dir name dirInode mode ft :
  fs_tree tc0 s b n t -> leaves_fit tc0 (240 + zlen name) n t ->
  splitPath path = Ok (dir, name) -> resolvePath dir b = (Ok dirInode, b1) ->
  entry_in dirInode name (flatten n t) = None -> zlen name < 2 ^ 16 -> 0 <= dirInode < 2 ^ 64 ->
  0 <= mode < 2 ^ 32 -> 0 <= ft < 2 ^ 8 ->
  max_inode (flatten n t) + 1 < 2 ^ 64 -> max_index dirInode (flatten n t) + 1 < 2 ^ 64 ->
  let ino := max_inode (flatten n t) + 1 in
  exists b' t' inoData dirData, createFile path mode ft b = (Ok tt, b') /\ fs_tree tc0 s b' n t' /\
    flatten n t' = insert_item (mkItem (mkKey dirInode BTRFS_DIR_INDEX_KEY (max_index dirInode (flatten n t) + 1)) dirData)
                     (insert_item (mkItem (inode_key ino) inoData) (flatten n t)) /\
    lookupDirEntry dirInode name b' = (Ok ino, b') /\
    (exists info, readInodeInfo ino b' = (Ok info, b') /\ ni_Mode info = mode /\ ni_Nlink info = 1 /\ ni_Size info = 0) /\
    forall dirInode' name', ~ (dirInode' = dirInode /\ name' = name) ->
      (lookupDirEntry dirInode' name' b').1 = (lookupDirEntry dirInode' name' b).1.
Proof.
  intros Hft Hroom Esplit Edir Hnone Hname Hdir Hmode Hftr Hmi Hmx ino.
  destruct (resolvePath_same dir b) as [c Ec]. rewrite Edir in Ec. cbn in Ec. subst b1.
  pose proof (fs_tree_cache b n t c Hft) as Hft1. pose proof (zlen_nonneg name).
  destruct (insertInodeItem_ok _ n t mode (55 + zlen name) Hft1) as (id & d1 & t1 & E1 & Hft2 & Et1 & Hroom1 & Hl & F16 & F40 & F52);
    [replace (55 + zlen name + 185) with (240 + zlen name) by lia; assumption|lia|assumption|assumption|].
  fold ino in E1, Et1. set (b2 := set_dev d1 (set_pathCache c b)) in *.
  assert (Hidx : max_index dirInode (flatten n t1) = max_index dirInode (flatten n t)).
  { rewrite Et1. apply highest_insert. cbn. by rewrite andb_false_r. }
  assert (Hnone1 : filter (names_entry dirInode name) (flatten n t1) = []).
  { rewrite Et1, filter_insert_other by apply inode_item_names. by apply entry_in_None. }
  pose proof (highest_nonneg (fun k => typ k =? BTRFS_INODE_ITEM_KEY) objectid (flatten n t)) as Hnn. fold (max_inode (flatten n t)) in Hnn.
  destruct (enter_name_ok b2 n t1 dirInode ino name ft 0 Hft2) as (dd & d2 & t2 & E2 & Hft3 & Et2 & _ & F0 & _ & Hnames);
    [by rewrite Z.add_0_l|lia|lia|unfold ino; lia|lia|lia|rewrite Hidx; lia|].
  rewrite Hidx in *. set (b3 := set_dev d2 b2) in *.
  set (b4 := set_pathCache (delete dir (pathCache b3)) b3).
  assert (Hft4 : fs_tree tc0 s b4 n t2) by (apply fs_tree_cache; exact Hft3).
  exists b4, t2, id, dd. split; [|split; [exact Hft4|split; [by rewrite Et2, Et1|split; [|split]]]].
  - unfold createFile. rewrite Esplit, lift_ok_bind, (bind_ok _ _ _ _ _ Edir), (bind_ok _ _ _ _ _ (next_inode_ok _ n t Hft1)).
    rewrite w64_id by lia. fold ino. rewrite (bind_ok _ _ _ _ _ E1). fold b2. unfold refuse_existing. rewrite M_assoc.
    pose proof (lookupDirEntry_ok b2 n t1 dirInode name Hft2) as El. unfold entry_in in El. rewrite Hnone1 in El.
    rewrite (bind_ok _ _ _ _ _ (catch_err _ _ _ _ El)), M_left_id. by rewrite (bind_ok _ _ _ _ _ E2).
  - rewrite (lookupDirEntry_ok b4 n t2 dirInode name Hft4). unfold entry_in.
    rewrite Et2, (filter_insert_new _ _ _ (eq_trans (Hnames dirInode name) (bool_decide_true _ (conj eq_refl eq_refl))) Hnone1).
    cbn [it_data]. by rewrite F0.
  - exists (info_of ino id). rewrite (readInodeInfo_ok b4 n t2 ino Hft4).
    assert (Ein : inode_in ino (flatten n t2) = Some id).
    { rewrite Et2. unfold inode_in. rewrite filter_insert_other by (cbn; unfold is_inode_item; cbn; by rewrite andb_false_r).
      rewrite Et1. apply inode_in_insert; [done|lia]. }
    rewrite Ein. destruct (inode_info_ok ino id) as (_ & _ & -> & -> & -> & _); [lia|done].
  - intros dirInode' name' Hne. rewrite (lookupDirEntry_ok b4 n t2 _ _ Hft4), (lookupDirEntry_ok b n t _ _ Hft). cbn [fst].
    unfold entry_in. rewrite Et2, filter_insert_other by (rewrite Hnames; by apply bool_decide_false).
    by rewrite Et1, filter_insert_other by apply inode_item_names.
Qed.
End create.
