(* ===== verification/BtrfsData.v ===== *)
(** The btrfs driver: file data kept inside the tree.

    A file of up to 2048 bytes is one inline extent item; [Write] replaces
    it, and [Read] gives the bytes that [Write] put together. *)
From S2P Require Export BtrfsCreate.

(** ** Searches by key *)
Section by_key.
Variable p : key -> bool.
Let q : itemEntry -> bool := fun it => p (it_key it).

Lemma filter_update k d items : p k = true -> filter q (update_key k d items) = update_key k d (filter q items).
Proof.
  intros Hk. unfold update_key. induction items as [|x items IH]; [done|]. cbn [map]. rewrite !filter_cons.
  assert (Hq : q (if bool_decide (it_key x = k) then mkItem k d else x) = q x)
    by (unfold q; case_bool_decide as E; [cbn; by rewrite E|done]).
  rewrite Hq. destruct (q x); [rewrite !decide_True by done|rewrite !decide_False by intros []]; cbn [map]; by rewrite IH.
Qed.
Lemma filter_update_other k d items : p k = false -> filter q (update_key k d items) = filter q items.
Proof.
  intros Hk. unfold update_key. induction items as [|x items IH]; [done|]. cbn [map]. rewrite !filter_cons, IH.
  case_bool_decide as E; [|done]. unfold q. cbn [it_key]. rewrite E, Hk. by rewrite !decide_False by intros [].
Qed.
End by_key.

(** The last item with a key that satisfies [p]. *)
Definition last_of (p : key -> bool) (items : list itemEntry) : key * list byte :=
  foldl (fun x it => if p (it_key it) then (it_key it, it_data it) else x) (mkKey 0 0 0, []) items.

Lemma last_of_filter (p : key -> bool) items acc :
  foldl (fun x it => if p (it_key it) then (it_key it, it_data it) else x) acc items =
  foldl (fun (_ : key * list byte) it => (it_key it, it_data it)) acc (filter (fun it => p (it_key it)) items).
Proof.
  revert acc. induction items as [|it items IH]; intros acc; [done|]. cbn [foldl]. rewrite filter_cons.
  destruct (p (it_key it)) eqn:E; [rewrite decide_True by done|rewrite decide_False by intros []]; cbn [foldl]; apply IH.
Qed.

(** A visit ignores the items its callback passes over. *)
Lemma visit_filter {B} (cb : leafItem -> list byte -> M B unit) (p : itemEntry -> bool) items x :
  (forall it x, p it = false -> cb (item_of it) (it_data it) x = (Ok tt, x)) ->
  visit cb items x = visit cb (filter p items) x.
Proof.
  intros Hcb. unfold visit. revert x. induction items as [|it items IH]; intros x; [done|]. rewrite filter_cons.
  destruct (p it) eqn:E; [rewrite decide_True by done|rewrite decide_False by intros []]; cbn [forM].
  - apply bind_ext. intros [] x'. apply IH.
  - by rewrite (bind_ok _ _ _ _ _ (Hcb it x E)).
Qed.

(** ** Inline extents *)
Lemma makeExtentDataInline_ok off data :
  zlen data < 2 ^ 64 -> exists d,
    makeExtentDataInline off data = Ok d /\ zlen d = 21 + zlen data /\ le_get 8 d 8 = zlen data /\
    le_get 1 d 16 = 0 /\ le_get 1 d 20 = 0 /\ sub d 21 (zlen data) = data.
Proof.
  intros Hn. pose proof (zlen_nonneg data). unfold makeExtentDataInline.
  assert (Hz : zlen (zeros (21 + zlen data)) = 21 + zlen data) by zlen.
  repeat put_field. change (Z.of_nat 1) with 1 in *; change (Z.of_nat 2) with 2 in *; change (Z.of_nat 8) with 8 in *.
  assert (Hl : zlen l'4 = 21 + zlen data).
  { repeat match goal with W : wrote _ ?l _ _ |- context [zlen ?l] => rewrite (proj1 W) end. done. }
  rewrite copy_at_in by lia. eexists. split; [reflexivity|]. split; [by rewrite zlen_put|].
  rewrite !le_get_put_disj by lia. split; [|split; [|split]].
  - field_kept. rewrite G0. apply Z.mod_small. lia.
  - field_kept. by rewrite G1.
  - by rewrite G4.
  - apply sub_put_same; lia.
Qed.

(** An inline extent without compression that holds [content]. *)
Definition inline_item (inodeNum : Z) (content : list byte) (it : itemEntry) : Prop :=
  it_key it = extent_key inodeNum /\ zlen (it_data it) = 21 + zlen content /\ 0 < zlen content /\
  le_get 8 (it_data it) 8 = zlen content /\ le_get 1 (it_data it) 16 = 0 /\ le_get 1 (it_data it) 20 = 0 /\
  sub (it_data it) 21 (zlen content) = content.

(** The items of a file whose bytes are [content]: none, or one inline
    extent. *)
Definition inline_file (inodeNum : Z) (content : list byte) (items : list itemEntry) : Prop :=
  match filter (fun it => is_extent_item inodeNum (it_key it)) items with
  | [] => content = []
  | [it] => inline_item inodeNum content it
  | _ => False
  end.

(** What reading [content] at an offset gives the caller's buffer. *)
Definition read_window (content buf : list byte) (ofst : Z) : list byte * Z :=
  if zlen content <=? ofst then (buf, 0)
  else let m := zlen buf `min` (zlen content - ofst) in (put buf 0 (sub content ofst m), m).

Section data.
Context {D : Type} `{Device D} {env : Env} `{Codecs} {tc0 : treeContext} {s : SuperBlock}.
Implicit Types b : FileSystem D.

Lemma last_item_ok b n t p : fs_tree tc0 s b n t -> last_item p b = (Ok (last_of p (flatten n t)), b).
Proof.
  intros Hft. unfold last_item. unfold mbind at 1, M_bind at 1. rewrite (walk_fs b n t _ _ Hft) by done.
  by rewrite (visit_fold _ (fun it x => if p (it_key it) then (it_key it, it_data it) else x))
    by (intros it x; cbn; by destruct (p (it_key it))).
Qed.

(** ** Reading *)
Lemma collect_inline inodeNum content it :
  inline_item inodeNum content it -> zlen content < 2 ^ 63 ->
  collect_extent inodeNum (item_of it) (it_data it) ([], 0) =
    (Ok tt, ([mkExtentInfo 0 (zlen content) true content 0 0 0], zlen content)).
Proof.
  intros (Ek & Hl & Hpos & F8 & F16 & F20 & Hs) Hlt. unfold collect_extent. cbn [item_of li_key].
  rewrite Ek. unfold is_extent_item. cbn [extent_key objectid typ offset]. rewrite !Z.eqb_refl. cbn [negb orb andb].
  rewrite (proj2 (Z.ltb_ge _ _)) by lia. rewrite (extent_fields_at (it_data it) ltac:(lia)). cbv beta iota zeta. cbn [negb orb andb]. rewrite lift_ok_bind, F8, F16, F20.
  change (0 =? BTRFS_FILE_EXTENT_INLINE) with true. cbv iota. rewrite slice_in, lift_ok_bind by lia. replace (zlen (it_data it) - 21) with (zlen content) by lia.
  rewrite Hs. unfold modify. cbn [app e_size]. rewrite Z.add_0_l, w64_id by lia. by rewrite (proj2 (Z.ltb_lt _ _)) by lia.
Qed.

(** [copy(buf[:m], src)] where [src] may be longer. *)
Lemma copy_short (buf src : list byte) m :
  0 <= m <= zlen buf -> m <= zlen src -> put buf 0 (put (sub buf 0 m) 0 src) = put buf 0 (sub src 0 m).
Proof.
  intros Hm Hs. pose proof (zlen_sub buf 0 m ltac:(lia) ltac:(lia) ltac:(lia)) as L1.
  pose proof (zlen_sub src 0 m ltac:(lia) ltac:(lia) ltac:(lia)) as L2. slice_ext.
Qed.

(** Reading from one uncompressed inline extent. *)
Lemma read_inline content buf ofst b :
  0 <= ofst < zlen content -> zlen content < 2 ^ 62 -> zlen buf < 2 ^ 62 ->
  readFromExtents [mkExtentInfo 0 (zlen content) true content 0 0 0] buf ofst b = (Ok (read_window content buf ofst), b).
Proof.
  intros Ho Hc Hb. pose proof (zlen_nonneg buf). unfold readFromExtents, read_window. cbn [forB].
  rewrite (proj2 (Z.leb_gt (zlen content) ofst)) by lia. unfold read_extent. cbn [e_fileOffset e_size e_inline e_compress e_inlineData].
  rewrite Z.add_0_l, !w64_id by lia. rewrite (proj2 (Z.leb_gt (zlen content) ofst)) by lia.
  destruct (Z.leb_spec (ofst + zlen buf) 0).
  { assert (zlen buf = 0) by lia. replace (zlen buf `min` (zlen content - ofst)) with 0 by lia.
    rewrite sub_nil, put_nil. done. }
  rewrite (proj2 (Z.ltb_ge ofst 0)) by lia.
  set (m := zlen buf `min` (zlen content - ofst)).
  assert (He : (if zlen content <? ofst + zlen buf then zlen content else ofst + zlen buf) = ofst + m)
    by (unfold m; destruct (Z.ltb_spec (zlen content) (ofst + zlen buf)); lia).
  rewrite He. destruct (Z.leb_spec (ofst + m) ofst).
  { assert (m = 0) as -> by (unfold m in *; lia). rewrite sub_nil, put_nil. done. }
  rewrite Z.sub_diag, Z.sub_0_r. replace (ofst + m - ofst) with m by lia.
  assert (0 < m <= zlen buf /\ ofst + m <= zlen content) as [Hm1 Hm2] by (unfold m in *; lia).
  rewrite i64_id, (w64_id 0), !(w64_id ofst) by lia. change (0 =? BTRFS_COMPRESS_NONE) with true. cbv iota. rewrite M_assoc, lift_ok_bind.
  rewrite w64_id, (proj2 (Z.ltb_ge (zlen content) _)), (proj2 (Z.leb_gt m 0)) by lia.
  rewrite (slice_in content), M_assoc, lift_ok_bind by lia. rewrite !Z.add_0_l, (w64_id m) by lia.
  rewrite (slice_in buf), M_assoc, lift_ok_bind by lia. rewrite put_at_in, M_assoc, lift_ok_bind by zlen. rewrite Z.sub_0_r, M_left_id. unfold mret, M_ret. do 3 f_equal.
  rewrite copy_short, sub_sub by (zlen || lia). by rewrite Z.add_0_r.
Qed.

Lemma extents_visit inodeNum items x :
  visit (collect_extent inodeNum) items x =
  visit (collect_extent inodeNum) (filter (fun it => is_extent_item inodeNum (it_key it)) items) x.
Proof.
  apply visit_filter. intros it y Hit. unfold collect_extent. cbn [item_of li_key]. by rewrite Hit.
Qed.

Lemma readFile_inline b n t inodeNum content buf ofst :
  fs_tree tc0 s b n t -> inline_file inodeNum content (flatten n t) -> zlen content < 2 ^ 62 -> zlen buf < 2 ^ 62 ->
  0 <= ofst -> readFile inodeNum buf ofst b = (Ok (read_window content buf ofst), b).
Proof.
  intros Hft Hin Hc Hb Ho. unfold readFile. unfold mbind at 1, M_bind at 1.
  rewrite (walk_fs b n t _ _ Hft) by done. rewrite extents_visit. unfold inline_file in Hin.
  destruct (filter _ _) as [|it [|? ?]]; [| |done].
  - subst content. cbn. rewrite orb_true_r, orb_true_l. unfold read_window. by rewrite (proj2 (Z.leb_le _ _)) by done.
  - unfold visit. cbn [forM]. rewrite (bind_ok _ _ _ _ _ (collect_inline _ _ _ Hin ltac:(lia))). cbn [mret M_ret walked].
    destruct Hin as (_ & _ & Hpos & _). rewrite M_left_id. rewrite (proj2 (Z.ltb_ge ofst 0)), (proj2 (Z.eqb_neq (zlen content) 0)) by lia.
    cbn [orb]. destruct (Z.leb_spec (zlen content) ofst).
    + unfold read_window. by rewrite (proj2 (Z.leb_le _ _)).
    + by apply read_inline.
Qed.

(** ** Updating, on the flattened list *)
Lemma needed_update_le k d l : sorted l -> needed (update_key k d l) <= needed l + zlen d.
Proof.
  pose proof (zlen_nonneg d). unfold update_key. induction 1 as [|x l Hl IH Hx]; [cbn [map]; lia|]. cbn [map].
  rewrite !needed_cons. pose proof (zlen_nonneg (it_data x)). case_bool_decide as E; [|lia]. cbn [it_data].
  fold (update_key k d l). rewrite update_key_id; [lia|]. rewrite <- E. by apply sorted_tail_keys.
Qed.
Lemma needed_update_same k d l :
  (forall it, it ∈ l -> it_key it = k -> zlen (it_data it) = zlen d) -> needed (update_key k d l) = needed l.
Proof.
  unfold update_key. induction l as [|x l IH]; intros Hl; [done|]. cbn [map]. rewrite !needed_cons.
  rewrite IH by (intros it Hit; apply Hl; by right). case_bool_decide; [|done]. cbn [it_data]. rewrite (Hl x); [done|by left|done].
Qed.

Lemma leaf_in_flatten k n (t : tree n) it : proper n t -> ordered n t -> it ∈ t_leaf n k t -> it ∈ flatten n t.
Proof.
  intros Hp Ho Hit. destruct (flatten_path k n t Hp Ho) as (A & C & -> & _). rewrite !elem_of_app. by right; left.
Qed.

Lemma update_ok b n t k data m :
  fs_tree tc0 s b n t -> leaves_fit tc0 (m + zlen data) n t -> 0 <= m -> k ∈ (it_key <$> flatten n t) ->
  exists d' t', update_item k data b = (Ok tt, set_dev d' b) /\ fs_tree tc0 s (set_dev d' b) n t' /\
    flatten n t' = update_key k data (flatten n t) /\ leaves_fit tc0 m n t'.
Proof.
  intros Hft Hroom Hm Hk. pose proof (ft_proper _ _ _ _ _ Hft) as Hp. pose proof (ft_ordered _ _ _ _ _ Hft) as Ho.
  pose proof (leaf_fit tc0 _ k n t Hp Hroom) as Hleaf. pose proof (zlen_nonneg data).
  pose proof (needed_update_le k data _ (leaf_sorted k n t Hp Ho)) as Hn.
  destruct (update_item_ok tc0 s b k data n t Hft Hk) as (d' & E & Hft' & _); [lia|].
  exists d', (t_modify n k (update_key k data) t). split; [done|]. split; [done|].
  split; [by apply flatten_update|]. apply fit_modify; [done|eapply fit_weaken; [|exact Hroom]; lia|lia].
Qed.

(** A replacement of the same length needs no room. *)
Lemma update_same_ok b n t k data m :
  fs_tree tc0 s b n t -> leaves_fit tc0 m n t -> k ∈ (it_key <$> flatten n t) ->
  (forall it, it ∈ flatten n t -> it_key it = k -> zlen (it_data it) = zlen data) -> 0 <= m ->
  exists d' t', update_item k data b = (Ok tt, set_dev d' b) /\ fs_tree tc0 s (set_dev d' b) n t' /\
    flatten n t' = update_key k data (flatten n t) /\ leaves_fit tc0 m n t'.
Proof.
  intros Hft Hroom Hk Hsame Hm. pose proof (ft_proper _ _ _ _ _ Hft) as Hp. pose proof (ft_ordered _ _ _ _ _ Hft) as Ho.
  pose proof (leaf_fit tc0 _ k n t Hp Hroom) as Hleaf.
  assert (Hn : needed (update_key k data (t_leaf n k t)) = needed (t_leaf n k t)).
  { apply needed_update_same. intros it Hit. apply Hsame. by apply (leaf_in_flatten k). }
  destruct (update_item_ok tc0 s b k data n t Hft Hk) as (d' & E & Hft' & _); [lia|].
  exists d', (t_modify n k (update_key k data) t). split; [done|]. split; [done|].
  split; [by apply flatten_update|]. apply fit_modify; [done..|lia].
Qed.

(** ** Writing *)
Lemma filter_sub (p q : itemEntry -> bool) (l : list itemEntry) : (forall x, p x = true -> q x = true) -> filter p l = filter p (filter q l).
Proof.
  intros Hpq. induction l as [|x l IH]; [done|]. rewrite !filter_cons. destruct (q x) eqn:Eq.
  - rewrite (decide_True (P := Is_true true)) by done. rewrite filter_cons. by rewrite IH.
  - rewrite (decide_False (P := Is_true false)) by intros []. rewrite decide_False; [done|].
    intros Hp%Is_true_eq_true%Hpq. by rewrite Hp in Eq.
Qed.

(** What [Write] finds of an inline file. *)
Lemma inline_found inodeNum content items :
  inline_file inodeNum content items ->
  (content = [] /\ filter (fun it => is_extent_item inodeNum (it_key it)) items = [] /\
   last_of (is_first_extent inodeNum) items = (mkKey 0 0 0, [])) \/
  exists it, filter (fun it => is_extent_item inodeNum (it_key it)) items = [it] /\ inline_item inodeNum content it /\
   last_of (is_first_extent inodeNum) items = (extent_key inodeNum, it_data it).
Proof.
  unfold inline_file. intros Hin. unfold last_of. rewrite last_of_filter.
  rewrite (filter_sub (fun it => is_first_extent inodeNum (it_key it)) (fun it => is_extent_item inodeNum (it_key it))) by (intros x Hx; unfold is_first_extent in Hx; by apply andb_prop in Hx as [Hx _]).
  destruct (filter (fun it => is_extent_item inodeNum (it_key it)) items) as [|it [|? ?]]; [by left| |done]. right.
  exists it. split; [done|]. split; [done|]. destruct Hin as [Ek _]. rewrite filter_cons, decide_True.
  - cbn. by rewrite Ek.
  - rewrite Ek. unfold is_first_extent, is_extent_item. cbn [extent_key objectid typ offset]. by rewrite !Z.eqb_refl.
Qed.

Lemma current_content_ok inodeNum content it b :
  inline_item inodeNum content it -> current_content (it_data it) b = (Ok content, b).
Proof.
  intros (_ & Hl & Hpos & _ & F16 & F20 & Hs). unfold current_content. rewrite (proj2 (Z.eqb_neq _ 0)) by lia.
  rewrite getUint_in, F20, lift_ok_bind by lia. change (0 =? BTRFS_FILE_EXTENT_INLINE) with true. cbv iota.
  unfold decode. rewrite (extent_fields_at (it_data it)) by lia. cbn [fst]. rewrite lift_ok_bind. rewrite slice_in, lift_ok_bind by lia.
  rewrite F16. change (0 =? BTRFS_COMPRESS_NONE) with true. cbn [negb].
  replace (zlen (it_data it) - 21) with (zlen content) by lia. by rewrite Hs.
Qed.

Lemma is_extent_self inodeNum : is_extent_item inodeNum (extent_key inodeNum) = true.
Proof. unfold is_extent_item. cbn. by rewrite Z.eqb_refl. Qed.

Lemma write_inline_ok b n t inodeNum content final m :
  fs_tree tc0 s b n t -> leaves_fit tc0 (m + 46 + zlen final) n t -> 0 <= m -> 0 <= inodeNum < 2 ^ 64 ->
  inline_file inodeNum content (flatten n t) -> 0 < zlen final < 2 ^ 32 ->
  let found := last_of (is_first_extent inodeNum) (flatten n t) in
  exists d' t', write_inline inodeNum found.1 found.2 final b = (Ok tt, set_dev d' b) /\
    fs_tree tc0 s (set_dev d' b) n t' /\ inline_file inodeNum final (flatten n t') /\ leaves_fit tc0 m n t' /\
    forall p : key -> bool, p (extent_key inodeNum) = false ->
      filter (fun it => p (it_key it)) (flatten n t') = filter (fun it => p (it_key it)) (flatten n t).
Proof.
  intros Hft Hroom Hm Hino Hin Hfin found. destruct (makeExtentDataInline_ok 0 final ltac:(lia)) as (d & Ed & Hl & F8 & F16 & F20 & Fs).
  assert (Hnew : inline_item inodeNum final (mkItem (extent_key inodeNum) d)) by (split_and!; try done; lia).
  unfold write_inline. rewrite Ed. setoid_rewrite lift_ok_bind.
  destruct (inline_found _ _ _ Hin) as [(-> & Hnone & Ef)|(it & Hone & Hit & Ef)]; unfold found; rewrite Ef; cbn [fst snd].
  - destruct (insert_ok b n t (extent_key inodeNum) d m Hft) as (d' & t' & E & Hft' & Et & Hroom').
    + rewrite Hl. by replace (m + 25 + (21 + zlen final)) with (m + 46 + zlen final) by lia.
    + done.
    + intros (x & Ex & Hx)%list_elem_of_fmap.
      assert (Hx' : x ∈ filter (fun it => is_extent_item inodeNum (it_key it)) (flatten n t)).
      { apply list_elem_of_filter. rewrite <- Ex, is_extent_self. done. }
      rewrite Hnone in Hx'. by apply not_elem_of_nil in Hx'.
    + apply key_wf_of; unfold BTRFS_EXTENT_DATA_KEY; lia.
    + exists d', t'. split; [exact E|]. split; [exact Hft'|]. rewrite Et. split; [|split; [exact Hroom'|]].
      * unfold inline_file. rewrite (filter_insert_new (fun it => is_extent_item inodeNum (it_key it))); [done|apply is_extent_self|done].
      * intros p Hp. by apply (filter_insert_other (fun it => p (it_key it))).
  - pose proof Hit as (Ek & Hlit & Hpos & _). rewrite (proj2 (Z.ltb_lt 0 (zlen (it_data it)))) by lia.
    destruct (update_ok b n t (extent_key inodeNum) d m Hft) as (d' & t' & E & Hft' & Et & Hroom').
    + eapply fit_weaken; [|exact Hroom]. lia.
    + done.
    + apply list_elem_of_fmap. exists it. split; [done|].
      assert (Hx : it ∈ filter (fun it => is_extent_item inodeNum (it_key it)) (flatten n t)) by (rewrite Hone; by left).
      by apply list_elem_of_filter in Hx as [_ Hx].
    + exists d', t'. split; [exact E|]. split; [exact Hft'|]. rewrite Et. split; [|split; [exact Hroom'|]].
      * unfold inline_file. rewrite (filter_update (is_extent_item inodeNum)) by apply is_extent_self.
        rewrite Hone. unfold update_key. cbn [map]. by rewrite bool_decide_true.
      * intros p Hp. by apply filter_update_other.
Qed.

(** The one inode item of a file. *)
Definition sole_inode (inodeNum : Z) (d : list byte) (items : list itemEntry) : Prop :=
  filter (fun it => is_inode_item inodeNum (it_key it)) items = [mkItem (inode_key inodeNum) d].

Lemma sole_inode_in inodeNum d items : sole_inode inodeNum d items -> mkItem (inode_key inodeNum) d ∈ items.
Proof.
  intros Hs. assert (Hx : mkItem (inode_key inodeNum) d ∈ filter (fun it => is_inode_item inodeNum (it_key it)) items)
    by (rewrite Hs; by left).
  by apply list_elem_of_filter in Hx as [_ Hx].
Qed.
Lemma sole_inode_info inodeNum d items : sole_inode inodeNum d items -> 100 <= zlen d -> inode_in inodeNum items = Some d.
Proof.
  intros Hs Hd. unfold inode_in.
  rewrite (filter_sub (fun it => is_inode_item inodeNum (it_key it) && (100 <=? zlen (it_data it))) (fun it => is_inode_item inodeNum (it_key it)))
    by (intros x Hx; by apply andb_prop in Hx as [Hx _]).
  rewrite Hs, filter_cons, decide_True; [done|]. cbn [it_key it_data]. unfold is_inode_item. cbn [inode_key objectid typ].
  rewrite !Z.eqb_refl. cbn [andb]. by rewrite (proj2 (Z.leb_le _ _)).
Qed.

Lemma sized_inode_ok newSize old :
  144 <= zlen old -> 0 <= newSize < 2 ^ 64 -> exists nd,
    (oldSize <- getUint64 old 16 ;;
     inodeData <- (if oldSize <? newSize then putUint64 old 16 newSize else Ok old) ;;
     inodeData <- put_time inodeData 120 ;;
     put_time inodeData 132) = Ok nd /\ zlen nd = zlen old /\ le_get 8 nd 16 = le_get 8 old 16 `max` newSize.
Proof.
  intros Hl Hn. rewrite getUint_in by lia. cbn [mbind res_bind]. unfold put_time.
  assert (Hput : exists l1, (if le_get 8 old 16 <? newSize then putUint64 old 16 newSize else Ok old) = Ok l1 /\
    zlen l1 = zlen old /\ le_get 8 l1 16 = le_get 8 old 16 `max` newSize).
  { destruct (Z.ltb_spec (le_get 8 old 16) newSize); [|exists old; split_and!; [done|done|lia]].
    destruct (putUint_spec 8 old 16 newSize) as (l1 & -> & W & G); [lia|lia|]. exists l1. split; [done|].
    split; [apply (proj1 W)|]. rewrite G, Z.mod_small; change (Z.of_nat 8) with 8; lia. }
  destruct Hput as (l1 & -> & Hl1 & F). cbn [mbind res_bind]. repeat put_field. eexists. split; [reflexivity|].
  change (Z.of_nat 4) with 4 in *; change (Z.of_nat 8) with 8 in *. split.
  - repeat match goal with W : wrote _ ?l _ _ |- context [zlen ?l] => rewrite (proj1 W) end. done.
  - by field_kept.
Qed.

Lemma grow_inode_ok b n t inodeNum newSize old m :
  fs_tree tc0 s b n t -> leaves_fit tc0 m n t -> 0 <= m -> sole_inode inodeNum old (flatten n t) -> 144 <= zlen old ->
  0 <= newSize < 2 ^ 64 -> exists d' t' nd,
    grow_inode inodeNum newSize b = (Ok tt, set_dev d' b) /\ fs_tree tc0 s (set_dev d' b) n t' /\
    sole_inode inodeNum nd (flatten n t') /\ zlen nd = zlen old /\ le_get 8 nd 16 = le_get 8 old 16 `max` newSize /\
    leaves_fit tc0 m n t' /\
    forall p : key -> bool, p (inode_key inodeNum) = false ->
      filter (fun it => p (it_key it)) (flatten n t') = filter (fun it => p (it_key it)) (flatten n t).
Proof.
  intros Hft Hroom Hm Hsole Hl Hn. destruct (sized_inode_ok newSize old Hl Hn) as (nd & Ed & Hln & Fn).
  pose proof (sole_inode_in _ _ _ Hsole) as Hit.
  assert (Hself : is_inode_item inodeNum (inode_key inodeNum) = true) by (unfold is_inode_item; cbn; by rewrite Z.eqb_refl).
  destruct (update_same_ok b n t (inode_key inodeNum) nd m Hft Hroom) as (d' & t' & E & Hft' & Et & Hroom');
    [by apply (list_elem_of_fmap_2 it_key _ _ Hit)| |done|].
  { intros it Hit' Ek. assert (Hx : it ∈ filter (fun it => is_inode_item inodeNum (it_key it)) (flatten n t))
      by (apply list_elem_of_filter; by rewrite Ek, Hself).
    rewrite Hsole in Hx. apply list_elem_of_singleton in Hx as ->. done. }
  exists d', t', nd. split; [|split; [exact Hft'|split; [|split; [done|split; [done|split; [exact Hroom'|]]]]]].
  - unfold grow_inode. rewrite (bind_ok _ _ _ _ _ (last_item_ok b n t _ Hft)). unfold last_of. rewrite last_of_filter, Hsole.
    cbn [foldl it_key it_data]. rewrite (proj2 (Z.leb_le 100 (zlen old))) by lia. rewrite Ed, lift_ok_bind.
    unfold ignore. by rewrite (bind_ok _ _ _ _ _ (catch_ok _ _ _ _ E)).
  - unfold sole_inode. rewrite Et, (filter_update (is_inode_item inodeNum)), Hsole by done.
    unfold update_key. cbn [map]. by rewrite bool_decide_true.
  - intros p Hp. rewrite Et. by apply filter_update_other.
Qed.

(** C13: Writing to a file kept inside the tree, up to 2048 bytes in all: the
    call reports every byte written, the blocks hold a search tree again, and
    reading at any offset gives the window of the content it put together,
    which is the old content, cut off or padded with zeros to the end of the
    write, with the new bytes over it; the size of the inode is at least the
    end of the write. *)
Theorem Write_Read_inline b b1 n t path inodeNum content old buf ofst :
  fs_tree tc0 s b n t -> leaves_fit tc0 (46 + (ofst + zlen buf)) n t ->
  resolvePath path b = (Ok inodeNum, b1) -> 0 <= inodeNum < 2 ^ 64 ->
  inline_file inodeNum content (flatten n t) -> sole_inode inodeNum old (flatten n t) -> 144 <= zlen old ->
  0 <= ofst -> 0 < zlen buf -> ofst + zlen buf <= 2048 ->
  let final := put (put (zeros (ofst + zlen buf)) 0 content) ofst buf in
  exists b' t' nd, Write path buf ofst b = (Ok (zlen buf), b') /\ fs_tree tc0 s b' n t' /\
    (forall rbuf rofst, 0 <= rofst -> zlen rbuf < 2 ^ 62 ->
       readFile inodeNum rbuf rofst b' = (Ok (read_window final rbuf rofst), b')) /\
    sole_inode inodeNum nd (flatten n t') /\ le_get 8 nd 16 = le_get 8 old 16 `max` (ofst + zlen buf).
Proof.
  intros Hft Hroom Eres Hino Hin Hsole Hold Ho Hb Hsmall final.
  destruct (resolvePath_same path b) as [c Ec]. rewrite Eres in Ec. cbn in Ec. subst b1. set (b1 := set_pathCache c b) in *.
  pose proof (fs_tree_cache b n t c Hft) as Hft1. fold b1 in Hft1.
  assert (Hlf : zlen final = ofst + zlen buf) by (unfold final; zlen).
  destruct (write_inline_ok b1 n t inodeNum content final 0 Hft1) as (d1 & t1 & E1 & Hft2 & Hin1 & Hroom1 & Hkeep1);
    [by rewrite Hlf, Z.add_0_l|lia|done|done|lia|].
  set (b2 := set_dev d1 b1) in *.
  assert (Hsole1 : sole_inode inodeNum old (flatten n t1)).
  { unfold sole_inode. rewrite (Hkeep1 (is_inode_item inodeNum)); [done|]. unfold is_inode_item. cbn. by rewrite andb_false_r. }
  destruct (grow_inode_ok b2 n t1 inodeNum (ofst + zlen buf) old 0 Hft2 Hroom1) as (d2 & t2 & nd & E2 & Hft3 & Hsole2 & Hln & Fn & _ & Hkeep2);
    [lia|done|done|lia|].
  set (b3 := set_dev d2 b2) in *. exists (set_pathCache (delete path (pathCache b3)) b3), t2, nd.
  split; [|split; [by apply fs_tree_cache|split; [|split; [done|done]]]].
  - unfold Write. rewrite (proj2 (Z.eqb_neq (zlen buf) 0)), (bind_ok _ _ _ _ _ Eres), (bind_ok _ _ _ _ _ (last_item_ok b1 n t _ Hft1)) by lia.
    assert (Ecur : current_content (last_of (is_first_extent inodeNum) (flatten n t)).2 b1 = (Ok content, b1)).
    { destruct (inline_found _ _ _ Hin) as [(-> & _ & ->)|(it & _ & Hit & ->)]; [done|]. by apply (current_content_ok inodeNum). }
    destruct (last_of (is_first_extent inodeNum) (flatten n t)) as [fk fd]. cbn [fst snd] in *. rewrite (bind_ok _ _ _ _ _ Ecur).
    rewrite (w64_id ofst), w64_id by lia. unfold make_bytes.
    rewrite (proj2 (Z.ltb_ge (ofst + zlen buf) 0)), (proj2 (Z.leb_gt (2 ^ 63) (ofst + zlen buf))) by lia. cbn [orb]. rewrite lift_ok_bind.
    rewrite copy_at_in, lift_ok_bind by zlen. fold final. rewrite (proj2 (Z.leb_le _ _)) by done.
    rewrite (bind_ok _ _ _ _ _ E1). fold b2. rewrite (bind_ok _ _ _ _ _ E2). done.
  - intros rbuf rofst Hr Hrb. apply (readFile_inline _ n t2); [by apply fs_tree_cache| |lia|done|done].
    unfold inline_file. rewrite (Hkeep2 (is_extent_item inodeNum)); [exact Hin1|].
    unfold is_extent_item. cbn. by rewrite andb_false_r.
Qed.
End data.
