(* ===== verification/BtrfsRefine.v ===== *)
(** The btrfs driver: the tree is a finite map.

    The contents of a tree are a map from keys to bytes.  Under [fs_tree]
    the three operations on items are the operations of the map, with an
    error and no change where the key is missing, and a walk visits the map
    in the order of its keys. *)
From S2P Require Export BtrfsData.

#[export] Instance key_countable : Countable key.
Proof.
  apply (inj_countable' (fun k => (objectid k, typ k, offset k)) (fun '(o, t, f) => mkKey o t f)). by intros [].
Defined.

Definition contents (items : list itemEntry) : gmap key (list byte) :=
  list_to_map ((fun it => (it_key it, it_data it)) <$> items).

Lemma contents_cons x l : contents (x :: l) = <[it_key x := it_data x]> (contents l).
Proof. done. Qed.

Lemma sorted_NoDup l : sorted l -> NoDup (it_key <$> l).
Proof.
  induction 1 as [|x l _ IH Hx]; [constructor|]. cbn. constructor; [by apply sorted_tail_keys|done].
Qed.

Lemma contents_dom l k : is_Some (contents l !! k) <-> k ∈ (it_key <$> l).
Proof.
  induction l as [|x l IH]; [split; [by intros []|set_solver]|]. rewrite contents_cons. cbn [fmap list_fmap].
  destruct (decide (it_key x = k)) as [<-|Hne].
  - rewrite lookup_insert_eq. split; [set_solver|eauto].
  - rewrite lookup_insert_ne by done. set_solver.
Qed.

Lemma contents_spec l k d : sorted l -> mkItem k d ∈ l <-> contents l !! k = Some d.
Proof.
  intros Hs. unfold contents. rewrite <- elem_of_list_to_map.
  - rewrite list_elem_of_fmap. split; [intros; by exists (mkItem k d)|]. intros ([] & ? & ?). by simplify_eq/=.
  - rewrite <- list_fmap_compose. by apply sorted_NoDup.
Qed.

Lemma contents_perm l l' : sorted l -> l ≡ₚ l' -> contents l = contents l'.
Proof.
  intros Hs Hp. apply list_to_map_proper; [|by rewrite Hp]. rewrite <- list_fmap_compose. by apply sorted_NoDup.
Qed.

Lemma contents_insert it l :
  sorted l -> it_key it ∉ (it_key <$> l) -> contents (insert_item it l) = <[it_key it := it_data it]> (contents l).
Proof.
  intros Hs Hk. rewrite <- contents_cons. apply contents_perm; [by apply insert_item_sorted|apply insert_item_perm].
Qed.

Lemma contents_delete k l : contents (delete_key k l) = delete k (contents l).
Proof.
  unfold delete_key. induction l as [|x l IH]; [symmetry; apply delete_empty|]. rewrite filter_cons, contents_cons.
  case_decide as Hx; [by rewrite contents_cons, IH, delete_insert_ne|].
  rewrite IH. destruct (decide (it_key x = k)) as [->|]; [|done]. by rewrite delete_insert_eq.
Qed.

Lemma contents_update_step k d l :
  contents (update_key k d l) = if decide (k ∈ (it_key <$> l)) then <[k := d]> (contents l) else contents l.
Proof.
  unfold update_key. induction l as [|x l IH]; [done|]. cbn [map]. rewrite !contents_cons, IH, fmap_cons.
  case_bool_decide as Hx; cbn [it_key it_data].
  - subst k. rewrite (decide_True (P := it_key x ∈ it_key x :: _)) by by left.
    case_decide; by rewrite !insert_insert_eq.
  - destruct (decide (k ∈ (it_key <$> l))); [rewrite decide_True by set_solver; by apply insert_insert_ne|].
    by rewrite decide_False by set_solver.
Qed.
Lemma contents_update k d l : k ∈ (it_key <$> l) -> contents (update_key k d l) = <[k := d]> (contents l).
Proof. intros Hk. by rewrite contents_update_step, decide_True. Qed.

Section refine.
Context {D : Type} `{Device D} {env : Env} `{Codecs} {tc0 : treeContext} {s : SuperBlock}.
Implicit Types b : FileSystem D.

Lemma delete_ok b n t k m :
  fs_tree tc0 s b n t -> leaves_fit tc0 m n t -> k ∈ (it_key <$> flatten n t) ->
  exists d' t', delete_item k b = (Ok tt, set_dev d' b) /\ fs_tree tc0 s (set_dev d' b) n t' /\
    flatten n t' = delete_key k (flatten n t) /\ leaves_fit tc0 m n t'.
Proof.
  intros Hft Hroom Hk. pose proof (ft_proper _ _ _ _ _ Hft) as Hp. pose proof (ft_ordered _ _ _ _ _ Hft) as Ho.
  destruct (delete_item_ok tc0 s b k n t Hft Hk) as (d' & E & Hft' & _).
  exists d', (t_modify n k (delete_key k) t). split; [done|]. split; [done|]. split; [by apply flatten_delete|].
  apply fit_modify; [done..|]. pose proof (leaf_fit tc0 _ k n t Hp Hroom).
  pose proof (needed_delete k (t_leaf n k t)). lia.
Qed.

(** A missing key. *)
Lemma missing_key b n t k data :
  fs_tree tc0 s b n t -> k ∉ (it_key <$> flatten n t) ->
  update_item k data b = (Err (Errorf "btrfs: key not found for update: %+v"), b) /\
  delete_item k b = (Err (Errorf "btrfs: key not found for deletion: %+v"), b).
Proof.
  intros Hft Hk. rewrite (key_in_leaf k n t (ft_proper _ _ _ _ _ Hft) (ft_ordered _ _ _ _ _ Hft)) in Hk.
  destruct (read_leaf_ok tc0 s b k n t Hft) as (phys & buf & E & _ & _ & _ & Hparse). apply last_index_None in Hk.
  unfold update_item, delete_item, fs_root, updateInLeaf, deleteFromLeaf. rewrite !M_assoc, !get_bind, !M_left_id.
  by rewrite !(bind_ok _ _ _ _ _ E), !Hparse, !lift_ok_bind, Hk.
Qed.

(** C5: Refinement: on a search tree with room, the operations on items are
    those of a finite map.  A new key is inserted, a key that is there is
    replaced or deleted, and the blocks hold a search tree again; replacing
    or deleting a key that is not there is an error and changes nothing. *)
Theorem tree_refines_map b n t k data :
  fs_tree tc0 s b n t -> leaves_fit tc0 (25 + zlen data) n t -> key_wf k ->
  let m := contents (flatten n t) in
  match m !! k with
  | None =>
      (exists d' t', insert_item_at k data b = (Ok tt, set_dev d' b) /\ fs_tree tc0 s (set_dev d' b) n t' /\
         contents (flatten n t') = <[k := data]> m) /\
      update_item k data b = (Err (Errorf "btrfs: key not found for update: %+v"), b) /\
      delete_item k b = (Err (Errorf "btrfs: key not found for deletion: %+v"), b)
  | Some _ =>
      (exists d' t', update_item k data b = (Ok tt, set_dev d' b) /\ fs_tree tc0 s (set_dev d' b) n t' /\
         contents (flatten n t') = <[k := data]> m) /\
      (exists d' t', delete_item k b = (Ok tt, set_dev d' b) /\ fs_tree tc0 s (set_dev d' b) n t' /\
         contents (flatten n t') = delete k m)
  end.
Proof.
  intros Hft Hroom Hwf m. pose proof (flatten_sorted n t (ft_ordered _ _ _ _ _ Hft)) as Hs.
  pose proof (contents_dom (flatten n t) k) as Hdom. fold m in Hdom. destruct (m !! k) as [d|] eqn:Ek.
  - assert (Hk : k ∈ (it_key <$> flatten n t)) by (apply Hdom; eauto). split.
    + destruct (update_ok b n t k data 0 Hft) as (d' & t' & E & Hft' & Et & _);
        [eapply fit_weaken; [|exact Hroom]; lia|done|done|]. exists d', t'. by rewrite Et, contents_update.
    + destruct (delete_ok b n t k _ Hft Hroom Hk) as (d' & t' & E & Hft' & Et & _). exists d', t'.
      by rewrite Et, contents_delete.
  - assert (Hk : k ∉ (it_key <$> flatten n t)) by (intros Hk; apply Hdom in Hk as [? ?]; done).
    split; [|by eapply missing_key]. destruct (insert_ok b n t k data 0 Hft) as (d' & t' & E & Hft' & Et & _); [done..|].
    exists d', t'. rewrite Et. split_and!; [done|done|]. by apply (contents_insert (mkItem k data)).
Qed.

(** A walk of the file-system tree runs its function on the entries of
    the map in the order of their keys, each once, stops at the first error,
    and leaves the file system as it is. *)
Theorem walk_visits_map {B} b n t (acc : B) cb :
  fs_tree tc0 s b n t -> key_only cb -> exists items,
    StronglySorted key_lt (it_key <$> items) /\
    (forall k d, mkItem k d ∈ items <-> contents (flatten n t) !! k = Some d) /\
    walkFSTree acc cb b = (walked (visit cb items acc), b).
Proof.
  intros Hft Hcb. exists (flatten n t). pose proof (flatten_sorted n t (ft_ordered _ _ _ _ _ Hft)) as Hs.
  split; [by apply sorted_keys|]. split; [intros; by apply contents_spec|exact (walk_fs b n t acc cb Hft Hcb)].
Qed.
End refine.
