(* ===== verification/BtrfsInodes.v ===== *)
(** The btrfs driver: changing and removing inodes.

    [Chmod] replaces the inode item of a file; [Unlink] removes an entry,
    then drops a link of the inode or removes it with the extents of the
    file. *)
From S2P Require Export BtrfsRefine.

(** ** Deletion and searches *)
Lemma filter_delete (p : itemEntry -> bool) k items : filter p (delete_key k items) = delete_key k (filter p items).
Proof.
  unfold delete_key. induction items as [|x items IH]; [done|]. rewrite !filter_cons.
  destruct (decide (it_key x <> k)) as [E|E], (p x) eqn:Ep; rewrite ?filter_cons.
  - rewrite decide_True by by rewrite Ep. rewrite (decide_True (P := Is_true true)) by done. rewrite filter_cons, decide_True by done. by f_equal.
  - rewrite decide_False by by rewrite Ep; intros []. by rewrite (decide_False (P := Is_true false)) by intros [].
  - rewrite (decide_True (P := Is_true true)) by done. by rewrite filter_cons, decide_False.
  - by rewrite (decide_False (P := Is_true false)) by intros [].
Qed.

Lemma filter_delete_other (p : itemEntry -> bool) k items :
  (forall it, it ∈ items -> it_key it = k -> p it = false) -> filter p (delete_key k items) = filter p items.
Proof.
  intros Hp. rewrite filter_delete. apply delete_key_id.
  intros (x & -> & [Hx Hin]%list_elem_of_filter)%list_elem_of_fmap. by rewrite Hp in Hx.
Qed.

Lemma sorted_key_inj l x y : sorted l -> x ∈ l -> y ∈ l -> it_key x = it_key y -> x = y.
Proof.
  intros Hs Hx Hy Hk. destruct x as [k d], y as [k' d']. cbn in Hk. subst k'.
  apply (contents_spec _ _ _ Hs) in Hx, Hy. by simplify_eq.
Qed.

(** Every item with a key of the list is gone. *)
(** Deleting the first of the items with [p]. *)
Lemma delete_first (p : itemEntry -> bool) e rest items :
  sorted items -> filter p items = e :: rest -> filter p (delete_key (it_key e) items) = rest.
Proof.
  intros Hs. revert rest. induction Hs as [|x items Hs IH Hx]; intros rest; [done|]. rewrite filter_cons.
  unfold delete_key. rewrite filter_cons. destruct (decide (p x)) as [Hp|Hp]; intros E.
  - injection E as -> <-. rewrite decide_False by naive_solver. fold (delete_key (it_key e) items).
    by rewrite delete_key_id by by apply sorted_tail_keys.
  - case_decide; [rewrite filter_cons, (decide_False (P := p x)) by done|]; by apply IH.
Qed.

Lemma delete_all ks items :
  foldl (fun l k => delete_key k l) items ks = filter (fun it => it_key it ∉ ks) items.
Proof.
  revert items. induction ks as [|k ks IH]; intros items; cbn [foldl].
  - induction items as [|x items IHi]; [done|]. rewrite filter_cons, decide_True by apply not_elem_of_nil. by f_equal.
  - rewrite IH. unfold delete_key. induction items as [|x items IHi]; [done|]. rewrite !filter_cons.
    destruct (decide (it_key x = k)) as [E|E].
    + rewrite decide_False by (intros Hx; by apply Hx). rewrite decide_False; [done|]. rewrite E. set_solver.
    + rewrite decide_True by done. rewrite filter_cons. destruct (decide (it_key x ∈ ks)).
      * rewrite !decide_False by set_solver. done.
      * rewrite !decide_True by set_solver. by f_equal.
Qed.

Lemma filter_agree {A} (P Q : A -> Prop) `{forall x, Decision (P x), forall x, Decision (Q x)} (l : list A) :
  (forall x, x ∈ l -> P x <-> Q x) -> filter P l = filter Q l.
Proof.
  induction l as [|x l IH]; intros Hpq; [done|]. rewrite !filter_cons. rewrite IH by (intros; apply Hpq; by right).
  specialize (Hpq x ltac:(by left)). destruct (decide (P x)); [rewrite decide_True by tauto|rewrite decide_False by tauto]; done.
Qed.

Lemma delete_matching (p : key -> bool) items :
  foldl (fun l k => delete_key k l) items (it_key <$> filter (fun it => p (it_key it)) items) =
  filter (fun it => negb (p (it_key it))) items.
Proof.
  rewrite delete_all. apply filter_agree. intros it Hit. split.
  - intros Hk. destruct (p (it_key it)) eqn:Ep; [|done]. exfalso. apply Hk. apply list_elem_of_fmap. exists it.
    split; [done|]. apply list_elem_of_filter. by rewrite Ep.
  - intros Hn (y & Ey & [Hy _]%list_elem_of_filter)%list_elem_of_fmap. rewrite Ey in Hn. by destruct (p (it_key y)).
Qed.

Lemma collect_keys (p : key -> bool) acc l :
  foldl (fun ks it => ks ++ (if p (it_key it) then [it_key it] else [])) acc l =
  acc ++ (it_key <$> filter (fun it => p (it_key it)) l).
Proof.
  revert acc. induction l as [|x l IH]; intros acc; cbn [foldl]; [by rewrite app_nil_r|]. rewrite IH, filter_cons.
  destruct (p (it_key x)); [rewrite decide_True by done|rewrite decide_False by intros []].
  - by rewrite <- app_assoc.
  - by rewrite app_nil_r.
Qed.

Section inodes.
Context {D : Type} `{Device D} {env : Env} `{Codecs} {tc0 : treeContext} {s : SuperBlock}.
Implicit Types b : FileSystem D.

Lemma first_item_ok b n t (p : key -> bool) :
  fs_tree tc0 s b n t ->
  first_item p b =
    (Ok (match filter (fun it => p (it_key it)) (flatten n t) with
         | it :: _ => (Some (it_data it), Some stop)
         | [] => (None, None)
         end), b).
Proof.
  intros Hft. unfold first_item. rewrite (walk_fs b n t _ _ Hft) by done.
  rewrite (visit_first _ (fun it => p (it_key it)) (fun it => Some (it_data it)) stop)
    by (intros it x; cbn; by destruct (p (it_key it))).
  by destruct (filter _ _).
Qed.

Lemma inode_data_ok b n t inodeNum d :
  fs_tree tc0 s b n t -> sole_inode inodeNum d (flatten n t) -> 100 <= zlen d -> inode_data inodeNum b = (Ok d, b).
Proof.
  intros Hft Hs Hd. unfold inode_data. rewrite (bind_ok _ _ _ _ _ (first_item_ok b n t _ Hft)).
  unfold sole_inode in Hs. rewrite Hs. cbn [it_data real_error]. rewrite bool_decide_true by done.
  change (default [] (Some d)) with d. by rewrite (proj2 (Z.ltb_ge (zlen d) 100)) by lia.
Qed.

Lemma keys_of_ok b n t (p : key -> bool) :
  fs_tree tc0 s b n t -> keys_of p b = (Ok (it_key <$> filter (fun it => p (it_key it)) (flatten n t)), b).
Proof.
  intros Hft. unfold keys_of. unfold mbind at 1, M_bind at 1. rewrite (walk_fs b n t _ _ Hft) by done.
  rewrite (visit_fold _ (fun it ks => ks ++ (if p (it_key it) then [it_key it] else [])))
    by (intros it x; cbn; destruct (p (it_key it)); [done|by rewrite app_nil_r]).
  cbn [walked]. by rewrite collect_keys.
Qed.

(** Deletion of a list of keys, whether they are there or not. *)
Lemma delete_keys_ok b n t ks m :
  fs_tree tc0 s b n t -> leaves_fit tc0 m n t -> exists d' t',
    forM ks tt (fun ek _ => ignore (delete_item ek)) b = (Ok tt, set_dev d' b) /\ fs_tree tc0 s (set_dev d' b) n t' /\
    flatten n t' = foldl (fun l k => delete_key k l) (flatten n t) ks /\ leaves_fit tc0 m n t'.
Proof.
  revert b t. induction ks as [|k ks IH]; intros b t Hft Hroom.
  { exists (dev b), t. assert (Eb : set_dev (dev b) b = b) by by destruct b. rewrite Eb. done. }
  cbn [forM foldl]. destruct (decide (k ∈ (it_key <$> flatten n t))) as [Hk|Hk].
  - destruct (delete_ok b n t k m Hft Hroom Hk) as (d1 & t1 & E & Hft1 & Et & Hroom1).
    destruct (IH _ _ Hft1 Hroom1) as (d2 & t2 & E2 & Hft2 & Et2 & Hroom2). exists d2, t2. rewrite Et2, Et. split; [|done].
    erewrite bind_ok; [exact E2|by eapply ignore_ok].
  - destruct (IH _ _ Hft Hroom) as (d2 & t2 & E2 & Hft2 & Et2 & Hroom2). exists d2, t2. rewrite Et2, (delete_key_id k) by done. split; [|done].
    destruct (missing_key b n t k [] Hft Hk) as [_ E].
    erewrite bind_ok; [exact E2|by eapply ignore_err].
Qed.

Lemma delete_extents_ok b n t inodeNum m :
  fs_tree tc0 s b n t -> leaves_fit tc0 m n t -> exists d' t',
    delete_extents inodeNum b = (Ok tt, set_dev d' b) /\ fs_tree tc0 s (set_dev d' b) n t' /\
    flatten n t' = filter (fun it => negb (is_extent_item inodeNum (it_key it))) (flatten n t) /\ leaves_fit tc0 m n t'.
Proof.
  intros Hft Hroom. destruct (delete_keys_ok b n t (it_key <$> filter (fun it => is_extent_item inodeNum (it_key it)) (flatten n t)) m Hft Hroom)
    as (d' & t' & E & Hft' & Et & Hroom').
  exists d', t'. rewrite Et, (delete_matching (is_extent_item inodeNum)). split; [|done]. unfold delete_extents.
  by rewrite (bind_ok _ _ _ _ _ (keys_of_ok b n t _ Hft)).
Qed.

(** ** Changing the mode *)

(** The mode [Chmod] stores. *)
Definition chmod_mode (old mode : Z) : Z := Z.lor (Z.land old 0xFFFF0000) (Z.land mode 0x0FFF).

Lemma chmod_mode_range old mode : 0 <= chmod_mode old mode < 2 ^ 32.
Proof.
  assert (E : Z.land (chmod_mode old mode) (Z.ones 32) = chmod_mode old mode).
  { unfold chmod_mode. by rewrite Z.land_lor_distr_l, <- !Z.land_assoc. }
  rewrite <- E, Z.land_ones by lia. by apply Z.mod_pos_bound.
Qed.
Lemma chmod_mode_type old mode m : Z.land 0xFFFF0FFF m = 0 -> Z.land (chmod_mode old mode) m = 0.
Proof.
  intros Hm. assert (E : forall a, Z.land 0xFFFF0FFF a = a -> Z.land a m = 0).
  { intros a <-. rewrite (Z.land_comm _ a), <- Z.land_assoc, Hm. apply Z.land_0_r. }
  unfold chmod_mode. rewrite Z.land_lor_distr_l, <- !Z.land_assoc, !E by done. by rewrite !Z.land_0_r.
Qed.

Lemma chmod_data_ok old mode :
  144 <= zlen old -> exists nd,
    (o <- getUint32 old 52 ;;
     data <- putUint32 old 52 (Z.lor (Z.land o 0xFFFF0000) (Z.land mode 0x0FFF)) ;;
     put_time data 120) = Ok nd /\ zlen nd = zlen old /\ le_get 4 nd 52 = chmod_mode (le_get 4 old 52) mode /\
    le_get 8 nd 16 = le_get 8 old 16 /\ le_get 4 nd 40 = le_get 4 old 40.
Proof.
  intros Hl. rewrite getUint_in by lia. cbn [mbind res_bind]. unfold put_time. fold (chmod_mode (le_get 4 old 52) mode).
  repeat put_field. eexists. split; [reflexivity|]. change (Z.of_nat 4) with 4 in *; change (Z.of_nat 8) with 8 in *.
  split; [by rewrite (proj1 W1), (proj1 W0), (proj1 W)|]. split; [|split; by field_kept].
  field_kept. rewrite G. apply Z.mod_small, chmod_mode_range.
Qed.

(** A new item for the inode of a file, of the same length. *)
Lemma update_inode_ok b n t inodeNum old nd m :
  fs_tree tc0 s b n t -> leaves_fit tc0 m n t -> 0 <= m -> sole_inode inodeNum old (flatten n t) -> zlen nd = zlen old -> exists d' t',
    update_item (inode_key inodeNum) nd b = (Ok tt, set_dev d' b) /\ fs_tree tc0 s (set_dev d' b) n t' /\
    flatten n t' = update_key (inode_key inodeNum) nd (flatten n t) /\ sole_inode inodeNum nd (flatten n t') /\ leaves_fit tc0 m n t'.
Proof.
  intros Hft Hroom Hm Hsole Hl. pose proof (sole_inode_in _ _ _ Hsole) as Hit.
  assert (Hself : is_inode_item inodeNum (inode_key inodeNum) = true) by (unfold is_inode_item; cbn; by rewrite Z.eqb_refl).
  destruct (update_same_ok b n t (inode_key inodeNum) nd m Hft Hroom) as (d' & t' & E & Hft' & Et & Hroom');
    [by apply (list_elem_of_fmap_2 it_key _ _ Hit)| |done|].
  { intros it Hit' Ek. assert (Hx : it ∈ filter (fun it => is_inode_item inodeNum (it_key it)) (flatten n t))
      by (apply list_elem_of_filter; by rewrite Ek, Hself).
    rewrite Hsole in Hx. apply list_elem_of_singleton in Hx as ->. done. }
  exists d', t'. split_and!; [done|done|done| |done]. unfold sole_inode. rewrite Et, (filter_update (is_inode_item inodeNum)), Hsole by done.
  unfold update_key. cbn [map]. by rewrite bool_decide_true.
Qed.

(** Changing the permissions of a file takes its type away: [Chmod]
    succeeds and stores the permission bits, size and link count stay, but
    the file is then neither a directory nor a regular file nor a symbolic
    link, whatever it was. *)
Theorem Chmod_loses_type b b1 n t path mode ino old :
  fs_tree tc0 s b n t -> resolvePath path b = (Ok ino, b1) -> sole_inode ino old (flatten n t) -> 144 <= zlen old ->
  exists b' t' info, Chmod path mode b = (Ok tt, b') /\ fs_tree tc0 s b' n t' /\ readInodeInfo ino b' = (Ok info, b') /\
    Z.land (ni_Mode info) 0xFFF = Z.land mode 0xFFF /\ ni_Size info = le_get 8 old 16 /\ ni_Nlink info = le_get 4 old 40 /\
    ni_IsDir info = false /\ ni_IsRegular info = false /\ ni_IsSymlink info = false.
Proof.
  intros Hft Eres Hsole Hl. destruct (resolvePath_same path b) as [c Ec]. rewrite Eres in Ec. cbn in Ec. subst b1.
  pose proof (fs_tree_cache b n t c Hft) as Hft1. set (b1 := set_pathCache c b) in *.
  destruct (chmod_data_ok old mode Hl) as (nd & Ed & Hln & F52 & F16 & F40).
  destruct (update_inode_ok b1 n t ino old nd 0 Hft1 (ft_fit _ _ _ _ _ Hft1) ltac:(done) Hsole Hln) as (d' & t' & E & Hft' & _ & Hsole' & _).
  exists (set_dev d' b1), t', (info_of ino nd). split; [|split; [exact Hft'|split]].
  - unfold Chmod. rewrite (bind_ok _ _ _ _ _ Eres), (bind_ok _ _ _ _ _ (inode_data_ok b1 n t ino old Hft1 Hsole ltac:(lia))).
    by rewrite Ed, lift_ok_bind.
  - rewrite (readInodeInfo_ok _ n t' ino Hft'). by rewrite (sole_inode_info _ _ _ Hsole') by lia.
  - destruct (inode_info_ok ino nd) as (_ & _ & Es & En & Em & Ed1 & Er & El); [lia|].
    rewrite El, Er, Ed1, Em, Es, En, F52, F16, F40, (chmod_mode_type _ _ 0x4000), (chmod_mode_type _ _ 0x8000), (chmod_mode_type _ _ 0xA000) by done. split_and!; try done.
    unfold chmod_mode. by rewrite Z.land_lor_distr_l, <- !Z.land_assoc, Z.land_0_r, Z.lor_0_l.
Qed.

(** ** Removing a name *)
Lemma names_entry_key dirInode name it : names_entry dirInode name it = true -> is_dir_item dirInode (it_key it) = true.
Proof. unfold names_entry. intros Hn. do 4 apply andb_prop in Hn as [Hn _]. done. Qed.

Lemma first_entry dirInode name e rest items :
  filter (names_entry dirInode name) items = e :: rest ->
  names_entry dirInode name e = true /\ is_dir_item dirInode (it_key e) = true /\ e ∈ items.
Proof.
  intros Hone. assert (He : e ∈ filter (names_entry dirInode name) items) by (rewrite Hone; by left).
  apply list_elem_of_filter in He as [Hne%Is_true_eq_true Hin]. by pose proof (names_entry_key _ _ _ Hne).
Qed.

(** An entry has one name. *)
Lemma names_entry_inj d1 n1 d2 n2 it : names_entry d1 n1 it = true -> names_entry d2 n2 it = true -> d2 = d1 /\ n2 = n1.
Proof.
  unfold names_entry, is_dir_item. rewrite !andb_true_iff, !bool_decide_eq_true, !Z.eqb_eq. naive_solver.
Qed.

(** A change of the items that are not entries does not show in a lookup. *)
Lemma names_filter dirInode name (l l' : list itemEntry) :
  filter (fun it => is_dir_item dirInode (it_key it)) l' = filter (fun it => is_dir_item dirInode (it_key it)) l ->
  filter (names_entry dirInode name) l' = filter (names_entry dirInode name) l.
Proof.
  intros Hl. rewrite (filter_sub _ _ l' (names_entry_key dirInode name)), Hl.
  symmetry. apply filter_sub, names_entry_key.
Qed.

Lemma dir_item_not dirInode k t : is_dir_item dirInode k = true -> t = BTRFS_INODE_ITEM_KEY \/ t = BTRFS_EXTENT_DATA_KEY -> typ k <> t.
Proof.
  unfold is_dir_item. intros [_ Hk]%andb_prop Ht Hkt. rewrite Hkt in Hk. by destruct Ht as [-> | ->].
Qed.
Lemma dir_item_inode dirInode i : is_dir_item dirInode (inode_key i) = false.
Proof. unfold is_dir_item. cbn. by rewrite andb_false_r. Qed.

(** The new item of the inode agrees with the old one but for the link count. *)
Definition link_count_set (old nd : list byte) (nlink : Z) : Prop :=
  zlen nd = zlen old /\ le_get 4 nd 40 = nlink /\ le_get 4 nd 52 = le_get 4 old 52 /\ le_get 8 nd 16 = le_get 8 old 16.

Lemma drop_link_ok old :
  144 <= zlen old -> exists d1, drop_link old = Ok (0 `max` (le_get 4 old 40 - 1), d1) /\
    link_count_set old d1 (0 `max` (le_get 4 old 40 - 1)).
Proof.
  intros Hl. pose proof (le_get_range 4 old 40) as Hr. change (Z.of_nat 4 * 8) with 32 in Hr. unfold drop_link. rewrite getUint_in by lia. cbn [mbind res_bind].
  replace (if 0 <? le_get 4 old 40 then le_get 4 old 40 - 1 else le_get 4 old 40) with (0 `max` (le_get 4 old 40 - 1))
    by (destruct (Z.ltb_spec 0 (le_get 4 old 40)); lia).
  put_field. exists l'. split; [reflexivity|]. unfold link_count_set. change (Z.of_nat 4) with 4 in *; change (Z.of_nat 8) with 8 in *.
  split; [apply (proj1 W)|]. split; [|split; by field_kept]. rewrite G. apply Z.mod_small. lia.
Qed.

Lemma put_time_links old d nlink :
  144 <= zlen old -> link_count_set old d nlink -> exists nd, put_time d 120 = Ok nd /\ link_count_set old nd nlink.
Proof.
  intros Hl (Hz & F40 & F52 & F16). unfold put_time. repeat put_field. eexists. split; [reflexivity|]. unfold link_count_set.
  change (Z.of_nat 4) with 4 in *; change (Z.of_nat 8) with 8 in *.
  split; [by rewrite (proj1 W0), (proj1 W)|]. split_and!; field_kept; done.
Qed.

(** The items after [Unlink], from those without the entry. *)
Definition unlinked (child : Z) (old : list byte) (items items' : list itemEntry) : Prop :=
  if le_get 4 old 40 <=? 1 then
    items' = filter (fun it => negb (is_extent_item child (it_key it))) (delete_key (inode_key child) items)
  else exists nd, items' = update_key (inode_key child) nd items /\ link_count_set old nd (le_get 4 old 40 - 1).

Lemma unlinked_names child old items items' dirInode :
  unlinked child old items items' ->
  filter (fun it => is_dir_item dirInode (it_key it)) items' = filter (fun it => is_dir_item dirInode (it_key it)) items.
Proof.
  unfold unlinked. destruct (_ <=? 1).
  - intros ->. rewrite list_filter_filter_l.
    + apply filter_delete_other. intros it _ ->. apply dir_item_inode.
    + intros it Hk%Is_true_eq_true. apply Is_true_eq_left, negb_true_iff.
      destruct (is_extent_item child (it_key it)) eqn:E; [|done]. exfalso.
      apply andb_prop in E as [_ E]. apply Z.eqb_eq in E. by apply (dir_item_not _ _ _ Hk (or_intror eq_refl)).
  - intros (nd & -> & _). apply (filter_update_other (is_dir_item dirInode)), dir_item_inode.
Qed.

(** The names after an entry and a link of its inode are gone. *)
Lemma unlinked_entry b n t dirInode name e rest child old items' :
  fs_tree tc0 s b n t -> filter (names_entry dirInode name) (flatten n t) = e :: rest ->
  unlinked child old (delete_key (it_key e) (flatten n t)) items' ->
  filter (names_entry dirInode name) items' = rest /\
  forall d' n', ~ (d' = dirInode /\ n' = name) -> filter (names_entry d' n') items' = filter (names_entry d' n') (flatten n t).
Proof.
  intros Hft Hone Hun. destruct (first_entry _ _ _ _ _ Hone) as (Hne & _ & Hin).
  assert (Hnames : forall d' n', filter (names_entry d' n') items' =
    filter (names_entry d' n') (delete_key (it_key e) (flatten n t))).
  { intros d' n'. apply names_filter, (unlinked_names _ _ _ _ _ Hun). }
  split; [|intros d' n' Hne']; rewrite Hnames.
  - apply (delete_first _ _ _ _ (flatten_sorted n t (ft_ordered _ _ _ _ _ Hft)) Hone).
  - apply filter_delete_other. intros it Hit Hkey.
    rewrite (sorted_key_inj _ _ _ (flatten_sorted n t (ft_ordered _ _ _ _ _ Hft)) Hit Hin Hkey).
    destruct (names_entry d' n' e) eqn:E; [|done]. destruct Hne'. by apply (names_entry_inj _ _ _ _ e).
Qed.

(** The second half of [removeEntry], from the inode of the entry on. *)
Lemma drop_inode_ok b n t child old (k : BT D unit) :
  fs_tree tc0 s b n t -> sole_inode child old (flatten n t) -> 144 <= zlen old -> exists d' t',
    (let! (inodeData, err) := first_item (is_inode_item child) in
     match real_error err with Some e => fail e | None => mret tt end ;;
     let inodeData := default [] inodeData in
     (if 100 <=? zlen inodeData then
        let! (nlink, inodeData) := lift (drop_link inodeData) in
        inodeData <- lift (put_time inodeData 120) ;;
        if nlink =? 0 then
          delete_item (inode_key child) ;;
          delete_extents child
        else update_item (inode_key child) inodeData
      else mret tt) ;; k) b = k (set_dev d' b) /\ fs_tree tc0 s (set_dev d' b) n t' /\
    unlinked child old (flatten n t) (flatten n t').
Proof.
  intros Hft Hsole Hl. destruct (drop_link_ok old Hl) as (d1 & Ed1 & Hd1). destruct (put_time_links old d1 _ Hl Hd1) as (nd & Ed & Hnd).
  rewrite (bind_ok _ _ _ _ _ (first_item_ok b n t _ Hft)). unfold sole_inode in Hsole. rewrite Hsole. cbn [it_data real_error].
  rewrite bool_decide_true, M_left_id by done. change (default [] (Some old)) with old.
  rewrite (proj2 (Z.leb_le _ _)), Ed1, M_assoc, lift_ok_bind by lia. cbv beta iota. rewrite Ed, M_assoc, lift_ok_bind. unfold unlinked.
  pose proof (le_get_range 4 old 40). destruct (Z.leb_spec (le_get 4 old 40) 1).
  - replace (0 `max` (le_get 4 old 40 - 1)) with 0 by lia. cbn [Z.eqb].
    destruct (delete_ok b n t (inode_key child) 0 Hft (ft_fit _ _ _ _ _ Hft)) as (d2 & t2 & E2 & Hft2 & Et2 & _).
    { apply (list_elem_of_fmap_2 it_key _ _ (sole_inode_in _ _ _ Hsole)). }
    destruct (delete_extents_ok _ n t2 child 0 Hft2 (ft_fit _ _ _ _ _ Hft2)) as (d3 & t3 & E3 & Hft3 & Et3 & _). exists d3, t3.
    rewrite M_assoc, (bind_ok _ _ _ _ _ E2), (bind_ok _ _ _ _ _ E3). by rewrite Et3, Et2.
  - rewrite (proj2 (Z.eqb_neq _ 0)) by lia.
    destruct (update_inode_ok b n t child old nd 0 Hft (ft_fit _ _ _ _ _ Hft) ltac:(done) Hsole (proj1 Hnd)) as (d' & t' & E & Hft' & Et & _).
    exists d', t'. split; [by rewrite (bind_ok _ _ _ _ _ E)|]. split; [exact Hft'|]. exists nd. split; [done|]. by rewrite Z.max_r in Hnd by lia.
Qed.

(** C11: Removing a name deletes the first item that carries it, in the order
    of the keys, and no other: the name is not found afterwards exactly when
    no second item carries it, and otherwise leads to what the next one says.
    (The driver enters a name as one item, DIR_INDEX; other drivers also write
    a DIR_ITEM.)  Every other lookup gives what it gave, and the inode, which
    has one item, loses a link, or, with the last one, its item and its
    extents, whatever items still name it; the blocks hold a search tree
    again. *)
Theorem Unlink_removes b b1 n t path dir name dirInode e rest old :
  let child := le_get 8 (it_data e) 0 in
  fs_tree tc0 s b n t -> splitPath path = Ok (dir, name) -> resolvePath dir b = (Ok dirInode, b1) ->
  filter (names_entry dirInode name) (flatten n t) = e :: rest -> sole_inode child old (flatten n t) -> 144 <= zlen old ->
  Z.land (le_get 4 old 52) 0x4000 = 0 ->
  exists b' t', Unlink path b = (Ok tt, b') /\ fs_tree tc0 s b' n t' /\
    unlinked child old (delete_key (it_key e) (flatten n t)) (flatten n t') /\
    lookupDirEntry dirInode name b' = (leads rest, b') /\
    forall dirInode' name', ~ (dirInode' = dirInode /\ name' = name) ->
      (lookupDirEntry dirInode' name' b').1 = (lookupDirEntry dirInode' name' b).1.
Proof.
  intros child Hft Esplit Edir Hone Hsole Hl Hmode.
  destruct (resolvePath_same dir b) as [c Ec]. rewrite Edir in Ec. cbn in Ec. subst b1.
  pose proof (fs_tree_cache b n t c Hft) as Hft1. set (b1 := set_pathCache c b) in *.
  destruct (first_entry _ _ _ _ _ Hone) as (Hne & Hek & Hin).
  destruct (delete_ok b1 n t (it_key e) 0 Hft1 (ft_fit _ _ _ _ _ Hft1)) as (d1 & t1 & E1 & Hft2 & Et1 & _);
    [by apply list_elem_of_fmap_2|].
  assert (Hsole1 : sole_inode child old (flatten n t1)).
  { unfold sole_inode. rewrite Et1, filter_delete_other; [exact Hsole|]. intros it _ ->.
    destruct (is_inode_item child (it_key e)) eqn:Ei; [|done]. apply andb_prop in Ei as [_ Ei]. apply Z.eqb_eq in Ei.
    by destruct (dir_item_not _ _ _ Hek (or_introl eq_refl)). }
  destruct (drop_inode_ok _ n t1 child old (forget path ;; forget dir) Hft2 Hsole1 Hl) as (d2 & t2 & E2 & Hft3 & Hun).
  set (b3 := set_dev d2 (set_dev d1 b1)) in *. set (b4 := set_pathCache (delete dir (delete path (pathCache b3))) b3).
  assert (Hft4 : fs_tree tc0 s b4 n t2) by exact (fs_tree_cache b3 n t2 _ Hft3).
  rewrite Et1 in Hun. destruct (unlinked_entry b n t dirInode name e rest child old _ Hft Hone Hun) as [Hgone Hnames].
  exists b4, t2. split; [|split; [exact Hft4|split; [exact Hun|split]]].
  - unfold Unlink, removeEntry. rewrite Esplit, lift_ok_bind, (bind_ok _ _ _ _ _ Edir). unfold lookupDirEntryKey.
    assert (Ef : find_entry dirInode name b1 = (Ok (it_key e, child), b1))
      by (rewrite (find_entry_ok b1 n t dirInode name Hft1); unfold entry_in; by rewrite Hone).
    rewrite (bind_ok _ _ _ _ _ Ef). cbv beta iota. rewrite (bind_ok _ _ _ _ _ (readInodeInfo_ok b1 n t child Hft1)), (sole_inode_info _ _ _ Hsole) by lia.
    destruct (inode_info_ok child old) as (_ & _ & _ & _ & _ & Hd & _); [lia|]. rewrite Hmode in Hd. cbn in Hd. rewrite Hd.
    cbn [andb negb]. rewrite M_left_id, (bind_ok _ _ _ _ _ E1). exact E2.
  - by rewrite (lookup_leads b4 n t2 _ _ Hft4), Hgone.
  - intros d' n' Hne'. rewrite (lookupDirEntry_ok b4 n t2 _ _ Hft4), (lookupDirEntry_ok b n t _ _ Hft). cbn [fst].
    unfold entry_in. by rewrite Hnames.
Qed.
End inodes.
