(* ===== verification/BtrfsRename.v ===== *)
(** The btrfs driver: moving names and making symbolic links.

    [Rename] takes an entry out of one directory and enters the inode in
    another; [Symlink] makes an inode whose content, one inline extent, is
    the target that [Readlink] reads. *)
From S2P Require Export BtrfsInodes.

(** A deletion does not raise the highest value. *)
Lemma highest_delete p f k items : highest p f (delete_key k items) <= highest p f items.
Proof.
  unfold highest, delete_key. cut (forall m m', m <= m' ->
    foldl (fun m it => if p (it_key it) && (m <? f (it_key it)) then f (it_key it) else m) m (filter (fun it => it_key it <> k) items) <=
    foldl (fun m it => if p (it_key it) && (m <? f (it_key it)) then f (it_key it) else m) m' items); [intros Hc; by apply Hc|].
  induction items as [|it items IH]; intros m m' Hm; [done|]. rewrite filter_cons. cbn [foldl].
  case_decide; cbn [foldl]; apply IH; destruct (p (it_key it)); cbn [andb]; try lia;
    destruct (Z.ltb_spec m' (f (it_key it))); try lia; destruct (Z.ltb_spec m (f (it_key it))); lia.
Qed.

(** Replacing the item just inserted. *)
Lemma update_inserted k d d' items :
  k ∉ (it_key <$> items) -> update_key k d' (insert_item (mkItem k d) items) = insert_item (mkItem k d') items.
Proof.
  induction items as [|x items IH]; intros Hk; cbn [insert_item it_key].
  - unfold update_key. cbn. by rewrite bool_decide_true.
  - rewrite fmap_cons in Hk. destruct (key_less _ _).
    + change (update_key k d' (x :: insert_item (mkItem k d) items)) with
        ((if bool_decide (it_key x = k) then mkItem k d' else x) :: update_key k d' (insert_item (mkItem k d) items)).
      rewrite bool_decide_false by set_solver. by rewrite IH by set_solver.
    + change (update_key k d' (mkItem k d :: x :: items)) with
        ((if bool_decide (k = k) then mkItem k d' else mkItem k d) :: update_key k d' (x :: items)).
      rewrite bool_decide_true by done. by rewrite update_key_id.
Qed.

Section rename.
Context {D : Type} `{Device D} {env : Env} `{Codecs} {tc0 : treeContext} {s : SuperBlock}.
Implicit Types b : FileSystem D.

Lemma forget_ok path b : forget path b = (Ok tt, set_pathCache (delete path (pathCache b)) b).
Proof. done. Qed.

(** Inodes do not change with the entries. *)
Lemma inode_in_filter i (l l' : list itemEntry) :
  filter (fun it => is_inode_item i (it_key it)) l' = filter (fun it => is_inode_item i (it_key it)) l ->
  inode_in i l' = inode_in i l.
Proof.
  intros Hl. unfold inode_in.
  assert (Hsub : forall x, is_inode_item i (it_key x) && (100 <=? zlen (it_data x)) = true -> is_inode_item i (it_key x) = true)
    by (intros x Hx; by apply andb_prop in Hx as [Hx _]).
  rewrite (filter_sub _ _ l' Hsub), (filter_sub _ _ l Hsub). by rewrite Hl.
Qed.

Lemma is_inode_other i j : i <> j -> is_inode_item i (inode_key j) = false.
Proof. intros Hne. unfold is_inode_item. cbn. rewrite andb_true_r. apply Z.eqb_neq. congruence. Qed.
Lemma is_inode_dir i d o : is_inode_item i (mkKey d BTRFS_DIR_INDEX_KEY o) = false.
Proof. unfold is_inode_item. cbn. by rewrite andb_false_r. Qed.

Lemma new_entry_key d o : is_dir_item d (mkKey d BTRFS_DIR_INDEX_KEY o) = true.
Proof. unfold is_dir_item. cbn. by rewrite Z.eqb_refl. Qed.

(** ** The times of a directory *)
Lemma touched_ok old :
  144 <= zlen old -> exists nd, (dData <- put_time old 120 ;; put_time dData 132) = Ok nd /\ zlen nd = zlen old /\
    le_get 8 nd 16 = le_get 8 old 16 /\ le_get 4 nd 40 = le_get 4 old 40 /\ le_get 4 nd 52 = le_get 4 old 52.
Proof.
  intros Hl. unfold put_time. repeat put_field. eexists. split; [reflexivity|].
  change (Z.of_nat 4) with 4 in *; change (Z.of_nat 8) with 8 in *.
  split; [|split_and!; by field_kept]. repeat match goal with W : wrote _ ?l _ _ |- context [zlen ?l] => rewrite (proj1 W) end. done.
Qed.

Lemma touch_dir_ok b n t dirNode old :
  fs_tree tc0 s b n t -> sole_inode dirNode old (flatten n t) -> 144 <= zlen old -> exists d' t' nd,
    touch_dir dirNode b = (Ok tt, set_dev d' b) /\ fs_tree tc0 s (set_dev d' b) n t' /\
    flatten n t' = update_key (inode_key dirNode) nd (flatten n t) /\ sole_inode dirNode nd (flatten n t') /\ zlen nd = zlen old.
Proof.
  intros Hft Hsole Hl. destruct (touched_ok old Hl) as (nd & Ed & Hln & _).
  destruct (update_inode_ok b n t dirNode old nd 0 Hft (ft_fit _ _ _ _ _ Hft) ltac:(done) Hsole Hln) as (d' & t' & E & Hft' & Et & Hsole' & _).
  exists d', t', nd. split_and!; [|done|done|done|done]. unfold touch_dir. rewrite (bind_ok _ _ _ _ _ (last_item_ok b n t _ Hft)).
  unfold last_of. rewrite last_of_filter. unfold sole_inode in Hsole. rewrite Hsole. cbn [foldl it_key it_data].
  rewrite (proj2 (Z.leb_le 100 (zlen old))), Ed, lift_ok_bind by lia. by apply ignore_ok in E.
Qed.

(** What two touches leave alone. *)
Lemma touches_ok b n t d1 d2 old1 old2 :
  fs_tree tc0 s b n t -> sole_inode d1 old1 (flatten n t) -> 144 <= zlen old1 ->
  sole_inode d2 old2 (flatten n t) -> 144 <= zlen old2 -> exists d' t',
    (touch_dir d1 ;; touch_dir d2) b = (Ok tt, set_dev d' b) /\ fs_tree tc0 s (set_dev d' b) n t' /\
    forall p : key -> bool, p (inode_key d1) = false -> p (inode_key d2) = false ->
      filter (fun it => p (it_key it)) (flatten n t') = filter (fun it => p (it_key it)) (flatten n t).
Proof.
  intros Hft Hs1 Hl1 Hs2 Hl2. destruct (touch_dir_ok b n t d1 old1 Hft Hs1 Hl1) as (e1 & t1 & n1 & E1 & Hft1 & Et1 & Hs1' & Hln).
  assert (Hd2 : exists old, sole_inode d2 old (flatten n t1) /\ 144 <= zlen old).
  { destruct (decide (d1 = d2)) as [<-|Hne]; [exists n1; split; [done|lia]|]. exists old2. split; [|done].
    unfold sole_inode. rewrite Et1, (filter_update_other (is_inode_item d2)) by by apply is_inode_other. exact Hs2. }
  destruct Hd2 as (old & Hs & Hl). destruct (touch_dir_ok _ n t1 d2 old Hft1 Hs Hl) as (e2 & t2 & n2 & E2 & Hft2 & Et2 & _).
  exists e2, t2. split; [by rewrite (bind_ok _ _ _ _ _ E1)|]. split; [exact Hft2|]. intros p Hp1 Hp2.
  by rewrite Et2, filter_update_other, Et1, filter_update_other.
Qed.

(** ** Moving a name *)

(** Items that are no entries. *)
Definition no_entry (p : key -> bool) : Prop := forall d k, is_dir_item d k = true -> p k = false.

Lemma no_entry_inode i : no_entry (is_inode_item i).
Proof.
  intros d k Hk. destruct (is_inode_item i k) eqn:E; [|done]. apply andb_prop in E as [_ E]. apply Z.eqb_eq in E.
  by destruct (dir_item_not _ _ _ Hk (or_introl eq_refl)).
Qed.
Lemma no_entry_extent i : no_entry (is_extent_item i).
Proof.
  intros d k Hk. destruct (is_extent_item i k) eqn:E; [|done]. apply andb_prop in E as [_ E]. apply Z.eqb_eq in E.
  by destruct (dir_item_not _ _ _ Hk (or_intror eq_refl)).
Qed.

(** The items after a name has moved: [rest] is what still carries the old
    name, the new one is also carried by a new item, the last, that leads to
    the inode, and other names are carried by the items that carried them. *)
Definition entry_moved (oldDir : Z) (oldName : list byte) (rest : list itemEntry) (newDir : Z) (newName : list byte) (child : Z)
    (items items' : list itemEntry) : Prop :=
  filter (names_entry oldDir oldName) items' = rest /\
  (exists it, le_get 8 (it_data it) 0 = child /\
     filter (names_entry newDir newName) items' = filter (names_entry newDir newName) items ++ [it]) /\
  forall dirInode' name', ~ (dirInode' = oldDir /\ name' = oldName) -> ~ (dirInode' = newDir /\ name' = newName) ->
    filter (names_entry dirInode' name') items' = filter (names_entry dirInode' name') items.

(** An entry under the next index comes after the others of the directory. *)
Lemma last_entry dirInode name items d x :
  x ∈ items -> names_entry dirInode name x = true ->
  item_lt x (mkItem (mkKey dirInode BTRFS_DIR_INDEX_KEY (max_index dirInode items + 1)) d).
Proof.
  intros Hx [Ho Ht]%names_entry_key%andb_prop. apply Z.eqb_eq in Ho. unfold item_lt, key_lt. cbn [it_key objectid typ offset].
  apply orb_prop in Ht as [Ht|Ht]; apply Z.eqb_eq in Ht; rewrite Ht, Ho; unfold BTRFS_DIR_INDEX_KEY, BTRFS_DIR_ITEM_KEY; [|lia].
  pose proof (highest_bound (fun k => (objectid k =? dirInode) && (typ k =? BTRFS_DIR_INDEX_KEY)) offset items (it_key x)) as Hb.
  specialize (Hb ltac:(by apply list_elem_of_fmap_2)). cbv beta in Hb. rewrite Ho, Ht, !Z.eqb_refl in Hb. specialize (Hb eq_refl).
  unfold max_index. lia.
Qed.

(** The entry goes from one directory to the other. *)
Lemma move_entry_ok b n t oldDir newDir oldName newName e rest ft :
  let child := le_get 8 (it_data e) 0 in
  fs_tree tc0 s b n t -> leaves_fit tc0 (55 + zlen newName) n t ->
  filter (names_entry oldDir oldName) (flatten n t) = e :: rest -> ~ (oldDir = newDir /\ oldName = newName) ->
  0 <= ft < 2 ^ 8 -> 0 <= newDir < 2 ^ 64 -> zlen newName < 2 ^ 16 -> max_index newDir (flatten n t) + 1 < 2 ^ 64 ->
  exists d' t', (delete_item (it_key e) ;; enter_name newDir child newName ft) b = (Ok tt, set_dev d' b) /\
    fs_tree tc0 s (set_dev d' b) n t' /\ entry_moved oldDir oldName rest newDir newName child (flatten n t) (flatten n t') /\
    forall p : key -> bool, no_entry p ->
      filter (fun it => p (it_key it)) (flatten n t') = filter (fun it => p (it_key it)) (flatten n t).
Proof.
  intros child Hft Hroom Hone Hdiff Hftr Hdir Hname Hmx. pose proof (flatten_sorted n t (ft_ordered _ _ _ _ _ Hft)) as Hsorted.
  destruct (first_entry _ _ _ _ _ Hone) as (Hne & Hek & Hin).
  destruct (delete_ok b n t (it_key e) _ Hft Hroom) as (d1 & t1 & E1 & Hft1 & Et1 & Hroom1); [by apply list_elem_of_fmap_2|].
  pose proof (highest_delete (fun k => (objectid k =? newDir) && (typ k =? BTRFS_DIR_INDEX_KEY)) offset (it_key e) (flatten n t)) as Hle.
  fold (max_index newDir (delete_key (it_key e) (flatten n t))) (max_index newDir (flatten n t)) in Hle. rewrite <- Et1 in Hle.
  destruct (enter_name_ok _ n t1 newDir child newName ft 0 Hft1) as (dd & d2 & t2 & E2 & Hft2 & Et2 & _ & F0 & _ & Hnames);
    [by rewrite Z.add_0_l|lia|done|apply le_get_range|done|done|lia|].
  assert (Hold : forall d' n', ~ (d' = oldDir /\ n' = oldName) ->
    filter (names_entry d' n') (flatten n t1) = filter (names_entry d' n') (flatten n t)).
  { intros d' n' Hne'. rewrite Et1. apply filter_delete_other. intros it Hit Hkey. rewrite (sorted_key_inj _ _ _ Hsorted Hit Hin Hkey).
    destruct (names_entry d' n' e) eqn:E; [|done]. destruct Hne'. by apply (names_entry_inj _ _ _ _ e). }
  assert (Hsame : forall d' n', ~ (d' = newDir /\ n' = newName) ->
    filter (names_entry d' n') (flatten n t2) = filter (names_entry d' n') (flatten n t1)).
  { intros d' n' Hne'. rewrite Et2. apply filter_insert_other. rewrite Hnames. by apply bool_decide_false. }
  exists d2, t2. split; [by rewrite (bind_ok _ _ _ _ _ E1)|]. split; [exact Hft2|]. unfold entry_moved. split_and!.
  - rewrite Hsame, Et1 by done. by apply delete_first.
  - eexists (mkItem _ dd). split; [exact F0|]. rewrite <- (Hold newDir newName) by naive_solver. rewrite Et2 at 1. apply filter_insert_last.
    + by rewrite Hnames, bool_decide_true.
    + apply flatten_sorted, (ft_ordered _ _ _ _ _ Hft1).
    + intros x. apply last_entry.
  - intros d' n' H1' H2'. by rewrite Hsame, Hold.
  - intros p Hp. rewrite Et2, (filter_insert_other (fun it => p (it_key it))) by (apply (Hp newDir), new_entry_key).
    rewrite Et1. apply filter_delete_other. intros it _ ->. by apply (Hp oldDir).
Qed.

Lemma file_type_range info : 0 <= file_type info < 2 ^ 8.
Proof. unfold file_type, BTRFS_FT_DIR, BTRFS_FT_SYMLINK, BTRFS_FT_REG_FILE. destruct (ni_IsDir info), (ni_IsSymlink info); lia. Qed.

Lemma find_first_entry b n t dirInode name e rest :
  fs_tree tc0 s b n t -> filter (names_entry dirInode name) (flatten n t) = e :: rest ->
  find_entry dirInode name b = (Ok (it_key e, le_get 8 (it_data e) 0), b).
Proof.
  intros Hft Hone. rewrite (find_entry_ok b n t dirInode name Hft). unfold entry_in. by rewrite Hone.
Qed.

(** A name that is not taken leaves nothing to replace. *)
Lemma replace_nothing b n t dirInode name :
  fs_tree tc0 s b n t -> entry_in dirInode name (flatten n t) = None -> replace_target dirInode name b = (Ok tt, b).
Proof.
  intros Hft Hnone. unfold replace_target, lookupDirEntryKey. pose proof (find_entry_ok b n t dirInode name Hft) as E. rewrite Hnone in E.
  by rewrite (bind_ok _ _ _ _ _ (catch_err _ _ _ _ E)).
Qed.

(** [Rename] from the removal of the old entry on. *)
Lemma finish_rename b n t oldpath newpath oldDirPath newDirPath oldDir newDir oldName newName e rest ft od nd :
  let child := le_get 8 (it_data e) 0 in
  fs_tree tc0 s b n t -> leaves_fit tc0 (55 + zlen newName) n t ->
  filter (names_entry oldDir oldName) (flatten n t) = e :: rest -> ~ (oldDir = newDir /\ oldName = newName) -> 0 <= ft < 2 ^ 8 ->
  sole_inode oldDir od (flatten n t) -> 144 <= zlen od -> sole_inode newDir nd (flatten n t) -> 144 <= zlen nd ->
  0 <= newDir < 2 ^ 64 -> zlen newName < 2 ^ 16 -> max_index newDir (flatten n t) + 1 < 2 ^ 64 ->
  exists b' t',
    (delete_item (it_key e) ;; enter_name newDir child newName ft ;; touch_dir oldDir ;; touch_dir newDir ;;
     forget oldpath ;; forget newpath ;; forget oldDirPath ;; forget newDirPath) b = (Ok tt, b') /\
    fs_tree tc0 s b' n t' /\ entry_moved oldDir oldName rest newDir newName child (flatten n t) (flatten n t') /\
    forall p : key -> bool, no_entry p -> p (inode_key oldDir) = false -> p (inode_key newDir) = false ->
      filter (fun it => p (it_key it)) (flatten n t') = filter (fun it => p (it_key it)) (flatten n t).
Proof.
  intros child Hft Hroom Hone Hdiff Hftr Hod Hlod Hnd Hlnd Hdir Hname Hmx.
  destruct (move_entry_ok b n t oldDir newDir oldName newName e rest ft Hft Hroom Hone Hdiff Hftr Hdir Hname Hmx)
    as (d1 & t1 & E1 & Hft1 & (Hgone & Hnew & Hothers) & Hkeep1).
  assert (Hod1 : sole_inode oldDir od (flatten n t1)) by (unfold sole_inode; rewrite Hkeep1; [done|apply no_entry_inode]).
  assert (Hnd1 : sole_inode newDir nd (flatten n t1)) by (unfold sole_inode; rewrite Hkeep1; [done|apply no_entry_inode]).
  destruct (touches_ok _ n t1 oldDir newDir od nd Hft1 Hod1 Hlod Hnd1 Hlnd) as (d2 & t2 & E2 & Hft2 & Hkeep).
  assert (Hent : forall d' n', filter (names_entry d' n') (flatten n t2) = filter (names_entry d' n') (flatten n t1)).
  { intros d' n'. apply names_filter, (Hkeep (is_dir_item d')); apply dir_item_inode. }
  assert (Erun : exists c, (delete_item (it_key e) ;; enter_name newDir child newName ft ;; touch_dir oldDir ;; touch_dir newDir ;;
     forget oldpath ;; forget newpath ;; forget oldDirPath ;; forget newDirPath) b = (Ok tt, set_pathCache c (set_dev d2 (set_dev d1 b)))).
  { eexists. rewrite <- M_assoc, (bind_ok _ _ _ _ _ E1), <- M_assoc, (bind_ok _ _ _ _ _ E2). reflexivity. }
  destruct Erun as [c Erun]. eexists _, t2. split; [exact Erun|]. split; [by apply fs_tree_cache|]. unfold entry_moved. split_and!.
  - by rewrite Hent.
  - destruct Hnew as (it & Hc & Hit). exists it. by rewrite Hent.
  - intros d' n' H1' H2'. rewrite Hent. by apply Hothers.
  - intros p Hp H1' H2'. by rewrite Hkeep, Hkeep1.
Qed.

(** The lookups after a name has moved. *)
Lemma moved_lookups b b' n t t' oldDir oldName rest newDir newName child :
  fs_tree tc0 s b n t -> fs_tree tc0 s b' n t' ->
  entry_moved oldDir oldName rest newDir newName child (flatten n t) (flatten n t') ->
  lookupDirEntry oldDir oldName b' = (leads rest, b') /\
  lookupDirEntry newDir newName b' =
    (match filter (names_entry newDir newName) (flatten n t) with [] => Ok child | _ => leads (filter (names_entry newDir newName) (flatten n t)) end, b') /\
  forall dirInode' name', ~ (dirInode' = oldDir /\ name' = oldName) -> ~ (dirInode' = newDir /\ name' = newName) ->
    (lookupDirEntry dirInode' name' b').1 = (lookupDirEntry dirInode' name' b).1.
Proof.
  intros Hft Hft' (Hold & (it & <- & Hnew) & Hothers). split; [|split].
  - by rewrite (lookup_leads _ n t' _ _ Hft'), Hold.
  - rewrite (lookup_leads _ n t' _ _ Hft'), Hnew. by destruct (filter (names_entry newDir newName) (flatten n t)).
  - intros d' n' H1' H2'. rewrite (lookup_leads _ n t' _ _ Hft'), (lookup_leads _ n t _ _ Hft). by rewrite Hothers.
Qed.

(** C8: Renaming to a name that is free, in a tree with room: the new name
    leads to the inode the old one led to; of the items that carry the old
    name the first goes, so the old name is gone exactly when one item
    carried it, and otherwise leads to what the next one says (the driver
    enters a name as one item, DIR_INDEX; other drivers also write a
    DIR_ITEM); every other lookup gives what it gave, no inode but those of
    the two directories changes, and the blocks hold a search tree again. *)
Theorem Rename_moves b b1 b2 n t oldpath newpath oldDirPath newDirPath oldName newName oldDir newDir e rest od nd :
  let child := le_get 8 (it_data e) 0 in
  fs_tree tc0 s b n t -> leaves_fit tc0 (55 + zlen newName) n t ->
  splitPath oldpath = Ok (oldDirPath, oldName) -> splitPath newpath = Ok (newDirPath, newName) ->
  resolvePath oldDirPath b = (Ok oldDir, b1) -> resolvePath newDirPath b1 = (Ok newDir, b2) ->
  filter (names_entry oldDir oldName) (flatten n t) = e :: rest -> entry_in newDir newName (flatten n t) = None ->
  sole_inode oldDir od (flatten n t) -> 144 <= zlen od -> sole_inode newDir nd (flatten n t) -> 144 <= zlen nd ->
  0 <= newDir < 2 ^ 64 -> zlen newName < 2 ^ 16 -> max_index newDir (flatten n t) + 1 < 2 ^ 64 ->
  exists b' t', Rename oldpath newpath b = (Ok tt, b') /\ fs_tree tc0 s b' n t' /\
    lookupDirEntry oldDir oldName b' = (leads rest, b') /\
    lookupDirEntry newDir newName b' = (Ok child, b') /\
    (forall dirInode' name', ~ (dirInode' = oldDir /\ name' = oldName) -> ~ (dirInode' = newDir /\ name' = newName) ->
       (lookupDirEntry dirInode' name' b').1 = (lookupDirEntry dirInode' name' b).1) /\
    (forall i, i <> oldDir -> i <> newDir -> (readInodeInfo i b').1 = (readInodeInfo i b).1).
Proof.
  intros child Hft Hroom Es1 Es2 Er1 Er2 Hone Hnone Hod Hlod Hnd Hlnd Hdir Hname Hmx.
  destruct (resolvePath_same oldDirPath b) as [c1 Ec1]. rewrite Er1 in Ec1. cbn in Ec1. subst b1.
  destruct (resolvePath_same newDirPath (set_pathCache c1 b)) as [c2 Ec2]. rewrite Er2 in Ec2. cbn in Ec2. subst b2.
  set (b2 := set_pathCache c2 (set_pathCache c1 b)) in *.
  assert (Hft2 : fs_tree tc0 s b2 n t) by (by do 2 apply fs_tree_cache).
  pose proof (readInodeInfo_ok b2 n t child Hft2) as Einfo. set (info := match inode_in child _ with Some _ => _ | None => _ end) in Einfo.
  assert (Hdiff : ~ (oldDir = newDir /\ oldName = newName)).
  { intros [-> ->]. unfold entry_in in Hnone. by rewrite Hone in Hnone. }
  destruct (finish_rename b2 n t oldpath newpath oldDirPath newDirPath oldDir newDir oldName newName e rest (file_type info) od nd
    Hft2 Hroom Hone Hdiff (file_type_range info) Hod Hlod Hnd Hlnd Hdir Hname Hmx) as (b' & t' & E & Hft' & Hmoved & Hkeep).
  destruct (moved_lookups b b' n t t' _ _ _ _ _ _ Hft Hft' Hmoved) as (Hgone & Hnew & Hothers).
  rewrite (entry_in_None _ _ _ Hnone) in Hnew.
  exists b', t'. split; [|split_and!; [done..|]].
  - unfold Rename. rewrite Es1, lift_ok_bind, Es2, lift_ok_bind, (bind_ok _ _ _ _ _ Er1), (bind_ok _ _ _ _ _ Er2).
    unfold lookupDirEntryKey. rewrite (bind_ok _ _ _ _ _ (find_first_entry b2 n t _ _ _ _ Hft2 Hone)). cbv beta iota. fold child.
    rewrite (bind_ok _ _ _ _ _ Einfo), (bind_ok _ _ _ _ _ (replace_nothing b2 n t _ _ Hft2 Hnone)). exact E.
  - intros i H1' H2'. rewrite (readInodeInfo_ok _ n t' i Hft'), (readInodeInfo_ok b n t i Hft). cbn [fst].
    rewrite (inode_in_filter i (flatten n t) (flatten n t')); [done|]. apply (Hkeep (is_inode_item i));
      [apply no_entry_inode|by apply is_inode_other..].
Qed.

(** ** Symbolic links *)

Lemma no_inode items o : o = max_inode items + 1 -> filter (fun it => is_inode_item o (it_key it)) items = [].
Proof.
  intros Ho. apply elem_of_nil_inv. intros x [Hp Hx]%list_elem_of_filter. apply Is_true_eq_true in Hp.
  apply andb_prop in Hp as [Hp1 Hp2]. apply Z.eqb_eq in Hp1.
  pose proof (highest_bound (fun k => typ k =? BTRFS_INODE_ITEM_KEY) objectid items (it_key x)) as Hb.
  specialize (Hb ltac:(by apply list_elem_of_fmap_2) Hp2). unfold max_inode in Ho. lia.
Qed.

Lemma stopped_item_ok msg b n t inodeNum d :
  fs_tree tc0 s b n t -> sole_inode inodeNum d (flatten n t) -> 100 <= zlen d -> stopped_item msg inodeNum b = (Ok d, b).
Proof.
  intros Hft Hs Hd. unfold stopped_item. rewrite (bind_ok _ _ _ _ _ (first_item_ok b n t _ Hft)).
  unfold sole_inode in Hs. rewrite Hs. cbn [it_data]. change (default [] (Some d)) with d.
  rewrite bool_decide_true by done. by rewrite (proj2 (Z.ltb_ge (zlen d) 100)) by lia.
Qed.

(** Reading the target: the first extent item that is long enough. *)
Lemma readSymlink_ok b n t inodeNum d target :
  fs_tree tc0 s b n t -> filter (fun it => is_extent_item inodeNum (it_key it)) (flatten n t) = [mkItem (extent_key inodeNum) d] ->
  zlen d = 21 + zlen target -> le_get 1 d 16 = 0 -> le_get 1 d 20 = 0 -> sub d 21 (zlen target) = target ->
  readSymlink inodeNum b = (Ok target, b).
Proof.
  intros Hft Hone Hl F16 F20 Hs. pose proof (zlen_nonneg target). unfold readSymlink. unfold mbind at 1, M_bind at 1.
  rewrite (walk_fs b n t _ _ Hft) by done.
  rewrite (visit_filter _ (fun it => is_extent_item inodeNum (it_key it))) by (intros it x Hit; cbn [item_of li_key]; by rewrite Hit).
  rewrite Hone. unfold visit. cbn [forM item_of li_key it_key it_data]. rewrite is_extent_self. cbn [negb orb].
  destruct (Z.ltb_spec (zlen d) 22) as [Hlt|Hge].
  - assert (Ht : zlen target = 0) by lia. unfold zlen in Ht. by destruct target.
  - unfold mbind at 1, M_bind at 1. unfold decode. rewrite (extent_fields_at d Hge). cbn [fst]. rewrite lift_ok_bind, F16, F20.
    change (0 =? BTRFS_FILE_EXTENT_INLINE) with true. change (0 =? BTRFS_COMPRESS_NONE) with true. cbv iota.
    rewrite slice_in, lift_ok_bind by lia. replace (zlen d - 21) with (zlen target) by lia. by rewrite Hs.
Qed.

(** The inode of a link, with the size of the target. *)
Lemma sized_ok old size :
  100 <= zlen old -> 0 <= size < 2 ^ 64 -> exists nd, putUint64 old 16 size = Ok nd /\ zlen nd = zlen old /\
    le_get 8 nd 16 = size /\ le_get 4 nd 40 = le_get 4 old 40 /\ le_get 4 nd 52 = le_get 4 old 52.
Proof.
  intros Hl Hs. put_field. exists l'. change (Z.of_nat 8) with 8 in *. split; [done|].
  split; [apply (proj1 W)|]. split; [rewrite G; apply Z.mod_small; lia|]. split; by field_kept.
Qed.

Lemma extent_fresh n (t : tree n) inodeNum :
  filter (fun it => is_extent_item inodeNum (it_key it)) (flatten n t) = [] -> extent_key inodeNum ∉ (it_key <$> flatten n t).
Proof.
  intros Hnone (x & Ex & Hx)%list_elem_of_fmap.
  assert (Hx' : x ∈ filter (fun it => is_extent_item inodeNum (it_key it)) (flatten n t))
    by (apply list_elem_of_filter; by rewrite <- Ex, is_extent_self).
  rewrite Hnone in Hx'. by apply not_elem_of_nil in Hx'.
Qed.

Lemma is_extent_inode i j : is_extent_item i (inode_key j) = false.
Proof. unfold is_extent_item. cbn. by rewrite andb_false_r. Qed.
Lemma is_inode_extent i j : is_inode_item i (extent_key j) = false.
Proof. unfold is_inode_item. cbn. by rewrite andb_false_r. Qed.
Lemma is_inode_self i : is_inode_item i (inode_key i) = true.
Proof. unfold is_inode_item. cbn. by rewrite Z.eqb_refl. Qed.

(** The items of a link to [target]. *)
Definition link_to (ino : Z) (target : list byte) (items : list itemEntry) : Prop :=
  (exists id, sole_inode ino id items /\ zlen id = 160 /\ le_get 8 id 16 = zlen target /\ le_get 4 id 40 = 1 /\
     le_get 4 id 52 = 0xA1FF) /\
  exists xd, filter (fun it => is_extent_item ino (it_key it)) items = [mkItem (extent_key ino) xd] /\
    zlen xd = 21 + zlen target /\ le_get 1 xd 16 = 0 /\ le_get 1 xd 20 = 0 /\ sub xd 21 (zlen target) = target.

Lemma link_items n (t : tree n) target id xd :
  let ino := max_inode (flatten n t) + 1 in
  let items := insert_item (mkItem (extent_key ino) xd) (insert_item (mkItem (inode_key ino) id) (flatten n t)) in
  filter (fun it => is_extent_item ino (it_key it)) (flatten n t) = [] ->
  zlen id = 160 /\ le_get 8 id 16 = zlen target /\ le_get 4 id 40 = 1 /\ le_get 4 id 52 = 0xA1FF ->
  zlen xd = 21 + zlen target /\ le_get 1 xd 16 = 0 /\ le_get 1 xd 20 = 0 /\ sub xd 21 (zlen target) = target ->
  link_to ino target items /\ (forall dirInode, max_index dirInode items = max_index dirInode (flatten n t)) /\
  forall d' n', filter (names_entry d' n') items = filter (names_entry d' n') (flatten n t).
Proof.
  intros ino items Hnox Hid Hxd. split; [|split].
  - split; [exists id; split; [|exact Hid]|exists xd; split; [|exact Hxd]]; unfold items.
    + unfold sole_inode. rewrite (filter_insert_other (fun it => is_inode_item ino (it_key it))) by apply is_inode_extent.
      apply (filter_insert_new (fun it => is_inode_item ino (it_key it))); [apply is_inode_self|by apply no_inode].
    + apply (filter_insert_new (fun it => is_extent_item ino (it_key it))); [apply is_extent_self|].
      by rewrite (filter_insert_other (fun it => is_extent_item ino (it_key it))) by apply is_extent_inode.
  - intros dirInode. unfold items, max_index. by rewrite !highest_insert by (cbn; by rewrite andb_false_r).
  - intros d' n'. unfold items. rewrite !filter_insert_other; [done|apply inode_item_names|]. unfold names_entry, is_dir_item. cbn.
    by rewrite andb_false_r.
Qed.

(** Making them, whatever comes after. *)
Lemma link_items_ok b n t target m (k : BT D unit) :
  let ino := max_inode (flatten n t) + 1 in
  fs_tree tc0 s b n t -> leaves_fit tc0 (m + 231 + zlen target) n t -> 0 <= m -> ino < 2 ^ 64 -> zlen target < 2 ^ 32 ->
  filter (fun it => is_extent_item ino (it_key it)) (flatten n t) = [] -> exists d' t',
    (insertInodeItem ino (Z.lor 0xA000 511) ;;
     inodeData <- stopped_item "btrfs: symlink inode creation failed" ino ;;
     inodeData <- lift (putUint64 inodeData 16 (zlen target)) ;;
     update_item (inode_key ino) inodeData ;;
     extData <- lift (makeExtentDataInline 0 target) ;;
     insert_item_at (extent_key ino) extData ;; k) b = k (set_dev d' b) /\ fs_tree tc0 s (set_dev d' b) n t' /\
    leaves_fit tc0 m n t' /\ link_to ino target (flatten n t') /\
    (forall dirInode, max_index dirInode (flatten n t') = max_index dirInode (flatten n t)) /\
    forall d0 n0, filter (names_entry d0 n0) (flatten n t') = filter (names_entry d0 n0) (flatten n t).
Proof.
  intros ino Hft Hroom Hm Hmi Hlt Hnox. pose proof (zlen_nonneg target).
  pose proof (highest_nonneg (fun k => typ k =? BTRFS_INODE_ITEM_KEY) objectid (flatten n t)) as Hnn. fold (max_inode (flatten n t)) in Hnn.
  destruct (insertInodeItem_ok b n t (Z.lor 0xA000 511) (m + 46 + zlen target) Hft) as (d0 & e1 & t1 & E1 & Hft1 & Et1 & Hroom1 & Hl0 & F16 & F40 & F52);
    [by replace (m + 46 + zlen target + 185) with (m + 231 + zlen target) by lia|lia|by vm_compute|done|].
  fold ino in E1, Et1. destruct (sized_ok d0 (zlen target)) as (id & Eid & Hlid & G16 & G40 & G52); [lia|lia|].
  assert (Hsole1 : sole_inode ino d0 (flatten n t1)).
  { unfold sole_inode. rewrite Et1. apply (filter_insert_new (fun it => is_inode_item ino (it_key it))); [apply is_inode_self|by apply no_inode]. }
  destruct (update_inode_ok _ n t1 ino d0 id _ Hft1 Hroom1 ltac:(lia) Hsole1 Hlid) as (e2 & t2 & E2 & Hft2 & Et2 & _ & Hroom2).
  destruct (makeExtentDataInline_ok 0 target ltac:(lia)) as (xd & Exd & Hlxd & _ & X16 & X20 & Xs).
  rewrite Et1, update_inserted in Et2 by by apply max_inode_fresh.
  destruct (insert_ok _ n t2 (extent_key ino) xd m Hft2) as (e3 & t3 & E3 & Hft3 & Et3 & Hroom3).
  - rewrite Hlxd. by replace (m + 25 + (21 + zlen target)) with (m + 46 + zlen target) by lia.
  - done.
  - apply extent_fresh. by rewrite Et2, (filter_insert_other (fun it => is_extent_item ino (it_key it))) by apply is_extent_inode.
  - apply key_wf_of; unfold ino, BTRFS_EXTENT_DATA_KEY; lia.
  - exists e3, t3. split; [|split; [exact Hft3|split; [exact Hroom3|]]].
    + rewrite (bind_ok _ _ _ _ _ E1), (bind_ok _ _ _ _ _ (stopped_item_ok _ _ n t1 ino d0 Hft1 Hsole1 ltac:(lia))), Eid, lift_ok_bind.
      rewrite (bind_ok _ _ _ _ _ E2), Exd, lift_ok_bind, (bind_ok _ _ _ _ _ E3). done.
    + rewrite Et3, Et2. apply link_items; [done| |done]. rewrite G40, G52, F40, F52. split_and!; done || lia.
Qed.

(** C12: A symbolic link keeps its target: making one in a tree with room
    enters a name that leads to a new inode, and reading the link there gives
    the target byte for byte; the inode has the size of the target and the
    mode of a link, but is reported as a regular file; every other lookup
    gives what it gave, and the blocks hold a search tree again. *)
Theorem Symlink_Readlink b b1 n t target newpath dir name dirInode :
  let ino := max_inode (flatten n t) + 1 in
  fs_tree tc0 s b n t -> leaves_fit tc0 (286 + zlen name + zlen target) n t ->
  splitPath newpath = Ok (dir, name) -> resolvePath dir b = (Ok dirInode, b1) ->
  entry_in dirInode name (flatten n t) = None -> filter (fun it => is_extent_item ino (it_key it)) (flatten n t) = [] ->
  zlen name < 2 ^ 16 -> zlen target < 2 ^ 32 -> 0 <= dirInode < 2 ^ 64 ->
  ino < 2 ^ 64 -> max_index dirInode (flatten n t) + 1 < 2 ^ 64 ->
  exists b' t', Symlink target newpath b = (Ok tt, b') /\ fs_tree tc0 s b' n t' /\
    lookupDirEntry dirInode name b' = (Ok ino, b') /\ readSymlink ino b' = (Ok target, b') /\
    (exists info, readInodeInfo ino b' = (Ok info, b') /\ ni_Mode info = 0xA1FF /\ ni_Size info = zlen target /\
       ni_Nlink info = 1 /\ ni_IsSymlink info = false /\ ni_IsRegular info = true) /\
    forall dirInode' name', ~ (dirInode' = dirInode /\ name' = name) ->
      (lookupDirEntry dirInode' name' b').1 = (lookupDirEntry dirInode' name' b).1.
Proof.
  intros ino Hft Hroom Esplit Edir Hnone Hnox Hname Htgt Hdir Hmi Hmx. pose proof (zlen_nonneg name). pose proof (zlen_nonneg target).
  destruct (resolvePath_same dir b) as [c Ec]. rewrite Edir in Ec. cbn in Ec. subst b1. pose proof (fs_tree_cache b n t c Hft) as Hft1.
  pose proof (highest_nonneg (fun k => typ k =? BTRFS_INODE_ITEM_KEY) objectid (flatten n t)) as Hnn. fold (max_inode (flatten n t)) in Hnn.
  destruct (link_items_ok _ n t target (55 + zlen name)
    (refuse_existing dirInode name ;; enter_name dirInode ino name BTRFS_FT_SYMLINK ;; forget dir) Hft1)
    as (d1 & t1 & E1 & Hft2 & Hroom1 & ((id & Hid & Hl & F16 & F40 & F52) & xd & Hxd & Hlx & X16 & X20 & Xs) & Hidx & Hnames1);
    [by replace (55 + zlen name + 231 + zlen target) with (286 + zlen name + zlen target) by lia|lia|done|done|done|].
  fold ino in E1, Hid, Hxd. set (b2 := set_dev d1 (set_pathCache c b)) in *.
  apply entry_in_None in Hnone. rewrite <- Hnames1 in Hnone.
  destruct (enter_name_ok b2 n t1 dirInode ino name BTRFS_FT_SYMLINK 0 Hft2) as (dd & d2 & t2 & E2 & Hft3 & Et2 & _ & F0 & _ & Hnames);
    [by rewrite Z.add_0_l|lia|done|unfold ino; lia|lia|lia|rewrite Hidx; lia|].
  set (b3 := set_dev d2 b2) in *. set (b4 := set_pathCache (delete dir (pathCache b3)) b3).
  assert (Hft4 : fs_tree tc0 s b4 n t2) by (apply fs_tree_cache; exact Hft3).
  exists b4, t2. split; [|split; [exact Hft4|split; [|split; [|split]]]].
  - unfold Symlink. rewrite Esplit, lift_ok_bind, (bind_ok _ _ _ _ _ Edir), (bind_ok _ _ _ _ _ (next_inode_ok _ n t Hft1)).
    rewrite w64_id by lia. fold ino. rewrite E1. unfold refuse_existing. rewrite M_assoc.
    pose proof (lookupDirEntry_ok b2 n t1 dirInode name Hft2) as El. unfold entry_in in El. rewrite Hnone in El.
    rewrite (bind_ok _ _ _ _ _ (catch_err _ _ _ _ El)), M_left_id. by rewrite (bind_ok _ _ _ _ _ E2).
  - rewrite (lookupDirEntry_ok b4 n t2 dirInode name Hft4). unfold entry_in.
    rewrite Et2, (filter_insert_new _ _ _ (eq_trans (Hnames dirInode name) (bool_decide_true _ (conj eq_refl eq_refl))) Hnone).
    cbn [it_data]. by rewrite F0.
  - apply (readSymlink_ok b4 n t2 ino xd target Hft4); try done. rewrite Et2.
    rewrite (filter_insert_other (fun it => is_extent_item ino (it_key it))); [exact Hxd|]. unfold is_extent_item. cbn. by rewrite andb_false_r.
  - exists (info_of ino id). rewrite (readInodeInfo_ok b4 n t2 ino Hft4). assert (Hid2 : sole_inode ino id (flatten n t2)).
    { unfold sole_inode. rewrite Et2, (filter_insert_other (fun it => is_inode_item ino (it_key it))); [exact Hid|apply is_inode_dir]. }
    rewrite (sole_inode_info _ _ _ Hid2) by lia.
    destruct (inode_info_ok ino id) as (_ & _ & Es & En & Em & Ed1 & Er & El); [lia|].
    rewrite El, Er, Ed1, Em, Es, En, F16, F40, F52. done.
  - intros d' n' Hne. rewrite (lookupDirEntry_ok b4 n t2 _ _ Hft4), (lookupDirEntry_ok b n t _ _ Hft). cbn [fst].
    unfold entry_in. rewrite Et2, filter_insert_other by (rewrite Hnames; by apply bool_decide_false). by rewrite Hnames1.
Qed.
End rename.
