(* ===== verification/BtrfsLinks.v ===== *)
(** The btrfs driver: several names of one inode.

    [Link] enters another name; [Rename] onto a name that is taken removes
    what the name stood for, which destroys a file renamed onto itself. *)
From S2P Require Export BtrfsRename.

(** The highest value depends on the items that count. *)
Lemma highest_filter (p : key -> bool) f (l l' : list itemEntry) :
  filter (fun it => p (it_key it)) l' = filter (fun it => p (it_key it)) l -> highest p f l' = highest p f l.
Proof.
  assert (Hf : forall x m, foldl (fun m it => if p (it_key it) && (m <? f (it_key it)) then f (it_key it) else m) m x =
    foldl (fun m it => if p (it_key it) && (m <? f (it_key it)) then f (it_key it) else m) m (filter (fun it => p (it_key it)) x)).
  { induction x as [|it x IH]; intros m; [done|]. rewrite filter_cons. cbn [foldl].
    destruct (p (it_key it)) eqn:E; [rewrite decide_True by done; cbn [foldl]; rewrite E|rewrite decide_False by (by intros []); cbn [andb]]; apply IH. }
  intros Hl. unfold highest. by rewrite Hf, Hl, <- Hf.
Qed.

Section links.
Context {D : Type} `{Device D} {env : Env} `{Codecs} {tc0 : treeContext} {s : SuperBlock}.
Implicit Types b : FileSystem D.

(** What taking a link away from an inode leaves alone. *)
Lemma unlinked_other child old items items' (p : key -> bool) :
  unlinked child old items items' -> p (inode_key child) = false -> (forall k, is_extent_item child k = true -> p k = false) ->
  filter (fun it => p (it_key it)) items' = filter (fun it => p (it_key it)) items.
Proof.
  intros Hu Hi Hx. unfold unlinked in Hu. destruct (_ <=? 1).
  - subst items'. rewrite list_filter_filter_l.
    + apply filter_delete_other. by intros it _ ->.
    + intros it Hk%Is_true_eq_true. apply Is_true_eq_left, negb_true_iff.
      destruct (is_extent_item child (it_key it)) eqn:E; [|done]. by rewrite (Hx _ E) in Hk.
  - destruct Hu as (nd & -> & _). by apply (filter_update_other p).
Qed.

Lemma unlinked_key child old k items items' :
  unlinked child old (delete_key k items) items' -> k ∉ (it_key <$> items').
Proof.
  assert (Hd : k ∉ (it_key <$> delete_key k items)).
  { intros (y & -> & [Hy _]%list_elem_of_filter)%list_elem_of_fmap. done. }
  unfold unlinked. destruct (_ <=? 1).
  - intros ->. contradict Hd. apply list_elem_of_fmap in Hd as (y & -> & [_ [_ Hy]%list_elem_of_filter]%list_elem_of_filter). by apply list_elem_of_fmap_2.
  - intros (nd & -> & _). by rewrite update_key_keys.
Qed.

(** An inode that has lost its last link is not there; another has one
    link less. *)
Definition link_lost (child : Z) (old : list byte) (b' : FileSystem D) : Prop :=
  if le_get 4 old 40 <=? 1 then readInodeInfo child b' = (Ok (empty_info child), b')
  else exists info, readInodeInfo child b' = (Ok info, b') /\ ni_Nlink info = le_get 4 old 40 - 1 /\
    ni_Mode info = le_get 4 old 52 /\ ni_Size info = le_get 8 old 16.

(** The inode items after the loss of a link. *)
Definition inode_left (child : Z) (old : list byte) (l : list itemEntry) : Prop :=
  if le_get 4 old 40 <=? 1 then l = []
  else exists nd, l = [mkItem (inode_key child) nd] /\ link_count_set old nd (le_get 4 old 40 - 1).

Lemma unlinked_inode child old items items' :
  unlinked child old items items' -> filter (fun it => is_inode_item child (it_key it)) items = [mkItem (inode_key child) old] ->
  inode_left child old (filter (fun it => is_inode_item child (it_key it)) items').
Proof.
  intros Hu Hs. unfold unlinked in Hu. unfold inode_left. destruct (_ <=? 1).
  - subst items'. rewrite list_filter_filter_l.
    + rewrite filter_delete, Hs. unfold delete_key. by rewrite filter_cons, decide_False by naive_solver.
    + intros it Hk%Is_true_eq_true. apply Is_true_eq_left, negb_true_iff. unfold is_inode_item, is_extent_item in *.
      apply andb_prop in Hk as [_ Hk]. apply Z.eqb_eq in Hk. rewrite Hk. by rewrite andb_false_r.
  - destruct Hu as (nd & -> & Hnd). exists nd. split; [|done]. rewrite (filter_update (is_inode_item child)) by apply is_inode_self.
    rewrite Hs. unfold update_key. cbn [map]. by rewrite bool_decide_true.
Qed.

Lemma inode_left_lost b n t child old :
  fs_tree tc0 s b n t -> 144 <= zlen old -> inode_left child old (filter (fun it => is_inode_item child (it_key it)) (flatten n t)) ->
  link_lost child old b.
Proof.
  intros Hft Hl Hi. unfold inode_left, link_lost in *. rewrite (readInodeInfo_ok b n t child Hft). destruct (_ <=? 1).
  - by rewrite (inode_in_filter child [] (flatten n t)) by by rewrite Hi.
  - destruct Hi as (nd & Hs & Hz & F40 & F52 & F16). rewrite (sole_inode_info child nd (flatten n t) Hs) by lia.
    destruct (inode_info_ok child nd) as (_ & _ & Es & En & Em & _); [lia|]. eexists. split; [done|]. by rewrite En, Em, Es, F40, F52, F16.
Qed.

(** The name goes and its inode loses a link. *)
Lemma replace_target_ok b n t dirInode name e rest old m :
  let target := le_get 8 (it_data e) 0 in
  fs_tree tc0 s b n t -> leaves_fit tc0 m n t -> 0 <= m -> filter (names_entry dirInode name) (flatten n t) = e :: rest ->
  sole_inode target old (flatten n t) -> 144 <= zlen old -> exists d' t',
    replace_target dirInode name b = (Ok tt, set_dev d' b) /\ fs_tree tc0 s (set_dev d' b) n t' /\ leaves_fit tc0 m n t' /\
    unlinked target old (delete_key (it_key e) (flatten n t)) (flatten n t').
Proof.
  intros target Hft Hroom Hm Hone Hsole Hl.
  destruct (first_entry _ _ _ _ _ Hone) as (Hne & Hek & Hin).
  destruct (delete_ok b n t (it_key e) m Hft Hroom) as (d1 & t1 & E1 & Hft1 & Et1 & Hroom1); [by apply list_elem_of_fmap_2|].
  assert (Hsole1 : sole_inode target old (flatten n t1)).
  { unfold sole_inode. rewrite Et1, filter_delete_other; [exact Hsole|]. intros it _ ->. by apply (no_entry_inode target dirInode). }
  destruct (drop_link_ok old Hl) as (nd & Ed & Hnd). unfold replace_target, lookupDirEntryKey, unlinked. rewrite <- Et1.
  rewrite (bind_ok _ _ _ _ _ (catch_ok _ _ _ _ (find_first_entry b n t _ _ _ _ Hft Hone))). fold target.
  rewrite (bind_ok _ _ _ _ _ E1), (bind_ok _ _ _ _ _ (last_item_ok _ n t1 _ Hft1)). unfold last_of. rewrite last_of_filter.
  unfold sole_inode in Hsole1. rewrite Hsole1. cbn [foldl it_key it_data]. rewrite (proj2 (Z.leb_le 100 (zlen old))), Ed, lift_ok_bind by lia.
  cbv beta iota. pose proof (le_get_range 4 old 40). destruct (Z.leb_spec (le_get 4 old 40) 1).
  - replace (0 `max` (le_get 4 old 40 - 1)) with 0 by lia. cbn [Z.eqb].
    destruct (delete_ok _ n t1 (inode_key target) m Hft1 Hroom1) as (d2 & t2 & E2 & Hft2 & Et2 & Hroom2).
    { apply (list_elem_of_fmap_2 it_key _ _ (sole_inode_in _ _ _ Hsole1)). }
    destruct (delete_extents_ok _ n t2 target m Hft2 Hroom2) as (d3 & t3 & E3 & Hft3 & Et3 & Hroom3). exists d3, t3.
    rewrite (bind_ok _ _ _ _ _ (ignore_ok _ _ _ _ E2)). split_and!; [exact E3|done|done|by rewrite Et3, Et2].
  - rewrite (proj2 (Z.eqb_neq _ 0)) by lia. rewrite Z.max_r in Hnd by lia.
    destruct (update_inode_ok _ n t1 target old nd m Hft1 Hroom1 Hm Hsole1 (proj1 Hnd)) as (d' & t' & E & Hft' & Et & _ & Hroom').
    exists d', t'. split_and!; [by apply ignore_ok in E|done|done|by exists nd].
Qed.
(** What losing a name and a link leaves to a rename. *)
Lemma unlinked_rest b n t dirInode name e rest child old items' :
  fs_tree tc0 s b n t -> filter (names_entry dirInode name) (flatten n t) = e :: rest ->
  unlinked child old (delete_key (it_key e) (flatten n t)) items' ->
  (forall d, max_index d items' <= max_index d (flatten n t)) /\
  forall i, i <> child -> filter (fun it => is_inode_item i (it_key it)) items' = filter (fun it => is_inode_item i (it_key it)) (flatten n t).
Proof.
  intros Hft Hone Hun. destruct (first_entry _ _ _ _ _ Hone) as (Hne & Hek & _). split.
  - intros d. pose proof (highest_delete (fun k => (objectid k =? d) && (typ k =? BTRFS_DIR_INDEX_KEY)) offset (it_key e) (flatten n t)) as Hle.
    unfold max_index. rewrite <- (highest_filter _ _ _ items') in Hle; [exact Hle|].
    apply (unlinked_other child old _ _ (fun k => (objectid k =? d) && (typ k =? BTRFS_DIR_INDEX_KEY)) Hun).
    + cbn. by rewrite andb_false_r.
    + intros k [_ Hk%Z.eqb_eq]%andb_prop. rewrite Hk. by rewrite andb_false_r.
  - intros i Hi. rewrite (unlinked_other child old _ _ (is_inode_item i) Hun).
    + apply filter_delete_other. intros it _ ->. by apply (no_entry_inode i dirInode).
    + by apply is_inode_other.
    + intros k [_ Hk%Z.eqb_eq]%andb_prop. unfold is_inode_item. rewrite Hk. by rewrite andb_false_r.
Qed.

(** C9: Renaming onto a name that is taken, in a tree with room: of the items
    that carry either name the first goes, and a new item, the last, leads
    from the new name to the renamed inode.  If one item carried each name,
    the old name is gone and the new one leads to the renamed inode; an item
    that is left (the driver enters a name as one item, DIR_INDEX; other
    drivers also write a DIR_ITEM) decides the lookup of its name instead,
    so that the new name still leads to what it led to.  That inode, which
    has one item and is neither directory, loses a link, or is gone with its
    last one; every other lookup gives what it gave, and no other inode but
    those of the two directories changes. *)
Theorem Rename_replaces b b1 b2 n t oldpath newpath oldDirPath newDirPath oldName newName oldDir newDir e rest e2 rest2 od nd old :
  let child := le_get 8 (it_data e) 0 in
  let target := le_get 8 (it_data e2) 0 in
  fs_tree tc0 s b n t -> leaves_fit tc0 (55 + zlen newName) n t ->
  splitPath oldpath = Ok (oldDirPath, oldName) -> splitPath newpath = Ok (newDirPath, newName) ->
  resolvePath oldDirPath b = (Ok oldDir, b1) -> resolvePath newDirPath b1 = (Ok newDir, b2) ->
  ~ (oldDir = newDir /\ oldName = newName) ->
  filter (names_entry oldDir oldName) (flatten n t) = e :: rest -> filter (names_entry newDir newName) (flatten n t) = e2 :: rest2 ->
  sole_inode target old (flatten n t) -> 144 <= zlen old -> target <> oldDir -> target <> newDir ->
  sole_inode oldDir od (flatten n t) -> 144 <= zlen od -> sole_inode newDir nd (flatten n t) -> 144 <= zlen nd ->
  0 <= newDir < 2 ^ 64 -> zlen newName < 2 ^ 16 -> max_index newDir (flatten n t) + 1 < 2 ^ 64 ->
  exists b' t', Rename oldpath newpath b = (Ok tt, b') /\ fs_tree tc0 s b' n t' /\
    lookupDirEntry oldDir oldName b' = (leads rest, b') /\
    lookupDirEntry newDir newName b' = (match rest2 with [] => Ok child | _ => leads rest2 end, b') /\
    (forall dirInode' name', ~ (dirInode' = oldDir /\ name' = oldName) -> ~ (dirInode' = newDir /\ name' = newName) ->
       (lookupDirEntry dirInode' name' b').1 = (lookupDirEntry dirInode' name' b).1) /\
    link_lost target old b' /\
    (forall i, i <> oldDir -> i <> newDir -> i <> target -> (readInodeInfo i b').1 = (readInodeInfo i b).1).
Proof.
  intros child target Hft Hroom Es1 Es2 Er1 Er2 Hdiff Hone Htwo Hsole Hl Hto Htn Hod Hlod Hnd Hlnd Hdir Hname Hmx.
  destruct (resolvePath_same oldDirPath b) as [c1 Ec1]. rewrite Er1 in Ec1. cbn in Ec1. subst b1.
  destruct (resolvePath_same newDirPath (set_pathCache c1 b)) as [c2 Ec2]. rewrite Er2 in Ec2. cbn in Ec2. subst b2.
  set (b2 := set_pathCache c2 (set_pathCache c1 b)) in *. pose proof (zlen_nonneg newName).
  assert (Hft2 : fs_tree tc0 s b2 n t) by (by do 2 apply fs_tree_cache).
  pose proof (readInodeInfo_ok b2 n t child Hft2) as Einfo. set (info := match inode_in child _ with Some _ => _ | None => _ end) in Einfo.
  destruct (replace_target_ok b2 n t newDir newName e2 rest2 old (55 + zlen newName) Hft2 Hroom ltac:(lia) Htwo Hsole Hl)
    as (d1 & t1 & E1 & Hft3 & Hroom1 & Hun). fold target in Hun.
  destruct (unlinked_entry b n t newDir newName e2 rest2 target old _ Hft Htwo Hun) as [Hfree Hnames].
  destruct (unlinked_rest b n t newDir newName e2 rest2 target old _ Hft Htwo Hun) as [Hidx Hino].
  assert (Hone1 : filter (names_entry oldDir oldName) (flatten n t1) = e :: rest) by (by rewrite Hnames).
  assert (Hod1 : sole_inode oldDir od (flatten n t1)) by (unfold sole_inode; by rewrite Hino by congruence).
  assert (Hnd1 : sole_inode newDir nd (flatten n t1)) by (unfold sole_inode; by rewrite Hino by congruence).
  pose proof (Hidx newDir) as Hidx'.
  destruct (finish_rename _ n t1 oldpath newpath oldDirPath newDirPath oldDir newDir oldName newName e rest (file_type info) od nd
    Hft3 Hroom1 Hone1 Hdiff (file_type_range info) Hod1 Hlod Hnd1 Hlnd Hdir Hname ltac:(lia)) as (b' & t' & E & Hft' & Hmoved & Hkeep).
  destruct (moved_lookups _ b' n t1 t' _ _ _ _ _ _ Hft3 Hft' Hmoved) as (Hgone & Hnew & Hothers). rewrite Hfree in Hnew.
  exists b', t'. split_and!; [|exact Hft'|exact Hgone|exact Hnew| | |].
  - unfold Rename. rewrite Es1, lift_ok_bind, Es2, lift_ok_bind, (bind_ok _ _ _ _ _ Er1), (bind_ok _ _ _ _ _ Er2).
    unfold lookupDirEntryKey. rewrite (bind_ok _ _ _ _ _ (find_first_entry b2 n t _ _ _ _ Hft2 Hone)). cbv beta iota. fold child.
    by rewrite (bind_ok _ _ _ _ _ Einfo), (bind_ok _ _ _ _ _ E1).
  - intros d' n' H1' H2'. rewrite (Hothers d' n' H1' H2').
    rewrite (lookup_leads _ n t1 _ _ Hft3), (lookup_leads _ n t _ _ Hft). by rewrite Hnames.
  - apply (inode_left_lost b' n t'); [done|done|]. rewrite (Hkeep (is_inode_item target)) by (apply no_entry_inode || by apply is_inode_other).
    apply (unlinked_inode target old _ _ Hun). rewrite filter_delete_other; [exact Hsole|]. intros it _ ->.
    by apply (no_entry_inode target newDir), (first_entry _ _ _ _ _ Htwo).
  - intros i H1' H2' H3'. rewrite (readInodeInfo_ok _ n t' i Hft'), (readInodeInfo_ok b n t i Hft). cbn [fst].
    rewrite (inode_in_filter i (flatten n t) (flatten n t')); [done|]. rewrite (Hkeep (is_inode_item i)) by (apply no_entry_inode || by apply is_inode_other).
    by apply Hino.
Qed.
(** C10: Renaming a file onto itself: the call fails, because it deletes the
    first item that carries the name as the one to be replaced and then looks
    for it again.  The file, which has one inode item, has lost a link, and
    is gone with its extents when that was the last one.  The name is gone
    exactly when no second item carried it; otherwise it leads to what the
    next one says, be that the file that is gone. *)
Theorem Rename_same_name b b1 b2 n t path dir name dirInode e rest old :
  let child := le_get 8 (it_data e) 0 in
  fs_tree tc0 s b n t -> splitPath path = Ok (dir, name) ->
  resolvePath dir b = (Ok dirInode, b1) -> resolvePath dir b1 = (Ok dirInode, b2) ->
  filter (names_entry dirInode name) (flatten n t) = e :: rest -> sole_inode child old (flatten n t) -> 144 <= zlen old ->
  exists b' t', Rename path path b = (Err (Errorf "btrfs: key not found for deletion: %+v"), b') /\ fs_tree tc0 s b' n t' /\
    lookupDirEntry dirInode name b' = (leads rest, b') /\ link_lost child old b' /\
    (le_get 4 old 40 <= 1 -> filter (fun it => is_extent_item child (it_key it)) (flatten n t') = []).
Proof.
  intros child Hft Es Er1 Er2 Hone Hsole Hl.
  destruct (resolvePath_same dir b) as [c1 Ec1]. rewrite Er1 in Ec1. cbn in Ec1. subst b1.
  destruct (resolvePath_same dir (set_pathCache c1 b)) as [c2 Ec2]. rewrite Er2 in Ec2. cbn in Ec2. subst b2.
  set (b2 := set_pathCache c2 (set_pathCache c1 b)) in *.
  assert (Hft2 : fs_tree tc0 s b2 n t) by (by do 2 apply fs_tree_cache).
  destruct (replace_target_ok b2 n t dirInode name e rest old 0 Hft2 (ft_fit _ _ _ _ _ Hft2) ltac:(lia) Hone Hsole Hl)
    as (d1 & t1 & E1 & Hft3 & _ & Hun). fold child in Hun. destruct (first_entry _ _ _ _ _ Hone) as (_ & Hek & _).
  destruct (unlinked_entry b n t dirInode name e rest child old _ Hft Hone Hun) as [Hfree _].
  exists (set_dev d1 b2), t1. split_and!; [|exact Hft3| | |].
  - unfold Rename. rewrite Es, !lift_ok_bind, (bind_ok _ _ _ _ _ Er1), (bind_ok _ _ _ _ _ Er2).
    unfold lookupDirEntryKey. rewrite (bind_ok _ _ _ _ _ (find_first_entry b2 n t _ _ _ _ Hft2 Hone)). cbv beta iota. fold child.
    rewrite (bind_ok _ _ _ _ _ (readInodeInfo_ok b2 n t child Hft2)), (bind_ok _ _ _ _ _ E1).
    apply bind_err. apply (missing_key _ n t1 (it_key e) [] Hft3). intros Hk. by apply (unlinked_key _ _ _ _ _ Hun Hk).
  - by rewrite (lookup_leads _ n t1 _ _ Hft3), Hfree.
  - apply (inode_left_lost _ n t1); [done|done|]. apply (unlinked_inode child old _ _ Hun).
    rewrite filter_delete_other; [exact Hsole|]. intros it _ ->. by apply (no_entry_inode child dirInode).
  - intros Hlast. unfold unlinked in Hun. rewrite (proj2 (Z.leb_le _ _)) in Hun by lia. rewrite Hun.
    apply elem_of_nil_inv. intros x [Hx [Hy _]%list_elem_of_filter]%list_elem_of_filter. by destruct (is_extent_item child (it_key x)).
Qed.
(** One link more. *)
Lemma add_link_ok old :
  144 <= zlen old -> exists nd,
    (nlink <- getUint32 old 40 ;; inodeData <- putUint32 old 40 (w32 (nlink + 1)) ;; put_time inodeData 120) = Ok nd /\
    link_count_set old nd (w32 (le_get 4 old 40 + 1)).
Proof.
  intros Hl. rewrite getUint_in by lia. cbn [mbind res_bind]. put_field.
  apply put_time_links; [done|]. unfold link_count_set. change (Z.of_nat 4) with 4 in *; change (Z.of_nat 8) with 8 in *.
  split; [apply (proj1 W)|]. split; [|split; by field_kept]. rewrite G. apply Z.mod_small, w32_range.
Qed.

(** The two changes of [Link]: the inode item and the entry. *)
Lemma link_entry_ok b n t ino old nd dirInode name ft :
  fs_tree tc0 s b n t -> leaves_fit tc0 (55 + zlen name) n t -> sole_inode ino old (flatten n t) -> zlen nd = zlen old ->
  entry_in dirInode name (flatten n t) = None -> 0 <= ft < 2 ^ 8 ->
  0 <= ino < 2 ^ 64 -> 0 <= dirInode < 2 ^ 64 -> zlen name < 2 ^ 16 -> max_index dirInode (flatten n t) + 1 < 2 ^ 64 ->
  exists d' t' k, (update_item (inode_key ino) nd ;; enter_name dirInode ino name ft) b = (Ok tt, set_dev d' b) /\
    fs_tree tc0 s (set_dev d' b) n t' /\ entry_in dirInode name (flatten n t') = Some (k, ino) /\
    sole_inode ino nd (flatten n t') /\
    (forall d' n', ~ (d' = dirInode /\ n' = name) -> entry_in d' n' (flatten n t') = entry_in d' n' (flatten n t)) /\
    (forall i, i <> ino -> inode_in i (flatten n t') = inode_in i (flatten n t)).
Proof.
  intros Hft Hroom Hsole Hz Hnone Hftr Hino Hdir Hname Hmx. pose proof (zlen_nonneg name). apply entry_in_None in Hnone.
  destruct (update_inode_ok b n t ino old nd (55 + zlen name) Hft Hroom ltac:(lia) Hsole Hz) as (d1 & t1 & E1 & Hft1 & Et1 & Hsole1 & Hroom1).
  assert (Hkeep : forall p : key -> bool, p (inode_key ino) = false ->
    filter (fun it => p (it_key it)) (flatten n t1) = filter (fun it => p (it_key it)) (flatten n t)).
  { intros p Hp. rewrite Et1. by apply filter_update_other. }
  assert (Hnames : forall d' n', filter (names_entry d' n') (flatten n t1) = filter (names_entry d' n') (flatten n t)).
  { intros d' n'. apply names_filter, (Hkeep (is_dir_item d')), dir_item_inode. }
  assert (Hidx : max_index dirInode (flatten n t1) = max_index dirInode (flatten n t)).
  { apply highest_filter, (Hkeep (fun k => (objectid k =? dirInode) && (typ k =? BTRFS_DIR_INDEX_KEY))). cbn. by rewrite andb_false_r. }
  destruct (enter_name_ok _ n t1 dirInode ino name ft 0 Hft1) as (dd & d2 & t2 & E2 & Hft2 & Et2 & _ & F0 & _ & Hent);
    [by rewrite Z.add_0_l|lia|done|done|done|done|by rewrite Hidx|].
  assert (Hinodes : forall i, filter (fun it => is_inode_item i (it_key it)) (flatten n t2) = filter (fun it => is_inode_item i (it_key it)) (flatten n t1)).
  { intros i. rewrite Et2. apply (filter_insert_other (fun it => is_inode_item i (it_key it))), is_inode_dir. }
  eexists d2, t2, _. split; [by rewrite (bind_ok _ _ _ _ _ E1)|]. split; [exact Hft2|]. split_and!.
  - unfold entry_in. rewrite Et2, (filter_insert_new _ _ _ (eq_trans (Hent dirInode name) (bool_decide_true _ (conj eq_refl eq_refl)))) by by rewrite Hnames.
    cbn [it_data]. by rewrite F0.
  - unfold sole_inode in *. by rewrite Hinodes.
  - intros d' n' Hne. unfold entry_in. rewrite Et2, filter_insert_other by (rewrite Hent; by apply bool_decide_false). by rewrite Hnames.
  - intros i Hi. apply inode_in_filter. rewrite Hinodes. by apply (Hkeep (is_inode_item i)), is_inode_other.
Qed.

(** A hard link: the new name leads to the inode of the old path, which has
    one link more and keeps its mode and size; every other lookup and every
    other inode give what they gave, and the blocks hold a search tree
    again. *)
Theorem Link_enters b b1 b2 n t oldpath newpath dir name dirInode ino old :
  fs_tree tc0 s b n t -> leaves_fit tc0 (55 + zlen name) n t ->
  resolvePath oldpath b = (Ok ino, b1) -> sole_inode ino old (flatten n t) -> 144 <= zlen old -> Z.land (le_get 4 old 52) 0x4000 = 0 ->
  splitPath newpath = Ok (dir, name) -> resolvePath dir b1 = (Ok dirInode, b2) -> entry_in dirInode name (flatten n t) = None ->
  0 <= ino < 2 ^ 64 -> 0 <= dirInode < 2 ^ 64 -> zlen name < 2 ^ 16 -> max_index dirInode (flatten n t) + 1 < 2 ^ 64 ->
  exists b' t' info, Link oldpath newpath b = (Ok tt, b') /\ fs_tree tc0 s b' n t' /\
    lookupDirEntry dirInode name b' = (Ok ino, b') /\
    readInodeInfo ino b' = (Ok info, b') /\ ni_Nlink info = w32 (le_get 4 old 40 + 1) /\
    ni_Mode info = le_get 4 old 52 /\ ni_Size info = le_get 8 old 16 /\
    (forall dirInode' name', ~ (dirInode' = dirInode /\ name' = name) ->
       (lookupDirEntry dirInode' name' b').1 = (lookupDirEntry dirInode' name' b).1) /\
    (forall i, i <> ino -> (readInodeInfo i b').1 = (readInodeInfo i b).1).
Proof.
  intros Hft Hroom Er1 Hsole Hl Hmode Es Er2 Hnone Hino Hdir Hname Hmx.
  destruct (resolvePath_same oldpath b) as [c1 Ec1]. rewrite Er1 in Ec1. cbn in Ec1. subst b1.
  destruct (resolvePath_same dir (set_pathCache c1 b)) as [c2 Ec2]. rewrite Er2 in Ec2. cbn in Ec2. subst b2.
  set (b2 := set_pathCache c2 (set_pathCache c1 b)) in *.
  assert (Hft1 : fs_tree tc0 s (set_pathCache c1 b) n t) by by apply fs_tree_cache.
  assert (Hft2 : fs_tree tc0 s b2 n t) by by apply fs_tree_cache.
  destruct (add_link_ok old Hl) as (nd & Ed & Hz & F40 & F52 & F16). set (ft := file_type (info_of ino old)).
  destruct (link_entry_ok b2 n t ino old nd dirInode name ft Hft2 Hroom Hsole Hz Hnone (file_type_range _) Hino Hdir Hname Hmx)
    as (d' & t' & k & E & Hft3 & Hnew & Hsole' & Hothers & Hinodes).
  set (b3 := set_dev d' b2) in *. set (b4 := set_pathCache (delete oldpath (delete dir (pathCache b3))) b3).
  assert (Hft4 : fs_tree tc0 s b4 n t') by by apply fs_tree_cache.
  exists b4, t', (info_of ino nd). split; [|split; [exact Hft4|]].
  - unfold Link. rewrite (bind_ok _ _ _ _ _ Er1), (bind_ok _ _ _ _ _ (readInodeInfo_ok _ n t ino Hft1)), (sole_inode_info _ _ _ Hsole) by lia.
    fold ft. destruct (inode_info_ok ino old) as (_ & _ & _ & _ & _ & Hd & _); [lia|]. rewrite Hmode in Hd. cbn in Hd. rewrite Hd.
    rewrite Es, lift_ok_bind, (bind_ok _ _ _ _ _ Er2). unfold refuse_existing. rewrite M_assoc.
    pose proof (lookupDirEntry_ok b2 n t dirInode name Hft2) as El. rewrite Hnone in El.
    rewrite (bind_ok _ _ _ _ _ (catch_err _ _ _ _ El)), M_left_id, (bind_ok _ _ _ _ _ (stopped_item_ok _ _ n t ino old Hft2 Hsole ltac:(lia))).
    rewrite Ed, lift_ok_bind, <- M_assoc. by rewrite (bind_ok _ _ _ _ _ E).
  - destruct (inode_info_ok ino nd) as (_ & _ & Es' & En & Em & _); [lia|]. rewrite En, Em, Es', F40, F52, F16. split_and!; try done.
    + by rewrite (lookupDirEntry_ok b4 n t' _ _ Hft4), Hnew.
    + rewrite (readInodeInfo_ok b4 n t' ino Hft4). by rewrite (sole_inode_info _ _ _ Hsole') by lia.
    + intros d1 n1 Hne. rewrite (lookupDirEntry_ok b4 n t' _ _ Hft4), (lookupDirEntry_ok b n t _ _ Hft). cbn [fst]. by rewrite Hothers.
    + intros i Hi. rewrite (readInodeInfo_ok _ n t' i Hft4), (readInodeInfo_ok b n t i Hft). cbn [fst]. by rewrite Hinodes.
Qed.
End links.
