(* ===== verification/BtrfsTruncate.v ===== *)
(** The btrfs driver: truncation of a file kept inside the tree.

    The inline extent is replaced by one of the new length: the old bytes,
    cut off or followed by zeros; at length 0 it is removed. *)
From S2P Require Export BtrfsInodes.

Section truncate.
Context {D : Type} `{Device D} {env : Env} `{Codecs} {tc0 : treeContext} {s : SuperBlock}.
Implicit Types b : FileSystem D.

(** The inode with its new size. *)
Lemma truncated_inode_ok old size :
  144 <= zlen old -> 0 <= size < 2 ^ 63 -> exists nd,
    (data <- putUint64 old 16 (w64 size) ;;
     data <- put_time data 120 ;;
     put_time data 132) = Ok nd /\ zlen nd = zlen old /\ le_get 8 nd 16 = size.
Proof.
  intros Hl Hs. unfold put_time. rewrite w64_id by lia. repeat put_field. eexists. split; [reflexivity|].
  change (Z.of_nat 4) with 4 in *; change (Z.of_nat 8) with 8 in *. split.
  - repeat match goal with W : wrote _ ?l _ _ |- context [zlen ?l] => rewrite (proj1 W) end. done.
  - field_kept. rewrite G. apply Z.mod_small. lia.
Qed.

(** The inline item with its new bytes. *)
Lemma resized_item_ok inodeNum content it size :
  inline_item inodeNum content it -> 0 < size <= 2048 -> exists hd,
    putUint64 (sub (it_data it) 0 21) 8 (w64 size) = Ok hd /\
    inline_item inodeNum (put (zeros size) 0 content) (mkItem (extent_key inodeNum) (hd ++ put (zeros size) 0 content)).
Proof.
  intros (Ek & Hl & Hpos & F8 & F16 & F20 & Hsub) Hs. rewrite w64_id by lia. set (old := sub (it_data it) 0 21).
  assert (Hlo : zlen old = 21) by (unfold old; zlen). put_field. exists l'. split; [done|].
  assert (Hlh : zlen l' = 21) by (rewrite (proj1 W); done). change (Z.of_nat 8) with 8 in *.
  assert (Hz : zlen (put (zeros size) 0 content) = size) by (rewrite zlen_put; zlen).
  assert (Hget : forall k o, 0 <= o -> o + Z.of_nat k <= 21 ->
    le_get k (l' ++ put (zeros size) 0 content) o = le_get k l' o).
  { intros k o Ho Hk. unfold le_get. by rewrite sub_app_l by lia. }
  assert (Hold : forall k o, 0 <= o -> o + Z.of_nat k <= 21 -> le_get k old o = le_get k (it_data it) o).
  { intros k o Ho Hk. unfold le_get, old. by rewrite sub_sub, Z.add_0_l by lia. }
  unfold inline_item. cbn [it_key it_data]. rewrite zlen_app, Hlh, Hz, !Hget by lia. split_and!; [done|lia|lia| | | |].
  - rewrite G. apply Z.mod_small. lia.
  - rewrite (wrote_get _ _ _ _ _ _ W), Hold by lia. done.
  - rewrite (wrote_get _ _ _ _ _ _ W), Hold by lia. done.
  - rewrite sub_app_r by lia. rewrite Hlh, Z.sub_diag. etransitivity; [|apply sub_all]. by rewrite Hz.
Qed.

(** What inline extents are left. *)
Definition resized (content : list byte) (size : Z) : list byte := put (zeros size) 0 content.

Lemma resized_length content size : 0 <= size -> zlen (resized content size) = size.
Proof. intros. unfold resized. rewrite zlen_put. by apply zlen_zeros. Qed.
Lemma resized_nothing content : resized content 0 = [].
Proof. pose proof (resized_length content 0 ltac:(done)) as Hl. unfold zlen in Hl. by destruct (resized content 0). Qed.

Lemma truncate_to_zero b n t inodeNum content :
  fs_tree tc0 s b n t -> inline_file inodeNum content (flatten n t) -> exists d' t',
    (extentKeys <- keys_of (is_extent_item inodeNum) ;; forM extentKeys tt (fun ek _ => delete_item ek)) b = (Ok tt, set_dev d' b) /\
    fs_tree tc0 s (set_dev d' b) n t' /\ inline_file inodeNum [] (flatten n t') /\
    forall p : key -> bool, p (extent_key inodeNum) = false ->
      filter (fun it => p (it_key it)) (flatten n t') = filter (fun it => p (it_key it)) (flatten n t).
Proof.
  intros Hft Hin. rewrite (bind_ok _ _ _ _ _ (keys_of_ok b n t _ Hft)). unfold inline_file in *.
  destruct (filter (fun it => is_extent_item inodeNum (it_key it)) (flatten n t)) as [|it [|? ?]] eqn:Ef; [| |done].
  - exists (dev b), t. replace (set_dev (dev b) b) with b by by destruct b. rewrite Ef. done.
  - destruct Hin as [Ek _]. assert (Hit : it ∈ filter (fun it => is_extent_item inodeNum (it_key it)) (flatten n t)) by (rewrite Ef; by left).
    apply list_elem_of_filter in Hit as [_ Hit].
    destruct (delete_ok b n t (it_key it) 0 Hft (ft_fit _ _ _ _ _ Hft)) as (d' & t' & E & Hft' & Et & _); [by apply list_elem_of_fmap_2|].
    exists d', t'. split; [cbn [fmap list_fmap forM]; by rewrite (bind_ok _ _ _ _ _ E)|]. split; [exact Hft'|]. rewrite Et. split.
    + rewrite filter_delete, Ef. unfold delete_key. by rewrite filter_cons, decide_False by naive_solver.
    + intros p Hp. apply filter_delete_other. intros x _ ->. by rewrite Ek.
Qed.

Lemma truncate_to_size b n t inodeNum content size :
  fs_tree tc0 s b n t -> leaves_fit tc0 (21 + size) n t -> inline_file inodeNum content (flatten n t) -> content <> [] -> 0 < size <= 2048 ->
  exists d' t',
    (let! (extKey, extData) := last_item (is_extent_item inodeNum) in
     if 0 <? zlen extData then truncate_extent inodeNum extKey extData size else mret tt) b = (Ok tt, set_dev d' b) /\
    fs_tree tc0 s (set_dev d' b) n t' /\ inline_file inodeNum (resized content size) (flatten n t') /\
    forall p : key -> bool, p (extent_key inodeNum) = false ->
      filter (fun it => p (it_key it)) (flatten n t') = filter (fun it => p (it_key it)) (flatten n t).
Proof.
  intros Hft Hroom Hin Hne Hs. unfold inline_file in Hin.
  destruct (filter (fun it => is_extent_item inodeNum (it_key it)) (flatten n t)) as [|it [|? ?]] eqn:Ef; [done| |done].
  destruct (resized_item_ok inodeNum content it size Hin Hs) as (hd & Ehd & Hnew). fold (resized content size) in *.
  pose proof Hin as (Ek & Hl & Hpos & F8 & F16 & F20 & Hsub).
  pose proof (resized_length content size ltac:(lia)) as Hz.
  assert (Hln : zlen (hd ++ resized content size) = 21 + size) by (destruct Hnew as (_ & Hx & _); cbn [it_data] in Hx; lia).
  destruct (update_ok b n t (extent_key inodeNum) (hd ++ resized content size) 0 Hft) as (d' & t' & E & Hft' & Et & _);
    [by rewrite Hln|done| |].
  { rewrite <- Ek. apply list_elem_of_fmap_2. assert (Hit : it ∈ filter (fun it => is_extent_item inodeNum (it_key it)) (flatten n t)) by (rewrite Ef; by left).
    by apply list_elem_of_filter in Hit as [_ Hit]. }
  exists d', t'. split; [|split; [exact Hft'|split]].
  - rewrite (bind_ok _ _ _ _ _ (last_item_ok b n t _ Hft)). unfold last_of. rewrite last_of_filter, Ef. cbn [foldl]. cbv beta iota.
    rewrite (proj2 (Z.ltb_lt _ _)) by lia. unfold truncate_extent. rewrite getUint_in, lift_ok_bind, F20 by lia.
    change (0 =? BTRFS_FILE_EXTENT_INLINE) with true. cbv iota.
    rewrite !slice_in by lia. rewrite !lift_ok_bind. rewrite (proj2 (Z.leb_le _ _)) by lia. unfold make_bytes.
    rewrite (proj2 (Z.ltb_ge size 0)), (proj2 (Z.leb_gt (2 ^ 63) size)) by lia. cbn [orb]. rewrite lift_ok_bind.
    change (21 - 0) with 21. rewrite Ehd, lift_ok_bind. replace (zlen (it_data it) - 21) with (zlen content) by lia. rewrite Hsub, Ek. exact E.
  - unfold inline_file. rewrite Et, (filter_update (is_extent_item inodeNum)) by apply is_extent_self. rewrite Ef. unfold update_key. cbn [map].
    by rewrite bool_decide_true.
  - intros p Hp. rewrite Et. by apply filter_update_other.
Qed.

(** C14: Truncating a file kept inside the tree to a length up to 2048: the
    size of the inode is the new length, and reading at any offset gives the
    window of the old content cut off there, or followed by zeros; the blocks
    hold a search tree again.  (An empty file has no extent to lengthen.) *)
Theorem Truncate_Read b b1 n t path inodeNum content old size :
  fs_tree tc0 s b n t -> leaves_fit tc0 (21 + size) n t ->
  resolvePath path b = (Ok inodeNum, b1) -> inline_file inodeNum content (flatten n t) ->
  sole_inode inodeNum old (flatten n t) -> 144 <= zlen old -> 0 <= size <= 2048 -> size = 0 \/ content <> [] ->
  exists b' t' nd, Truncate path size b = (Ok tt, b') /\ fs_tree tc0 s b' n t' /\
    (forall rbuf rofst, 0 <= rofst -> zlen rbuf < 2 ^ 62 ->
       readFile inodeNum rbuf rofst b' = (Ok (read_window (resized content size) rbuf rofst), b')) /\
    sole_inode inodeNum nd (flatten n t') /\ le_get 8 nd 16 = size.
Proof.
  intros Hft Hroom Eres Hin Hsole Hl Hs Hne. destruct (resolvePath_same path b) as [c Ec]. rewrite Eres in Ec. cbn in Ec. subst b1.
  pose proof (fs_tree_cache b n t c Hft) as Hft1. set (b1 := set_pathCache c b) in *.
  destruct (truncated_inode_ok old size Hl ltac:(lia)) as (nd & Ed & Hln & F16).
  destruct (update_inode_ok b1 n t inodeNum old nd (21 + size) Hft1 Hroom ltac:(lia) Hsole Hln) as (d1 & t1 & E1 & Hft2 & Et1 & Hsole1 & Hroom1).
  set (b2 := set_dev d1 b1) in *.
  assert (Hin1 : inline_file inodeNum content (flatten n t1)).
  { unfold inline_file. rewrite Et1, (filter_update_other (is_extent_item inodeNum)); [exact Hin|].
    unfold is_extent_item. cbn. by rewrite andb_false_r. }
  assert (Hrest : exists d2 t2, (if size =? 0 then
       extentKeys <- keys_of (is_extent_item inodeNum) ;; forM extentKeys tt (fun ek _ => delete_item ek)
     else let! (extKey, extData) := last_item (is_extent_item inodeNum) in
       if 0 <? zlen extData then truncate_extent inodeNum extKey extData size else mret tt) b2 = (Ok tt, set_dev d2 b2) /\
    fs_tree tc0 s (set_dev d2 b2) n t2 /\ inline_file inodeNum (resized content size) (flatten n t2) /\
    filter (fun it => is_inode_item inodeNum (it_key it)) (flatten n t2) = filter (fun it => is_inode_item inodeNum (it_key it)) (flatten n t1)).
  { assert (Hino : is_inode_item inodeNum (extent_key inodeNum) = false) by (unfold is_inode_item; cbn; by rewrite andb_false_r).
    destruct (Z.eqb_spec size 0) as [->|Hnz].
    - destruct (truncate_to_zero b2 n t1 inodeNum content Hft2 Hin1) as (d2 & t2 & E2 & Hft3 & Hin2 & Hkeep). exists d2, t2.
      split_and!; [exact E2|exact Hft3| |by apply Hkeep]. by rewrite resized_nothing.
    - destruct (truncate_to_size b2 n t1 inodeNum content size Hft2 Hroom1 Hin1) as (d2 & t2 & E2 & Hft3 & Hin2 & Hkeep);
        [by destruct Hne|lia|]. exists d2, t2. split_and!; [exact E2|exact Hft3|exact Hin2|by apply Hkeep]. }
  destruct Hrest as (d2 & t2 & E2 & Hft3 & Hin2 & Hkeep). set (b3 := set_dev d2 b2) in *.
  exists (set_pathCache (delete path (pathCache b3)) b3), t2, nd. split; [|split; [by apply fs_tree_cache|split; [|split; [|done]]]].
  - unfold Truncate. rewrite (bind_ok _ _ _ _ _ Eres), (bind_ok _ _ _ _ _ (inode_data_ok b1 n t inodeNum old Hft1 Hsole ltac:(lia))).
    rewrite Ed, lift_ok_bind, (bind_ok _ _ _ _ _ E1). fold b2. by rewrite (bind_ok _ _ _ _ _ E2).
  - intros rbuf rofst Hr Hrb. apply (readFile_inline (tc0 := tc0) (s := s) _ n t2); [by apply fs_tree_cache|exact Hin2| |done|done].
    rewrite resized_length; lia.
  - unfold sole_inode in *. by rewrite Hkeep.
Qed.
End truncate.
