(* ===== verification/BtrfsVerify.v ===== *)
(** The btrfs driver: what the check of a volume finds.

    A tree is clean when every block has its checksum and every leaf has its
    keys in order.  On trees that can be read the check reports a healthy
    volume exactly when they are clean, and it changes nothing. *)
From S2P Require Export BtrfsFsck BtrfsStore.

(** The keys rise, from [prev] on if there is one. *)
Fixpoint in_order (prev : option key) (items : list itemEntry) : Prop :=
  match items with
  | [] => True
  | it :: items =>
      match prev with Some p => key_lt p (it_key it) | None => True end /\ in_order (Some (it_key it)) items
  end.

Lemma in_order_from p items :
  in_order (Some p) items <-> Forall (fun it => key_lt p (it_key it)) items /\ sorted items.
Proof.
  revert p. induction items as [|it items IH]; intros p; cbn [in_order]; [by repeat constructor|]. rewrite IH, Forall_cons.
  split; [intros (Hp & Hit & Hs)|intros ((Hp & _) & Hs); inversion_clear Hs; by split].
  split; [split; [done|]|by constructor]. eapply Forall_impl; [exact Hit|]. intros x. by apply key_lt_trans.
Qed.
Lemma in_order_sorted items : in_order None items <-> sorted items.
Proof.
  destruct items as [|it items]; cbn [in_order]; [by repeat constructor|]. rewrite in_order_from. split.
  - intros (_ & Hit & Hs). by constructor.
  - intros Hs. by inversion_clear Hs.
Qed.

Section clean.
Context {D : Type} `{Device D}.

Fixpoint clean (d : D) (tc : treeContext) (n : nat) (addr : Z) : tree n -> Prop :=
  match n with
  | O => fun t => (forall buf, node_at d tc addr = Some buf -> csum_ok buf) /\ sorted t
  | S n => fun t =>
      (forall buf, node_at d tc addr = Some buf -> csum_ok buf) /\ Forall (fun c => clean d tc n (ip_blockptr c.1) c.2) t
  end.
End clean.

(** ** Results *)

(** A step of the check: the volume stays healthy just when [P] holds, and
    then nothing is reported. *)
Definition verdict (P : Prop) (r r' : BtrfsFsckResult) : Prop :=
  (Healthy r' = true <-> Healthy r = true /\ P) /\ (P -> Problems r' = Problems r).

Lemma step_same (P : Prop) r : P -> verdict P r r.
Proof. unfold verdict. tauto. Qed.
Lemma step_error (P : Prop) msg r : ~ P -> verdict P r (add_error msg r).
Proof. intros Hp. split; cbn; [split; [done|tauto]|tauto]. Qed.
Lemma step_trans (P Q : Prop) r r1 r2 : verdict P r r1 -> verdict Q r1 r2 -> verdict (P /\ Q) r r2.
Proof. intros [H1 H2] [H3 H4]. split; [tauto|]. intros [Hp Hq]. by rewrite H4, H2. Qed.
Lemma step_iff (P Q : Prop) r r' : P <-> Q -> verdict P r r' -> verdict Q r r'.
Proof. unfold verdict. tauto. Qed.
Lemma step_count_node r : verdict True r (count_node r).
Proof. unfold verdict. cbn. tauto. Qed.
Lemma step_count_items n r : verdict True r (count_items n r).
Proof. unfold verdict. cbn. tauto. Qed.

Section verify.
Context {D : Type} `{Device D} {env : Env} {tc0 : treeContext} {s : SuperBlock}.
Implicit Types b : FileSystem D.
Implicit Types r : BtrfsFsckResult.

(** [m] ends well, changes the result only, by a step for [P]. *)
Definition checks {A} (m : M (FileSystem D * BtrfsFsckResult) A) (P : Prop) b r (a : A) : Prop :=
  exists r', m (b, r) = (Ok a, (b, r')) /\ verdict P r r'.

Lemma checks_bind {A B} (m : M _ A) (k : A -> M _ B) P Q b r a c :
  checks m P b r a -> (forall r', checks (k a) Q b r' c) -> checks (mbind k m) (P /\ Q) b r c.
Proof.
  intros (r1 & E1 & V1) Hk. destruct (Hk r1) as (r2 & E2 & V2). exists r2.
  rewrite (bind_ok _ _ _ _ _ E1). split; [done|]. by eapply step_trans.
Qed.
Lemma checks_iff {A} (m : M _ A) (P Q : Prop) b r a : P <-> Q -> checks m P b r a -> checks m Q b r a.
Proof. intros Hpq (r' & E & V). exists r'. split; [done|]. by eapply step_iff. Qed.
Lemma checks_ret {A} (a : A) b r : checks (mret a) True b r a.
Proof. exists r. split; [done|]. by apply step_same. Qed.

Lemma checks_lift {A B} (a : A) (k : A -> M _ B) P b r c : checks (k a) P b r c -> checks (mbind k (lift (Ok a))) P b r c.
Proof. done. Qed.

(** A test that reports an error where it fails. *)
Lemma checks_test (c : bool) msg b r :
  checks (if c then mret tt else update (add_error msg)) (c = true) b r tt.
Proof.
  destruct c; [exists r; split; [done|by apply step_same]|].
  exists (add_error msg r). split; [done|]. by apply step_error.
Qed.

Lemma check_item_ok buf i it prev b r :
  0 <= i -> item_at buf i it ->
  checks (check_item (mkByteReader buf (nodeHeaderSize + i * 25), prev))
    (match prev with Some p => key_lt p (it_key it) | None => True end) b r
    (mkByteReader buf (nodeHeaderSize + (i + 1) * 25), Some (it_key it)).
Proof.
  unfold nodeHeaderSize. intros Hi (Hin & ioff & Hh & _). unfold check_item, nodeHeaderSize in *.
  rewrite (decodeLeafItem_at _ (101 + i * 25) _ _ ltac:(lia) Hin Hh).
  replace (101 + i * 25 + 25) with (101 + (i + 1) * 25) by lia.
  apply (checks_iff _ (True /\ (match prev with Some p => key_lt p (it_key it) | None => True end /\ True))); [tauto|].
  apply (checks_bind _ _ _ _ _ _ (mkLeafItem (it_key it) ioff (zlen (it_data it)))); [apply checks_ret|].
  intros r1. cbn [li_key]. apply (checks_bind _ _ _ _ _ _ tt); [|intros; apply checks_ret].
  destruct prev as [p|]; [|apply checks_ret]. pose proof (compareKeys_spec (it_key it) p) as (_ & _ & Hc).
  destruct (Z.leb_spec (compareKeys (it_key it) p) 0).
  - exists (add_error "Item key out of order at logical 0x%x, index %d" r1). split; [done|]. apply step_error.
    rewrite <- Hc. lia.
  - exists r1. split; [done|]. apply step_same. by apply Hc.
Qed.

Lemma check_items buf items i prev b r :
  0 <= i -> (forall (j : nat) it, items !! j = Some it -> item_at buf (i + Z.of_nat j) it) ->
  checks (forM (seqZ i (zlen items)) (mkByteReader buf (nodeHeaderSize + i * 25), prev) (fun _ acc => check_item acc) ;; mret tt)
    (in_order prev items) b r tt.
Proof.
  revert i prev r. induction items as [|it items IH]; intros i prev r Hi Hat.
  { apply checks_ret. }
  rewrite seqZ_cons by (unfold zlen; cbn [length]; lia).
  replace (Z.pred (zlen (it :: items))) with (zlen items) by (unfold zlen; cbn [length]; lia).
  change (Z.succ i) with (i + 1). cbn [forM in_order].
  specialize (Hat 0%nat it eq_refl) as Hit. rewrite Z.add_0_r in Hit.
  destruct (check_item_ok buf i it prev b r Hi Hit) as (r1 & E1 & V1).
  destruct (IH (i + 1) (Some (it_key it)) r1) as (r2 & E2 & V2); [lia| |].
  { intros j it' Hj. replace (i + 1 + Z.of_nat j) with (i + Z.of_nat (S j)) by lia. by apply Hat. }
  exists r2. rewrite M_assoc, (bind_ok _ _ _ _ _ E1). split; [exact E2|]. by eapply step_trans.
Qed.

(** The pointers of a node, each checked by [k]. *)
Lemma check_ptrs {T} (k : Z -> M (FileSystem D * BtrfsFsckResult) unit) (P : internalKeyPtr * T -> Prop) buf l i b r :
  0 <= i -> Forall (fun c => forall r, checks (k (ip_blockptr c.1)) (P c) b r tt) l ->
  (forall (j : nat) p, map fst l !! j = Some p ->
     let off := nodeHeaderSize + (i + Z.of_nat j) * 33 in off + 33 <= zlen buf /\ ptr_at buf off p) ->
  checks (forM (seqZ i (zlen l)) (mkByteReader buf (nodeHeaderSize + i * 33)) (fun _ rd =>
     let '(ptr, rd) := decodeInternalPtr rd in ptr <- lift ptr ;; k (ip_blockptr ptr) ;; mret rd) ;; mret tt)
    (Forall P l) b r tt.
Proof.
  intros Hi Hl. revert i r Hi. induction Hl as [|c l Hc _ IH]; intros i r Hi Hat.
  { eapply checks_iff; [|apply checks_ret]. by split; [constructor|]. }
  rewrite seqZ_cons by (unfold zlen; cbn [length]; lia).
  replace (Z.pred (zlen (c :: l))) with (zlen l) by (unfold zlen; cbn [length]; lia).
  change (Z.succ i) with (i + 1). cbn [forM]. destruct (Hat 0%nat c.1 eq_refl) as [Hin Hp]. rewrite Z.add_0_r in *.
  destruct (Hc r) as (r1 & E1 & V1). destruct (IH (i + 1) r1) as (r2 & E2 & V2); [lia| |].
  { intros j p' Hj. replace (i + 1 + Z.of_nat j) with (i + Z.of_nat (S j)) by lia. by apply Hat. }
  exists r2. unfold nodeHeaderSize in *. rewrite M_assoc.
  rewrite (decodeInternalPtr_at _ (101 + i * 33) _ ltac:(lia) Hin Hp), M_assoc, lift_ok_bind, M_assoc.
  rewrite (bind_ok _ _ _ _ _ E1), M_left_id. replace (101 + i * 33 + 33) with (101 + (i + 1) * 33) by lia.
  split; [exact E2|]. eapply step_iff; [|by eapply step_trans]. by rewrite Forall_cons.
Qed.

(** The checksum of one block. *)
Lemma check_csum addr buf b r :
  mounted tc0 s b -> node_at (dev b) tc0 addr = Some buf ->
  checks (body <- lift (slice buf 32 (zlen buf)) ;;
          csumExisting <- lift (getUint32 buf 0) ;;
          if calcCrc32c body =? csumExisting then mret tt
          else update (add_error "CRC32c checksum mismatch at logical 0x%x (phys 0x%x): got 0x%x, calculated 0x%x"))
    (forall buf, node_at (dev b) tc0 addr = Some buf -> csum_ok buf) b r tt.
Proof.
  intros Hm Hb. destruct (m_size _ _ _ Hm) as [_ Hs]. destruct (read_node tc0 s b addr buf Hm Hb) as (_ & _ & _ & _ & El).
  unfold size_ok, nodeHeaderSize in Hs. rewrite slice_in, getUint_in by lia.
  eapply checks_iff; [|apply checks_test]. rewrite Z.eqb_eq. unfold csum_ok. split; [|intros Hc; symmetry; by apply Hc].
  intros Ec buf' Hb'. by simplify_eq.
Qed.

(** One node: its checksum, then what is below its header. *)
Lemma verify_step b addr buf depth r (Q : Prop) :
  mounted tc0 s b -> node_at (dev b) tc0 addr = Some buf ->
    (forall r', checks (let '(h, rd) := decodeNodeHeader (mkByteReader buf 0) in
              h <- lift h ;;
              if h_level h =? 0 then
                update (count_items (h_nritems h)) ;;
                forM (seqZ 0 (h_nritems h)) (rd, None) (fun _ acc => check_item acc) ;;
                mret tt
              else
                forM (seqZ 0 (h_nritems h)) rd (fun _ rd =>
                  let '(ptr, rd) := decodeInternalPtr rd in
                  ptr <- lift ptr ;;
                  verify_rec depth (ip_blockptr ptr) ;;
                  mret rd) ;;
                mret tt) Q b r' tt) ->
    checks (verify_rec (S depth) addr) ((forall buf, node_at (dev b) tc0 addr = Some buf -> csum_ok buf) /\ Q) b r tt.
Proof.
  intros Hm Hb HQ. destruct (m_size _ _ _ Hm) as [Hns Hs]. unfold size_ok in Hs.
  destruct (read_node tc0 s b addr buf Hm Hb) as (phys & _ & Er & Erd & El).
    destruct (check_csum addr buf b (count_node r) Hm Hb) as (r1 & E1 & V1). destruct (HQ r1) as (r2 & E2 & V2).
    exists r2. split; [|eapply (step_trans _ _ _ r1); [|exact V2]; eapply step_iff; [|by eapply step_trans; [apply step_count_node|exact V1]]; tauto].
    cbn [verify_rec]. rewrite (bind_ok _ _ _ _ _ (zoom_ok _ _ r _ _ (get_tc_ok tc0 s b Hm))), Er.
    rewrite Hns in Erd. rewrite (bind_ok _ _ _ _ _ (catch_ok _ _ _ _ (zoom_ok _ _ r _ _ Erd))).
    assert (Eu : update count_node (b, r) = (Ok tt, (b, count_node r))) by done. rewrite (bind_ok _ _ _ _ _ Eu). clear Eu. rewrite <- E2. revert E1.
    rewrite slice_in, getUint_in by (unfold nodeHeaderSize in *; lia). rewrite !lift_ok_bind. intros E1.
    by rewrite (bind_ok _ _ _ _ _ E1).
Qed.

Lemma verify_tree b n (t : tree n) :
  mounted tc0 s b -> forall addr depth r, holds (dev b) tc0 n addr t -> (n < depth)%nat ->
  checks (verify_rec depth addr) (clean (dev b) tc0 n addr t) b r tt.
Proof.
  intros Hm. destruct (m_size _ _ _ Hm) as [Hns Hs]. unfold size_ok in Hs.
  induction n as [|n IH]; intros addr [|depth] r Ht Hd; try lia.
  - destruct Ht as (buf & Hb & Hl0 & Hln & Hat). apply (verify_step b addr buf depth r _ Hm Hb). intros r'.
    destruct (read_node tc0 s b addr buf Hm Hb) as (_ & _ & _ & _ & El).
    destruct (decodeNodeHeader_at buf ltac:(lia)) as (h & -> & Eh1 & Eh2). apply checks_lift.
    rewrite Eh2, Hl0, Eh1, Hln. cbn [Z.eqb].
    apply (checks_iff _ (True /\ in_order None t)); [rewrite in_order_sorted; tauto|].
    apply (checks_bind _ _ _ _ _ _ tt).
    + exists (count_items (zlen t) r'). split; [done|apply step_count_items].
    + intros r2. change nodeHeaderSize with (nodeHeaderSize + 0 * 25) at 1. by apply check_items.
  - destruct Ht as (buf & Hb & (Hl0 & Hln & Hat) & Hkids). apply (verify_step b addr buf depth r _ Hm Hb). intros r'.
    destruct (read_node tc0 s b addr buf Hm Hb) as (_ & _ & _ & _ & El).
    destruct (decodeNodeHeader_at buf ltac:(lia)) as (h & -> & Eh1 & Eh2). apply checks_lift.
    rewrite Eh2, Hl0, Eh1, Hln, (proj2 (Z.eqb_neq _ 0)) by lia.
    replace (zlen (map fst t)) with (zlen t) by (unfold zlen; by rewrite length_map).
    change nodeHeaderSize with (nodeHeaderSize + 0 * 33) at 1. apply check_ptrs; [done| |exact Hat].
    eapply Forall_impl; [exact Hkids|]. intros c Hc r2. apply IH; [done|lia].
Qed.

(** The extent tree, if there is one. *)
Definition extent_tree_at b (te : option {n : nat & tree n}) : Prop :=
  match te with
  | Some (existT n t) => extentRoot b <> 0 /\ holds (dev b) tc0 n (extentRoot b) t /\ (n < fuel)%nat
  | None => extentRoot b = 0
  end.
Definition extent_tree_clean b (te : option {n : nat & tree n}) : Prop :=
  match te with Some (existT n t) => clean (dev b) tc0 n (extentRoot b) t | None => True end.

End verify.
