(* ===== verification/BtrfsMount.v ===== *)
(** The btrfs driver: what mounting leaves behind.

    Every value that is read from the device has the range of its width, and
    so has every field of the file system after [mount], whatever the device
    holds; a mount that succeeds has a superblock with the right magic
    number, a chunk map, and the root of the file-system tree. *)
From S2P Require Export BtrfsLeaf.

(** [m] keeps [P], and a value it gives satisfies [Q]. *)
Definition gives {S A} (P : S -> Prop) (m : M S A) (Q : A -> Prop) : Prop :=
  forall s, P s -> P (m s).2 /\ forall v, (m s).1 = Ok v -> Q v.

Section gives.
Context {S : Type} (P : S -> Prop).

Lemma gives_ret {A} (a : A) (Q : A -> Prop) : Q a -> gives P (mret a) Q.
Proof. intros Hq s Hs. split; [done|]. by intros v [= <-]. Qed.
Lemma gives_lift {A} (r : res A) (Q : A -> Prop) : (forall v, r = Ok v -> Q v) -> gives P (lift r) Q.
Proof. intros Hq s Hs. split; [done|]. exact Hq. Qed.
Lemma gives_fail {A} e (Q : A -> Prop) : gives P (fail e) Q.
Proof. intros s Hs. by split. Qed.
Lemma gives_bind {A B} (m : M S A) (k : A -> M S B) (Q : A -> Prop) (R : B -> Prop) :
  gives P m Q -> (forall a, Q a -> gives P (k a) R) -> gives P (mbind k m) R.
Proof.
  intros Hm Hk s Hs. destruct (Hm s Hs) as [H1 H2]. unfold mbind, M_bind.
  destruct (m s) as [[a|e| |] s']; cbn in *; [by apply Hk; [apply H2|]|done..].
Qed.
Lemma gives_weaken {A} (m : M S A) (Q R : A -> Prop) : (forall a, Q a -> R a) -> gives P m Q -> gives P m R.
Proof. intros Hqr Hm s Hs. destruct (Hm s Hs). eauto. Qed.
Lemma gives_any {A} (m : M S A) (Q : A -> Prop) : gives P m Q -> gives P m (fun _ => True).
Proof. by apply gives_weaken. Qed.
Lemma gives_modify f : (forall s, P s -> P (f s)) -> gives P (modify f) (fun _ => True).
Proof. intros Hf s Hs. split; [by apply Hf|done]. Qed.
Lemma gives_get : gives P get P.
Proof. intros s Hs. split; [done|]. by intros v [= <-]. Qed.
Lemma gives_forM {A B} (l : list A) (acc : B) (body : A -> B -> M S B) (Q : B -> Prop) :
  Q acc -> (forall x a, Q a -> gives P (body x a) Q) -> gives P (forM l acc body) Q.
Proof.
  intros Ha Hb. revert acc Ha. induction l as [|x l IH]; intros acc Ha; [by apply gives_ret|]. cbn [forM].
  eapply gives_bind; [by apply Hb|]. intros a Hqa. by apply IH.
Qed.
End gives.

(** ** Decoding *)
Definition in_width (n : Z) (z : Z) : Prop := 0 <= z < 2 ^ n.
Abbreviation any := (fun _ : byteReader => True).

Lemma gives_u n : gives any (u n) (in_width (8 * Z.of_nat n)).
Proof.
  intros r _. split; [done|]. unfold u. rewrite get_bind. unfold getUint, slice. destruct (_ && _); [|done]. cbn.
  intros v [= <-]. replace (br_off r + Z.of_nat n - br_off r) with (Z.of_nat n) by lia. apply (le_get_range n (br_buf r) (br_off r)).
Qed.
Lemma gives_rcopy n : gives any (rcopy n) (fun _ => True).
Proof. by intros r _. Qed.
Lemma gives_skip n : gives any (skip n) (fun _ => True).
Proof. by intros r _. Qed.

(** Take the next reads of a decoder. *)
Ltac typed_reads :=
  repeat match goal with
  | |- gives any (mbind _ (u ?n)) _ => eapply gives_bind; [apply (gives_u n)|]; intros ? ?
  | |- gives any (mbind _ (rcopy ?n)) _ => eapply gives_bind; [apply (gives_rcopy n)|]; intros ? _
  | |- gives any (mbind _ (skip ?n)) _ => eapply gives_bind; [apply (gives_skip n)|]; intros ? _
  end.

Lemma decode_gives {A} (d : Rd A) buf v (Q : A -> Prop) : gives any d Q -> decode d buf = Ok v -> Q v.
Proof. intros Hd. by apply (Hd (mkByteReader buf 0) I). Qed.

Lemma gives_decodeKey : gives any decodeKey key_wf.
Proof. unfold decodeKey, u64, u8. typed_reads. by apply gives_ret. Qed.
Lemma gives_decodeLeafItem : gives any decodeLeafItem (fun it => key_wf (li_key it)).
Proof. unfold decodeLeafItem. eapply gives_bind; [apply gives_decodeKey|]. intros k Hk. unfold u32. typed_reads. by apply gives_ret. Qed.

Lemma gives_chunk_fields : gives any chunk_fields (fun '(length, flags, _) => in_width 64 length /\ in_width 64 flags).
Proof. unfold chunk_fields, u64, u32, u16. typed_reads. by apply gives_ret. Qed.
Lemma gives_stripe_offset : gives any stripe_offset (in_width 64).
Proof. unfold stripe_offset, u64. typed_reads. apply gives_u. Qed.
Lemma gives_root_fields : gives any root_fields (fun '(addr, lvl, dirID) => in_width 64 addr /\ in_width 8 lvl /\ in_width 64 dirID).
Proof. unfold root_fields, u64, u8. typed_reads. by apply gives_ret. Qed.

Record super_typed (s : SuperBlock) : Prop := {
  st_magic : Magic s = btrfsMagic;
  st_u64 : Forall (in_width 64) [Bytenr s; Flags s; Generation s; Root s; ChunkRoot s; LogRoot s; LogRootTransid s;
    TotalBytes s; BytesUsed s; RootDirObjectid s; NumDevices s; ChunkRootGeneration s; CompatFlags s; CompatRoFlags s;
    IncompatFlags s];
  st_u32 : Forall (in_width 32) [SectorSize s; NodeSize s; LeafSize s; StripeSize s; SysChunkArraySize s];
  st_u16 : in_width 16 (CsumType s);
  st_u8 : Forall (in_width 8) [RootLevel s; ChunkRootLevel s; LogRootLevel s]
}.

Lemma gives_decodeSuperBlock buf : gives any (decodeSuperBlock buf) super_typed.
Proof.
  unfold decodeSuperBlock, u64, u32, u16, u8. typed_reads. destruct (Z.eqb_spec a3 btrfsMagic); cbn [negb]; [|apply gives_fail].
  typed_reads. eapply gives_bind; [by apply (gives_lift _ _ (fun _ => True))|]. intros data _. apply gives_ret.
  split; cbn; rewrite ?Forall_cons, ?Forall_nil; split_and?; assumption || exact I.
Qed.

(** ** Chunks and walks *)
Definition chunk_typed (c : chunkMapping) : Prop :=
  Forall (in_width 64) [c_logical c; c_length c; c_physical c; c_flags c].
Definition context_typed (nodeSz : Z) (t : treeContext) : Prop := nodeSize t = nodeSz /\ Forall chunk_typed (chunks t).

Lemma addChunk_typed n l len p f t :
  context_typed n t -> in_width 64 l -> in_width 64 len -> in_width 64 p -> in_width 64 f ->
  context_typed n (addChunk l len p f t).
Proof.
  intros [Hn Ht] ? ? ? ?. split; [done|]. apply Forall_app. split; [done|].
  unfold chunk_typed. cbn. rewrite !Forall_cons, !Forall_nil. by split_and!.
Qed.

Section walk.
Context {D : Type} `{ReadWriterAt D}.

Lemma walk_gives {B} (cb : leafItem -> list byte -> M (treeContext * B) unit) (P : treeContext * B -> Prop) depth (d : D) addr :
  (forall item data, key_wf (li_key item) -> gives P (cb item data) (fun _ => True)) ->
  gives P (walkTreeWithNodeCB cb depth d addr) (fun _ => True).
Proof.
  intros Hcb. revert addr. induction depth as [|depth IH]; intros addr; [by apply gives_lift|]. cbn [walkTreeWithNodeCB].
  eapply gives_bind; [apply gives_get|]. intros s _. do 2 (eapply gives_bind; [by apply (gives_lift _ _ (fun _ => True))|]; intros ? _).
  destruct (decodeNodeHeader _) as [h r]. eapply gives_bind; [by apply (gives_lift _ _ (fun _ => True))|]. intros hd _. destruct (_ =? 0).
  - eapply gives_bind; [apply (gives_forM _ _ _ _ (fun _ => True)); [done|]|intros; by apply gives_ret]. intros i rd _. unfold walk_item.
    pose proof (gives_decodeLeafItem rd I) as [_ Hk]. destruct (decodeLeafItem rd) as [it rd']. cbn [fst] in Hk.
    eapply gives_bind; [exact (gives_lift _ _ _ Hk)|]. intros item Hitem. cbn zeta. destruct (_ <? _); [apply gives_fail|].
    eapply gives_bind; [by apply (gives_lift _ _ (fun _ => True))|]. intros data _.
    eapply gives_bind; [by apply Hcb|]. intros; by apply gives_ret.
  - eapply gives_bind; [apply (gives_forM _ _ _ _ (fun _ => True)); [done|]|intros; by apply gives_ret]. intros i rd _.
    destruct (decodeInternalPtr rd) as [p rd']. eapply gives_bind; [by apply (gives_lift _ _ (fun _ => True))|]. intros ptr _.
    eapply gives_bind; [apply IH|]. intros; by apply gives_ret.
Qed.

Lemma parseChunkItem_typed n item data :
  key_wf (li_key item) -> gives (fun x => context_typed n x.1) (parseChunkItem item data) (fun _ => True).
Proof.
  intros (_ & _ & Hoff). unfold parseChunkItem. destruct (_ <? 48); [by apply gives_ret|].
  pose proof (gives_chunk_fields (mkByteReader data 0) I) as [_ Hf]. destruct (chunk_fields _) as [f r]. cbn [fst] in Hf.
  eapply gives_bind; [exact (gives_lift _ _ _ Hf)|]. intros [[len flags] ns] [Hlen Hflags]. destruct (_ || _); [by apply gives_ret|].
  eapply (gives_bind _ _ _ (in_width 64)).
  { apply gives_lift. apply (gives_bind any (skip _) (fun _ => stripe_offset) (fun _ => True) _ (gives_skip _) (fun _ _ => gives_stripe_offset) r I). }
  intros off Hp. apply gives_modify. intros x Hx. by apply addChunk_typed.
Qed.

Lemma parseSysChunks_typed n rounds data pos t t' :
  context_typed n t -> parseSysChunks_loop rounds data pos t = Ok t' -> context_typed n t'.
Proof.
  revert pos t. induction rounds as [|rounds IH]; intros pos t Ht; cbn [parseSysChunks_loop]; destruct (_ <? _); [by intros [= <-]|done|by intros [= <-]|].
  destruct (slice data pos _) as [kbuf|?| |]; [|done..]. cbn [mbind res_bind].
  destruct (decode decodeKey kbuf) as [k|?| |] eqn:Ek; [|done..]. cbn [mbind res_bind].
  apply (decode_gives _ _ _ _ gives_decodeKey) in Ek as (_ & _ & Hoff). destruct (_ || _); [by intros [= <-]|].
  destruct (slice data (pos + 17) _) as [cbuf|?| |]; [|done..]. cbn [mbind res_bind].
  destruct (decode chunk_fields cbuf) as [[[len flags] ns]|?| |] eqn:Ec; [|done..]. cbn [mbind res_bind].
  apply (decode_gives _ _ _ _ gives_chunk_fields) in Ec as [Hlen Hflags]. destruct (_ || _); [by intros [= <-]|].
  destruct (slice data (pos + 17 + 48 + ns * 32 - 32) _) as [sbuf|?| |]; [|done..]. cbn [mbind res_bind].
  destruct (decode stripe_offset sbuf) as [p|?| |] eqn:Es; [|done..]. cbn [mbind res_bind].
  apply (decode_gives _ _ _ _ gives_stripe_offset) in Es. apply IH. by apply addChunk_typed.
Qed.
End walk.

(** ** The file system *)
Section mount.
Context {D : Type} `{ReadWriterAt D} `{Env}.
Implicit Types b : FileSystem D.

(** The fields have the ranges of their widths; [d] is the device. *)
Record typed (d : D) b : Prop := {
  ty_dev : dev b = d;
  ty_sb : forall s, sb b = Some s -> super_typed s;
  ty_tc : forall t, tc b = Some t -> exists s, sb b = Some s /\ context_typed (NodeSize s) t;
  ty_roots : Forall (in_width 64) [fsRoot b; extentRoot b; rootInode b];
  ty_levels : Forall (in_width 8) [fsRootLvl b; extentRootLvl b]
}.

Definition root_typed (r : Z * Z * Z) : Prop := let '(addr, lvl, dirID) := r in in_width 64 addr /\ in_width 8 lvl /\ in_width 64 dirID.

(** A state that is typed and has its superblock. *)
Definition with_super (d : D) (s : SuperBlock) b : Prop := typed d b /\ sb b = Some s.

Lemma gives_b_walk {B} (P : FileSystem D -> Prop) (Q : B -> Prop) addr (acc : B) cb :
  Q acc -> (forall item data, gives Q (cb item data) (fun _ => True)) -> gives P (b_walk addr acc cb) (fun x => Q x.1).
Proof.
  intros Ha Hcb. unfold b_walk. eapply gives_bind; [apply (gives_any _ _ (fun _ => True))|].
  { intros b Hb. split; [|done]. unfold get_tc. by destruct (tc b). }
  intros t _. eapply gives_bind; [apply gives_get|]. intros b _. unfold walkTree.
  destruct (walk_gives (fun item data => captured (cb item data)) (fun x => Q x.2) fuel (dev b) addr) with (t, acc) as [Hq _]; [|exact Ha|].
  - intros item data _ [t' x] Hx. cbn in Hx. destruct (Hcb item data x Hx) as [Hq _]. unfold captured.
    destruct (cb item data x) as [r x']. by split.
  - destruct (walkTreeWithNodeCB _ _ _ _ _) as [[[]|e| |] [t' x]]; cbn in Hq; [by apply gives_ret..|by apply gives_lift|by apply gives_lift].
Qed.

Lemma gives_find_root (P : FileSystem D -> Prop) objid : gives P (find_root objid) (fun r => root_typed r.1).
Proof.
  unfold find_root. eapply (gives_bind _ _ _ (fun _ => True)).
  { intros b Hb. split; [|done]. unfold get_sb. by destruct (sb b). }
  intros s _. apply gives_b_walk; [by repeat split|]. intros item data. destruct (_ && _); [|by apply gives_ret].
  destruct (_ <? 240); [by apply gives_ret|]. eapply (gives_bind _ _ _ root_typed).
  - apply gives_lift. intros v Hv. by apply (decode_gives _ _ _ _ gives_root_fields) in Hv.
  - intros f Hf. eapply gives_bind; [apply gives_modify; by intros|]. intros; apply gives_fail.
Qed.

Lemma root_or_error_typed msg r v : root_typed r.1 -> root_or_error msg r = Ok v -> root_typed v /\ v.1.1 <> 0.
Proof.
  destruct r as [[[addr lvl] dirID] err]. cbn. intros Hr. destruct (Z.eqb_spec addr 0); [done|].
  destruct (real_error err); [done|]. by intros [= <-].
Qed.

Lemma gives_findFSTreeRoot (P : FileSystem D -> Prop) : gives P findFSTreeRoot (fun r => root_typed r /\ r.1.1 <> 0).
Proof.
  unfold findFSTreeRoot. eapply gives_bind; [apply gives_find_root|]. intros r Hr. apply gives_lift. intros v.
  by apply root_or_error_typed.
Qed.
Lemma gives_findExtentTreeRoot (P : FileSystem D -> Prop) : gives P findExtentTreeRoot (fun r => root_typed r /\ r.1.1 <> 0).
Proof.
  unfold findExtentTreeRoot. eapply gives_bind; [apply gives_find_root|]. intros r Hr. apply gives_lift. intros v.
  by apply root_or_error_typed.
Qed.

Lemma gives_catch {S A} (P : S -> Prop) (m : M S A) (Q : A -> Prop) :
  gives P m Q -> gives P (catch m) (fun r => match r with inl a => Q a | inr _ => True end).
Proof.
  intros Hm s Hs. destruct (Hm s Hs) as [H1 H2]. unfold catch. destruct (m s) as [[a|e| |] s']; cbn in *; split; try done.
  - intros v [= <-]. by apply H2.
  - by intros v [= <-].
Qed.

Lemma gives_load_chunks (P : FileSystem D -> Prop) s : gives P (load_chunks s) (context_typed (NodeSize s)).
Proof.
  unfold load_chunks. eapply gives_bind; [apply gives_get|]. intros b _. eapply (gives_bind _ _ _ (context_typed (NodeSize s))).
  { apply gives_lift. intros t. unfold parseSysChunks. apply parseSysChunks_typed. by split; [|constructor]. }
  intros t Ht. destruct (0 <? _); [|by apply gives_ret]. unfold resolveChunkTree, walkTree.
  destruct (walk_gives (fun item data => if typ (li_key item) =? BTRFS_CHUNK_ITEM_KEY then parseChunkItem item data else mret tt)
    (fun x => context_typed (NodeSize s) x.1) fuel (dev b) (ChunkRoot s)) with (t, tt) as [Hq _]; [|exact Ht|].
  - intros item data Hk. destruct (_ =? _); [by apply parseChunkItem_typed|by apply gives_ret].
  - destruct (walkTreeWithNodeCB _ _ _ _ _) as [r [t' []]]. cbn in Hq.
    eapply gives_bind; [by apply (gives_lift _ _ (fun _ => True))|]. intros; by apply gives_ret.
Qed.


(** Run a computation that keeps [P]: its value and the state behind it. *)
Lemma run_gives {S A} {P : S -> Prop} {m : M S A} {Q : A -> Prop} (x : S) :
  gives P m Q -> P x -> (exists a x', m x = (Ok a, x') /\ P x' /\ Q a) \/
    (exists r x', m x = (r, x') /\ P x' /\ (forall a, r <> Ok a)).
Proof.
  intros Hm Hx. destruct (Hm x Hx) as [H1 H2]. destruct (m x) as [[a|e| |] x']; cbn in *; [left; eauto 6|right..]; by eexists _, _.
Qed.

Lemma bind_not_ok {S A B} (m : M S A) (k : A -> M S B) x r x' :
  m x = (r, x') -> (forall a, r <> Ok a) -> exists r', mbind k m x = (r', x') /\ forall a, r' <> Ok a.
Proof. intros E Hr. unfold mbind, M_bind. rewrite E. destruct r; [by destruct (Hr a)|by eexists..]. Qed.

Lemma ReadSuperBlock_typed (d : D) s : ReadSuperBlock d = Ok s -> super_typed s.
Proof.
  unfold ReadSuperBlock. destruct (wrap_res _ _) as [buf|?| |]; [|done..]. cbn [mbind res_bind].
  apply decode_gives, gives_decodeSuperBlock.
Qed.

(** C27: Mounting reads only, and leaves every field of the file system in
    the range of its width, whatever the device holds and however it ends;
    if it succeeds there are a superblock with the right magic number, a
    chunk map with its block size, and a root of the file-system tree. *)
Theorem mount_typed (d : D) :
  let '(r, b) := mount (New d) in
  typed d b /\
  (r = Ok tt -> exists s t, sb b = Some s /\ tc b = Some t /\ nodeSize t = NodeSize s /\ fsRoot b <> 0).
Proof.
  assert (T0 : typed d (New d)).
  { split; [done|done|done|..]; cbn; rewrite ?Forall_cons, ?Forall_nil; by repeat split. }
  unfold mount. rewrite get_bind. change (dev (New d)) with d. destruct (ReadSuperBlock d) as [s|?| |] eqn:Es; [|by split..].
  apply ReadSuperBlock_typed in Es. rewrite lift_ok_bind, modify_bind. set (b1 := set_sb s (New d)).
  assert (T1 : typed d b1) by (destruct T0; split; cbn in *; try done; by intros ? [= <-]).
  destruct (run_gives b1 (gives_load_chunks (fun b => b = b1) s) eq_refl) as [(t & b' & E & -> & Ht)|(r & b' & E & -> & Hr)].
  2: { destruct (bind_not_ok _ (fun t => modify (set_tc t) ;; let! (addr, lvl, dirID) := findFSTreeRoot in
         modify (set_fsRoot addr lvl) ;; modify (set_rootInode dirID) ;; r <- catch findExtentTreeRoot ;;
         match r with inl (addr, lvl, _) => modify (set_extentRoot addr lvl) | inr _ => mret tt end) _ _ _ E Hr) as (r' & -> & Hr').
       split; [done|]. intros ->. by destruct (Hr' tt). }
  rewrite (bind_ok _ _ _ _ _ E), modify_bind. set (b2 := set_tc t b1).
  assert (T2 : typed d b2) by (destruct T1; split; cbn in *; try done; intros ? [= <-]; by exists s).
  destruct (run_gives b2 (gives_findFSTreeRoot (fun b => b = b2)) eq_refl) as [([[addr lvl] dirID] & b' & E2 & -> & (Ha & Hl & Hd) & Hnz)|(r & b' & E2 & -> & Hr)].
  2: { unfold mbind, M_bind. rewrite E2. destruct r as [a|?| |]; [by destruct (Hr a)|by split..]. }
  rewrite (bind_ok _ _ _ _ _ E2), !modify_bind. set (b3 := set_rootInode dirID (set_fsRoot addr lvl b2)). cbn in Hnz.
  assert (T3 : typed d b3).
  { destruct T2 as [? ? ? Hr Hv]. rewrite !Forall_cons in Hr, Hv. split; cbn in *; try done; rewrite !Forall_cons; by destruct_and?; split_and!. }
  destruct (run_gives b3 (gives_catch _ _ _ (gives_findExtentTreeRoot (fun b => b = b3))) eq_refl)
    as [([[[ea el] ed]|e] & b' & E3 & -> & Hx)|(r & b' & E3 & -> & Hr)].
  - destruct Hx as [(Hea & Hel & _) _]. rewrite (bind_ok _ _ _ _ _ E3). cbn [modify]. split; [|intros _; exists s, t; by destruct Ht].
    destruct T3 as [? ? ? Hr Hv]. rewrite !Forall_cons in Hr, Hv. split; cbn in *; try done; rewrite !Forall_cons; by destruct_and?; split_and!.
  - rewrite (bind_ok _ _ _ _ _ E3). split; [done|]. intros _. exists s, t. by destruct Ht.
  - unfold mbind, M_bind. rewrite E3. destruct r as [a|?| |]; [by destruct (Hr a)|by split..].
Qed.
End mount.
