(* ===== verification/BtrfsDevice.v ===== *)
(** What the btrfs driver does to its device: the operations that look
    something up leave it alone, and all others change it by [WriteAt] only,
    so an assertion about the device that a write keeps survives every
    operation, whatever is on the device and however the operation ends. *)
From S2P Require Export BtrfsFs BtrfsFsck.

(** ** Looking things up *)

(** An assertion about the device field alone. *)
Class DeviceOnly {D : Type} (P : FileSystem D -> Prop) : Prop :=
  dev_only b b' : dev b' = dev b -> P b -> P b'.
#[export] Hint Extern 0 (DeviceOnly _) => typeclasses eauto : pass.

Section lookups.
Context {D : Type} `{ReadWriterAt D} {env : Env} `{Codecs} (P : FileSystem D -> Prop) `{HP : !DeviceOnly P}.

Lemma bd_modify f : (forall b, dev (f b) = dev b) -> preserves P (modify f).
Proof. intros Hf. apply preserves_modify. intros b Hb. by apply (dev_only b). Qed.
Lemma bd_get_sb : preserves P get_sb.
Proof. by intros b Hb. Qed.
Lemma bd_get_tc : preserves P get_tc.
Proof. by intros b Hb. Qed.
Lemma bd_ReadAt off n : preserves P (b_ReadAt off n).
Proof. by intros b Hb. Qed.
Lemma bd_ReadInto off dst : preserves P (b_ReadInto off dst).
Proof. intros b Hb. unfold b_ReadInto. by destruct (ReadAt _ _ _). Qed.
Lemma bd_read_any off n : preserves P (b_read_any off n).
Proof. by intros b Hb. Qed.
Lemma bd_set_sb s : preserves P (modify (set_sb s)).
Proof. by apply bd_modify. Qed.
Lemma bd_set_tc t : preserves P (modify (set_tc t)).
Proof. by apply bd_modify. Qed.
Lemma bd_set_fsRoot root lvl : preserves P (modify (set_fsRoot root lvl)).
Proof. by apply bd_modify. Qed.
Lemma bd_set_extentRoot root lvl : preserves P (modify (set_extentRoot root lvl)).
Proof. by apply bd_modify. Qed.
Lemma bd_set_rootInode n : preserves P (modify (set_rootInode n)).
Proof. by apply bd_modify. Qed.
Lemma bd_cache f : preserves P (modify (fun b => set_pathCache (f b) b)).
Proof. by apply bd_modify. Qed.
#[local] Hint Resolve bd_get_sb bd_get_tc bd_ReadAt bd_ReadInto bd_read_any bd_set_sb bd_set_tc bd_set_fsRoot
  bd_set_extentRoot bd_set_rootInode bd_cache : pass.

Lemma bd_resolve logical : preserves P (b_resolve logical).
Proof. unfold b_resolve. pass_tac. Qed.
Lemma bd_readNode addr n : preserves P (b_readNode addr n).
Proof. apply bd_ReadAt. Qed.
Lemma bd_walk {B} addr (acc : B) cb : preserves P (b_walk addr acc cb).
Proof. unfold b_walk. pass_tac. Qed.
#[local] Hint Resolve bd_resolve bd_readNode bd_walk : pass.
Lemma bd_walkFSTree {B} (acc : B) cb : preserves P (walkFSTree acc cb).
Proof. unfold walkFSTree. pass_tac. Qed.
Lemma bd_walkExtentTree {B} (acc : B) cb : preserves P (walkExtentTree acc cb).
Proof. unfold walkExtentTree. pass_tac. Qed.
#[local] Hint Resolve bd_walkFSTree bd_walkExtentTree : pass.

Lemma bd_find_entry n name : preserves P (find_entry n name).
Proof. unfold find_entry. pass_tac. Qed.
#[local] Hint Resolve bd_find_entry : pass.
Lemma bd_lookupDirEntry n name : preserves P (lookupDirEntry n name).
Proof. unfold lookupDirEntry. pass_tac. Qed.
Lemma bd_lookupDirEntryKey n name : preserves P (lookupDirEntryKey n name).
Proof. apply bd_find_entry. Qed.
#[local] Hint Resolve bd_lookupDirEntry bd_lookupDirEntryKey : pass.
Lemma bd_resolvePath path : preserves P (resolvePath path).
Proof. unfold resolvePath. pass_tac. Qed.
Lemma bd_forget path : preserves P (forget path).
Proof. apply bd_cache. Qed.
Lemma bd_readInodeInfo n : preserves P (readInodeInfo n).
Proof. unfold readInodeInfo. pass_tac. Qed.
Lemma bd_first_item p : preserves P (first_item p).
Proof. unfold first_item. pass_tac. Qed.
Lemma bd_last_item p : preserves P (last_item p).
Proof. unfold last_item. pass_tac. Qed.
Lemma bd_keys_of p : preserves P (keys_of p).
Proof. unfold keys_of. pass_tac. Qed.
Lemma bd_readDirEntries n : preserves P (readDirEntries n).
Proof. unfold readDirEntries. pass_tac. Qed.
Lemma bd_readSymlink n : preserves P (readSymlink n).
Proof. unfold readSymlink. pass_tac. Qed.
Lemma bd_read_extent ofst ext acc : preserves P (read_extent ofst ext acc).
Proof. unfold read_extent. pass_tac. Qed.
#[local] Hint Resolve bd_resolvePath bd_forget bd_readInodeInfo bd_first_item bd_last_item bd_keys_of
  bd_readDirEntries bd_readSymlink bd_read_extent : pass.
Lemma bd_readFile n buf ofst : preserves P (readFile n buf ofst).
Proof. unfold readFile, readFromExtents. pass_tac. Qed.
#[local] Hint Resolve bd_readFile : pass.

Lemma bd_inode_data n : preserves P (inode_data n).
Proof. unfold inode_data. pass_tac. Qed.
Lemma bd_stopped_item msg n : preserves P (stopped_item msg n).
Proof. unfold stopped_item. pass_tac. Qed.
Lemma bd_next_inode : preserves P next_inode.
Proof. unfold next_inode. pass_tac. Qed.
Lemma bd_nextDirIndex n : preserves P (nextDirIndex n).
Proof. unfold nextDirIndex. pass_tac. Qed.
Lemma bd_refuse_existing n name : preserves P (refuse_existing n name).
Proof. unfold refuse_existing. pass_tac. Qed.
Lemma bd_regular_content data : preserves P (regular_content data).
Proof. unfold regular_content. pass_tac. Qed.
#[local] Hint Resolve bd_regular_content : pass.
Lemma bd_current_content data : preserves P (current_content data).
Proof. unfold current_content. pass_tac. Qed.
Lemma bd_root_level addr : preserves P (root_level addr).
Proof. unfold root_level. pass_tac. Qed.
#[local] Hint Resolve bd_root_level : pass.
Lemma bd_findLeaf root lvl k : preserves P (findLeaf root lvl k).
Proof.
  unfold findLeaf. generalize fuel as depth. intros depth. revert root lvl.
  induction depth as [|depth IH]; intros root lvl; cbn [findLeaf_rec]; pass_tac; apply IH.
Qed.
#[local] Hint Resolve bd_findLeaf : pass.
Lemma bd_read_leaf addr k : preserves P (read_leaf addr k).
Proof. unfold read_leaf, resolveLeaf. pass_tac. Qed.
Lemma bd_findLeafWithPath root lvl k : preserves P (findLeafWithPath root lvl k).
Proof.
  unfold findLeafWithPath. generalize (@nil pathElement) as path. generalize (Z.to_nat lvl) as n. intros n path. revert root path.
  induction n as [|n IH]; intros root path; cbn [findLeafWithPath_loop]; pass_tac; apply IH.
Qed.
Lemma bd_allocateSpace size bgType : preserves P (allocateSpace size bgType).
Proof. unfold allocateSpace, occupied_ranges. pass_tac. Qed.
Lemma bd_getNodeFirstKey logical bs : preserves P (getNodeFirstKey logical bs).
Proof. unfold getNodeFirstKey. pass_tac. Qed.

(** Mounting and listing. *)
Lemma bd_load_chunks s : preserves P (load_chunks s).
Proof. unfold load_chunks. pass_tac. Qed.
Lemma bd_find_root n : preserves P (find_root n).
Proof. unfold find_root. pass_tac. Qed.
#[local] Hint Resolve bd_load_chunks bd_find_root : pass.
Lemma bd_ReadSuperBlock : preserves P BtrfsFs.ReadSuperBlock.
Proof. unfold BtrfsFs.ReadSuperBlock, mount, findFSTreeRoot, findExtentTreeRoot. pass_tac. Qed.
Lemma bd_Readdir path : preserves P (Readdir path).
Proof. unfold Readdir. pass_tac. Qed.
Lemma bd_Statfs : preserves P Statfs.
Proof. unfold Statfs. pass_tac. Qed.
End lookups.

#[export] Hint Resolve bd_get_sb bd_get_tc bd_ReadAt bd_set_sb bd_set_fsRoot bd_set_extentRoot bd_resolve bd_readNode
  bd_walkFSTree bd_lookupDirEntry bd_lookupDirEntryKey bd_resolvePath bd_forget bd_readInodeInfo bd_first_item bd_last_item
  bd_keys_of bd_readDirEntries bd_readSymlink bd_readFile bd_inode_data bd_stopped_item bd_next_inode bd_nextDirIndex
  bd_refuse_existing bd_regular_content bd_current_content bd_root_level bd_read_leaf bd_findLeafWithPath
  bd_allocateSpace bd_getNodeFirstKey bd_Statfs : pass.

(** The check of a volume is a lookup too. *)
Section check.
Context {D : Type} `{ReadWriterAt D} {env : Env} (P : FileSystem D -> Prop) `{HP : !DeviceOnly P}.

Definition checked_over (s : FileSystem D * BtrfsFsckResult) : Prop := P s.1.

Lemma bd_zoom {A} (m : BT D A) : preserves P m -> preserves checked_over (zoom m).
Proof. intros Hm [b r] Hb. specialize (Hm b Hb). unfold zoom. by destruct (m b). Qed.
Lemma bd_update f : preserves checked_over (update f).
Proof. by intros [b r] Hb. Qed.

Ltac check_tac :=
  repeat
    match goal with
    | |- preserves _ (zoom _) => apply bd_zoom
    | |- preserves _ (update _) => apply bd_update
    | |- preserves _ _ => progress pass_tac
    end.

Lemma bd_check_item acc : preserves checked_over (check_item acc).
Proof. unfold check_item. check_tac. Qed.
#[local] Hint Resolve bd_check_item : pass.

Lemma bd_verify addr : preserves checked_over (verifyTreeChecksums addr).
Proof.
  unfold verifyTreeChecksums. generalize fuel as depth. intros depth. revert addr.
  induction depth as [|depth IH]; intros addr; cbn [verify_rec]; check_tac; apply IH.
Qed.
#[local] Hint Resolve bd_verify : pass.

Lemma bd_Fsck : preserves P Fsck.
Proof.
  intros b Hb. assert (Hp : preserves checked_over fsck_pass) by (unfold fsck_pass; check_tac).
  specialize (Hp (b, mkFsckResult 0 0 [] true) Hb). unfold Fsck.
  by destruct (fsck_pass _) as [r [b' res]].
Qed.
End check.

(** ** Changing things *)

(** An assertion about the device that a write keeps. *)
Class WriteInv {D : Type} `{ReadWriterAt D} (P : FileSystem D -> Prop) : Prop := {
  wi_dev :: DeviceOnly P;
  wi_write off p : preserves P (b_WriteAt off p)
}.

Section changes.
Context {D : Type} `{ReadWriterAt D} {env : Env} `{Codecs} (P : FileSystem D -> Prop) `{HP : !WriteInv P}.

Lemma bd_WriteAt off p : preserves P (b_WriteAt off p).
Proof. apply wi_write. Qed.
#[local] Hint Resolve bd_WriteAt : pass.

Lemma bd_write_leaf leaf phys buf items : preserves P (write_leaf leaf phys buf items).
Proof. unfold write_leaf. pass_tac. Qed.
#[local] Hint Resolve bd_write_leaf : pass.
Lemma bd_deleteFromLeaf addr k : preserves P (deleteFromLeaf addr k).
Proof. unfold deleteFromLeaf. pass_tac. Qed.
Lemma bd_updateInLeaf addr k data : preserves P (updateInLeaf addr k data).
Proof. unfold updateInLeaf. pass_tac. Qed.
Lemma bd_writeItems leaf items bs : preserves P (writeItemsToLeaf leaf items bs).
Proof. unfold writeItemsToLeaf. pass_tac. Qed.
Lemma bd_writePointers logical ptrs level bs : preserves P (writePointersToNode logical ptrs level bs).
Proof. unfold writePointersToNode. pass_tac. Qed.
#[local] Hint Resolve bd_deleteFromLeaf bd_updateInLeaf bd_writeItems bd_writePointers : pass.

Section insertion.
Variable insert : Z -> key -> list byte -> BT D unit.
Hypothesis insert_keeps : forall addr k data, preserves P (insert addr k data).
#[local] Hint Resolve insert_keeps : pass.

Lemma bd_registerExtent addr n : preserves P (registerExtent insert addr n).
Proof. unfold registerExtent. pass_tac. Qed.
Lemma bd_move_root addr new : preserves P (move_root addr new).
Proof. unfold move_root. pass_tac. Qed.
#[local] Hint Resolve bd_registerExtent bd_move_root : pass.
Lemma bd_new_root addr ptr bs : preserves P (new_root insert addr ptr bs).
Proof. unfold new_root. pass_tac. Qed.
#[local] Hint Resolve bd_new_root : pass.
Lemma bd_insertPtr rpath addr ptr bs : preserves P (insertPtrIntoParent insert rpath addr ptr bs).
Proof.
  revert ptr. induction rpath as [|parent rpath IH]; intros ptr; cbn [insertPtrIntoParent]; pass_tac; apply IH.
Qed.
#[local] Hint Resolve bd_insertPtr : pass.
Lemma bd_split leaf rpath addr all bs : preserves P (splitLeafWithPath insert leaf rpath addr all bs).
Proof. unfold splitLeafWithPath. pass_tac. Qed.
End insertion.

Lemma bd_insertIntoLeaf addr k data : preserves P (insertIntoLeaf addr k data).
Proof.
  unfold insertIntoLeaf. generalize fuel as depth. intros depth. revert addr k data.
  induction depth as [|depth IH]; intros addr k data; cbn [insertIntoLeaf_rec]; pass_tac.
  by apply bd_split.
Qed.
#[local] Hint Resolve bd_insertIntoLeaf : pass.

Lemma bd_update_item k data : preserves P (update_item k data).
Proof. unfold update_item, fs_root. pass_tac. Qed.
Lemma bd_insert_item k data : preserves P (insert_item_at k data).
Proof. unfold insert_item_at, fs_root. pass_tac. Qed.
Lemma bd_delete_item k : preserves P (delete_item k).
Proof. unfold delete_item, fs_root. pass_tac. Qed.
#[local] Hint Resolve bd_update_item bd_insert_item bd_delete_item : pass.

Lemma bd_insertInodeItem n mode : preserves P (insertInodeItem n mode).
Proof. unfold insertInodeItem. pass_tac. Qed.
Lemma bd_enter_name n child name t : preserves P (enter_name n child name t).
Proof. unfold enter_name. pass_tac. Qed.
Lemma bd_delete_extents n : preserves P (delete_extents n).
Proof. unfold delete_extents. pass_tac. Qed.
#[local] Hint Resolve bd_insertInodeItem bd_enter_name bd_delete_extents : pass.
Lemma bd_createFile path mode t : preserves P (createFile path mode t).
Proof. unfold createFile. pass_tac. Qed.
Lemma bd_removeEntry path b : preserves P (removeEntry path b).
Proof. unfold removeEntry. pass_tac. Qed.
Lemma bd_replace_target n name : preserves P (replace_target n name).
Proof. unfold replace_target. pass_tac. Qed.
Lemma bd_touch_dir n : preserves P (touch_dir n).
Proof. unfold touch_dir. pass_tac. Qed.
#[local] Hint Resolve bd_createFile bd_removeEntry bd_replace_target bd_touch_dir : pass.

Lemma bd_register addr n : preserves P (registerExtent insertIntoLeaf addr n).
Proof. apply bd_registerExtent, bd_insertIntoLeaf. Qed.
#[local] Hint Resolve bd_register : pass.
Lemma bd_write_regular wrapped payload size aligned : preserves P (write_regular wrapped payload size aligned).
Proof. unfold write_regular. pass_tac. Qed.
#[local] Hint Resolve bd_write_regular : pass.
Lemma bd_write_inline n k ext data : preserves P (write_inline n k ext data).
Proof. unfold write_inline. pass_tac. Qed.
Lemma bd_write_extent n data size : preserves P (write_extent n data size).
Proof. unfold write_extent. pass_tac. Qed.
Lemma bd_grow_inode n size : preserves P (grow_inode n size).
Proof. unfold grow_inode. pass_tac. Qed.
Lemma bd_truncate_regular n k old size : preserves P (truncate_regular n k old size).
Proof. unfold truncate_regular. pass_tac. Qed.
#[local] Hint Resolve bd_write_inline bd_write_extent bd_grow_inode bd_truncate_regular : pass.
Lemma bd_truncate_extent n k ext size : preserves P (truncate_extent n k ext size).
Proof. unfold truncate_extent. pass_tac. Qed.
#[local] Hint Resolve bd_truncate_extent : pass.

Lemma bd_Rename old new : preserves P (Rename old new).
Proof. unfold Rename. pass_tac. Qed.
Lemma bd_Symlink target new : preserves P (Symlink target new).
Proof. unfold Symlink. pass_tac. Qed.
Lemma bd_Link old new : preserves P (Link old new).
Proof. unfold Link. pass_tac. Qed.
Lemma bd_Chmod path mode : preserves P (Chmod path mode).
Proof. unfold Chmod. pass_tac. Qed.
Lemma bd_Chown path uid gid : preserves P (Chown path uid gid).
Proof. unfold Chown. pass_tac. Qed.
Lemma bd_Write path buf ofst : preserves P (Write path buf ofst).
Proof. unfold Write. pass_tac. Qed.
Lemma bd_Truncate path size : preserves P (Truncate path size).
Proof. unfold Truncate. pass_tac. Qed.
End changes.

#[export] Hint Resolve bd_createFile bd_removeEntry bd_Rename bd_Symlink bd_Link bd_Chmod bd_Chown bd_Write bd_Truncate : pass.

(** ** The promise about the device *)
Section btrfs_device.
Context {D : Type} `{ReadWriterAt D} {env : Env} `{Codecs}.

Definition btrfs_over (Q : D -> Prop) (b : FileSystem D) : Prop := Q (dev b).

#[local] Instance btrfs_over_inv Q (HQ : kept_by_writes Q) : WriteInv (btrfs_over Q).
Proof.
  split.
  - intros b b' E. unfold btrfs_over. by rewrite E.
  - intros off p b Hb. unfold b_WriteAt. pose proof (HQ (dev b) (i64 off) p Hb) as Hd.
    by destruct (WriteAt _ _ _) as [d' [n err]].
Qed.

Lemma btrfs_operation Q A (op : BT D A) :
  kept_by_writes Q -> operation A op -> preserves (btrfs_over Q) op.
Proof.
  intros HQ Hop. pose proof (btrfs_over_inv Q HQ) as HP.
  destruct Hop; cbn [op_Destroy op_Getattr op_Readdir op_Readlink op_Open op_Read op_Release op_Create op_Write op_Mkdir
    op_Unlink op_Rmdir op_Rename op_Chmod op_Chown op_Truncate op_Symlink op_Link op_Getxattr op_Setxattr op_Listxattr
    op_Removexattr op_Statfs BtrfsFs.Btrfs_ops];
    unfold BtrfsFs.Destroy, BtrfsFs.Getattr, BtrfsFs.Readdir, BtrfsFs.Readlink, BtrfsFs.Open, BtrfsFs.Read,
      BtrfsFs.Release, BtrfsFs.Create, BtrfsFs.Mkdir, BtrfsFs.Unlink, BtrfsFs.Rmdir, BtrfsFs.Getxattr, BtrfsFs.Setxattr,
      BtrfsFs.Listxattr, BtrfsFs.Removexattr; pass_tac.
Qed.

#[export] Instance Btrfs_over : OverDevice (FileSystem D) D := {
  over := btrfs_over;
  over_operation := btrfs_operation
}.
End btrfs_device.
