(* ===== verification/BtrfsExample.v ===== *)
(** The btrfs driver: a small volume, at which the theorems are applied.

    Blocks of 1024 bytes; one chunk at logical 0x10000, 1024 bytes into the
    device; a file-system tree of a root and two leaves with the root
    directory, inode 256, and in it the file "a", inode 257, of two bytes,
    entered as by this driver, and the empty file "c", inode 258, entered as
    by others with a DIR_ITEM and a DIR_INDEX; an extent tree and a chunk tree of one leaf each. *)
From S2P Require Export BtrfsAlloc BtrfsGrow BtrfsLinks BtrfsTruncate BtrfsVerify.

Module Volume.
#[local] Instance env : Env := mkEnv 1000 8.

(** A codec that stores. *)
#[local] Instance codecs : Codecs := {
  zlib_NewReader _ := None; zlib_ReadAll d := Ok d; zlib_compress d := d; zstd_NewReader _ := None; zstd_Copy d := Ok d
}.

Definition context : treeContext := mkTreeContext 1024 [mkChunkMapping 0x10000 0x2000 0x400 5].
Definition super : SuperBlock :=
  mkSuperBlock (zeros 32) (zeros 16) 0x10000 0 btrfsMagic 7 0 0x11000 0 0 0x2400 0 6 1 512 1024 1024 512 0 0 0 0 0 0 0 0 0 [].

(** The items. *)
Definition inode (mode size : Z) : list byte := put (put (put (zeros 160) 16 (le_split 8 size)) 40 (le_split 4 1)) 52 (le_split 4 mode).
Definition ok_or {A} (d : A) (r : res A) : A := match r with Ok a => a | _ => d end.
Definition name_a : list byte := [Byte.x61].
Definition entry_a : itemEntry := mkItem (mkKey 256 96 2) (ok_or [] (makeDirItem 257 name_a 1)).
Definition name_c : list byte := [Byte.x63].
Definition entry_c : itemEntry := mkItem (mkKey 256 96 3) (ok_or [] (makeDirItem 258 name_c 1)).
Definition hashed_c : itemEntry := mkItem (mkKey 256 84 0x2d7f4f3b) (it_data entry_c).
Definition dir_items : list itemEntry := [mkItem (mkKey 256 1 0) (inode 0x41ED 0); hashed_c; entry_a; entry_c].
Definition bytes_a : list byte := [Byte.x68; Byte.x69].
Definition inode_a : list byte := inode 0x81A4 2.
Definition inode_c : list byte := inode 0x81A4 0.
Definition file_items : list itemEntry :=
  [mkItem (mkKey 257 1 0) inode_a; mkItem (mkKey 257 108 0) (ok_or [] (makeExtentDataInline 0 bytes_a)); mkItem (mkKey 258 1 0) inode_c].
Definition extent_items : list itemEntry := [mkItem (mkKey 0x10000 168 0x1400) (zeros 24)].

Definition leaf (items : list itemEntry) (logical : Z) : list byte := ok_or [] (packLeaf (zeros 1024) items 7 logical 1024).
Definition root_ptrs : list internalKeyPtr := [mkInternalKeyPtr (mkKey 256 1 0) 0x10400 7; mkInternalKeyPtr (mkKey 257 1 0) 0x10800 7].
Definition root : list byte := ok_or [] (packNode None root_ptrs 1 7 0x10000 1024).

Definition image : list byte :=
  zeros 1024 ++ root ++ leaf dir_items 0x10400 ++ leaf file_items 0x10800 ++ leaf extent_items 0x10c00 ++ leaf [] 0x11000 ++ zeros 3072.

Definition volume : FileSystem File :=
  mkFileSystem (mkFile image) (Some super) (Some context) 0x10000 1 0x10c00 0 256 ∅.

Definition contents_tree : tree 1 :=
  [(mkInternalKeyPtr (mkKey 256 1 0) 0x10400 7, dir_items); (mkInternalKeyPtr (mkKey 257 1 0) 0x10800 7, file_items)].

Lemma is_mounted : mounted context super volume.
Proof. split; [done..|]. split; [done|]. unfold size_ok, nodeHeaderSize. cbn. lia. Qed.

Lemma root_at : node_at (dev volume) context 0x10000 = Some root.
Proof. vm_compute. reflexivity. Qed.
Lemma dir_at : node_at (dev volume) context 0x10400 = Some (leaf dir_items 0x10400).
Proof. vm_compute. reflexivity. Qed.
Lemma file_at : node_at (dev volume) context 0x10800 = Some (leaf file_items 0x10800).
Proof. vm_compute. reflexivity. Qed.
Lemma extents_at : node_at (dev volume) context 0x10c00 = Some (leaf extent_items 0x10c00).
Proof. vm_compute. reflexivity. Qed.
Lemma chunks_at : node_at (dev volume) context 0x11000 = Some (leaf [] 0x11000).
Proof. vm_compute. reflexivity. Qed.

Lemma dir_wf : Forall item_wf dir_items.
Proof. repeat constructor; cbn; lia. Qed.
Lemma file_wf : Forall item_wf file_items.
Proof. repeat constructor; cbn; lia. Qed.
Lemma extent_wf : Forall item_wf extent_items.
Proof. repeat constructor; cbn; lia. Qed.

Lemma leaf_ok items logical :
  (needed items <=? 1024) = true -> Forall item_wf items -> leaf_holds (leaf items logical) items /\ csum_ok (leaf items logical).
Proof.
  intros Hn%Z.leb_le Hwf. unfold leaf. destruct (packLeaf_spec (zeros 1024) items 7 logical) as (dst & E & _ & Hh & Hc & _);
    [by apply Z.ltb_lt|exact Hn|exact Hwf|reflexivity|].
  change (zlen (zeros 1024)) with 1024 in E. rewrite E. split; [exact Hh|exact Hc].
Qed.

Lemma root_ok : node_holds root 1 root_ptrs /\ csum_ok root.
Proof.
  unfold root. destruct (packNode_spec None root_ptrs 1 7 0x10000 1024) as (dst & E & _ & Hh & Hc & _);
    [lia|by apply Z.leb_le| |lia|lia|intros buf Hb; discriminate Hb|].
  - repeat constructor; cbn; lia.
  - rewrite E. split; [exact Hh|exact Hc].
Qed.

Lemma tree_held : holds (dev volume) context 1 0x10000 contents_tree.
Proof.
  exists root. split; [exact root_at|]. split; [exact (proj1 root_ok)|]. repeat constructor.
  - exists (leaf dir_items 0x10400). split; [exact dir_at|]. apply leaf_ok; [reflexivity|exact dir_wf].
  - exists (leaf file_items 0x10800). split; [exact file_at|]. apply leaf_ok; [reflexivity|exact file_wf].
Qed.

Lemma blocks_apart : StronglySorted (apart context) (nodes 1 0x10000 contents_tree).
Proof.
  assert (E0 : resolve (chunks context) 0x10000 = Ok 1024) by reflexivity.
  assert (E1 : resolve (chunks context) 0x10400 = Ok 2048) by reflexivity.
  assert (E2 : resolve (chunks context) 0x10800 = Ok 3072) by reflexivity.
  change (nodes 1 0x10000 contents_tree) with [0x10000; 0x10400; 0x10800].
  assert (Hall : forall a b, (resolve (chunks context) a = Ok 1024 /\ (resolve (chunks context) b = Ok 2048 \/ resolve (chunks context) b = Ok 3072)) \/
    (resolve (chunks context) a = Ok 2048 /\ resolve (chunks context) b = Ok 3072) -> apart context a b).
  { intros a b Hab. unfold apart. destruct Hab as [(-> & [-> | ->])|(-> & ->)]; cbn; lia. }
  constructor; [constructor; [constructor; [constructor|]|]|]; repeat apply Forall_cons_2; try apply Forall_nil_2; apply Hall; tauto.
Qed.

Lemma keys_ordered : ordered 1 contents_tree.
Proof.
  assert (Hd : sorted dir_items /\ sorted file_items).
  { split; repeat first [apply SSorted_nil|apply SSorted_cons|apply Forall_nil_2|apply Forall_cons_2];
      unfold item_lt, key_lt; cbn; lia. }
  split; [repeat apply Forall_cons_2; [exact (proj1 Hd)|exact (proj2 Hd)|apply Forall_nil_2]|].
  repeat first [apply SSorted_nil|apply SSorted_cons|apply Forall_nil_2|apply Forall_cons_2]; split;
    repeat first [apply Forall_nil_2|apply Forall_cons_2]; unfold key_lt; cbn; lia.
Qed.

Lemma room : leaves_fit context 500 1 contents_tree.
Proof. repeat constructor; by apply Z.leb_le. Qed.

Lemma is_tree : fs_tree context super volume 1 contents_tree.
Proof.
  split; [exact is_mounted|exact tree_held|exact blocks_apart|reflexivity|cbn; lia| |exact keys_ordered| |].
  - split; [discriminate|]. repeat constructor; discriminate.
  - eapply fit_weaken; [|exact room]. lia.
  - apply Forall_app. split; [exact dir_wf|]. apply Forall_app. split; [exact file_wf|constructor].
Qed.

Lemma extents_held : holds (dev volume) context 0 0x10c00 extent_items.
Proof. exists (leaf extent_items 0x10c00). split; [exact extents_at|]. apply leaf_ok; [reflexivity|exact extent_wf]. Qed.
Lemma chunks_held : holds (dev volume) context 0 0x11000 [].
Proof. exists (leaf [] 0x11000). split; [exact chunks_at|]. apply leaf_ok; [reflexivity|constructor]. Qed.

(** ** The theorems at this volume *)
Definition path_a : list byte := [Byte.x2f; Byte.x61].
Definition path_b : list byte := [Byte.x2f; Byte.x62].
Definition path_c : list byte := [Byte.x2f; Byte.x63].

Lemma createFile_enters_witness :
  let ino := max_inode (flatten 1 contents_tree) + 1 in
  exists b' t' inoData dirData, createFile path_b 0x81A4 1 volume = (Ok tt, b') /\ fs_tree context super b' 1 t' /\
    flatten 1 t' = insert_item (mkItem (mkKey 256 BTRFS_DIR_INDEX_KEY (max_index 256 (flatten 1 contents_tree) + 1)) dirData)
                     (insert_item (mkItem (inode_key ino) inoData) (flatten 1 contents_tree)) /\
    lookupDirEntry 256 [Byte.x62] b' = (Ok ino, b') /\
    (exists info, readInodeInfo ino b' = (Ok info, b') /\ ni_Mode info = 0x81A4 /\ ni_Nlink info = 1 /\ ni_Size info = 0) /\
    forall dirInode' name', ~ (dirInode' = 256 /\ name' = [Byte.x62]) ->
      (lookupDirEntry dirInode' name' b').1 = (lookupDirEntry dirInode' name' volume).1.
Proof.
  apply (createFile_enters volume volume 1 contents_tree path_b [Byte.x2f] [Byte.x62] 256 0x81A4 1 is_tree).
  - eapply fit_weaken; [|exact room]. by apply Z.leb_le.
  - reflexivity.
  - reflexivity.
  - vm_compute. reflexivity.
  - by apply Z.ltb_lt.
  - lia.
  - lia.
  - lia.
  - by apply Z.ltb_lt.
  - by apply Z.ltb_lt.
Defined.

Lemma a_inline : inline_file 257 bytes_a (flatten 1 contents_tree).
Proof.
  change (inline_item 257 bytes_a (mkItem (mkKey 257 108 0) (ok_or [] (makeExtentDataInline 0 bytes_a)))).
  unfold inline_item. split_and!; vm_compute; reflexivity.
Qed.

Lemma Write_Read_inline_witness :
  let buf := [Byte.x6f] in let final := put (put (zeros (3 + zlen buf)) 0 bytes_a) 3 buf in
  exists b' t' nd, Write path_a buf 3 volume = (Ok (zlen buf), b') /\ fs_tree context super b' 1 t' /\
    (forall rbuf rofst, 0 <= rofst -> zlen rbuf < 2 ^ 62 ->
       readFile 257 rbuf rofst b' = (Ok (read_window final rbuf rofst), b')) /\
    sole_inode 257 nd (flatten 1 t') /\ le_get 8 nd 16 = le_get 8 inode_a 16 `max` (3 + zlen buf).
Proof.
  apply (Write_Read_inline volume (set_pathCache (<[path_a := 257]> ∅) volume) 1 contents_tree path_a 257 bytes_a inode_a
    [Byte.x6f] 3 is_tree).
  - eapply fit_weaken; [|exact room]. by apply Z.leb_le.
  - vm_compute. reflexivity.
  - lia.
  - exact a_inline.
  - vm_compute. reflexivity.
  - by apply Z.leb_le.
  - lia.
  - by apply Z.ltb_lt.
  - by apply Z.leb_le.
Defined.

Lemma ranges_used : in_use (NodeSize super) (flatten 0 extent_items) (flatten 1 contents_tree) = [mkExtentRange 0x10000 0x1400].
Proof. vm_compute. reflexivity. Qed.

Lemma allocateSpace_free_witness :
  match allocateSpace 1024 4 volume with
  | (Ok (l, p), b') => b' = volume /\ mkChunkMapping 0x10000 0x2000 0x400 5 ∈ chunks context /\ 0x10000 <= l /\
      l + align_up 1024 (sector_size super) <= 0x10000 + 0x2000 /\ 1024 <= align_up 1024 (sector_size super) /\
      p = w64 (0x400 + (l - 0x10000)) /\
      Forall (disjoint_from l (align_up 1024 (sector_size super))) (in_use 1024 extent_items (flatten 1 contents_tree))
  | (Err e, b') => b' = volume /\ e = Errorf "btrfs: out of disk space in block group %d"
  | _ => False
  end.
Proof.
  apply (allocateSpace_free volume 0 extent_items 1 contents_tree 1024 4 (mkChunkMapping 0x10000 0x2000 0x400 5) is_tree).
  - split; [discriminate|exact extents_held|cbn; lia].
  - reflexivity.
  - by apply Z.ltb_lt.
  - lia.
  - by apply Z.ltb_lt.
  - cbn. lia.
  - by apply Z.ltb_lt.
  - cbn. lia.
  - rewrite ranges_used. apply Forall_singleton. unfold range_ok, range_end. change (align_up 1024 (sector_size super)) with 1024.
    cbn. lia.
Defined.

Lemma allocateSpace_finds_witness :
  exists l p, allocateSpace 1024 4 volume = (Ok (l, p), volume) /\ l <= 0x11800.
Proof.
  apply (allocateSpace_finds volume 0 extent_items 1 contents_tree 1024 4 (mkChunkMapping 0x10000 0x2000 0x400 5) 0x11800 is_tree).
  - split; [discriminate|exact extents_held|cbn; lia].
  - reflexivity.
  - by apply Z.ltb_lt.
  - lia.
  - by apply Z.ltb_lt.
  - cbn. lia.
  - by apply Z.ltb_lt.
  - rewrite ranges_used. apply Forall_singleton. unfold range_ok, range_end. change (align_up 1024 (sector_size super)) with 1024.
    cbn. lia.
  - by apply Z.leb_le.
  - vm_compute. reflexivity.
  - by apply Z.leb_le.
  - rewrite ranges_used. apply Forall_singleton. unfold disjoint_from, range_end. change (align_up 1024 (sector_size super)) with 1024.
    cbn. lia.
Defined.

Lemma tree_refines_map_witness :
  let m := contents (flatten 1 contents_tree) in let k := mkKey 257 BTRFS_INODE_ITEM_KEY 0 in let data := zeros 160 in
  match m !! k with
  | None =>
      (exists d' t', insert_item_at k data volume = (Ok tt, set_dev d' volume) /\ fs_tree context super (set_dev d' volume) 1 t' /\
         contents (flatten 1 t') = <[k := data]> m) /\
      update_item k data volume = (Err (Errorf "btrfs: key not found for update: %+v"), volume) /\
      delete_item k volume = (Err (Errorf "btrfs: key not found for deletion: %+v"), volume)
  | Some _ =>
      (exists d' t', update_item k data volume = (Ok tt, set_dev d' volume) /\ fs_tree context super (set_dev d' volume) 1 t' /\
         contents (flatten 1 t') = <[k := data]> m) /\
      (exists d' t', delete_item k volume = (Ok tt, set_dev d' volume) /\ fs_tree context super (set_dev d' volume) 1 t' /\
         contents (flatten 1 t') = delete k m)
  end.
Proof.
  apply (tree_refines_map volume 1 contents_tree (mkKey 257 1 0) (zeros 160) is_tree).
  - eapply fit_weaken; [|exact room]. by apply Z.leb_le.
  - unfold key_wf. cbn. lia.
Defined.

Lemma walk_visits_map_witness :
  exists items, StronglySorted key_lt (it_key <$> items) /\
    (forall k d, mkItem k d ∈ items <-> contents (flatten 1 contents_tree) !! k = Some d) /\
    walkFSTree 0 (fun _ _ => modify (Z.add 1)) volume = (walked (visit (fun _ _ => modify (Z.add 1)) items 0), volume).
Proof. apply (walk_visits_map volume 1 contents_tree 0 (fun _ _ => modify (Z.add 1)) is_tree). by intros k o1 o2 s d x. Defined.

Lemma Chmod_loses_type_witness :
  exists b' t' info, Chmod path_a 0x1FF volume = (Ok tt, b') /\ fs_tree context super b' 1 t' /\
    readInodeInfo 257 b' = (Ok info, b') /\
    Z.land (ni_Mode info) 0xFFF = Z.land 0x1FF 0xFFF /\ ni_Size info = le_get 8 inode_a 16 /\
    ni_Nlink info = le_get 4 inode_a 40 /\
    ni_IsDir info = false /\ ni_IsRegular info = false /\ ni_IsSymlink info = false.
Proof.
  apply (Chmod_loses_type volume (set_pathCache (<[path_a := 257]> ∅) volume) 1 contents_tree path_a 0x1FF 257 inode_a is_tree).
  - vm_compute. reflexivity.
  - vm_compute. reflexivity.
  - by apply Z.leb_le.
Defined.

Lemma Unlink_removes_witness :
  exists b' t', Unlink path_c volume = (Ok tt, b') /\ fs_tree context super b' 1 t' /\
    unlinked 258 inode_c (delete_key (it_key hashed_c) (flatten 1 contents_tree)) (flatten 1 t') /\
    lookupDirEntry 256 name_c b' = (Ok 258, b') /\
    forall dirInode' name', ~ (dirInode' = 256 /\ name' = name_c) ->
      (lookupDirEntry dirInode' name' b').1 = (lookupDirEntry dirInode' name' volume).1.
Proof.
  apply (Unlink_removes volume volume 1 contents_tree path_c [Byte.x2f] name_c 256 hashed_c [entry_c] inode_c is_tree).
  - reflexivity.
  - reflexivity.
  - vm_compute. reflexivity.
  - vm_compute. reflexivity.
  - by apply Z.leb_le.
  - vm_compute. reflexivity.
Defined.


(** An item of 500 bytes does not fit the leaf of the file. *)
Definition large : itemEntry := mkItem (mkKey 257 108 4096) (zeros 500).

Lemma extents_tree : tree_at context super volume 0x10c00 0 extent_items.
Proof.
  split; [exact is_mounted|exact extents_held| |cbn; lia|exact I| |by apply Z.leb_le|exact extent_wf].
  - repeat constructor.
  - repeat constructor.
Qed.

Lemma blocks_at :
  resolve (chunks context) 0x10000 = Ok 1024 /\ resolve (chunks context) 0x10400 = Ok 2048 /\
  resolve (chunks context) 0x10800 = Ok 3072 /\ resolve (chunks context) 0x10c00 = Ok 4096 /\
  resolve (chunks context) 0x11400 = Ok 6144.
Proof. repeat split. Qed.

Lemma all_apart :
  StronglySorted (apart context) (nodes 1 0x10000 contents_tree ++ nodes 0 0x10c00 extent_items) /\
  Forall (apart context 0x11400) (nodes 1 0x10000 contents_tree ++ nodes 0 0x10c00 extent_items).
Proof.
  destruct blocks_at as (E0 & E1 & E2 & E3 & E4). cbn [nodes contents_tree map concat app fst snd ip_blockptr].
  assert (Hap : forall a b p q, resolve (chunks context) a = Ok p -> resolve (chunks context) b = Ok q ->
    (p + 1024 <=? q) || (q + 1024 <=? p) = true -> apart context a b).
  { intros a b p q Ea Eb Hpq. unfold apart. rewrite Ea, Eb. change (nodeSize context) with 1024. lia. }
  split; repeat first [apply SSorted_nil|apply SSorted_cons|apply Forall_nil_2|apply Forall_cons_2]; by eapply Hap.
Qed.

Lemma both_trees : two_trees context super volume 1 contents_tree 0 extent_items.
Proof.
  split; [exact is_tree|exact extents_tree|split; discriminate|reflexivity| |exact (proj1 all_apart)].
  repeat constructor; unfold key_lt; cbn; lia.
Qed.

Lemma large_splits : room_to_split context super volume 0 contents_tree 0 extent_items large 0x11400.
Proof.
  split.
  - apply (bool_decide_eq_true_1 _). vm_compute. reflexivity.
  - unfold item_wf, key_wf. cbn. lia.
  - change (~ key_lt (it_key large) (mkKey 257 1 0) /\ True). unfold key_lt. cbn. split; [lia|done].
  - by apply Z.ltb_lt.
  - by apply Z.leb_le.
  - by apply Z.leb_le.
  - by apply Z.leb_le.
  - exists 6144. vm_compute. reflexivity.
  - exists (zeros 1024). split; [vm_compute; reflexivity|reflexivity].
  - lia.
  - exact (proj2 all_apart).
  - apply (bool_decide_eq_true_1 _). vm_compute. reflexivity.
  - by apply Z.leb_le.
  - cbn. lia.
Qed.

Lemma insertIntoLeaf_splits_witness :
  exists d' t' te' payload,
    insertIntoLeaf 0x10000 (it_key large) (it_data large) volume = (Ok tt, set_dev d' volume) /\
    two_trees context super (set_dev d' volume) 1 t' 0 te' /\
    flatten 1 t' = insert_item large (flatten 1 contents_tree) /\
    flatten 0 te' = insert_item (mkItem (block_extent super 0x11400) payload) extent_items /\
    nodes 1 0x10000 t' ≡ₚ 0x11400 :: nodes 1 0x10000 contents_tree.
Proof. exact (insertIntoLeaf_splits context super volume 0 contents_tree 0 extent_items large 0x11400 both_trees large_splits). Defined.

Lemma Rename_moves_witness :
  exists b' t', Rename path_a path_b volume = (Ok tt, b') /\ fs_tree context super b' 1 t' /\
    lookupDirEntry 256 name_a b' = (Err (Sentinel fs_ErrNotExist), b') /\
    lookupDirEntry 256 [Byte.x62] b' = (Ok 257, b') /\
    (forall dirInode' name', ~ (dirInode' = 256 /\ name' = name_a) -> ~ (dirInode' = 256 /\ name' = [Byte.x62]) ->
       (lookupDirEntry dirInode' name' b').1 = (lookupDirEntry dirInode' name' volume).1) /\
    (forall i, i <> 256 -> i <> 256 -> (readInodeInfo i b').1 = (readInodeInfo i volume).1).
Proof.
  apply (Rename_moves volume volume volume 1 contents_tree path_a path_b [Byte.x2f] [Byte.x2f] name_a [Byte.x62] 256 256 entry_a []
    (inode 0x41ED 0) (inode 0x41ED 0) is_tree).
  - eapply fit_weaken; [|exact room]. by apply Z.leb_le.
  - reflexivity.
  - reflexivity.
  - reflexivity.
  - reflexivity.
  - vm_compute. reflexivity.
  - vm_compute. reflexivity.
  - vm_compute. reflexivity.
  - by apply Z.leb_le.
  - vm_compute. reflexivity.
  - by apply Z.leb_le.
  - lia.
  - by apply Z.ltb_lt.
  - by apply Z.ltb_lt.
Defined.

Lemma Symlink_Readlink_witness :
  exists b' t', Symlink path_a path_b volume = (Ok tt, b') /\ fs_tree context super b' 1 t' /\
    lookupDirEntry 256 [Byte.x62] b' = (Ok 259, b') /\ readSymlink 259 b' = (Ok path_a, b') /\
    (exists info, readInodeInfo 259 b' = (Ok info, b') /\ ni_Mode info = 0xA1FF /\ ni_Size info = zlen path_a /\
       ni_Nlink info = 1 /\ ni_IsSymlink info = false /\ ni_IsRegular info = true) /\
    forall dirInode' name', ~ (dirInode' = 256 /\ name' = [Byte.x62]) ->
      (lookupDirEntry dirInode' name' b').1 = (lookupDirEntry dirInode' name' volume).1.
Proof.
  apply (Symlink_Readlink volume volume 1 contents_tree path_a path_b [Byte.x2f] [Byte.x62] 256 is_tree).
  - eapply fit_weaken; [|exact room]. by apply Z.leb_le.
  - reflexivity.
  - reflexivity.
  - vm_compute. reflexivity.
  - vm_compute. reflexivity.
  - by apply Z.ltb_lt.
  - by apply Z.ltb_lt.
  - lia.
  - by apply Z.ltb_lt.
  - by apply Z.ltb_lt.
Defined.

Lemma Truncate_Read_witness :
  exists b' t' nd, Truncate path_a 5 volume = (Ok tt, b') /\ fs_tree context super b' 1 t' /\
    (forall rbuf rofst, 0 <= rofst -> zlen rbuf < 2 ^ 62 ->
       readFile 257 rbuf rofst b' = (Ok (read_window (resized bytes_a 5) rbuf rofst), b')) /\
    sole_inode 257 nd (flatten 1 t') /\ le_get 8 nd 16 = 5.
Proof.
  apply (Truncate_Read volume (set_pathCache (<[path_a := 257]> ∅) volume) 1 contents_tree path_a 257 bytes_a inode_a 5 is_tree).
  - eapply fit_weaken; [|exact room]. by apply Z.leb_le.
  - vm_compute. reflexivity.
  - exact a_inline.
  - vm_compute. reflexivity.
  - by apply Z.leb_le.
  - lia.
  - right. discriminate.
Defined.

Lemma Rename_replaces_witness :
  exists b' t', Rename path_a path_c volume = (Ok tt, b') /\ fs_tree context super b' 1 t' /\
    lookupDirEntry 256 name_a b' = (Err (Sentinel fs_ErrNotExist), b') /\
    lookupDirEntry 256 name_c b' = (Ok 258, b') /\
    (forall dirInode' name', ~ (dirInode' = 256 /\ name' = name_a) -> ~ (dirInode' = 256 /\ name' = name_c) ->
       (lookupDirEntry dirInode' name' b').1 = (lookupDirEntry dirInode' name' volume).1) /\
    link_lost 258 inode_c b' /\
    (forall i, i <> 256 -> i <> 256 -> i <> 258 -> (readInodeInfo i b').1 = (readInodeInfo i volume).1).
Proof.
  apply (Rename_replaces volume volume volume 1 contents_tree path_a path_c [Byte.x2f] [Byte.x2f] name_a name_c 256 256 entry_a [] hashed_c [entry_c]
    (inode 0x41ED 0) (inode 0x41ED 0) inode_c is_tree).
  - eapply fit_weaken; [|exact room]. by apply Z.leb_le.
  - reflexivity.
  - reflexivity.
  - reflexivity.
  - reflexivity.
  - by intros [_ Hn].
  - vm_compute. reflexivity.
  - vm_compute. reflexivity.
  - vm_compute. reflexivity.
  - by apply Z.leb_le.
  - by apply Z.eqb_neq.
  - by apply Z.eqb_neq.
  - vm_compute. reflexivity.
  - by apply Z.leb_le.
  - vm_compute. reflexivity.
  - by apply Z.leb_le.
  - lia.
  - by apply Z.ltb_lt.
  - by apply Z.ltb_lt.
Defined.

Lemma Rename_same_name_witness :
  exists b' t', Rename path_a path_a volume = (Err (Errorf "btrfs: key not found for deletion: %+v"), b') /\ fs_tree context super b' 1 t' /\
    lookupDirEntry 256 name_a b' = (Err (Sentinel fs_ErrNotExist), b') /\ link_lost 257 inode_a b' /\
    (le_get 4 inode_a 40 <= 1 -> filter (fun it => is_extent_item 257 (it_key it)) (flatten 1 t') = []).
Proof.
  apply (Rename_same_name volume volume volume 1 contents_tree path_a [Byte.x2f] name_a 256 entry_a [] inode_a is_tree).
  - reflexivity.
  - reflexivity.
  - reflexivity.
  - vm_compute. reflexivity.
  - vm_compute. reflexivity.
  - by apply Z.leb_le.
Defined.

Lemma Link_enters_witness :
  exists b' t' info, Link path_a path_b volume = (Ok tt, b') /\ fs_tree context super b' 1 t' /\
    lookupDirEntry 256 [Byte.x62] b' = (Ok 257, b') /\
    readInodeInfo 257 b' = (Ok info, b') /\ ni_Nlink info = w32 (le_get 4 inode_a 40 + 1) /\
    ni_Mode info = le_get 4 inode_a 52 /\ ni_Size info = le_get 8 inode_a 16 /\
    (forall dirInode' name', ~ (dirInode' = 256 /\ name' = [Byte.x62]) ->
       (lookupDirEntry dirInode' name' b').1 = (lookupDirEntry dirInode' name' volume).1) /\
    (forall i, i <> 257 -> (readInodeInfo i b').1 = (readInodeInfo i volume).1).
Proof.
  apply (Link_enters volume (set_pathCache (<[path_a := 257]> ∅) volume) (set_pathCache (<[path_a := 257]> ∅) volume) 1 contents_tree
    path_a path_b [Byte.x2f] [Byte.x62] 256 257 inode_a is_tree).
  - eapply fit_weaken; [|exact room]. by apply Z.leb_le.
  - vm_compute. reflexivity.
  - vm_compute. reflexivity.
  - by apply Z.leb_le.
  - vm_compute. reflexivity.
  - reflexivity.
  - reflexivity.
  - vm_compute. reflexivity.
  - lia.
  - lia.
  - by apply Z.ltb_lt.
  - by apply Z.ltb_lt.
Defined.
End Volume.
