(* ===== verification/Ext4.v ===== *)
(** The ext4 adapter ([src/ext4/fs.go]): the operations the host bridge
    calls, each a transaction around calls of the driver, with the tables of
    open files and of directory listings.

    The fields [dev] and [inner.dev] hold the same device, which the model
    keeps once: before [ReadSuperBlock] the adapter is the bare device,
    afterwards the file system built over it. *)
From S2P Require Export FsInterface XattrSet Commit.

(** ** State *)
Record openFile := mkOpenFile {
  of_inodeNum : Z; of_extents : list Extent; of_size : Z; of_empty : bool; of_refs : Z
}.

Record Ext4 (D : Type) := mkExt4 {
  inner : D + FileSystem D;
  files : gmap (list byte) openFile;
  dirs : gmap (list byte) (list DirEntry)
}.
Arguments mkExt4 {D} _ _ _.
Arguments inner {D} _.
Arguments files {D} _.
Arguments dirs {D} _.

Abbreviation E D := (M (Ext4 D)).

(** The orders in which Go's [range] visits the maps. *)
Class MapOrder := mkMapOrder {
  dirty_order1 : gmap Z (list byte) -> list (Z * list byte);
  dirty_order2 : gmap Z (list byte) -> list (Z * list byte);
  xattr_order : gmap (list byte) (list byte) -> list (list byte * list byte)
}.

(** ** Paths *)

Definition splitPath (path : list byte) : res (list byte * list byte) :=
  if bool_decide (path = []) || bool_decide (path = [Byte.x2f]) then Err (Errorf "cannot split root path")
  else
    let idx := scan_back (fun c => negb (is_slash c)) path (length path) in
    split_last (sub path 0 (idx + 1)).

Definition toNodeInfo (inode : Inode) : NodeInfo :=
  mkNodeInfo 0 (I_mode inode)
    (Z.lor (I_uid inode) (w32 (Z.shiftl (L_i_uid_high inode) 16)))
    (Z.lor (I_gid inode) (w32 (Z.shiftl (L_i_gid_high inode) 16)))
    (Size inode) (I_atime inode) (I_mtime inode) (I_ctime inode)
    (I_links_count inode) 512 (I_blocks_lo inode)
    (IsDir inode) (IsRegular inode) (IsSymlink inode).

Section adapter.
Context {D : Type} `{ReadWriterAt D} {env : Env} {order : MapOrder}.

Definition New (dev : D) : Ext4 D := mkExt4 (inl dev) ∅ ∅.

(** A call of [e.inner]; before [ReadSuperBlock] that is a nil pointer. *)
Definition vfs {A} (m : FS D A) : E D A := fun e =>
  match inner e with
  | inl _ => (Panic, e)
  | inr fs => let '(r, fs') := m fs in (r, mkExt4 (inr fs') (files e) (dirs e))
  end.

Definition set_file (path : list byte) (f : openFile) : E D unit :=
  modify (fun e => mkExt4 (inner e) (<[path := f]> (files e)) (dirs e)).
Definition forget_dir (path : list byte) : E D unit :=
  modify (fun e => mkExt4 (inner e) (files e) (delete path (dirs e))).

(** The device under the adapter. *)
Definition device_of (e : Ext4 D) : D :=
  match inner e with
  | inl d => d
  | inr fs => match dev fs with Direct d => d | InTx d _ => d end
  end.

Definition ReadSuperBlock : E D unit :=
  modify (fun e => mkExt4 (inr (NewFileSystem (device_of e))) (files e) (dirs e)) ;;
  vfs (Meta.ReadSuperBlock) ;;
  vfs ReadGroupDescriptors.

Definition Destroy : E D unit := vfs WriteSuperBlockPublic.

(** ** Reading *)
Definition Getattr (path : list byte) : E D NodeInfo :=
  r <- vfs (catch (Walk path)) ;;
  match r with
  | inr err => if errors_Is err vfs_ErrNotExist then fail (Sentinel fs_ErrNotExist) else fail err
  | inl inode => mret (toNodeInfo inode)
  end.

Definition dir_entry (ent : DirEntry2) : DirEntry := mkDirEntry (de_Inode ent) (de_Name ent) (de_FileType ent).

Definition Readdir (path : list byte) : E D (list DirEntry) :=
  e <- get ;;
  match dirs e !! path with
  | Some cached => mret cached
  | None =>
      inode <- vfs (Walk path) ;;
      entries <- vfs (ReadDir inode) ;;
      let result := dir_entry <$> entries in
      modify (fun e => mkExt4 (inner e) (files e) (<[path := result]> (dirs e))) ;;
      mret result
  end.

Definition Readlink (path : list byte) : E D (list byte) :=
  inode <- vfs (Walk path) ;;
  vfs (ReadSymlink inode).

Definition Open (path : list byte) (flags : Z) : E D unit :=
  let! (inodeNum, inode) := vfs (WalkInode path) in
  f <- (if IsRegular inode && UsesExtents inode then
          extents <- vfs (ReadExtents inode) ;;
          mret (mkOpenFile inodeNum extents (Size inode) false 1)
        else mret (mkOpenFile inodeNum [] 0 true 1)) ;;
  set_file path f.

(** The buffer of the caller is threaded through. *)
Definition Read (path : list byte) (buf : list byte) (ofst : Z) : E D (list byte * Z) :=
  e <- get ;;
  match files e !! path with
  | None => fail (Sentinel io_EOF)
  | Some f =>
      if of_empty f || (ofst <? 0) || (of_size f <=? ofst) then mret (buf, 0)
      else vfs (ReadFileAt (of_extents f) (of_size f) buf ofst)
  end.

Definition Release (path : list byte) : E D unit :=
  modify (fun e => mkExt4 (inner e) (delete path (files e)) (dirs e)).

(** ** Transactions

    [BeginTransaction] with the deferred function: an error of the body
    rolls back, otherwise the transaction is committed and an error of the
    commit is the result.  The deferred function also runs when the body
    panics; the named result is nil then, so the transaction is committed
    before the panic goes on. *)
Definition commit : E D unit := vfs (CommitTransaction dirty_order1 dirty_order2).

Definition finish {A} (body : E D A) : E D A := fun e =>
  match body e with
  | (Ok a, e') => (commit ;; mret a) e'
  | (Err err, e') => (vfs RollbackTransaction ;; fail err) e'
  | (Panic, e') => (ignore commit ;; lift Panic) e'
  | (OutOfFuel, e') => (OutOfFuel, e')
  end.
Definition in_transaction {A} (body : E D A) : E D A := vfs BeginTransaction ;; finish body.

(** The same for the operations with an error number as their result. *)
Definition finish_errno (body : E D (option errno)) : E D (option errno) := fun e =>
  match body e with
  | (Ok None, e') => (r <- catch commit ;; mret (match r with inl _ => None | inr _ => Some EIO end)) e'
  | (Ok (Some n), e') => (vfs RollbackTransaction ;; mret (Some n)) e'
  | (Err err, e') => (Err err, e')
  | (Panic, e') => (ignore commit ;; lift Panic) e'
  | (OutOfFuel, e') => (OutOfFuel, e')
  end.
Definition in_transaction_errno (body : E D (option errno)) : E D (option errno) :=
  vfs BeginTransaction ;; finish_errno body.

(** ** Creating and removing *)

(** The walks to the parent every operation on a name makes: the inode and,
    by a second walk, its number. *)
Definition walk_parent (parent : list byte) : E D (Z * Inode) :=
  parentInode <- vfs (Walk parent) ;;
  r <- vfs (WalkInode parent) ;;
  mret (r.1, parentInode).

Definition file_mode (type mode : Z) : Z := w16 (Z.lor type (w16 (Z.land mode 0x0FFF))).

Definition create_body (path : list byte) (mode : Z) : E D unit :=
  let! (parent, name) := lift (splitPath path) in
  let! (parentNum, parentInode) := walk_parent parent in
  inodeNum <- vfs AllocateInode ;;
  inode <- vfs (InitNewInode inodeNum (file_mode S_IFREG mode)) ;;
  parentInode <- vfs (AddDirEntry parentInode name inodeNum DirFileTypeRegular) ;;
  vfs (WriteInode parentNum (set_I_mtime (w32 now) parentInode)) ;;
  r <- vfs (catch (ReadExtents inode)) ;;
  set_file path (mkOpenFile inodeNum (match r with inl extents => extents | inr _ => [] end) (Size inode) false 1).

Definition Create (path : list byte) (flags mode : Z) : E D unit := in_transaction (create_body path mode).

Definition mkdir_body (path : list byte) (mode : Z) : E D unit :=
  let! (parent, name) := lift (splitPath path) in
  let! (parentNum, parentInode) := walk_parent parent in
  inodeNum <- vfs AllocateInode ;;
  inode <- vfs (InitNewInode inodeNum (file_mode S_IFDIR mode)) ;;
  blk <- vfs AllocateBlock ;;
  parentInode <- vfs (AddDirEntry parentInode name inodeNum DirFileTypeDir) ;;
  let parentInode := set_I_links_count (w16 (I_links_count parentInode + 1)) parentInode in
  vfs (WriteInode parentNum (set_I_mtime (w32 now) parentInode)) ;;
  forget_dir parent.

Definition Mkdir (path : list byte) (mode : Z) : E D unit := in_transaction (mkdir_body path mode).

(** An inode one of whose names is gone: with the last one its extents and
    its number are freed, and errors of that are dropped. *)
Definition drop_link (inodeNum : Z) (inode : Inode) : FS D unit :=
  let inode := set_I_links_count (w16 (I_links_count inode - 1)) inode in
  let inode := set_I_ctime (w32 now) inode in
  inode <- (if I_links_count inode =? 0 then
              let inode := set_I_dtime (w32 now) inode in
              (if UsesExtents inode then
                 r <- catch (ReadExtents inode) ;;
                 match r with
                 | inl extents => ignore (FreeExtents extents)
                 | inr _ => mret tt
                 end
               else mret tt) ;;
              ignore (FreeInode inodeNum) ;;
              mret inode
            else mret inode) ;;
  WriteInode inodeNum inode.

Definition dot : list byte := [Byte.x2e].
Definition dotdot : list byte := [Byte.x2e; Byte.x2e].
Definition real_entry (en : DirEntry2) : Prop := de_Name en <> dot /\ de_Name en <> dotdot.

Definition check_empty (childInode : Inode) : FS D unit :=
  if IsDir childInode then
    entries <- ReadDir childInode ;;
    if 0 <? zlen (filter real_entry entries) then fail (Errorf "directory not empty") else mret tt
  else mret tt.

Definition remove_body (path : list byte) (mustBeDir : bool) : E D unit :=
  let! (parent, name) := lift (splitPath path) in
  let! (parentNum, parentInode) := walk_parent parent in
  childInodeNum <- vfs (Lookup parentInode name) ;;
  childInode <- vfs (ReadInode childInodeNum) ;;
  if mustBeDir && negb (IsDir childInode) then fail (Errorf "not a directory")
  else if negb mustBeDir && IsDir childInode then fail (Errorf "is a directory")
  else
    vfs (check_empty childInode) ;;
    parentInode <- vfs (RemoveDirEntry parentInode name) ;;
    vfs (drop_link childInodeNum childInode) ;;
    let parentInode :=
      if IsDir childInode then set_I_links_count (w16 (I_links_count parentInode - 1)) parentInode else parentInode in
    vfs (WriteInode parentNum (set_I_mtime (w32 now) parentInode)) ;;
    forget_dir parent.

Definition removeEntry (path : list byte) (mustBeDir : bool) : E D unit := in_transaction (remove_body path mustBeDir).
Definition Unlink (path : list byte) : E D unit := removeEntry path false.
Definition Rmdir (path : list byte) : E D unit := removeEntry path true.

(** An entry that the new name replaces. *)
Definition replace_existing (newParentInode : Inode) (newName : list byte) : FS D Inode :=
  r <- catch (Lookup newParentInode newName) ;;
  match r with
  | inr _ => mret newParentInode
  | inl existingNum =>
      existingInode <- ReadInode existingNum ;;
      if IsDir existingInode then fail (Errorf "is a directory")
      else
        newParentInode <- RemoveDirEntry newParentInode newName ;;
        drop_link existingNum existingInode ;;
        mret newParentInode
  end.

(** The two parents are read separately, also when they are the same
    directory. *)
Definition rename_body (oldpath newpath : list byte) : E D unit :=
  let! (oldParent, oldName) := lift (splitPath oldpath) in
  let! (newParent, newName) := lift (splitPath newpath) in
  let! (oldParentNum, oldParentInode) := walk_parent oldParent in
  let! (newParentNum, newParentInode) := walk_parent newParent in
  childInodeNum <- vfs (Lookup oldParentInode oldName) ;;
  childInode <- vfs (ReadInode childInodeNum) ;;
  newParentInode <- vfs (replace_existing newParentInode newName) ;;
  oldParentInode <- vfs (RemoveDirEntry oldParentInode oldName) ;;
  let fileType := if IsDir childInode then DirFileTypeDir else DirFileTypeRegular in
  r <- vfs (catch (AddDirEntry newParentInode newName childInodeNum fileType)) ;;
  match r with
  | inr err =>
      vfs (ignore (AddDirEntry oldParentInode oldName childInodeNum fileType)) ;;
      fail err
  | inl newParentInode =>
      vfs (WriteInode oldParentNum (set_I_mtime (w32 now) oldParentInode)) ;;
      vfs (WriteInode newParentNum (set_I_mtime (w32 now) newParentInode)) ;;
      forget_dir oldParent ;;
      forget_dir newParent
  end.

Definition Rename (oldpath newpath : list byte) : E D unit := in_transaction (rename_body oldpath newpath).

(** The mode is [S_IFLNK | 0o777]. *)
Definition symlink_inode (target : list byte) : Inode :=
  set_I_size_lo (w32 (zlen target)) (new_inode (Z.lor S_IFLNK 0x1FF)).

(** A target longer than 60 bytes goes into a block of its own. *)
Definition long_target (target : list byte) (inode : Inode) : FS D Inode :=
  let inode := InitExtentHeader inode in
  blk <- AllocateBlock ;;
  inode <- AppendExtent inode (mkExtent 0 1 (w16 (Z.shiftr blk 32)) (w32 blk)) ;;
  fs <- get ;;
  let inode := set_I_size_lo (w32 (zlen target)) inode in
  let inode := set_I_blocks_lo (w32 (BlockSize fs / 512)) inode in
  WriteBlock blk (put (zeros (BlockSize fs)) 0 target) ;;
  mret inode.

Definition symlink_body (target newpath : list byte) : E D unit :=
  let! (parent, name) := lift (splitPath newpath) in
  let! (parentNum, parentInode) := walk_parent parent in
  inodeNum <- vfs AllocateInode ;;
  let inode := symlink_inode target in
  inode <- (if zlen target <=? 60 then mret (set_I_block (put (I_block inode) 0 target) inode)
            else vfs (long_target target inode)) ;;
  vfs (WriteInode inodeNum inode) ;;
  parentInode <- vfs (AddDirEntry parentInode name inodeNum DirFileTypeSymlink) ;;
  vfs (WriteInode parentNum (set_I_mtime (w32 now) parentInode)).

Definition Symlink (target newpath : list byte) : E D unit := in_transaction (symlink_body target newpath).

Definition link_body (oldpath newpath : list byte) : E D unit :=
  let! (targetNum, targetInode) := vfs (WalkInode oldpath) in
  let! (parent, name) := lift (splitPath newpath) in
  let! (parentNum, parentInode) := walk_parent parent in
  if IsDir targetInode then fail (Errorf "permission denied")
  else
    let fileType := if IsSymlink targetInode then DirFileTypeSymlink else DirFileTypeRegular in
    parentInode <- vfs (AddDirEntry parentInode name targetNum fileType) ;;
    vfs (WriteInode targetNum (set_I_links_count (w16 (I_links_count targetInode + 1)) targetInode)) ;;
    vfs (WriteInode parentNum (set_I_mtime (w32 now) parentInode)).

Definition Link (oldpath newpath : list byte) : E D unit := in_transaction (link_body oldpath newpath).

(** ** Changing files *)
Definition write_body (path buf : list byte) (ofst : Z) : E D Z :=
  e <- get ;;
  match files e !! path with
  | None => fail (Sentinel io_EOF)
  | Some f =>
      if of_empty f then fail (Errorf "read-only file")
      else
        inode <- vfs (ReadInode (of_inodeNum f)) ;;
        let! (inode, n) := vfs (WriteFileAt inode buf ofst) in
        vfs (WriteInode (of_inodeNum f) inode) ;;
        extents <- (if UsesExtents inode then
                      r <- vfs (catch (ReadExtents inode)) ;;
                      mret (match r with inl newExtents => newExtents | inr _ => of_extents f end)
                    else mret (of_extents f)) ;;
        set_file path (mkOpenFile (of_inodeNum f) extents (Size inode) (of_empty f) (of_refs f)) ;;
        mret n
  end.

Definition Write (path buf : list byte) (ofst : Z) : E D Z := in_transaction (write_body path buf ofst).

Definition chmod_body (path : list byte) (mode : Z) : E D unit :=
  let! (inodeNum, inode) := vfs (WalkInode path) in
  let inode := set_I_mode (Z.lor (Z.land (I_mode inode) 0xF000) (w16 (Z.land mode 0x0FFF))) inode in
  vfs (WriteInode inodeNum (set_I_ctime (w32 now) inode)).

Definition Chmod (path : list byte) (mode : Z) : E D unit := in_transaction (chmod_body path mode).

Definition chown_inode (uid gid : Z) (inode : Inode) : Inode :=
  let inode := set_I_uid (w16 (Z.land uid 0xFFFF)) inode in
  let inode := set_I_gid (w16 (Z.land gid 0xFFFF)) inode in
  let inode := set_L_i_uid_high (w16 (Z.shiftr uid 16)) inode in
  set_L_i_gid_high (w16 (Z.shiftr gid 16)) inode.

Definition chown_body (path : list byte) (uid gid : Z) : E D unit :=
  let! (inodeNum, inode) := vfs (WalkInode path) in
  vfs (WriteInode inodeNum (set_I_ctime (w32 now) (chown_inode uid gid inode))).

Definition Chown (path : list byte) (uid gid : Z) : E D unit := in_transaction (chown_body path uid gid).

(** The writes of zeros that lengthen a file, 4096 bytes at a time: where
    each starts, counted from the old end, and its length. *)
Definition zero_chunks (remaining : Z) : list (Z * Z) :=
  (fun i => let written := i * 4096 in
            (written, if remaining - written <? 4096 then remaining - written else 4096))
  <$> seqZ 0 ((remaining + 4095) / 4096).

Definition truncate_body (path : list byte) (size : Z) : E D unit :=
  let! (inodeNum, inode) := vfs (WalkInode path) in
  if negb (IsRegular inode) then fail (Errorf "not a regular file")
  else
    let curSize := i64 (Size inode) in
    if size =? curSize then mret tt
    else
      inode <- vfs (if curSize <? size then
                      forM (zero_chunks (i64 (size - curSize))) inode (fun chunk inode =>
                        let! (inode, _) := WriteFileAt inode (zeros chunk.2) (i64 (curSize + chunk.1)) in
                        mret inode)
                    else TruncateInode inode (w64 size)) ;;
      vfs (WriteInode inodeNum inode).

Definition Truncate (path : list byte) (size : Z) : E D unit := in_transaction (truncate_body path size).

(** ** Attributes and statistics *)
Definition Statfs : E D Statfs_t :=
  r <- vfs (catch GetSuperblock) ;;
  mret match r with
       | inr _ => mkStatfs 0 0 0 0 0 0 0 0 0
       | inl sb =>
           let bsize := SuperBlock_BlockSize sb in
           let bfree := S_free_blocks_count_lo sb in
           let ffree := S_free_inodes_count sb in
           mkStatfs bsize bsize (S_blocks_count_lo sb) bfree bfree (S_inodes_count sb) ffree ffree 255
       end.

(** [return -fuse.ENOENT] or [return -fuse.EIO] after a failed walk. *)
Definition walk_errno (err : error) : errno := if errors_Is err vfs_ErrNotExist then ENOENT else EIO.
Definition attr_errno (err : error) : errno := if errors_Is err vfs_ErrAttrNotExist then ENOATTR else EIO.
Definition space_errno (err : error) : errno := if errors_Is err vfs_ErrNoSpace then ENOSPC else EIO.

Definition Getxattr (path name : list byte) : E D (option errno * list byte) :=
  r <- vfs (catch (WalkInode path)) ;;
  match r with
  | inr err => mret (Some (walk_errno err), [])
  | inl (inodeNum, _) =>
      r <- vfs (catch (GetXAttr inodeNum name)) ;;
      mret match r with
           | inr err => (Some (attr_errno err), [])
           | inl val => (None, val)
           end
  end.

(** [flags] is 1 for an attribute that must be new, 2 for one that must
    exist; [None] as the value is a nil slice. *)
Definition xattr_conflict (flags : Z) (inodeNum : Z) (name : list byte) : FS D (option errno) :=
  if flags =? 0 then mret None
  else
    r <- catch (ListXAttrs inodeNum) ;;
    let exists_ := match r with inl xattrs => bool_decide (is_Some (xattrs !! name)) | inr _ => false end in
    mret (if (flags =? 1) && exists_ then Some EEXIST
          else if (flags =? 2) && negb exists_ then Some ENOATTR
          else None).

Definition setxattr_body (path name : list byte) (value : option (list byte)) (flags : Z) : E D (option errno) :=
  r <- vfs (catch (WalkInode path)) ;;
  match r with
  | inr err => mret (Some (walk_errno err))
  | inl (inodeNum, _) =>
      conflict <- vfs (xattr_conflict flags inodeNum name) ;;
      match conflict with
      | Some n => mret (Some n)
      | None =>
          r <- vfs (catch (SetXAttr xattr_order inodeNum name value)) ;;
          mret match r with inr err => Some (space_errno err) | inl _ => None end
      end
  end.

Definition Setxattr (path name : list byte) (value : option (list byte)) (flags : Z) : E D (option errno) :=
  in_transaction_errno (setxattr_body path name value flags).

(** The names offered to [fill] until it returns false; [fill] decides on
    the names it was offered before. *)
Fixpoint offer (fill : list (list byte) -> list byte -> bool) (offered names : list (list byte)) : list (list byte) :=
  match names with
  | [] => offered
  | k :: names' => if fill offered k then offer fill (offered ++ [k]) names' else offered ++ [k]
  end.

Definition Listxattr (path : list byte) (fill : list (list byte) -> list byte -> bool)
    : E D (option errno * list (list byte)) :=
  r <- vfs (catch (WalkInode path)) ;;
  match r with
  | inr err => mret (Some (walk_errno err), [])
  | inl (inodeNum, _) =>
      r <- vfs (catch (ListXAttrs inodeNum)) ;;
      mret match r with
           | inr _ => (Some EIO, [])
           | inl xattrs => (None, offer fill [] (fst <$> xattr_order xattrs))
           end
  end.

Definition removexattr_body (path name : list byte) : E D (option errno) :=
  r <- vfs (catch (WalkInode path)) ;;
  match r with
  | inr err => mret (Some (walk_errno err))
  | inl (inodeNum, _) =>
      r <- vfs (catch (RemoveXAttr xattr_order inodeNum name)) ;;
      mret match r with inr err => Some (attr_errno err) | inl _ => None end
  end.

Definition Removexattr (path name : list byte) : E D (option errno) :=
  in_transaction_errno (removexattr_body path name).
End adapter.
