(* ===== verification/Staged.v ===== *)
(** The operations of the driver touch the device through [fs_WriteAt]
    alone: an assertion about the device field that survives a write
    survives every operation, whatever it finds on the device and however
    it ends.  Two instances: a transaction over a given device is running,
    so that no operation changes the device before the commit; and none is
    running. *)
From S2P Require Export Ext4.

(** ** Looking things up *)

(** An assertion about the device field alone. *)
Class DeviceField {D : Type} (P : FileSystem D -> Prop) : Prop :=
  inv_dev fs fs' : dev fs' = dev fs -> P fs -> P fs'.
#[export] Hint Extern 0 (DeviceField _) => typeclasses eauto : pass.

Section lookups.
Context {D : Type} `{ReadWriterAt D} {env : Env} (P : FileSystem D -> Prop) `{HP : !DeviceField P}.

Lemma inv_reads {A} (m : FS D A) : reads m -> preserves P m.
Proof. intros Hm fs Hfs. destruct (Hm fs) as [E _]. by rewrite E. Qed.

Lemma inv_modify f : (forall fs, dev (f fs) = dev fs) -> preserves P (modify f).
Proof. intros Hf. apply preserves_modify. intros fs Hfs. by apply (inv_dev fs). Qed.

Lemma inv_set_sb sb : preserves P (modify (set_sb sb)).
Proof. by apply inv_modify. Qed.
Lemma inv_bgd g bgd : preserves P (put_bgd g bgd).
Proof. by apply inv_modify. Qed.
Lemma inv_cache f : preserves P (modify (fun fs => set_dirCache (f fs) fs)).
Proof. by apply inv_modify. Qed.
Lemma inv_invalidate inode : preserves P (invalidateDirCache inode).
Proof. by apply inv_modify. Qed.
Lemma inv_get_bgd g : preserves P (get_bgd g).
Proof. unfold get_bgd. pass_tac. Qed.
Lemma inv_ReadAt off n : preserves P (fs_ReadAt off n).
Proof. apply inv_reads, reads_ReadAt. Qed.
Lemma inv_deref : preserves P deref_sb.
Proof. apply inv_reads, reads_deref_sb. Qed.
Lemma inv_ReadInode n : preserves P (ReadInode n).
Proof. apply inv_reads, reads_ReadInode. Qed.
Lemma inv_ReadExtents inode : preserves P (ReadExtents inode).
Proof. apply inv_reads, reads_ReadExtents. Qed.
Lemma inv_ReadSymlink inode : preserves P (ReadSymlink inode).
Proof. apply inv_reads, reads_ReadSymlink. Qed.
Lemma inv_ReadDir inode : preserves P (ReadDir inode).
Proof. apply inv_reads, reads_ReadDir. Qed.
Lemma inv_GetSuperblock : preserves P GetSuperblock.
Proof. apply inv_reads. intros fs. unfold GetSuperblock. cbn [Superblock set_dirCache]. by destruct (Superblock fs). Qed.
#[local] Hint Resolve inv_set_sb inv_bgd inv_cache inv_get_bgd inv_ReadAt inv_deref inv_ReadInode
  inv_ReadExtents inv_ReadSymlink inv_ReadDir inv_GetSuperblock : pass.

Lemma inv_ReadSuperBlock : preserves P Meta.ReadSuperBlock.
Proof. unfold Meta.ReadSuperBlock. pass_tac; by apply inv_modify. Qed.
Lemma inv_ReadGroupDescriptors : preserves P ReadGroupDescriptors.
Proof. unfold ReadGroupDescriptors, ReadGroupDescriptor. pass_tac. by apply inv_modify. Qed.
Lemma inv_read_raw n : preserves P (ReadRawInode n).
Proof. unfold ReadRawInode, inode_position. pass_tac. Qed.
#[local] Hint Resolve inv_read_raw : pass.
Lemma inv_ReadFileAt extents n buf ofst : preserves P (ReadFileAt extents n buf ofst).
Proof. unfold ReadFileAt, read_file_extent, read_file_block. pass_tac. Qed.
Lemma inv_Lookup inode name : preserves P (Lookup inode name).
Proof. unfold Lookup, ReadDirCached. pass_tac. Qed.
#[local] Hint Resolve inv_Lookup : pass.
Lemma inv_walk depth path : preserves P (walk depth path).
Proof.
  revert path. induction depth as [|depth IH]; intros path; cbn [walk]; unfold walk_component; pass_tac; apply IH.
Qed.
Lemma inv_WalkInode path : preserves P (WalkInode path).
Proof. apply inv_walk. Qed.
#[local] Hint Resolve inv_WalkInode : pass.
Lemma inv_Walk path : preserves P (Walk path).
Proof. unfold Walk. pass_tac. Qed.
Lemma inv_ListXAttrs n : preserves P (ListXAttrs n).
Proof. unfold ListXAttrs. pass_tac. Qed.
End lookups.

#[export] Hint Resolve inv_set_sb inv_bgd inv_cache inv_invalidate inv_get_bgd inv_GetSuperblock inv_ReadSuperBlock
  inv_ReadGroupDescriptors inv_ReadAt inv_deref inv_ReadInode inv_ReadExtents inv_ReadSymlink inv_ReadDir inv_read_raw
  inv_ReadFileAt inv_Lookup inv_WalkInode inv_Walk inv_ListXAttrs : pass.

(** An assertion about the device of a file system that a write keeps. *)
Class DeviceInv {D : Type} `{ReadWriterAt D} (P : FileSystem D -> Prop) : Prop := {
  inv_field :: DeviceField P;
  inv_WriteAt off p : preserves P (fs_WriteAt off p)
}.

Section operations.
Context {D : Type} `{ReadWriterAt D} {env : Env} (P : FileSystem D -> Prop) `{HP : !DeviceInv P}.

Lemma inv_write off p : preserves P (fs_WriteAt off p).
Proof. apply inv_WriteAt. Qed.
#[local] Hint Resolve inv_write : pass.

(** ** Metadata and allocation *)
Lemma inv_superblock : preserves P writeSuperBlock.
Proof. unfold writeSuperBlock. pass_tac. Qed.
#[local] Hint Resolve inv_superblock : pass.
Lemma inv_free_blocks delta : preserves P (updateSuperblockFreeBlocks delta).
Proof. unfold updateSuperblockFreeBlocks. pass_tac. Qed.
Lemma inv_free_inodes delta : preserves P (updateSuperblockFreeInodes delta).
Proof. unfold updateSuperblockFreeInodes. pass_tac. Qed.
Lemma inv_descriptor g bgd : preserves P (WriteGroupDescriptor g bgd).
Proof. unfold WriteGroupDescriptor. pass_tac. Qed.
#[local] Hint Resolve inv_free_blocks inv_free_inodes inv_descriptor : pass.

Lemma inv_WriteInode n inode : preserves P (WriteInode n inode).
Proof. unfold WriteInode, inode_position. pass_tac. Qed.
Lemma inv_raw_inode n buf : preserves P (WriteRawInode n buf).
Proof. unfold WriteRawInode, inode_position. pass_tac. Qed.
#[local] Hint Resolve inv_WriteInode inv_raw_inode inv_read_raw : pass.
Lemma inv_InitNewInode n mode : preserves P (InitNewInode n mode).
Proof. unfold InitNewInode. pass_tac. Qed.
Lemma inv_WriteBlock n data : preserves P (WriteBlock n data).
Proof. unfold WriteBlock. pass_tac. Qed.

Lemma inv_AllocateBlock : preserves P AllocateBlock.
Proof. unfold AllocateBlock, alloc_block_in_group. pass_tac. Qed.
Lemma inv_AllocateInode : preserves P AllocateInode.
Proof. unfold AllocateInode, alloc_inode_in_group. pass_tac. Qed.
Lemma inv_FreeBlock n : preserves P (FreeBlock n).
Proof. unfold FreeBlock. pass_tac. Qed.
Lemma inv_FreeInode n : preserves P (FreeInode n).
Proof. unfold FreeInode. pass_tac. Qed.
#[local] Hint Resolve inv_InitNewInode inv_WriteBlock inv_AllocateBlock inv_AllocateInode
  inv_FreeBlock inv_FreeInode : pass.
Lemma inv_free_run msg start n : preserves P (free_run msg start n).
Proof. unfold free_run. pass_tac. Qed.
#[local] Hint Resolve inv_free_run : pass.
Lemma inv_FreeExtents l : preserves P (FreeExtents l).
Proof. unfold FreeExtents. pass_tac. Qed.
#[local] Hint Resolve inv_FreeExtents : pass.

(** ** Extent trees *)
Lemma inv_split_index parentBlock pHdr newIdxs : preserves P (split_index_node parentBlock pHdr newIdxs).
Proof. unfold split_index_node. pass_tac. Qed.
#[local] Hint Resolve inv_split_index : pass.
Lemma inv_grow_root inode idx : preserves P (grow_root inode idx).
Proof. unfold grow_root. pass_tac. Qed.
#[local] Hint Resolve inv_grow_root : pass.
Lemma inv_insertIdx inode path idx : preserves P (insertIdxIntoParent inode path idx).
Proof.
  revert inode idx. induction path as [|b path IH]; intros inode idx; cbn [insertIdxIntoParent]; pass_tac; apply IH.
Qed.
Lemma inv_leaf_block b buf hdr ext : preserves P (appendExtentToLeafBlock b buf hdr ext).
Proof. unfold appendExtentToLeafBlock. pass_tac. Qed.
Lemma inv_root_leaf inode hdr ext : preserves P (splitRootLeafAndAppend inode hdr ext).
Proof. unfold splitRootLeafAndAppend. pass_tac. Qed.
Lemma inv_to_leaf inode hdr ext : preserves P (appendExtentToLeaf inode hdr ext).
Proof. unfold appendExtentToLeaf. pass_tac. Qed.
#[local] Hint Resolve inv_insertIdx inv_leaf_block inv_root_leaf inv_to_leaf : pass.

Lemma inv_descend rounds path b data hdr : preserves P (descend rounds path b data hdr).
Proof.
  revert path b data hdr. induction rounds as [|rounds IH]; intros path b data hdr; cbn [descend]; pass_tac; apply IH.
Qed.
Lemma inv_split_leaf inode path b buf hdr ext : preserves P (splitLeafBlockAndAppend inode path b buf hdr ext).
Proof. unfold splitLeafBlockAndAppend. pass_tac. Qed.
#[local] Hint Resolve inv_descend inv_split_leaf : pass.
Lemma inv_AppendExtent inode ext : preserves P (AppendExtent inode ext).
Proof. unfold AppendExtent, appendExtentToTree. pass_tac. Qed.
#[local] Hint Resolve inv_AppendExtent : pass.

(** ** Files and directories *)
Lemma inv_WriteFileAt inode buf ofst : preserves P (WriteFileAt inode buf ofst).
Proof. unfold WriteFileAt, write_file_block. pass_tac. Qed.
Lemma inv_TruncateInode inode n : preserves P (TruncateInode inode n).
Proof. unfold TruncateInode, truncate_extent. pass_tac. Qed.

#[local] Hint Resolve inv_WriteFileAt inv_TruncateInode : pass.
Lemma inv_AddDirEntry inode name n t : preserves P (AddDirEntry inode name n t).
Proof. unfold AddDirEntry, add_to_block. pass_tac. Qed.
Lemma inv_RemoveDirEntry inode name : preserves P (RemoveDirEntry inode name).
Proof. unfold RemoveDirEntry, remove_in_block. pass_tac. Qed.
#[local] Hint Resolve inv_AddDirEntry inv_RemoveDirEntry : pass.

(** ** Extended attributes *)
Lemma inv_SetXAttr iter n name value : preserves P (SetXAttr iter n name value).
Proof. unfold SetXAttr, set_in_inode, set_in_block, free_new_block, free_acl_block. pass_tac. Qed.
End operations.

#[export] Hint Resolve inv_superblock inv_write inv_WriteInode inv_InitNewInode inv_WriteBlock inv_AllocateBlock
  inv_AllocateInode inv_FreeInode inv_FreeExtents inv_AppendExtent inv_WriteFileAt inv_TruncateInode inv_AddDirEntry
  inv_RemoveDirEntry inv_SetXAttr : pass.

(** ** The instances *)
Section instances.
Context {D : Type} `{ReadWriterAt D}.

(** A transaction over the device [d] is running. *)
Definition staged (d : D) (fs : FileSystem D) : Prop := exists dirty, dev fs = InTx d dirty.

(** No transaction is running. *)
Definition direct (fs : FileSystem D) : Prop := exists d, dev fs = Direct d.

#[export] Instance staged_inv d : DeviceInv (staged d).
Proof.
  split.
  - intros fs fs' E [dirty E']. exists dirty. by rewrite E.
  - intros off p fs [dirty E]. unfold fs_WriteAt. rewrite E. case_match; [by exists dirty|].
    destruct (Tx_WriteAt (BlockSize fs) d dirty off p) as [dirty' [n err]]. by exists dirty'.
Qed.

#[export] Instance direct_inv : DeviceInv direct.
Proof.
  split.
  - intros fs fs' E [d E']. exists d. by rewrite E.
  - intros off p fs [d E]. unfold fs_WriteAt. rewrite E.
    destruct (WriteAt d off p) as [d' [n err]]. by exists d'.
Qed.
End instances.
#[export] Hint Resolve staged_inv direct_inv : pass.
