(* ===== verification/Adapter.v ===== *)
(** The operations of the adapter as transactions: which of them run one,
    what a refused operation leaves behind, that no transaction stays open,
    and the table of directory listings. *)
From S2P Require Export Staged.

(** ** Every mutating operation is a transaction around its body *)
Section requests.
Context {D : Type} `{ReadWriterAt D} {env : Env} {order : MapOrder}.

Lemma vfs_step {A} (m : FS D A) e fs r fs' :
  inner e = inr fs -> m fs = (r, fs') -> vfs m e = (r, mkExt4 (inr fs') (files e) (dirs e)).
Proof. intros Hi E. unfold vfs. by rewrite Hi, E. Qed.

(** The operations with a Go error as their result, with their bodies. *)
Inductive mutation : forall A : Type, E D A -> E D A -> Prop :=
  | mut_Create path flags mode : mutation unit (Create path flags mode) (create_body path mode)
  | mut_Mkdir path mode : mutation unit (Mkdir path mode) (mkdir_body path mode)
  | mut_Unlink path : mutation unit (Unlink path) (remove_body path false)
  | mut_Rmdir path : mutation unit (Rmdir path) (remove_body path true)
  | mut_Rename oldpath newpath : mutation unit (Rename oldpath newpath) (rename_body oldpath newpath)
  | mut_Symlink target newpath : mutation unit (Symlink target newpath) (symlink_body target newpath)
  | mut_Link oldpath newpath : mutation unit (Link oldpath newpath) (link_body oldpath newpath)
  | mut_Write path buf ofst : mutation Z (Write path buf ofst) (write_body path buf ofst)
  | mut_Chmod path mode : mutation unit (Chmod path mode) (chmod_body path mode)
  | mut_Chown path uid gid : mutation unit (Chown path uid gid) (chown_body path uid gid)
  | mut_Truncate path size : mutation unit (Truncate path size) (truncate_body path size).

(** The operations with an error number as their result. *)
Inductive attr_mutation : E D (option errno) -> E D (option errno) -> Prop :=
  | mut_Setxattr path name value flags :
      attr_mutation (Setxattr path name value flags) (setxattr_body path name value flags)
  | mut_Removexattr path name : attr_mutation (Removexattr path name) (removexattr_body path name).

Lemma mutation_transaction A op body : mutation A op body -> op = in_transaction body.
Proof. by destruct 1. Qed.
Lemma attr_mutation_transaction op body : attr_mutation op body -> op = in_transaction_errno body.
Proof. by destruct 1. Qed.

(** ** Assertions about the device, lifted to the adapter *)
Definition on_fs (P : FileSystem D -> Prop) (e : Ext4 D) : Prop := exists fs, inner e = inr fs /\ P fs.

Lemma on_fs_vfs {A} P (m : FS D A) : preserves P m -> preserves (on_fs P) (vfs m).
Proof.
  intros Hm e (fs & E & Hfs). unfold vfs. rewrite E. specialize (Hm fs Hfs).
  destruct (m fs) as [r fs']. by exists fs'.
Qed.
Lemma on_fs_modify P f : (forall e, inner (f e) = inner e) -> preserves (on_fs P) (modify f).
Proof. intros Hf. apply preserves_modify. intros e (fs & E & Hfs). exists fs. by rewrite Hf. Qed.
Lemma on_fs_set_file P path f : preserves (on_fs P) (set_file path f).
Proof. by apply on_fs_modify. Qed.
Lemma on_fs_forget P path : preserves (on_fs P) (forget_dir path).
Proof. by apply on_fs_modify. Qed.
End requests.
#[export] Hint Resolve on_fs_set_file on_fs_forget : pass.

(** Decompose a body down to the calls of the driver. *)
Ltac body_tac :=
  repeat
    match goal with
    | |- preserves (on_fs _) (vfs _) => apply on_fs_vfs
    | |- preserves (on_fs _) (modify _) => apply on_fs_modify; intros; reflexivity
    | |- preserves _ _ => progress pass_tac
    end.

Section transactions.
Context {D : Type} `{ReadWriterAt D} {env : Env} {order : MapOrder}.

Section bodies.
Context (P : FileSystem D -> Prop) `{HP : !DeviceInv P}.

Lemma inv_drop_link n inode : preserves P (drop_link n inode).
Proof. unfold drop_link. pass_tac. Qed.
#[local] Hint Resolve inv_drop_link : pass.
Lemma inv_check_empty inode : preserves P (check_empty inode).
Proof. unfold check_empty. pass_tac. Qed.
Lemma inv_replace inode name : preserves P (replace_existing inode name).
Proof. unfold replace_existing. pass_tac. Qed.
Lemma inv_long_target target inode : preserves P (long_target target inode).
Proof. unfold long_target. pass_tac. Qed.
Lemma inv_conflict flags n name : preserves P (xattr_conflict flags n name).
Proof. unfold xattr_conflict. pass_tac. Qed.
#[local] Hint Resolve inv_check_empty inv_replace inv_long_target inv_conflict : pass.

Lemma on_fs_walk parent : preserves (on_fs P) (walk_parent parent).
Proof. unfold walk_parent. body_tac. Qed.
#[local] Hint Resolve on_fs_walk : pass.

(** Whatever a body does, it keeps an assertion that writes keep. *)
Lemma on_fs_body A op body : mutation A op body -> preserves (on_fs P) body.
Proof.
  destruct 1; unfold create_body, mkdir_body, remove_body, rename_body, symlink_body, link_body, write_body,
    chmod_body, chown_body, truncate_body; body_tac.
Qed.

Lemma on_fs_attr_body op body : attr_mutation op body -> preserves (on_fs P) body.
Proof. destruct 1; unfold setxattr_body, removexattr_body, RemoveXAttr; body_tac. Qed.
End bodies.

(** ** The tables of a refused operation

    A body touches the tables only when nothing can fail any more. *)
Definition tables (e : Ext4 D) : gmap (list byte) openFile * gmap (list byte) (list DirEntry) := (files e, dirs e).
Definition fails_clean {A} (m : E D A) : Prop := forall e err e', m e = (Err err, e') -> tables e' = tables e.

Lemma fails_clean_vfs {A B} (m : FS D A) (k : A -> E D B) :
  (forall a, fails_clean (k a)) -> fails_clean (mbind k (vfs m)).
Proof.
  intros Hk e err e' E. unfold mbind, M_bind, vfs in E. destruct (inner e) as [d|fs]; [done|].
  destruct (m fs) as [[a|err'| |] fs']; [|by simplify_eq..].
  by rewrite (Hk _ _ _ _ E).
Qed.
Lemma fails_clean_last {A} (m : FS D A) : fails_clean (vfs m).
Proof.
  intros e err e' E. unfold vfs in E. destruct (inner e) as [d|fs]; [done|].
  destruct (m fs) as [r fs']. by simplify_eq.
Qed.
Lemma fails_clean_lift {A B} (r : res A) (k : A -> E D B) :
  (forall a, fails_clean (k a)) -> fails_clean (mbind k (lift r)).
Proof. intros Hk e err e' E. destruct r; [by apply (Hk a e err)|by cbv in E; simplify_eq..]. Qed.
Lemma fails_clean_fail {A} err : fails_clean (fail (A := A) err).
Proof. intros e err' e' E. by cbv in E; simplify_eq. Qed.
Lemma fails_clean_total {A} (m : E D A) : (forall e, exists a e', m e = (Ok a, e')) -> fails_clean m.
Proof. intros Hm e err e' E. destruct (Hm e) as (a & e1 & E1). by rewrite E1 in E. Qed.
Lemma fails_clean_walk {B} parent (k : Z * Inode -> E D B) :
  (forall a, fails_clean (k a)) -> fails_clean (mbind k (walk_parent parent)).
Proof.
  intros Hk e err e'. unfold walk_parent. rewrite M_assoc. revert e err e'.
  apply fails_clean_vfs. intros inode e err e'. rewrite M_assoc. revert e err e'.
  apply fails_clean_vfs. intros r e err e'. rewrite M_left_id. apply Hk.
Qed.
Lemma fails_clean_get {B} (k : Ext4 D -> E D B) : (forall e, fails_clean (k e)) -> fails_clean (mbind k get).
Proof. intros Hk e err e'. rewrite get_bind. apply Hk. Qed.
Lemma fails_clean_assoc {A B C} (m : E D A) (f : A -> E D B) (k : B -> E D C) :
  fails_clean (mbind (fun a => mbind k (f a)) m) -> fails_clean (mbind k (mbind f m)).
Proof. intros Hm e err e'. rewrite M_assoc. apply Hm. Qed.
Lemma fails_clean_ret {A B} (a : A) (k : A -> E D B) : fails_clean (k a) -> fails_clean (mbind k (mret a)).
Proof. intros Hk e err e'. rewrite M_left_id. apply Hk. Qed.

Ltac clean_tac :=
  repeat
    match goal with
    | |- fails_clean (mbind _ get) => apply fails_clean_get; intros ?
    | |- fails_clean (mbind _ (lift _)) => apply fails_clean_lift; intros ?
    | |- fails_clean (mbind _ (walk_parent _)) => apply fails_clean_walk; intros ?
    | |- fails_clean (mbind _ (vfs _)) => apply fails_clean_vfs; intros ?
    | |- fails_clean (mbind _ (mret _)) => apply fails_clean_ret
    | |- fails_clean (mbind _ (mbind _ _)) => apply fails_clean_assoc
    | |- fails_clean (mbind _ (if ?b then _ else _)) => destruct b
    | |- fails_clean (if ?b then _ else _) => destruct b
    | |- fails_clean (match ?x with _ => _ end) => destruct x
    | |- fails_clean (let _ := _ in _) => cbn zeta
    | |- fails_clean (vfs _) => apply fails_clean_last
    | |- fails_clean (fail _) => apply fails_clean_fail
    | |- fails_clean _ => apply fails_clean_total; intros; by repeat eexists
    end.

Lemma fails_clean_body A op body : mutation A op body -> fails_clean body.
Proof.
  destruct 1; unfold create_body, mkdir_body, remove_body, rename_body, symlink_body, link_body, write_body,
    chmod_body, chown_body, truncate_body; clean_tac.
Qed.

(** ** The end of a transaction *)
Definition idle (d : D) : Ext4 D -> Prop := on_fs (fun fs => dev fs = Direct d).

(** The state in which the body of an operation starts. *)
Definition begun (e : Ext4 D) : Ext4 D := (vfs BeginTransaction e).2.

Lemma begin_idle d e : idle d e ->
  vfs BeginTransaction e = (Ok tt, begun e) /\ on_fs (staged d) (begun e) /\ tables (begun e) = tables e.
Proof.
  intros (fs & E & Hd). unfold begun, vfs, BeginTransaction, modify. rewrite E, Hd. split; [done|].
  split; [|done]. eexists. split; [done|]. by exists ∅.
Qed.

Lemma rollback_idle d e : on_fs (staged d) e ->
  exists e', vfs RollbackTransaction e = (Ok tt, e') /\ idle d e' /\ tables e' = tables e.
Proof.
  intros (fs & E & dirty & Hd). unfold vfs, RollbackTransaction, modify. rewrite E, Hd.
  eexists. split; [done|]. split; [|done]. by eexists.
Qed.

Lemma inv_writeback P `{HP : !DeviceInv P} l : preserves P (writeDirtyBlocksDirectly l).
Proof. induction l as [|[b data] l IH]; cbn [writeDirtyBlocksDirectly]; pass_tac. Qed.
#[local] Hint Resolve inv_writeback : pass.

Lemma inv_to_journal P `{HP : !DeviceInv P} extents b buf jsb l1 l2 :
  preserves P (commit_to_journal extents b buf jsb l1 l2).
Proof. unfold commit_to_journal, journal_write. pass_tac. Qed.
#[local] Hint Resolve inv_to_journal : pass.

Lemma commit_idle d e r e' : on_fs (staged d) e -> commit e = (r, e') -> on_fs direct e'.
Proof.
  intros (fs & E & dirty & Hd). unfold commit, vfs. rewrite E. unfold CommitTransaction. rewrite get_bind, Hd.
  set (k := if bool_decide (dirty = ∅) then _ else _).
  assert (Hk : preserves (direct (D := D)) k).
  { unfold k. pass_tac. }
  clearbody k. unfold mbind, M_bind, modify. specialize (Hk (set_dev (Direct d) fs)).
  destruct (k (set_dev (Direct d) fs)) as [r' fs']. intros E'. simplify_eq.
  eexists. split; [done|]. apply Hk. by exists d.
Qed.

(** What a refused operation leaves: the device as it was and the tables as
    they were. *)
Definition rolled_back (d : D) (e e' : Ext4 D) : Prop := idle d e' /\ tables e' = tables e.

Lemma finish_refused {A} (body : E D A) d e err e' :
  preserves (on_fs (staged d)) body -> fails_clean body -> on_fs (staged d) e ->
  finish body e = (Err err, e') ->
  rolled_back d e e' \/ exists a e1, body e = (Ok a, e1) /\ commit e1 = (Err err, e').
Proof.
  intros Hb Hc He. unfold finish. specialize (Hb e He). destruct (body e) as [[a|err1| |] e1] eqn:E; cbn in Hb.
  - right. exists a, e1. split; [done|]. unfold mbind, M_bind in *. by destruct (commit e1) as [[?|?| |] ?]; simplify_eq.
  - destruct (rollback_idle d e1 Hb) as (e2 & E2 & Hi & Ht). rewrite (bind_ok _ _ _ _ _ E2).
    intros [= <- <-]. left. split; [done|]. by rewrite Ht, (Hc _ _ _ E).
  - unfold ignore, catch, mbind, M_bind, lift. by destruct (commit e1) as [[?|?| |] ?]; intros; simplify_eq.
  - by intros; simplify_eq.
Qed.

(** C23: An operation that reports an error leaves the device exactly as it
    was, and the tables of open files and of listings too — whatever it had
    written before the error, on whatever volume — unless its own body
    succeeded and it is the commit that failed. *)
Theorem failed_operation_rolls_back A op body d e err e' :
  mutation A op body -> idle d e -> op e = (Err err, e') ->
  rolled_back d e e' \/ exists a e1, body (begun e) = (Ok a, e1) /\ commit e1 = (Err err, e').
Proof.
  intros Hm Hi. destruct (begin_idle d e Hi) as (E & Hs & Ht).
  rewrite (mutation_transaction _ _ _ Hm). unfold in_transaction. rewrite (bind_ok _ _ _ _ _ E). intros E'.
  destruct (finish_refused body d _ _ _ (on_fs_body _ _ _ _ Hm) (fails_clean_body _ _ _ Hm) Hs E') as [[Hr Ht']|Hr].
  - left. split; [done|]. by rewrite Ht'.
  - by right.
Qed.

(** ** The operations of the interface, and what they keep *)
Inductive request : forall A : Type, E D A -> Prop :=
  | req_Destroy : request unit Destroy
  | req_Getattr path : request NodeInfo (Getattr path)
  | req_Readdir path : request (list DirEntry) (Readdir path)
  | req_Readlink path : request (list byte) (Readlink path)
  | req_Open path flags : request unit (Open path flags)
  | req_Read path buf ofst : request (list byte * Z) (Read path buf ofst)
  | req_Release path : request unit (Release path)
  | req_mutation A op body : mutation A op body -> request A op
  | req_Getxattr path name : request (option errno * list byte) (Getxattr path name)
  | req_attr_mutation op body : attr_mutation op body -> request (option errno) op
  | req_Listxattr path fill : request (option errno * list (list byte)) (Listxattr path fill)
  | req_Statfs : request Statfs_t Statfs.

Lemma on_fs_map P (f : Ext4 D -> Ext4 D) e : (forall e, inner (f e) = inner e) -> on_fs P e -> on_fs P (f e).
Proof. intros Hf (fs & E & Hfs). exists fs. by rewrite Hf. Qed.

Lemma finish_direct {A} (body : E D A) d e r e' :
  preserves (on_fs (staged d)) body -> on_fs (staged d) e -> finish body e = (r, e') -> r <> OutOfFuel -> on_fs direct e'.
Proof.
  intros Hb He. unfold finish. specialize (Hb e He). destruct (body e) as [[a|err| |] e1] eqn:E; cbn in Hb.
  - intros Ec _. destruct (commit e1) as [r2 e2] eqn:E2. pose proof (commit_idle d _ _ _ Hb E2).
    unfold mbind, M_bind in Ec. rewrite E2 in Ec. destruct r2; cbv in Ec; by simplify_eq.
  - destruct (rollback_idle d e1 Hb) as (e2 & E2 & (fs & Efs & Hd) & _). rewrite (bind_ok _ _ _ _ _ E2).
    intros [= <- <-] _. exists fs. split; [done|]. by exists d.
  - intros Ec _. destruct (commit e1) as [r2 e2] eqn:E2. pose proof (commit_idle d _ _ _ Hb E2).
    unfold ignore, catch, mbind, M_bind in Ec. rewrite E2 in Ec. destruct r2; cbv in Ec; by simplify_eq.
  - by intros [= <- <-].
Qed.

(** The bodies with an error number never report a Go error. *)
Definition no_error {A} (m : E D A) : Prop := forall e, match (m e).1 with Err _ => False | _ => True end.

Lemma no_error_vfs {A B} (m : FS D A) (k : A -> E D B) :
  (forall fs, match (m fs).1 with Err _ => False | _ => True end) -> (forall a, no_error (k a)) ->
  no_error (mbind k (vfs m)).
Proof.
  intros Hm Hk e. unfold mbind, M_bind, vfs. destruct (inner e) as [d|fs]; [done|].
  specialize (Hm fs). destruct (m fs) as [[a|err| |] fs']; [apply Hk|done..].
Qed.
Lemma no_error_catch {A} (m : FS D A) fs : match (catch m fs).1 with Err _ => False | _ => True end.
Proof. unfold catch. by destruct (m fs) as [[?|?| |] ?]. Qed.
Lemma no_error_conflict flags n name (fs : FileSystem D) :
  match (xattr_conflict flags n name fs).1 with Err _ => False | _ => True end.
Proof.
  unfold xattr_conflict. destruct (flags =? 0); [done|]. unfold mbind, M_bind, catch.
  by destruct (ListXAttrs n fs) as [[?|?| |] ?].
Qed.
Lemma no_error_body op body : attr_mutation op body -> no_error body.
Proof.
  destruct 1; unfold setxattr_body, removexattr_body;
    (apply no_error_vfs; [apply no_error_catch|]; intros [[n inode]|err]; [|done]).
  - apply no_error_vfs; [apply no_error_conflict|]. intros [c|]; [done|].
    apply no_error_vfs; [apply no_error_catch|]. by intros [?|?].
  - apply no_error_vfs; [apply no_error_catch|]. by intros [?|?].
Qed.

Lemma finish_errno_direct (body : E D (option errno)) d e r e' :
  preserves (on_fs (staged d)) body -> no_error body -> on_fs (staged d) e ->
  finish_errno body e = (r, e') -> r <> OutOfFuel -> on_fs direct e'.
Proof.
  intros Hb Hn He. unfold finish_errno. specialize (Hb e He). specialize (Hn e).
  destruct (body e) as [[[n|]|err| |] e1] eqn:E; cbn in Hb, Hn; [| |done| |].
  - destruct (rollback_idle d e1 Hb) as (e2 & E2 & (fs & Efs & Hd) & _). rewrite (bind_ok _ _ _ _ _ E2).
    intros [= <- <-] _. exists fs. split; [done|]. by exists d.
  - intros Ec _. destruct (commit e1) as [r2 e2] eqn:E2. pose proof (commit_idle d _ _ _ Hb E2).
    unfold catch, mbind, M_bind in Ec. rewrite E2 in Ec. destruct r2; cbv in Ec; by simplify_eq.
  - intros Ec _. destruct (commit e1) as [r2 e2] eqn:E2. pose proof (commit_idle d _ _ _ Hb E2).
    unfold ignore, catch, mbind, M_bind in Ec. rewrite E2 in Ec. destruct r2; cbv in Ec; by simplify_eq.
  - by intros [= <- <-].
Qed.

(** A transaction never stays open: after any operation of the
    interface, whether it succeeded, failed or panicked, the file system is
    back on its device, so that the next operation starts a transaction of
    its own.  (A loop or recursion that is still running when the fuel of
    the model ends is not an outcome of the code.) *)
Theorem operations_stay_direct A op e r e' :
  request A op -> on_fs direct e -> op e = (r, e') -> r <> OutOfFuel -> on_fs direct e'.
Proof.
  intros Hq He E Hr. pose proof He as (fs & Ei & d & Hd).
  assert (Hi : idle d e) by (exists fs; done).
  assert (Hread : preserves (on_fs direct) op -> on_fs direct e').
  { intros Hp. specialize (Hp e He). by rewrite E in Hp. }
  destruct (begin_idle d e Hi) as (Eb & Hs & _).
  destruct Hq as [| | | | | | |A op body Hm| |op body Hm| |].
  8: { rewrite (mutation_transaction _ _ _ Hm) in E. unfold in_transaction in E. rewrite (bind_ok _ _ _ _ _ Eb) in E.
       by apply (finish_direct body d _ _ _ (on_fs_body _ _ _ _ Hm) Hs E). }
  9: { rewrite (attr_mutation_transaction _ _ Hm) in E. unfold in_transaction_errno in E. rewrite (bind_ok _ _ _ _ _ Eb) in E.
       by apply (finish_errno_direct body d _ _ _ (on_fs_attr_body _ _ _ Hm) (no_error_body _ _ Hm) Hs E). }
  all: apply Hread; unfold Destroy, WriteSuperBlockPublic, Getattr, Readdir, Readlink, Open, Read, Release, Getxattr, Listxattr,
    Statfs, GetXAttr; body_tac.
Qed.
End transactions.
