(* ===== verification/Paths.v ===== *)
(** Splitting a path into the parent and the last component ([splitPath] of
    [src/ext4/fs.go]) agrees with the walk ([src/vfs/core.go]): walking the
    path is walking the parent and then one component. *)
From S2P Require Export Ext4.

(** A path is refused exactly when it has no component. *)
Lemma splitPath_components path : split_of path (splitPath path).
Proof.
  unfold splitPath. case_bool_decide as H1; [by subst|]. case_bool_decide as H2; [by subst|]. cbn [orb].
  apply split_last_components.
Qed.

Section walk.
Context {D : Type} `{ReadWriterAt D} {env : Env}.

Lemma walk_skips_empty (follow : list byte -> FS D (Z * Inode)) l acc fs :
  forM l acc (walk_component follow) fs = forM (filter (fun c => c <> []) l) acc (walk_component follow) fs.
Proof.
  revert acc fs. induction l as [|c l IH]; intros acc fs; [done|]. rewrite filter_cons. case_decide as Hc.
  - cbn [forM]. apply bind_ext. intros. apply IH.
  - subst c. cbn [forM]. destruct acc as [n inode]. cbn [walk_component].
    rewrite bool_decide_true by done. rewrite M_left_id. apply IH.
Qed.

Lemma WalkInode_components path fs :
  WalkInode path fs =
  (cur <- wrap "walk: failed to read root inode: %w" (ReadInode RootInodeNum) ;;
   forM (components path) (RootInodeNum, cur) (walk_component (walk (D := D) maxSymlinks))) fs.
Proof. unfold WalkInode. cbn [walk]. apply bind_ext. intros. apply walk_skips_empty. Qed.

(** Walking a path is walking the parent that [splitPath] gives and then
    the one component it names; so the parent an operation changes is the
    directory in which the walk looks the name up. *)
Theorem walk_splitPath path parent name fs :
  splitPath path = Ok (parent, name) ->
  WalkInode path fs = (r <- WalkInode parent ;; walk_component (walk (D := D) maxSymlinks) name r) fs.
Proof.
  intros E. pose proof (splitPath_components path) as Hs. rewrite E in Hs. destruct Hs as (_ & _ & Ec).
  rewrite WalkInode_components, Ec.
  transitivity ((cur <- wrap "walk: failed to read root inode: %w" (ReadInode RootInodeNum) ;;
    r <- forM (components parent) (RootInodeNum, cur) (walk_component (walk (D := D) maxSymlinks)) ;;
    walk_component (walk (D := D) maxSymlinks) name r) fs).
  { apply bind_ext. intros. rewrite forM_app. apply bind_ext. intros. cbn [forM].
    unfold mbind, M_bind, mret, M_ret. by destruct (walk_component _ _ _ _) as [[?|?| |] ?]. }
  rewrite <- M_assoc. unfold mbind, M_bind. rewrite (WalkInode_components parent). done.
Qed.
End walk.
