(* ===== verification/OpenFiles.v ===== *)
(** The tables of the adapter: reading an open file gives the bytes of the
    file its path resolves to, and which operations leave the cached
    listing of a directory out of date. *)
From S2P Require Export Adapter Paths.

Section listings.
Context {D : Type} `{ReadWriterAt D} {env : Env} {order : MapOrder}.

Definition listings (t : gmap (list byte) (list DirEntry)) (e : Ext4 D) : Prop := dirs e = t.

Lemma listings_vfs {A} t (m : FS D A) : preserves (listings t) (vfs m).
Proof. intros e He. unfold vfs. destruct (inner e) as [d|fs]; [done|]. by destruct (m fs). Qed.
Lemma listings_set_file t path f : preserves (listings t) (set_file path f).
Proof. by intros e He. Qed.
Lemma listings_commit t : preserves (listings t) commit.
Proof. apply listings_vfs. Qed.
#[local] Hint Resolve listings_vfs listings_set_file listings_commit : pass.
Lemma listings_parent t parent : preserves (listings t) (walk_parent parent).
Proof. unfold walk_parent. pass_tac. Qed.
#[local] Hint Resolve listings_parent : pass.

Lemma listings_finish {A} t (body : E D A) : preserves (listings t) body -> preserves (listings t) (finish body).
Proof.
  intros Hb e He. specialize (Hb e He). unfold finish. destruct (body e) as [[a|err| |] e1]; cbn in Hb; [| | |done];
    match goal with |- listings t (?m e1).2 => enough (Hm : preserves (listings t) m) by exact (Hm e1 Hb) end; pass_tac.
Qed.

(** The operations that add a name without dropping the listing of its
    directory. *)
Inductive adds_name : E D unit -> Prop :=
  | adds_Create path flags mode : adds_name (Create path flags mode)
  | adds_Symlink target newpath : adds_name (Symlink target newpath)
  | adds_Link oldpath newpath : adds_name (Link oldpath newpath).

(** Creating a file, a symbolic link or a hard link leaves every cached
    listing as it is, also the one of the directory that has the new name:
    once listed, a directory goes on to be listed without it. *)
Theorem listing_out_of_date op p l e r e' :
  adds_name op -> dirs e !! p = Some l -> op e = (r, e') -> Readdir p e' = (Ok l, e').
Proof.
  intros Ha Hp E. assert (Hop : preserves (listings (dirs e)) op).
  { destruct Ha; unfold Create, Symlink, Link, in_transaction, create_body, symlink_body, link_body;
      (apply preserves_bind; [apply listings_vfs|]; intros _; apply listings_finish; pass_tac). }
  specialize (Hop e eq_refl). rewrite E in Hop. unfold Readdir. rewrite get_bind. cbn in Hop. by rewrite Hop, Hp.
Qed.
End listings.

(** ** Reading a symbolic link *)
Section readlink.
Context {D : Type} `{ReadWriterAt D} {env : Env}.
Variable fs : FileSystem D.

(** [fs] with some directory cache. *)
Definition cached (s : FileSystem D) : Prop := exists m, s = set_dirCache m fs.

Lemma cached_reads {A} (m : FS D A) : reads m -> preserves cached m.
Proof. intros Hm s Hs. destruct (Hm s) as [E _]. by rewrite E. Qed.

Lemma cached_Lookup inode name : preserves cached (Lookup inode name).
Proof.
  assert (Hc : forall v, preserves cached (modify (fun s => set_dirCache (<[I_block inode := v]> (dirCache s)) s))).
  { intros v. apply preserves_modify. intros s [m ->]. by eexists. }
  assert (Hd : preserves cached (ReadDir inode)) by apply cached_reads, reads_ReadDir.
  unfold Lookup, ReadDirCached. pass_tac.
Qed.

Hypothesis root_dir : forall root, (ReadInode RootInodeNum fs).1 = Ok root -> IsSymlink root = false.

Lemma cached_root m root s' : ReadInode RootInodeNum (set_dirCache m fs) = (Ok root, s') -> IsSymlink root = false.
Proof.
  intros E. apply root_dir. destruct (reads_ReadInode RootInodeNum fs) as [_ Hc]. by rewrite Hc in E; simplify_eq/=.
Qed.

Lemma component_not_symlink follow c acc s r s' :
  (forall path s r s', cached s -> follow path s = (Ok r, s') -> IsSymlink r.2 = false /\ cached s') ->
  IsSymlink acc.2 = false -> cached s -> walk_component follow c acc s = (Ok r, s') ->
  IsSymlink r.2 = false /\ cached s'.
Proof.
  intros Hf Ha Hs. unfold walk_component. destruct acc as [n cur]. case_bool_decide; [by intros [= <- <-]|].
  destruct (negb (IsDir cur)); [done|]. intros (child & s1 & E1 & E)%bind_Ok_inv.
  pose proof (cached_Lookup cur c s Hs) as H1. rewrite E1 in H1. cbn in H1.
  apply bind_Ok_inv in E as (inode & s2 & E2%wrap_Ok_inv & E).
  pose proof (reads_state _ _ _ _ (reads_ReadInode child) E2) as ->.
  destruct (IsSymlink inode) eqn:Ei; [|injection E as <- <-; by split].
  apply bind_Ok_inv in E as (target & s3 & E3%wrap_Ok_inv & E%wrap_Ok_inv).
  pose proof (reads_state _ _ _ _ (reads_ReadSymlink inode) E3) as ->. by apply (Hf target s1).
Qed.

(** A walk follows symbolic links up to its end. *)
Lemma walk_not_symlink depth path s r s' :
  cached s -> walk depth path s = (Ok r, s') -> IsSymlink r.2 = false /\ cached s'.
Proof.
  revert path s r s'. induction depth as [|depth IH]; intros path s r s' Hs; [done|]. cbn [walk].
  intros (root & s1 & E1%wrap_Ok_inv & E)%bind_Ok_inv.
  pose proof (reads_state _ _ _ _ (reads_ReadInode RootInodeNum) E1) as ->.
  assert (Hr : IsSymlink (RootInodeNum, root).2 = false) by (destruct Hs as [m ->]; by eapply (cached_root m root)).
  revert E. generalize (RootInodeNum, root) Hr. clear E1 Hr. revert s Hs.
  induction (split_slash path) as [|c l IHl]; intros s Hs acc Ha E; [injection E as <- <-; by split|].
  cbn [forM] in E. apply bind_Ok_inv in E as (acc' & s2 & Ec & E).
  destruct (component_not_symlink _ _ _ _ _ _ IH Ha Hs Ec) as [Ha' Hs']. by apply (IHl s2 Hs' acc').
Qed.
End readlink.

(** [Readlink] never reads a link: it looks the link up with a walk
    that follows it, so whatever the path and the volume (whose root is not
    itself a link), it does not succeed. *)
Theorem Readlink_never_succeeds {D} `{ReadWriterAt D} {env : Env} (e : Ext4 D) fs path target e' :
  inner e = inr fs -> (forall root, (ReadInode RootInodeNum fs).1 = Ok root -> IsSymlink root = false) ->
  Readlink path e <> (Ok target, e').
Proof.
  intros Hi Hroot. unfold Readlink. intros (inode & e1 & E1 & E2)%bind_Ok_inv.
  unfold vfs in E1. rewrite Hi in E1. destruct (Walk path fs) as [r fs1] eqn:Ew. injection E1 as -> <-.
  unfold Walk in Ew. apply bind_Ok_inv in Ew as ([n x] & s & Ew & E). injection E as <- <-.
  destruct (walk_not_symlink fs Hroot (S maxSymlinks) path fs (n, x) s) as [Hx _]; [|exact Ew|].
  { exists (dirCache fs). by destruct fs. }
  cbn [snd] in *. unfold vfs, ReadSymlink in E2. cbn [inner] in E2. rewrite Hx in E2. done.
Qed.

Section open_read.
Context {D : Type} `{Device D} {env : Env} {order : MapOrder}.

(** C15: Opening a path and reading gives the file: for a path that resolves
    to a regular file whose extents cover its blocks without a hole, [Open]
    succeeds, and [Read] at any offset inside the file reports as many
    bytes as the buffer and the file have from there on and fills exactly
    those with the bytes of the file's blocks. *)
Theorem Open_Read e fs root path flags n inode extents buf ofst :
  inner e = inr fs -> fs_ok fs ->
  ReadInode RootInodeNum fs = (Ok root, fs) -> all_coherent fs ->
  resolves fs root maxSymlinks (RootInodeNum, root) (split_slash path) (n, inode) ->
  IsRegular inode = true -> UsesExtents inode = true -> ReadExtents inode fs = (Ok extents, fs) ->
  Forall (extent_on (fs_content fs) (BlockSize fs)) extents -> dense 0 extents ->
  blocks_of extents < 2 ^ 32 -> blocks_of extents * BlockSize fs < 2 ^ 64 ->
  0 <= ofst < Size inode -> 0 < zlen buf -> ofst + zlen buf < 2 ^ 64 ->
  let len := Z.min (zlen buf) (Size inode - ofst) in
  exists e1 buf', Open path flags e = (Ok tt, e1) /\ Read path buf ofst e1 = (Ok (buf', len), e1) /\
    zlen buf' = zlen buf /\
    forall j : nat, buf' !! j =
      if decide (Z.of_nat j < len)
      then Some (file_byte (fs_content fs) (BlockSize fs) extents (ofst + Z.of_nat j)) else buf !! j.
Proof.
  intros Hi Hok Hroot Hall Hres Hreg Hext Hread Hon Hd Hm1 Hm2 Ho Hbuf Hend len.
  destruct (walk_ok fs root path (n, inode) Hroot Hall Hres) as (m & Ew & _).
  pose proof (reads_cache _ _ _ _ m (reads_ReadExtents inode) Hread) as Hread'.
  set (fs1 := set_dirCache m fs) in *.
  destruct (ReadFileAt_window fs1 extents (Size inode) buf ofst) as (buf' & Er & Hl & Hb); try done.
  set (e1 := mkExt4 (inr fs1) (files e) (dirs e)).
  unfold Open. rewrite (bind_ok _ _ _ _ _ (vfs_step _ e fs _ fs1 Hi Ew)), Hreg, Hext. cbn [andb].
  rewrite M_assoc, (bind_ok _ _ _ _ _ (vfs_step _ e1 fs1 _ fs1 eq_refl Hread')), M_left_id.
  eexists _, buf'. split; [done|]. split; [|by split].
  unfold Read. rewrite get_bind. cbn [files]. rewrite lookup_insert_eq. cbn [of_empty of_size of_extents].
  rewrite (proj2 (Z.ltb_ge ofst 0)), (proj2 (Z.leb_gt (Size inode) ofst)) by lia. cbn [orb].
  unfold vfs. cbn [inner files dirs]. rewrite Er. reflexivity.
Qed.
End open_read.

(** ** Examples: a volume of 96 blocks of 64 bytes with 16 inodes

    The block bitmap is in block 33, the inode bitmap in block 34, the inode
    table from block 35 on and the root directory in block 75; inode 12 is a
    file with the one block 76, inode 11 a symbolic link to itself; inodes
    13 to 16 and the blocks from 77 on are free. *)
#[local] Existing Instance ex_env.
Definition ex_order : MapOrder := mkMapOrder map_to_list map_to_list map_to_list.
#[local] Existing Instance ex_order.

Definition ex_vol_sb : SuperBlock := c_dec binary
  (poke 4 0 16 $ poke 4 4 96 $ poke 4 12 19 $ poke 4 16 4 $ poke 4 32 96 $ poke 4 40 16 $
   poke 2 56 MAGIC_NUMBER $ poke 4 76 1 $ poke 2 88 160 $ poke 2 254 64 $ zeros 1024).
Definition ex_vol_gd : GroupDescriptor := c_dec binary
  (poke 4 0 33 $ poke 4 4 34 $ poke 4 8 35 $ poke 2 12 19 $ poke 2 14 4 $ zeros 64).

Definition ex_vol_entries : list DirEntry2 :=
  [mkDirEntry2 2 0 1 2 (ex_name "."); mkDirEntry2 2 0 2 2 (ex_name ".."); mkDirEntry2 12 0 1 1 (ex_name "a");
   mkDirEntry2 11 0 1 7 (ex_name "l")].
Definition ex_vol_block : list byte := match writeDirBlock ex_vol_entries 64 with Ok b => b | _ => [] end.
Definition ex_vol_root : Inode :=
  set_I_links_count 2 (set_I_size_lo 64 (set_I_block (ex_leaf 4 [ex_extent 0 75]) (set_I_mode S_IFDIR ex_inode))).
Definition ex_vol_file : Inode := set_I_size_lo 10 (set_I_block (ex_leaf 4 [ex_extent 0 76]) ex_inode).

Definition ex_vol_image : list byte :=
  let bitmaps := (replicate 9 Byte.xff ++ [Byte.x1f; Byte.x00; Byte.x00] ++ replicate 52 Byte.xff) ++
                 ([Byte.xff; Byte.x0f] ++ replicate 62 Byte.xff) in
  let inode (n : Z) (i : Inode) (c : list byte) := put c (2240 + (n - 1) * 160) (binary_Write i) in
  inode 2 ex_vol_root $ inode 11 ex_link $ inode 12 ex_vol_file $
  put (put (put (put (put (zeros 6144) 1024 (binary_Write ex_vol_sb)) 2048 (binary_Write ex_vol_gd)) 2112 bitmaps)
    4800 ex_vol_block) 4864 (ex_name "0123456789").

Definition ex_vol_fs : FileSystem File :=
  mkFileSystem (Direct (mkFile ex_vol_image)) (Some ex_vol_sb) [ex_vol_gd] 64 160 1 64 ∅.
Definition ex_vol : Ext4 File := mkExt4 (inr ex_vol_fs) ∅ ∅.

Lemma ex_vol_idle : idle (mkFile ex_vol_image) ex_vol.
Proof. exists ex_vol_fs. by split. Qed.

Lemma ex_vol_entries_ok : Forall entry_ok ex_vol_entries /\ entries_fit 64 ex_vol_entries.
Proof.
  split; [|vm_compute; done].
  repeat (apply Forall_cons; split; [vm_compute; repeat split; try done|]). constructor.
Qed.

Lemma ex_vol_len : zlen ex_vol_image = 6144.
Proof. vm_compute. reflexivity. Qed.

Lemma ex_vol_fs_ok : fs_ok ex_vol_fs.
Proof.
  unfold fs_ok. change (fs_content ex_vol_fs) with ex_vol_image. rewrite ex_vol_len.
  change (BlockSize ex_vol_fs) with 64. split; [lia|]. split; [by exists 96|]. split; [lia|exact I].
Qed.

Lemma ex_vol_root_on : dir_on ex_vol_fs ex_vol_root [ex_extent 0 75] [(75, entry_slots 64 ex_vol_entries)].
Proof.
  destruct ex_vol_entries_ok as [Hok Hfit].
  apply (one_block_dir ex_vol_fs ex_vol_root 75 ex_vol_entries ex_vol_block ex_vol_fs_ok); done.
Qed.

Lemma ex_vol_coherent : all_coherent ex_vol_fs.
Proof. intros inode extents blocks _ es. cbn. by rewrite lookup_empty. Qed.

Lemma Open_Read_witness :
  exists e1 buf', Open (ex_name "/a") 0 ex_vol = (Ok tt, e1) /\
    Read (ex_name "/a") (zeros 16) 2 e1 = (Ok (buf', 8), e1).
Proof.
  assert (Eroot : ReadInode 2 ex_vol_fs = (Ok ex_vol_root, ex_vol_fs)) by (vm_compute; reflexivity).
  assert (Efile : ReadInode 12 ex_vol_fs = (Ok ex_vol_file, ex_vol_fs)) by (vm_compute; reflexivity).
  destruct (Open_Read ex_vol ex_vol_fs ex_vol_root (ex_name "/a") 0 12 ex_vol_file [ex_extent 0 76] (zeros 16) 2)
    as (e1 & buf' & Eo & Er & _).
  - reflexivity.
  - exact ex_vol_fs_ok.
  - exact Eroot.
  - exact ex_vol_coherent.
  - change (split_slash (ex_name "/a")) with [[]; ex_name "a"]. apply resolves_empty.
    apply (resolves_child _ _ _ _ _ _ _ _ _ 12 ex_vol_file _ ex_vol_root_on);
      [vm_compute; reflexivity|discriminate|exact Efile|reflexivity|constructor].
  - reflexivity.
  - reflexivity.
  - vm_compute. reflexivity.
  - apply Forall_singleton. split; [apply ex_extent_wf; lia|].
    intros _. change (fs_content ex_vol_fs) with ex_vol_image. rewrite ex_vol_len.
    change ((76 + 1) * 64 <= 6144). lia.
  - split; [reflexivity|exact I].
  - change (1 < 2 ^ 32). lia.
  - change (1 * 64 < 2 ^ 64). lia.
  - change (0 <= 2 < 10). lia.
  - change (0 < 16). lia.
  - change (2 + 16 < 2 ^ 64). lia.
  - exists e1, buf'. split; [exact Eo|exact Er].
Defined.

Lemma walk_splitPath_witness :
  WalkInode (ex_name "/a//b/") ex_vol_fs =
  mbind (walk_component (walk maxSymlinks) (ex_name "b")) (WalkInode (ex_name "/a/")) ex_vol_fs.
Proof. apply (walk_splitPath (ex_name "/a//b/")). vm_compute. reflexivity. Defined.

Lemma failed_operation_rolls_back_witness :
  exists err e', Mkdir (ex_name "/a") 0x1ed ex_vol = (Err err, e') /\ rolled_back (mkFile ex_vol_image) ex_vol e'.
Proof.
  destruct (Mkdir (ex_name "/a") 0x1ed ex_vol) as [r e'] eqn:E.
  assert (Er : r = Err (Errorf "AddDirEntry: entry %q already exists")).
  { apply (f_equal fst) in E. cbn [fst] in E. subst r. vm_compute. reflexivity. }
  subst r. eexists _, e'. split; [reflexivity|].
  destruct (failed_operation_rolls_back unit _ _ _ _ _ _ (mut_Mkdir (ex_name "/a") 0x1ed) ex_vol_idle E)
    as [Hr|(a & e1 & Eb & _)]; [exact Hr|].
  exfalso. apply (f_equal fst) in Eb. vm_compute in Eb. discriminate Eb.
Defined.

Lemma operations_stay_direct_witness : on_fs direct (Mkdir (ex_name "/b") 0x1ed ex_vol).2.
Proof.
  destruct (Mkdir (ex_name "/b") 0x1ed ex_vol) as [r e'] eqn:E.
  apply (operations_stay_direct unit (Mkdir (ex_name "/b") 0x1ed) ex_vol r e').
  - eapply req_mutation, mut_Mkdir.
  - exists ex_vol_fs. split; [reflexivity|]. by exists (mkFile ex_vol_image).
  - exact E.
  - intros ->. apply (f_equal fst) in E. vm_compute in E. discriminate E.
Defined.

Lemma listing_out_of_date_witness :
  exists l e1, Readdir (ex_name "/") ex_vol = (Ok l, e1) /\
    Readdir (ex_name "/") (Create (ex_name "/c") 0 0x1a4 e1).2 = (Ok l, (Create (ex_name "/c") 0 0x1a4 e1).2) /\
    is_Ok (Create (ex_name "/c") 0 0x1a4 e1).1 = true.
Proof.
  set (e1 := (Readdir (ex_name "/") ex_vol).2).
  exists (dir_entry <$> ex_vol_entries), e1. split; [vm_compute; reflexivity|]. split; [|vm_compute; reflexivity].
  destruct (Create (ex_name "/c") 0 0x1a4 e1) as [r e'] eqn:E. cbn [snd].
  apply (listing_out_of_date (Create (ex_name "/c") 0 0x1a4) (ex_name "/") _ e1 r e').
  - constructor.
  - vm_compute. reflexivity.
  - exact E.
Defined.

(** What a rollback does not undo: the free counts in memory stay at what
    the refused operation made of them, below those on the device. *)
Lemma rollback_keeps_counts :
  let e' := (Mkdir (ex_name "/a") 0x1ed ex_vol).2 in
  device_of e' = device_of ex_vol /\
  match inner e' with
  | inr fs => option_map S_free_inodes_count (Superblock fs) = Some 3 /\ S_free_inodes_count ex_vol_sb = 4 /\
              option_map S_free_blocks_count_lo (Superblock fs) = Some 18 /\ S_free_blocks_count_lo ex_vol_sb = 19
  | inl _ => False
  end.
Proof. vm_compute. done. Qed.

(** A new directory has no block, so neither "." nor "..", although a block
    was taken from the free ones for it; its link count is 1. *)
Lemma Mkdir_leaks_block :
  let r := Mkdir (ex_name "/b") 0x1ed ex_vol in
  r.1 = Ok tt /\ (Readdir (ex_name "/b") r.2).1 = Ok [] /\
  match (Getattr (ex_name "/b") r.2).1 with Ok node => ni_Nlink node = 1 | _ => False end /\
  match (Statfs r.2).1 with Ok stat => f_Bfree stat = 18 | _ => False end.
Proof. vm_compute. done. Qed.

(** Renaming a file onto itself removes its only name and then fails. *)
Lemma Rename_onto_itself :
  let r := Rename (ex_name "/a") (ex_name "/a") ex_vol in
  r.1 = Err (Sentinel vfs_ErrNotExist) /\ device_of r.2 = device_of ex_vol.
Proof. vm_compute. done. Qed.

Lemma Readlink_never_succeeds_witness : Readlink (ex_name "/l") ex_vol <> (Ok (ex_name "l"), ex_vol).
Proof.
  apply (Readlink_never_succeeds ex_vol ex_vol_fs); [reflexivity|].
  intros root E. assert (Er : (ReadInode RootInodeNum ex_vol_fs).1 = Ok ex_vol_root) by (vm_compute; reflexivity).
  rewrite Er in E. injection E as <-. reflexivity.
Defined.
