(* ===== verification/Host.v ===== *)
(** The host bridge ([src/host/bridge.go]) and its handle tables
    ([src/host/handles.go]): the callbacks of the FUSE server over any
    implementation of the interface [fs.FileSystem] ([src/fs/fs.go]). *)
From S2P Require Export OpenFiles.

(** ** The interface as the ext4 adapter implements it *)
#[export] Instance Ext4_ops {D} `{ReadWriterAt D} {env : Env} {order : MapOrder} : FileSystem_ops (Ext4 D) := {
  op_Destroy := Destroy; op_Getattr := Getattr; op_Readdir := Readdir; op_Readlink := Readlink;
  op_Open := Open; op_Read := Read; op_Release := Release; op_Create := Create; op_Write := Write;
  op_Mkdir := Mkdir; op_Unlink := Unlink; op_Rmdir := Rmdir; op_Rename := Rename; op_Chmod := Chmod;
  op_Chown := Chown; op_Truncate := Truncate; op_Symlink := Symlink; op_Link := Link;
  op_Getxattr := Getxattr; op_Setxattr := Setxattr; op_Listxattr := Listxattr; op_Removexattr := Removexattr;
  op_Statfs := Statfs
}.

(** ** Handle tables *)
Record HandleTable (V : Type) := mkHandleTable { mu : gmap Z V; next : Z }.
Arguments mkHandleTable {V} _ _.
Arguments mu {V} _.
Arguments next {V} _.

Section handles.
Context {V : Type}.
Implicit Types t : HandleTable V.

Definition Store (v : V) t : Z * HandleTable V :=
  let h := w64 (next t + 1) in (h, mkHandleTable (<[h := v]> (mu t)) h).
Definition Replace (h : Z) (v : V) t : HandleTable V := mkHandleTable (<[h := v]> (mu t)) (next t).
Definition Load (h : Z) t : option V := mu t !! h.
Definition Delete (h : Z) t : HandleTable V := mkHandleTable (delete h (mu t)) (next t).
End handles.

(** ** The callbacks *)
Record Stat_t := mkStat {
  st_Mode : Z; st_Nlink : Z; st_Size : Z; st_Atim : Z; st_Ctim : Z; st_Mtim : Z; st_Blksize : Z; st_Blocks : Z
}.

(** Modes are written in octal in the source: 0664 and 0111. *)
Definition nodeToStat (node : NodeInfo) : Stat_t :=
  let mode := ni_Mode node in
  let mode := if mode =? 0 then
                let mode := 0x1B4 in if ni_IsDir node then Z.lor mode (Z.lor 0x49 0x4000) else mode
              else mode in
  let '(blksize, blocks) :=
    if 0 <? ni_Blksize node
    then (i64 (ni_Blksize node), i64 (ni_Blocks node * (ni_Blksize node / 512)))
    else (512, i64 (ni_Blocks node)) in
  mkStat mode (w32 (ni_Nlink node)) (i64 (ni_Size node)) (ni_Atime node) (ni_Ctime node) (ni_Mtime node) blksize blocks.

Record OrionFS (S : Type) := mkOrionFS {
  o_inner : S;
  fileHandles : HandleTable (list byte);
  dirHandles : HandleTable (list byte)
}.
Arguments mkOrionFS {S} _ _ _.
Arguments o_inner {S} _.
Arguments fileHandles {S} _.
Arguments dirHandles {S} _.

Definition NewOrionFS {S} (filesys : S) : OrionFS S := mkOrionFS filesys (mkHandleTable ∅ 0) (mkHandleTable ∅ 0).

Abbreviation O S := (M (OrionFS S)).

Module Orion.
(** Splitting at the last slash, which has no caller: trailing slashes are
    not taken off, and a path without a slash is sliced at -1. *)
Definition errSplitRoot : error := Errorf "cannot split root path".
Definition errEmptyName : error := Errorf "empty leaf name".

Definition splitPath (path : list byte) : res (list byte * list byte) :=
  if bool_decide (path = []) || bool_decide (path = [Byte.x2f]) then Err errSplitRoot
  else
    let idx := scan_back is_slash path (length path) in
    parent <- (if idx =? 0 then Ok [Byte.x2f] else slice path 0 idx) ;;
    name <- slice path (idx + 1) (zlen path) ;;
    if bool_decide (name = []) then Err errEmptyName else Ok (parent, name).

Section callbacks.
Context {S : Type} `{FileSystem_ops S}.

Definition call {A} (m : M S A) : O S A := fun j =>
  let '(r, s) := m (o_inner j) in (r, mkOrionFS s (fileHandles j) (dirHandles j)).

(** The two ways the callbacks turn an error into a number: those that know
    a missing file, and those that do not. *)
Definition not_found (err : error) : errno := if errors_Is err fs_ErrNotExist then ENOENT else EIO.
Definition failed (err : error) : errno := EIO.

Definition errno_of (number : error -> errno) (m : M S unit) : O S (option errno) :=
  r <- call (catch m) ;;
  mret match r with inl _ => None | inr err => Some (number err) end.

Definition Destroy : O S unit := call op_Destroy.
Definition Statfs : O S Statfs_t := call op_Statfs.

(** The caller's [Stat_t] is filled on success only. *)
Definition Getattr (path : list byte) : O S (option errno * option Stat_t) :=
  r <- call (catch (op_Getattr path)) ;;
  mret match r with
       | inl node => (None, Some (nodeToStat node))
       | inr err => (Some (not_found err), None)
       end.

Definition store_dir (path : list byte) : O S Z := fun j =>
  let '(h, t) := Store path (dirHandles j) in (Ok h, mkOrionFS (o_inner j) (fileHandles j) t).
Definition store_file (path : list byte) : O S Z := fun j =>
  let '(h, t) := Store path (fileHandles j) in (Ok h, mkOrionFS (o_inner j) t (dirHandles j)).

Definition Opendir (path : list byte) : O S (option errno * Z) :=
  fh <- store_dir path ;;
  mret (None, fh).

(** The entries offered to [fill] until it returns false, which depends on
    those it was offered before; an entry whose attributes cannot be read
    is offered with a zero [Stat_t]. *)
Definition zero_stat : Stat_t := mkStat 0 0 0 0 0 0 0 0.
Definition Readdir (fill : list (list byte * Stat_t) -> list byte * Stat_t -> bool) (fh : Z)
    : O S (option errno * list (list byte * Stat_t)) :=
  j <- get ;;
  match Load fh (dirHandles j) with
  | None => mret (Some EBADF, [])
  | Some dirPath =>
      r <- call (catch (op_Readdir dirPath)) ;;
      match r with
      | inr _ => mret (Some EIO, [])
      | inl entries =>
          offered <- forB entries [] (fun e offered =>
            r <- call (catch (op_Getattr (dirPath ++ Byte.x2f :: d_Name e))) ;;
            let s := match r with inl node => nodeToStat node | inr _ => zero_stat end in
            let offered' := offered ++ [(d_Name e, s)] in
            mret (if fill offered (d_Name e, s) then inl offered' else inr offered')) ;;
          mret (None, offered)
      end
  end.

Definition Releasedir (fh : Z) : O S (option errno) :=
  modify (fun j => mkOrionFS (o_inner j) (fileHandles j) (Delete fh (dirHandles j))) ;;
  mret None.

Definition Open (path : list byte) (flags : Z) : O S (option errno * Z) :=
  r <- errno_of not_found (op_Open path flags) ;;
  match r with
  | Some n => mret (Some n, 0)
  | None => fh <- store_file path ;; mret (None, fh)
  end.

(** The filled buffer with [n], or the error; the handle is not looked at. *)
Definition Read (path buff : list byte) (ofst fh : Z) : O S (list byte * Z + errno) :=
  r <- call (catch (op_Read path buff ofst)) ;;
  mret match r with inl filled => inl filled | inr _ => inr EIO end.

Definition Release (path : list byte) (fh : Z) : O S (option errno) :=
  modify (fun j => mkOrionFS (o_inner j) (Delete fh (fileHandles j)) (dirHandles j)) ;;
  errno_of failed (op_Release path).

Definition Readlink (path : list byte) : O S (option errno * list byte) :=
  r <- call (catch (op_Readlink path)) ;;
  mret match r with inl target => (None, target) | inr err => (Some (not_found err), []) end.

Definition Write (path buff : list byte) (ofst fh : Z) : O S (Z + errno) :=
  r <- call (catch (op_Write path buff ofst)) ;;
  mret match r with inl n => inl n | inr _ => inr EIO end.

Definition Create (path : list byte) (flags mode : Z) : O S (option errno * Z) :=
  r <- errno_of failed (op_Create path flags mode) ;;
  match r with
  | Some n => mret (Some n, 0)
  | None => fh <- store_file path ;; mret (None, fh)
  end.

Definition Mkdir (path : list byte) (mode : Z) : O S (option errno) := errno_of failed (op_Mkdir path mode).
Definition Unlink (path : list byte) : O S (option errno) := errno_of not_found (op_Unlink path).
Definition Rmdir (path : list byte) : O S (option errno) := errno_of not_found (op_Rmdir path).
Definition Rename (oldpath newpath : list byte) : O S (option errno) := errno_of failed (op_Rename oldpath newpath).
Definition Chmod (path : list byte) (mode : Z) : O S (option errno) := errno_of not_found (op_Chmod path mode).
Definition Chown (path : list byte) (uid gid : Z) : O S (option errno) := errno_of not_found (op_Chown path uid gid).
Definition Truncate (path : list byte) (size fh : Z) : O S (option errno) := errno_of not_found (op_Truncate path size).
Definition Symlink (target newpath : list byte) : O S (option errno) := errno_of failed (op_Symlink target newpath).
Definition Link (oldpath newpath : list byte) : O S (option errno) := errno_of not_found (op_Link oldpath newpath).
Definition Getxattr (path name : list byte) : O S (option errno * list byte) := call (op_Getxattr path name).
Definition Setxattr (path name : list byte) (value : option (list byte)) (flags : Z) : O S (option errno) :=
  call (op_Setxattr path name value flags).
Definition Listxattr (path : list byte) (fill : list (list byte) -> list byte -> bool)
    : O S (option errno * list (list byte)) := call (op_Listxattr path fill).
Definition Removexattr (path name : list byte) : O S (option errno) := call (op_Removexattr path name).
End callbacks.
End Orion.

(** ** Splitting paths in the bridge

    A split gives the parent and the last component; it fails for the root
    and for a trailing slash, and panics on a name without a slash, which the
    drivers take for a name in the root. *)
Lemma bridge_splitPath path :
  match Orion.splitPath path with
  | Ok (parent, name) => no_slash name /\ name <> [] /\ components path = components parent ++ [name]
  | Err _ => components path = [] \/ exists dir, path = dir ++ [Byte.x2f]
  | Panic => no_slash path /\ path <> []
  | OutOfFuel => False
  end.
Proof.
  unfold Orion.splitPath. case_bool_decide as H1; [subst; by left|]. case_bool_decide as H2; [subst; by left|]. cbn [orb].
  destruct (scan_back_last is_slash path) as [[-> Hs]|(a & c & b & -> & Hc & Hb & ->)]; [done|].
  rewrite (is_slash_true c Hc) in *. assert (Hz : zlen (a ++ Byte.x2f :: b) = zlen a + 1 + zlen b) by (unfold zlen; rewrite length_app; cbn [length]; lia).
  pose proof (zlen_nonneg a). pose proof (zlen_nonneg b).
  assert (Eb : slice (a ++ Byte.x2f :: b) (zlen a + 1) (zlen (a ++ Byte.x2f :: b)) = Ok b).
  { rewrite slice_in, Hz by lia. f_equal. rewrite cons_middle, app_assoc, sub_app_r by (unfold zlen; rewrite length_app; cbn [length]; lia).
    transitivity (sub b 0 (zlen b)); [f_equal; unfold zlen; rewrite ?length_app; cbn [length]; lia|apply sub_all]. }
  assert (Ea : (if zlen a =? 0 then Ok [Byte.x2f] else slice (a ++ Byte.x2f :: b) 0 (zlen a)) =
    Ok (if zlen a =? 0 then [Byte.x2f] else a)).
  { destruct (Z.eqb_spec (zlen a) 0); [done|]. rewrite slice_in, Z.sub_0_r, sub_app_l, sub_all by lia. done. }
  rewrite Ea. cbn [mbind res_bind]. rewrite Eb. cbn [mbind res_bind]. case_bool_decide as Hn.
  - right. exists a. by rewrite Hn.
  - split_and!; [done|done|]. rewrite components_app, (components_word b Hb), bool_decide_false by done. f_equal.
    destruct (Z.eqb_spec (zlen a) 0) as [E|E]; [|done]. destruct a; [done|]. unfold zlen in E. cbn in E. lia.
Qed.

(** ** Handle tables hand out fresh handles *)
Section handle_laws.
Context {V : Type}.
Implicit Types t : HandleTable V.

Definition table_ok t : Prop :=
  0 <= next t < 2 ^ 64 /\ forall h v, Load h t = Some v -> 1 <= h <= next t.

Lemma empty_table_ok : table_ok (mkHandleTable (V := V) ∅ 0).
Proof. split; [cbn; lia|]. intros h v. unfold Load. cbn. by rewrite lookup_empty. Qed.

Lemma Delete_table_ok h t : table_ok t -> table_ok (Delete h t).
Proof.
  intros [Hn Ht]. split; [done|]. intros h' v. unfold Load, Delete. cbn. rewrite lookup_delete_Some.
  intros [_ Hv]. by apply (Ht h' v).
Qed.

(** A stored value gets a handle that is not in use — 0, which the
    callbacks return for a failure, is never one — and can be loaded under
    it; all other handles keep their values.  The counter wraps around
    after 2^64 - 1 handles, the bound of the statement. *)
Theorem Store_fresh v t :
  table_ok t -> next t + 1 < 2 ^ 64 ->
  let '(h, t') := Store v t in
  table_ok t' /\ h <> 0 /\ Load h t = None /\ Load h t' = Some v /\ forall h', h' <> h -> Load h' t' = Load h' t.
Proof.
  intros [Hn Ht] Hmax. unfold Store. rewrite w64_id by lia.
  assert (Hfree : Load (next t + 1) t = None).
  { destruct (Load (next t + 1) t) as [w|] eqn:E; [|done]. apply Ht in E. lia. }
  split; [|split; [lia|split; [done|split]]].
  - split; [cbn; lia|]. intros h w. unfold Load. cbn. rewrite lookup_insert_Some.
    intros [[<- _]|[_ Hw]]; [lia|]. apply Ht in Hw. lia.
  - unfold Load. cbn. apply lookup_insert_eq.
  - intros h' Hh. unfold Load. cbn. by apply lookup_insert_ne.
Qed.
End handle_laws.

(** ** Error numbers of a missing file on an ext4 volume *)
Section error_numbers.
Context {D : Type} `{ReadWriterAt D} {env : Env} {order : MapOrder}.

(** The walk reports the missing file with the sentinel of the driver, which
    is another value than that of the interface. *)
Definition missing (path : list byte) (fs : FileSystem D) : Prop :=
  exists err fs', WalkInode path fs = (Err err, fs') /\
    errors_Is err vfs_ErrNotExist = true /\ errors_Is err fs_ErrNotExist = false.

Lemma call_errno {S} (number : error -> errno) (m : M S unit) (j : OrionFS S) err s' :
  m (o_inner j) = (Err err, s') -> (Orion.errno_of number m j).1 = Ok (Some (number err)).
Proof.
  intros E. unfold Orion.errno_of, Orion.call. unfold mbind, M_bind. by rewrite (catch_err _ _ _ _ E).
Qed.

Lemma walk_fails {A} path (k : Z * Inode -> E D A) e fs err fs' :
  inner e = inr fs -> WalkInode path fs = (Err err, fs') ->
  mbind k (vfs (WalkInode path)) e = (Err err, mkExt4 (inr fs') (files e) (dirs e)).
Proof. intros Hi Ew. by rewrite (bind_err _ _ _ _ _ (vfs_step _ _ _ _ _ Hi Ew)). Qed.

Lemma begun_fs e fs : inner e = inr fs ->
  vfs BeginTransaction e = (Ok tt, begun e) /\ inner (begun e) = inr (BeginTransaction (D := D) fs).2.
Proof. intros Hi. unfold begun, vfs. by rewrite Hi. Qed.

Lemma transaction_fails {A} (body : E D A) e fs fs1 err e1 :
  inner e = inr fs -> body (begun e) = (Err err, e1) -> inner e1 = inr fs1 ->
  exists e', in_transaction body e = (Err err, e').
Proof.
  intros Hi Eb E1. destruct (begun_fs e fs Hi) as [E _]. unfold in_transaction.
  rewrite (bind_ok _ _ _ _ _ E). unfold finish. rewrite Eb. unfold mbind, M_bind, vfs. rewrite E1.
  by eexists.
Qed.

(** An operation that starts with a walk, in a transaction. *)
Lemma transaction_missing {A} path (k : Z * Inode -> E D A) e fs err fs' :
  inner e = inr fs -> WalkInode path (BeginTransaction fs).2 = (Err err, fs') ->
  exists e', in_transaction (mbind k (vfs (WalkInode path))) e = (Err err, e').
Proof.
  intros Hi Ew. destruct (begun_fs e fs Hi) as [_ Hb].
  exact (transaction_fails _ e fs fs' err _ Hi (walk_fails path k _ _ _ _ Hb Ew) eq_refl).
Qed.

(** A missing file is ENOENT only for [Getattr]: the driver's sentinel
    for it is not the one the bridge looks for, and only [Getattr]
    translates it, so [Open], [Readlink], [Chmod], [Chown], [Truncate] and
    [Link] report an I/O error. *)
Theorem missing_file_is_EIO (j : OrionFS (Ext4 D)) fs path :
  inner (o_inner j) = inr fs -> missing path fs -> missing path (BeginTransaction fs).2 ->
  (Orion.Getattr path j).1 = Ok (Some ENOENT, None) /\
  (forall flags, (Orion.Open path flags j).1 = Ok (Some EIO, 0)) /\
  (Orion.Readlink path j).1 = Ok (Some EIO, []) /\
  (forall mode, (Orion.Chmod path mode j).1 = Ok (Some EIO)) /\
  (forall uid gid, (Orion.Chown path uid gid j).1 = Ok (Some EIO)) /\
  (forall size fh, (Orion.Truncate path size fh j).1 = Ok (Some EIO)) /\
  (forall newpath, (Orion.Link path newpath j).1 = Ok (Some EIO)).
Proof.
  intros Hi (err & fs1 & E1 & Hv & Hf) (err' & fs2 & E2 & Hv' & Hf').
  assert (Hw : Walk path fs = (Err err, fs1)) by (unfold Walk; by rewrite (bind_err _ _ _ _ _ E1)).
  assert (Ho : forall flags, Open path flags (o_inner j) = (Err err, mkExt4 (inr fs1) (files (o_inner j)) (dirs (o_inner j))))
    by (intros; by apply walk_fails with fs).
  assert (Hn : Orion.not_found err = EIO) by (unfold Orion.not_found; by rewrite Hf).
  assert (Hn' : Orion.not_found err' = EIO) by (unfold Orion.not_found; by rewrite Hf').
  assert (Ht : forall (body : E D unit) k, body = mbind k (vfs (WalkInode path)) ->
    (Orion.errno_of Orion.not_found (in_transaction body) j).1 = Ok (Some EIO)).
  { intros body k ->. destruct (transaction_missing path k _ _ _ _ Hi E2) as [e' E]. by rewrite (call_errno _ _ _ _ _ E), Hn'. }
  split; [|split; [|split; [|split; [|split; [|split]]]]].
  - unfold Orion.Getattr, Orion.call, mbind, M_bind. cbn [op_Getattr Ext4_ops]. unfold catch at 1. unfold Getattr.
    rewrite (bind_ok _ _ _ _ _ (vfs_step _ _ _ _ _ Hi (catch_err _ _ _ _ Hw))), Hv. done.
  - intros flags. pose proof (call_errno Orion.not_found _ j _ _ (Ho flags)) as E. unfold Orion.Open, mbind, M_bind.
    cbn [op_Open Ext4_ops]. destruct (Orion.errno_of _ _ _) as [r j']. cbn in E. subst r. by rewrite Hn.
  - unfold Orion.Readlink, Orion.call, mbind, M_bind. cbn [op_Readlink Ext4_ops]. unfold catch, Readlink.
    rewrite (bind_err _ _ _ _ _ (vfs_step _ _ _ _ _ Hi Hw)). cbn. by rewrite Hn.
  - intros mode. by eapply Ht.
  - intros uid gid. by eapply Ht.
  - intros size fh. by eapply Ht.
  - intros newpath. by eapply Ht.
Qed.
End error_numbers.

(** ** Examples *)
#[local] Existing Instance ex_env.
#[local] Existing Instance ex_order.

Lemma Store_fresh_witness :
  let '(h, t') := Store Byte.x2a (mkHandleTable ∅ 0) in Load h t' = Some Byte.x2a /\ h <> 0.
Proof.
  destruct (Store_fresh Byte.x2a (mkHandleTable ∅ 0)) as (_ & Hh & _ & Hl & _).
  - apply empty_table_ok.
  - cbn. lia.
  - split; [exact Hl|exact Hh].
Defined.

Lemma missing_file_is_EIO_witness :
  (Orion.Getattr (ex_name "/x") (NewOrionFS ex_vol)).1 = Ok (Some ENOENT, None) /\
  (Orion.Open (ex_name "/x") 0 (NewOrionFS ex_vol)).1 = Ok (Some EIO, 0).
Proof.
  assert (Hm : missing (ex_name "/x") ex_vol_fs /\ missing (ex_name "/x") (BeginTransaction ex_vol_fs).2).
  { split.
    - destruct (WalkInode (ex_name "/x") ex_vol_fs) as [r fs'] eqn:E.
      assert (Er : r = Err (Sentinel vfs_ErrNotExist)) by (apply (f_equal fst) in E; cbn [fst] in E; subst r; vm_compute; reflexivity).
      subst r. exists (Sentinel vfs_ErrNotExist), fs'. split; [exact E|split; reflexivity].
    - destruct (WalkInode (ex_name "/x") (BeginTransaction ex_vol_fs).2) as [r fs'] eqn:E.
      assert (Er : r = Err (Sentinel vfs_ErrNotExist)) by (apply (f_equal fst) in E; cbn [fst] in E; subst r; vm_compute; reflexivity).
      subst r. exists (Sentinel vfs_ErrNotExist), fs'. split; [exact E|split; reflexivity]. }
  destruct Hm as [Hm1 Hm2].
  destruct (missing_file_is_EIO (NewOrionFS ex_vol) ex_vol_fs (ex_name "/x")) as (Hg & Ho & _).
  - reflexivity.
  - exact Hm1.
  - exact Hm2.
  - split; [exact Hg|apply Ho].
Defined.

(** Removing a missing name is an I/O error too. *)
Lemma Unlink_missing_EIO : (Orion.Unlink (ex_name "/x") (NewOrionFS ex_vol)).1 = Ok (Some EIO).
Proof. vm_compute. reflexivity. Qed.
