(* ===== verification/Serve.v ===== *)
(** Serving a mounted file system: the callbacks that the FUSE host makes as
    data, a session as a list of them, and what a session keeps of the
    device — for any driver with the class [OverDevice], which both drivers
    are instances of. *)
From S2P Require Export Host.
From S2P Require BtrfsDevice.

(** ** The ext4 adapter *)
Section ext4_device.
Context {D : Type} `{ReadWriterAt D} {env : Env} {order : MapOrder}.

Definition fs_device (fs : FileSystem D) : D := match dev fs with Direct d => d | InTx d _ => d end.
Definition fs_over (Q : D -> Prop) (fs : FileSystem D) : Prop := Q (fs_device fs).

Section kept.
Context (Q : D -> Prop) (HQ : kept_by_writes Q).

#[local] Instance fs_over_inv : DeviceInv (fs_over Q).
Proof.
  split.
  - intros fs fs' E. unfold fs_over, fs_device. by rewrite E.
  - intros off p fs Hfs. unfold fs_WriteAt, fs_over, fs_device in *. destruct (dev fs) as [d|d dirty] eqn:E.
    + pose proof (HQ d off p Hfs) as Hd. by destruct (WriteAt d off p) as [d' [n err]].
    + destruct ((BlockSize fs =? 0) && negb (zlen p =? 0)); [cbn [snd]; by rewrite E|].
      by destruct (Tx_WriteAt _ _ _ _ _) as [dirty' [n err]].
Qed.
#[local] Hint Resolve fs_over_inv : pass.

Lemma over_begin : preserves (fs_over Q) BeginTransaction.
Proof. apply preserves_modify. intros fs. unfold fs_over, fs_device. by destruct (dev fs) eqn:E; cbn; rewrite ?E. Qed.
Lemma over_rollback : preserves (fs_over Q) RollbackTransaction.
Proof. apply preserves_modify. intros fs. unfold fs_over, fs_device. by destruct (dev fs) eqn:E; cbn; rewrite ?E. Qed.
Lemma over_commit iter1 iter2 : preserves (fs_over Q) (CommitTransaction iter1 iter2).
Proof.
  intros fs Hfs. unfold CommitTransaction. rewrite get_bind. destruct (dev fs) as [d|d dirty] eqn:E; [done|].
  assert (Hd : fs_over Q (set_dev (Direct d) fs)) by (unfold fs_over, fs_device in *; by rewrite E in Hfs).
  unfold mbind at 1, M_bind at 1, modify at 1. revert Hd. generalize (set_dev (Direct d) fs).
  match goal with |- forall s, _ -> _ (?m s).2 => enough (Hm : preserves (fs_over Q) m) by exact Hm end.
  pass_tac; by (apply inv_writeback || apply inv_to_journal); apply fs_over_inv.
Qed.
#[local] Hint Resolve over_begin over_rollback over_commit : pass.

Lemma over_vfs {A} (m : FS D A) : preserves (fs_over Q) m -> preserves (on_fs (fs_over Q)) (vfs m).
Proof. apply on_fs_vfs. Qed.

Lemma over_commit_vfs : preserves (on_fs (fs_over Q)) commit.
Proof. apply over_vfs, over_commit. Qed.

(** How a transaction ends: with the commit or the rollback of the state
    that the body left. *)
Ltac ending_tac Hb :=
  match goal with
  | |- ?P (?m ?e).2 =>
      refine ((_ : preserves P m) e Hb);
      pose proof over_commit_vfs; pose proof (over_vfs _ over_rollback); pass_tac
  end.

Lemma over_finish {A} (body : E D A) :
  preserves (on_fs (fs_over Q)) body -> preserves (on_fs (fs_over Q)) (in_transaction body).
Proof.
  intros Hb. apply preserves_bind; [apply over_vfs, over_begin|intros _]. intros e He. unfold finish.
  specialize (Hb e He). destruct (body e) as [[a|err| |] e1]; cbn in Hb;
    first [exact Hb|ending_tac Hb].
Qed.

Lemma over_finish_errno (body : E D (option errno)) :
  preserves (on_fs (fs_over Q)) body -> preserves (on_fs (fs_over Q)) (in_transaction_errno body).
Proof.
  intros Hb. apply preserves_bind; [apply over_vfs, over_begin|intros _]. intros e He. unfold finish_errno.
  specialize (Hb e He). destruct (body e) as [[[n|]|err| |] e1]; cbn in Hb;
    first [exact Hb|ending_tac Hb].
Qed.

Lemma over_request A op : request A op -> preserves (on_fs (fs_over Q)) op.
Proof.
  destruct 1 as [| | | | | | |A op body Hm| |op body Hm| |].
  8: { rewrite (mutation_transaction _ _ _ Hm). by apply over_finish, on_fs_body with op; [apply fs_over_inv|]. }
  9: { rewrite (attr_mutation_transaction _ _ Hm). by apply over_finish_errno, on_fs_attr_body with op; [apply fs_over_inv|]. }
  all: unfold Destroy, WriteSuperBlockPublic, Getattr, Readdir, Readlink, Open, Read, Release, Getxattr, Listxattr,
    Statfs, GetXAttr; body_tac.
Qed.
End kept.

Lemma operation_request A (op : E D A) : operation A op -> request A op.
Proof.
  destruct 1;
    [exact req_Destroy|exact (req_Getattr _)|exact (req_Readdir _)|exact (req_Readlink _)|exact (req_Open _ _)
    |exact (req_Read _ _ _)|exact (req_Release _)|exact (req_mutation _ _ _ (mut_Create _ _ _))
    |exact (req_mutation _ _ _ (mut_Write _ _ _))|exact (req_mutation _ _ _ (mut_Mkdir _ _))
    |exact (req_mutation _ _ _ (mut_Unlink _))|exact (req_mutation _ _ _ (mut_Rmdir _))
    |exact (req_mutation _ _ _ (mut_Rename _ _))|exact (req_mutation _ _ _ (mut_Chmod _ _))
    |exact (req_mutation _ _ _ (mut_Chown _ _ _))|exact (req_mutation _ _ _ (mut_Truncate _ _))
    |exact (req_mutation _ _ _ (mut_Symlink _ _))|exact (req_mutation _ _ _ (mut_Link _ _))
    |exact (req_Getxattr _ _)|exact (req_attr_mutation _ _ (mut_Setxattr _ _ _ _))|exact (req_Listxattr _ _)
    |exact (req_attr_mutation _ _ (mut_Removexattr _ _))|exact req_Statfs].
Qed.

#[export] Instance Ext4_over : OverDevice (Ext4 D) D := {
  over Q := on_fs (fs_over Q);
  over_operation Q A op HQ Hop := over_request Q HQ A op (operation_request A op Hop)
}.
End ext4_device.


(** ** Callbacks

    A callback of the FUSE host with its arguments.  What a callback answers
    goes back to the host. *)
Inductive callback :=
  | CbDestroy
  | CbStatfs
  | CbGetattr (path : list byte)
  | CbOpendir (path : list byte)
  | CbReaddir (fill : list (list byte * Stat_t) -> list byte * Stat_t -> bool) (fh : Z)
  | CbReleasedir (fh : Z)
  | CbOpen (path : list byte) (flags : Z)
  | CbRead (path buff : list byte) (ofst fh : Z)
  | CbRelease (path : list byte) (fh : Z)
  | CbReadlink (path : list byte)
  | CbWrite (path buff : list byte) (ofst fh : Z)
  | CbCreate (path : list byte) (flags mode : Z)
  | CbMkdir (path : list byte) (mode : Z)
  | CbUnlink (path : list byte)
  | CbRmdir (path : list byte)
  | CbRename (oldpath newpath : list byte)
  | CbChmod (path : list byte) (mode : Z)
  | CbChown (path : list byte) (uid gid : Z)
  | CbTruncate (path : list byte) (size fh : Z)
  | CbSymlink (target newpath : list byte)
  | CbLink (oldpath newpath : list byte)
  | CbGetxattr (path name : list byte)
  | CbSetxattr (path name : list byte) (value : option (list byte)) (flags : Z)
  | CbListxattr (path : list byte) (fill : list (list byte) -> list byte -> bool)
  | CbRemovexattr (path name : list byte).

Section serving.
Context {S : Type} `{FileSystem_ops S}.

Definition answer {A} (m : O S A) : O S unit := _ <- m ;; mret tt.

Definition call_back (c : callback) : O S unit :=
  match c with
  | CbDestroy => answer Orion.Destroy
  | CbStatfs => answer Orion.Statfs
  | CbGetattr path => answer (Orion.Getattr path)
  | CbOpendir path => answer (Orion.Opendir path)
  | CbReaddir fill fh => answer (Orion.Readdir fill fh)
  | CbReleasedir fh => answer (Orion.Releasedir fh)
  | CbOpen path flags => answer (Orion.Open path flags)
  | CbRead path buff ofst fh => answer (Orion.Read path buff ofst fh)
  | CbRelease path fh => answer (Orion.Release path fh)
  | CbReadlink path => answer (Orion.Readlink path)
  | CbWrite path buff ofst fh => answer (Orion.Write path buff ofst fh)
  | CbCreate path flags mode => answer (Orion.Create path flags mode)
  | CbMkdir path mode => answer (Orion.Mkdir path mode)
  | CbUnlink path => answer (Orion.Unlink path)
  | CbRmdir path => answer (Orion.Rmdir path)
  | CbRename oldpath newpath => answer (Orion.Rename oldpath newpath)
  | CbChmod path mode => answer (Orion.Chmod path mode)
  | CbChown path uid gid => answer (Orion.Chown path uid gid)
  | CbTruncate path size fh => answer (Orion.Truncate path size fh)
  | CbSymlink target newpath => answer (Orion.Symlink target newpath)
  | CbLink oldpath newpath => answer (Orion.Link oldpath newpath)
  | CbGetxattr path name => answer (Orion.Getxattr path name)
  | CbSetxattr path name value flags => answer (Orion.Setxattr path name value flags)
  | CbListxattr path fill => answer (Orion.Listxattr path fill)
  | CbRemovexattr path name => answer (Orion.Removexattr path name)
  end.

(** The callbacks of a session, one after the other; the host library turns
    a panic in a callback into an error number of that callback. *)
Definition recovered (m : O S unit) : O S unit := fun j =>
  match m j with
  | (Panic, j') => (Ok tt, j')
  | r => r
  end.
Definition serve (cs : list callback) : O S unit := forM cs tt (fun c _ => recovered (call_back c)).
End serving.

Section sessions.
Context {D S : Type} `{OverDevice S D} (Q : D -> Prop) (HQ : kept_by_writes Q).

Definition host_over (j : OrionFS S) : Prop := over Q (o_inner j).

Lemma over_call {A} (m : M S A) : operation A m -> preserves host_over (Orion.call m).
Proof.
  intros Hm j Hj. unfold Orion.call. pose proof (over_operation Q A m HQ Hm (o_inner j) Hj) as Hs.
  by destruct (m (o_inner j)) as [r s].
Qed.
Lemma over_call_catch {A} (m : M S A) : operation A m -> preserves host_over (Orion.call (catch m)).
Proof.
  intros Hm j Hj. unfold Orion.call, catch. pose proof (over_operation Q A m HQ Hm (o_inner j) Hj) as Hs.
  by destruct (m (o_inner j)) as [[?|?| |] s].
Qed.
Lemma over_errno number (m : M S unit) : operation unit m -> preserves host_over (Orion.errno_of number m).
Proof. intros Hm. unfold Orion.errno_of. apply preserves_bind; [by apply over_call_catch|intros; apply preserves_ret]. Qed.
Lemma over_store_dir path : preserves host_over (Orion.store_dir path).
Proof. by intros j Hj. Qed.
Lemma over_store_file path : preserves host_over (Orion.store_file path).
Proof. by intros j Hj. Qed.
Lemma over_tables f : (forall j, o_inner (f j) = o_inner j) -> preserves host_over (modify f).
Proof. intros Hf. apply preserves_modify. intros j. unfold host_over. by rewrite Hf. Qed.

Ltac host_tac :=
  repeat
    match goal with
    | |- preserves _ (answer _) => unfold answer
    | |- preserves _ (Orion.call (catch _)) => apply over_call_catch; constructor
    | |- preserves _ (Orion.call _) => apply over_call; constructor
    | |- preserves _ (Orion.errno_of _ _) => apply over_errno; constructor
    | |- preserves _ (Orion.store_dir _) => apply over_store_dir
    | |- preserves _ (Orion.store_file _) => apply over_store_file
    | |- preserves _ (modify _) => by apply over_tables
    | |- preserves _ _ => progress pass_tac
    end.

Lemma over_call_back c : preserves host_over (call_back c).
Proof.
  destruct c; cbn [call_back];
    unfold Orion.Destroy, Orion.Statfs, Orion.Getattr, Orion.Opendir, Orion.Readdir, Orion.Releasedir, Orion.Open,
      Orion.Read, Orion.Release, Orion.Readlink, Orion.Write, Orion.Create, Orion.Mkdir, Orion.Unlink, Orion.Rmdir,
      Orion.Rename, Orion.Chmod, Orion.Chown, Orion.Truncate, Orion.Symlink, Orion.Link, Orion.Getxattr,
      Orion.Setxattr, Orion.Listxattr, Orion.Removexattr; host_tac.
Qed.

(** Whatever the host asks for, in whatever order and with whatever
    arguments. *)
Lemma over_serve cs : preserves host_over (serve cs).
Proof.
  apply preserves_forM. intros c [] j Hj. pose proof (over_call_back c j Hj) as Hc. unfold recovered.
  by destruct (call_back c j) as [[?|?| |] j'].
Qed.
End sessions.
