(* ===== verification/Main.v ===== *)
(** The program ([src/main.go], [src/block/enum_windows.go],
    [src/install.go]): its commands as computations over the files of the
    machine, the undo logs and what has been printed.

    What is outside the repository is a parameter: [OS] says which names
    denote one file, [FuseHost] which callbacks a mounted volume gets,
    [Installer] what the network and the system's installer answer.  A path
    that is not in the map of files cannot be opened. *)
From S2P Require Export Fsck PartTable RedoLog Serve.
From S2P Require BtrfsDevice.

#[export] Existing Instance BtrfsFs.Btrfs_ops.
#[export] Existing Instance BtrfsDevice.Btrfs_over.

(** ** Numbers as text *)
Fixpoint digits (rounds : nat) (n : Z) (acc : list byte) : list byte :=
  match rounds with
  | 0%nat => acc
  | S rounds =>
      let acc := byte.of_Z (48 + n mod 10) :: acc in
      if n / 10 =? 0 then acc else digits rounds (n / 10) acc
  end.

(** The verb [%d]; the numbers are [int]s, of at most 19 digits. *)
Definition itoa (n : Z) : list byte := if n <? 0 then Byte.x2d :: digits 19 (- n) [] else digits 19 n [].

Fixpoint digits_value (s : list byte) (acc : Z) : option Z :=
  match s with
  | [] => Some acc
  | c :: s =>
      let d := byte.unsigned c in
      if (48 <=? d) && (d <=? 57) then digits_value s (acc * 10 + (d - 48)) else None
  end.

(** [strconv.Atoi]: an optional sign and at least one digit; the value is an
    [int]. *)
Definition Atoi (s : list byte) : res Z :=
  let '(neg, ds) := match s with
                    | Byte.x2d :: s' => (true, s')
                    | Byte.x2b :: s' => (false, s')
                    | _ => (false, s)
                    end in
  if bool_decide (ds = []) then Err (Errorf "invalid syntax")
  else match digits_value ds 0 with
       | None => Err (Errorf "invalid syntax")
       | Some v =>
           if neg then if v <=? 2 ^ 63 then Ok (- v) else Err (Errorf "value out of range")
           else if v <? 2 ^ 63 then Ok v else Err (Errorf "value out of range")
       end.

(** ** Names as code points *)
Definition truncate (s : list Z) (n : Z) : list Z :=
  if zlen s <=? n then s else take (Z.to_nat (n - 1)) s ++ [0x2026].

(** The angle brackets, the double quote, the comma and white space. *)
Definition unsafe_rune (r : Z) : bool := bool_decide (r ∈ [0x3C; 0x3E; 0x22; 0x2C; 0x20; 0x09; 0x0A; 0x0D]).

Definition sanitizeVolName (s : list Z) : list Z :=
  let result := (fun r => if unsafe_rune r then 0x5F else r) <$> s in
  if bool_decide (result = []) then code_points "ext4" else result.

(** ** The machine *)

(** An [os.File], opened for reading and writing or for reading only. *)
Record OsFile := mkOsFile { os_file : File; os_writable : bool }.

#[export] Instance OsFile_rw : ReadWriterAt OsFile := {
  ReadAt f off n := ReadAt (os_file f) off n;
  WriteAt f off p :=
    if os_writable f then let '(f', r) := WriteAt (os_file f) off p in (mkOsFile f' true, r)
    else (f, (0, Some (Errorf "write: bad file descriptor")))
}.

Class OS := { file_id : list byte -> list byte }.
(** [http.Get] gives the status and the body, with the error reading it
    ends with; [decode_assets] is the JSON decoder on the fields of a
    release that are used: names and addresses. *)
Class Installer := {
  http_Get : list byte -> res (Z * (list byte * option error));
  decode_assets : list byte -> res (list (list byte * list byte));
  msi_path : list byte;
  msiexec : list byte -> option error
}.
Class FuseHost := { Mount : list byte -> list (list Z) -> list callback * bool }.

Abbreviation Files := (gmap (list byte) OsFile).

(** A line or a block of lines on the standard output. *)
Inductive output :=
  | OutHelp
  | OutOpenedDisk (path : list byte)
  | OutNoDisks
  | OutDisk (path : list byte)
  | OutCouldNotOpen
  | OutCouldNotRead
  | OutScheme (s : PartitionScheme)
  | OutRow (number : Z) (name : list Z) (type : string) (sizeMiB : Z)
  | OutRawImage (path : list byte)
  | OutPartition (number : Z) (name : list Z) (offset sizeMiB : Z)
  | OutDetected (type : string)
  | OutRepair
  | OutExt4Check (res : FsckResult)
  | OutBtrfsCheck (res : BtrfsFsck.BtrfsFsckResult)
  | OutListing (type : string) (rows : list (string * Z * list byte))
  | OutMounting (volume : list Z) (mountPoint : list byte)
  | OutUnmounted
  | OutInstall (msg : string).

(** What the commands share besides the files: the undo logs in the
    temporary directory by their names, and the output. *)
Record Console := mkConsole { logs : gmap (list byte) (list byte); printed : list output }.
Definition print_out (o : output) (c : Console) : Console := mkConsole (logs c) (printed c ++ [o]).

(** A computation over a device and the console. *)
Abbreviation Cmd D := (M (D * Console)).
Definition print {D} (o : output) : Cmd D unit := update (print_out o).

(** ** A mounted file system of either kind *)
Inductive Mounted (D : Type) :=
  | MExt4 (e : Ext4 D)
  | MBtrfs (b : BtrfsTree.FileSystem D).
Arguments MExt4 {D} _.
Arguments MBtrfs {D} _.

Definition Type_ {D} (m : Mounted D) : string := match m with MExt4 _ => "ext4" | MBtrfs _ => "btrfs" end.

Section commands.
Context {D : Type} `{ReadWriterAt D} {env : Env} {order : MapOrder} `{BtrfsCompress.Codecs} {fuse : FuseHost}.

Definition mounted_device (m : Mounted D) : D :=
  match m with MExt4 e => device_of e | MBtrfs b => BtrfsTree.dev b end.

(** The drivers hold the device as an interface value: what they do to it
    is seen under every name it has.  Here a driver takes the device along,
    and it comes back with [driving]. *)
Definition openFilesystem : M D (Mounted D) := fun dev =>
  match Ext4.ReadSuperBlock (Ext4.New dev) with
  | (Ok _, e) => (Ok (MExt4 e), device_of e)
  | (Err _, e) =>
      match BtrfsFs.ReadSuperBlock (BtrfsTree.New (device_of e)) with
      | (Ok _, b) => (Ok (MBtrfs b), BtrfsTree.dev b)
      | (Err _, b) => (Err (Errorf "unknown filesystem (not ext4 or btrfs)"), BtrfsTree.dev b)
      | (Panic, b) => (Panic, BtrfsTree.dev b)
      | (OutOfFuel, b) => (OutOfFuel, BtrfsTree.dev b)
      end
  | (Panic, e) => (Panic, device_of e)
  | (OutOfFuel, e) => (OutOfFuel, device_of e)
  end.

Definition driving {S A} (s : S) (device : S -> D) (m : M S A) : M D A := fun _ =>
  let '(r, s') := m s in (r, device s').

(** ** Listing and checking *)
Definition fileTypeName (t : Z) : string :=
  match t with
  | 0 => "?" | 1 => "f" | 2 => "d" | 3 => "c" | 4 => "b" | 5 => "p" | 6 => "s" | 7 => "l"
  | _ => ""
  end%string.

Definition slash : list byte := [Byte.x2f].

Definition readRootDir (m : Mounted D) : Cmd D unit :=
  entries <- zoom (wrap "failed to read root directory: %w"
    match m with
    | MExt4 e => driving e device_of (op_Readdir slash)
    | MBtrfs b => driving b BtrfsTree.dev (op_Readdir slash)
    end) ;;
  print (OutListing (Type_ m) ((fun e => (fileTypeName (d_FileType e), d_Inode e, d_Name e)) <$> entries)).

(** A computation over a driver and the console. *)
Definition driving_cmd {S A} (s : S) (device : S -> D) (m : Cmd S A) : Cmd D A := fun '(_, c) =>
  let '(r, (s', c')) := m (s, c) in (r, (device s', c')).

(** The volume is opened a second time, without the adapter. *)
Definition check_ext4 (fix_ : bool) : Cmd (FileSystem D) unit :=
  zoom (wrap "failed to read superblock: %w" Meta.ReadSuperBlock) ;;
  zoom (wrap "superblock not available: %w" GetSuperblock) ;;
  print (OutDetected "ext4") ;;
  zoom (wrap "failed to read group descriptors: %w" ReadGroupDescriptors) ;;
  (if fix_ then print OutRepair else mret tt) ;;
  res <- zoom (Fsck fix_) ;;
  print (OutExt4Check res) ;;
  if Healthy res then mret tt else fail (Errorf "filesystem has errors").

(** Nothing is repaired. *)
Definition check_btrfs (fix_ : bool) : Cmd (BtrfsTree.FileSystem D) unit :=
  zoom BtrfsTree.BlockSize ;;
  print (OutDetected "btrfs") ;;
  (if fix_ then print OutRepair else mret tt) ;;
  res <- zoom BtrfsFsck.Fsck ;;
  print (OutBtrfsCheck res) ;;
  if BtrfsFsck.Healthy res then mret tt else fail (Errorf "filesystem has errors").

Definition runFsckDevice (fix_ : bool) : Cmd D unit :=
  m <- zoom (wrap "failed to detect filesystem for fsck: %w" openFilesystem) ;;
  match m with
  | MExt4 e => driving_cmd (NewFileSystem (device_of e)) fs_device (check_ext4 fix_)
  | MBtrfs b => driving_cmd b BtrfsTree.dev (check_btrfs fix_)
  end.

(** ** Mounting *)

(** The host answers the callbacks until the volume is unmounted. *)
Definition hosted {S} `{FileSystem_ops S} (s : S) (device : S -> D) (cs : list callback) : M D unit :=
  driving (NewOrionFS s) (fun j => device (o_inner j)) (serve cs).

Definition mount_options (volName : list Z) : list (list Z) :=
  [code_points "-o"; code_points "uid=-1,gid=-1,volname=" ++ volName].

Definition mountFilesystem (m : Mounted D) (mountPoint : list byte) (volName : list Z) : Cmd D unit :=
  let volName := if bool_decide (volName = []) then code_points (Type_ m) else volName in
  let volName := sanitizeVolName volName in
  print (OutMounting volName mountPoint) ;;
  let '(callbacks, ok) := Mount mountPoint (mount_options volName) in
  zoom match m with
       | MExt4 e => hosted e device_of callbacks
       | MBtrfs b => hosted b BtrfsTree.dev callbacks
       end ;;
  if ok : bool then print OutUnmounted else fail (Errorf "mount failed - ensure WinFsp is installed").
End commands.

(** ** Files *)
Section machine.
Context {os : OS} {env : Env} {order : MapOrder} `{BtrfsCompress.Codecs} {fuse : FuseHost}.

Abbreviation Sys := (M (Files * Console)).

(** [os.Open] and [os.OpenFile(path, os.O_RDWR, 0)] *)
Definition os_Open (path : list byte) : M Files OsFile := fun w =>
  (match w !! file_id path with
   | Some f => Ok (mkOsFile (os_file f) false)
   | None => Err (Errorf "open")
   end, w).
Definition os_OpenRW (path : list byte) : M Files OsFile := fun w =>
  (match w !! file_id path with
   | Some f => if os_writable f then Ok f else Err (Errorf "open")
   | None => Err (Errorf "open")
   end, w).

(** The bytes of a file are those its handle ends with. *)
Definition store (path : list byte) (d : File) (w : Files) : Files :=
  match w !! file_id path with
  | Some f => <[file_id path := mkOsFile d (os_writable f)]> w
  | None => w
  end.

(** Run [body] on an open file, and close it. *)
Definition with_file {A} (path : list byte) (f : OsFile) (body : Cmd OsFile A) : Sys A := fun '(w, c) =>
  let '(r, (f', c')) := body (f, c) in (r, (store path (os_file f') w, c')).

Definition say (o : output) : Sys unit := update (print_out o).

Definition physical_drive (n : Z) : list byte := bytes_of_string "\\.\PhysicalDrive" ++ itoa n.

(** ** Partitions *)
Definition MiB (n : Z) : Z := Z.quot n (1024 * 1024).
Definition row (p : Partition) : output :=
  OutRow (p_Number p) (truncate (p_Name p) 24) (PartitionType_String (p_Type p)) (MiB (ByteSize p)).

Definition find_partition (partNum : Z) (l : list Partition) : option Partition :=
  snd <$> list_find (fun p => p_Number p = partNum) l.

(** Work on a partition of an open disk: the disk comes back with the bytes
    that the partition reader has left. *)
Definition pr_inner {D} (pr : PartitionReader D) : D :=
  match pr_disk pr with inl d => d | inr a => a_inner a end.
Definition on_partition {A} (p : Partition) (body : Cmd (PartitionReader OsFile) A) : Cmd OsFile A := fun '(f, c) =>
  let '(r, (pr, c')) := body (NewPartitionReader f p, c) in (r, (pr_inner pr, c')).

(** ** Listing *)
Definition runImagePath (path : list byte) : Cmd OsFile unit :=
  print (OutRawImage path) ;;
  m <- zoom (wrap "failed to detect filesystem: %w" openFilesystem) ;;
  readRootDir m.

Definition runListPartitions (devicePath : list byte) : Sys unit :=
  f <- zoom (wrap "failed to open %q: %w" (os_Open devicePath)) ;;
  match ProbePartitions f with
  | Err _ => with_file devicePath f (runImagePath devicePath)
  | Ok (scheme, partitions) =>
      say (OutDisk devicePath) ;;
      say (OutScheme scheme) ;;
      forM partitions tt (fun p _ => say (row p))
  | Panic => lift Panic
  | OutOfFuel => lift OutOfFuel
  end.

Definition testfs_img : list byte := bytes_of_string "testfs.img".

Definition runImageMode : Sys unit :=
  f <- zoom (wrap "failed to open testfs.img: %w" (os_OpenRW testfs_img)) ;;
  with_file testfs_img f (
    print (OutRawImage testfs_img) ;;
    m <- zoom (wrap "failed to detect filesystem: %w" openFilesystem) ;;
    readRootDir m).

Definition show_partition (p : Partition) : output :=
  OutPartition (p_Number p) (p_Name p) (StartOffset p) (MiB (ByteSize p)).

Definition runReadPartition (devicePath : list byte) (partNum : Z) : Sys unit :=
  f <- zoom (wrap "failed to open %q: %w" (os_Open devicePath)) ;;
  let! (_, partitions) := lift (errorf_wrap "failed to probe partition table: %w" (ProbePartitions f)) in
  match find_partition partNum partitions with
  | None => fail (Errorf "partition %d not found on %q")
  | Some target =>
      if negb (bool_decide (p_Type target = TypeLinuxData)) then fail (Errorf "partition %d is %q, not a Linux filesystem")
      else
        with_file devicePath f (on_partition target (
          print (show_partition target) ;;
          m <- zoom (wrap "failed to detect filesystem: %w" openFilesystem) ;;
          readRootDir m))
  end.

(** [EnumerateDisks]: the drives from 0 up to the first that cannot be
    opened, sixteen at most. *)
Definition EnumerateDisks : M Files (list (list byte)) :=
  forB (seqZ 0 16) [] (fun i disks =>
    r <- catch (os_Open (physical_drive i)) ;;
    mret match r with
         | inl _ => inl (disks ++ [physical_drive i])
         | inr _ => inr disks
         end).

Definition show_disk (diskPath : list byte) : Sys unit :=
  say (OutDisk diskPath) ;;
  f <- zoom (catch (os_Open diskPath)) ;;
  match f with
  | inr _ => say OutCouldNotOpen
  | inl f =>
      r <- catch (lift (ProbePartitions f)) ;;
      match r with
      | inr _ => say OutCouldNotRead
      | inl (scheme, partitions) =>
          say (OutScheme scheme) ;;
          forM partitions tt (fun p _ => say (row p))
      end
  end.

Definition runDevices : Sys unit :=
  disks <- zoom (wrap "failed to enumerate disks: %w" EnumerateDisks) ;;
  if bool_decide (disks = []) then say OutNoDisks
  else forM disks tt (fun diskPath _ => show_disk diskPath).

(** ** Checking *)
Definition runFsck (devicePath : list byte) (fix_ : bool) : Sys unit :=
  f <- (if fix_ then zoom (wrap "cannot open %q for writing (need --fix): %w" (os_OpenRW devicePath))
        else zoom (wrap "failed to open %q: %w" (os_Open devicePath))) ;;
  with_file devicePath f (runFsckDevice fix_).

(** The partition type is not looked at. *)
Definition runFsckPartition (devicePath : list byte) (partNum : Z) (fix_ : bool) : Sys unit :=
  r <- zoom (catch (os_OpenRW devicePath)) ;;
  f <- match r with
       | inl f => mret f
       | inr _ => zoom (wrap "failed to open %q: %w" (os_Open devicePath))
       end ;;
  let! (_, partitions) := lift (errorf_wrap "failed to read partition table: %w" (ProbePartitions f)) in
  match find_partition partNum partitions with
  | None => fail (Errorf "partition %d not found")
  | Some target =>
      say (show_partition target) ;;
      with_file devicePath f (on_partition target (runFsckDevice fix_))
  end.

(** ** Mounting *)

(** The safe device as the drivers see it.  In the interface a read leaves
    the device as it is, so a read here does not fill the cache; a write
    does, as in [Safe_WriteAt]. *)
#[export] Instance Safe_rw {D} `{ReadWriterAt D} : ReadWriterAt (SafeDevice D) := {
  ReadAt d off n := (Safe_ReadAt d off n).2;
  WriteAt := Safe_WriteAt
}.

(** Both ways of mounting: the safe device over [dev], with the undo log
    that the name [deviceID] has, the driver over that, and the host over
    the driver.  The log file is gone in the end, also after a panic (the
    deferred [Close]). *)
Definition set_log (id : list byte) (log : option (list byte)) (c : Console) : Console :=
  mkConsole (partial_alter (fun _ => log) id (logs c)) (printed c).

Definition mount_device {D} `{ReadWriterAt D} (deviceID mountPoint : list byte) : Cmd D unit := fun '(dev, c) =>
  let id := sanitizeDeviceID deviceID in
  match NewSafeDevice dev (logs c !! id) with
  | (dev', Err err) => (Err (Wrapf "failed to initialize safe device: %w" err), (dev', set_log id None c))
  | (dev', Panic) => (Panic, (dev', c))
  | (dev', OutOfFuel) => (OutOfFuel, (dev', c))
  | (_, Ok safeDev) =>
      let '(r, (safeDev, c)) :=
        (m <- zoom (wrap "failed to detect filesystem: %w" openFilesystem) ;;
         print (OutDetected (Type_ m)) ;;
         mountFilesystem m mountPoint (code_points (Type_ m))) (safeDev, c) in
      let '(dev', log) := Safe_Close safeDev in
      (r, (dev', set_log id log c))
  end.

Definition runMountImage (mountPoint imagePath : list byte) : Sys unit :=
  f <- zoom (wrap "failed to open image %q: %w" (os_OpenRW imagePath)) ;;
  with_file imagePath f (
    print (OutRawImage imagePath) ;;
    mount_device imagePath mountPoint).

Definition is_letter (c : byte) : bool :=
  let c := byte.unsigned c in ((65 <=? c) && (c <=? 90)) || ((97 <=? c) && (c <=? 122)).
Definition upper (c : byte) : byte :=
  let n := byte.unsigned c in if (97 <=? n) && (n <=? 122) then byte.of_Z (n - 32) else c.

(** A single letter is a drive. *)
Definition mount_point (arg : list byte) : list byte :=
  match arg with
  | [c] => if is_letter c then [upper c; Byte.x3a] else arg
  | _ => arg
  end.

Definition runMountDisk (mountPoint : list byte) (diskNum partNum : Z) : Sys unit :=
  let diskPath := physical_drive diskNum in
  f <- zoom (wrap "failed to open disk %q: %w" (os_OpenRW diskPath)) ;;
  say (OutOpenedDisk diskPath) ;;
  let! (scheme, partitions) := lift (errorf_wrap "failed to read partition table on %q: %w" (ProbePartitions f)) in
  say (OutScheme scheme) ;;
  match find_partition partNum partitions with
  | None => fail (Errorf "partition %d not found on %s")
  | Some target =>
      if negb (bool_decide (p_Type target = TypeLinuxData)) then fail (Errorf "partition %d is %q - expected Linux filesystem")
      else
        with_file diskPath f (on_partition target (
          print (show_partition target) ;;
          mount_device (diskPath ++ bytes_of_string "_p" ++ itoa partNum) mountPoint))
  end.

(** [args] is [os.Args]. *)
Definition runMount (args : list (list byte)) : Sys unit :=
  match args with
  | [_; _; letter; image] => runMountImage (mount_point letter) image
  | [_; _; letter; disk; part] =>
      match Atoi disk with
      | Ok diskNum =>
          match Atoi part with
          | Ok partNum => runMountDisk (mount_point letter) diskNum partNum
          | _ => fail (Errorf "partNum must be an integer, got %q")
          end
      | _ => runMountImage (mount_point letter) disk
      end
  | _ => fail (Errorf "usage: werunos mount <letter> <diskNum|imagePath> [<partNum>]")
  end.

(** ** Installing ([src/install.go]) *)
Section install.
Context {inst : Installer}.

Definition installed_paths : list (list byte) :=
  bytes_of_string <$> ["C:\Program Files (x86)\WinFsp\bin\winfsp-x64.dll"; "C:\Program Files\WinFsp\bin\winfsp-x64.dll"]%string.
Definition isWinFspInstalled (w : Files) : bool :=
  existsb (fun p => bool_decide (is_Some (w !! file_id p))) installed_paths.

(** [strings.HasSuffix(strings.ToLower(name), ".msi")] for names in ASCII. *)
Definition is_msi (name : list byte) : bool :=
  let low := upper <$> bytes_of_string ".msi" in
  bool_decide (drop (length name - 4) (upper <$> name) = low).

Definition getLatestWinFspMSI : res (list byte) :=
  let! (status, (body, _)) :=
    http_Get (bytes_of_string "https://api.github.com/repos/winfsp/winfsp/releases/latest") in
  if negb (status =? 200) then Err (Errorf "GitHub API returned status: %s")
  else
    assets <- decode_assets body ;;
    match list_find (fun a => is_msi a.1 = true) assets with
    | Some (_, (_, url)) => Ok url
    | None => Err (Errorf "no MSI asset found in the latest release")
    end.

(** What arrived before an error of the body stays in the file. *)
Definition downloadFile (filepath url : list byte) : M Files unit :=
  let! (status, (body, err)) := lift (http_Get url) in
  if negb (status =? 200) then fail (Errorf "bad status: %s")
  else
    modify (<[file_id filepath := mkOsFile (mkFile body) true]>) ;;
    match err with Some e => fail e | None => mret tt end.

Definition removeFile (path : list byte) : M Files unit := modify (delete (file_id path)).

Definition runInstall : Sys unit :=
  r <- zoom (catch (os_Open (bytes_of_string "\\.\PHYSICALDRIVE0"))) ;;
  match r with
  | inr _ => fail (Errorf "werunos install requires Administrator privileges.")
  | inl _ =>
      w <- zoom get ;;
      if isWinFspInstalled w then say (OutInstall "WinFsp is already installed. werunos is ready to use!")
      else
        say (OutInstall "WinFsp is not installed. Fetching latest release...") ;;
        downloadURL <- lift (errorf_wrap "failed to fetch latest WinFsp release: %w" getLatestWinFspMSI) ;;
        say (OutInstall "Downloading %s...") ;;
        zoom (wrap "failed to download MSI: %w" (downloadFile msi_path downloadURL)) ;;
        say (OutInstall "Installing WinFsp (this may take a moment)...") ;;
        let r := msiexec msi_path in
        zoom (removeFile msi_path) ;;
        match r with
        | Some e => fail (Wrapf "failed to install WinFsp: %w" e)
        | None => say (OutInstall "WinFsp installed successfully. werunos is ready to use!")
        end
  end.

(** ** The command line *)
Definition arg (s : string) : list byte := bytes_of_string s.
Definition is_help (a : list byte) : bool := bool_decide (a ∈ (arg <$> ["-h"; "--help"; "help"; "/?"]%string)).

(** [strconv.Atoi] of a partition number, with the error of the command. *)
Definition part_number (a : list byte) : Sys Z :=
  match Atoi a with Ok n => mret n | _ => fail (Errorf "partition number must be an integer, got %q") end.

(** [args] is [os.Args]: the name of the program, then the arguments. *)
Definition run_rest (args : list (list byte)) : Sys unit :=
  match args with
  | [] => fail (Errorf "usage")
  | _ :: rest =>
      match rest with
      | [] => runImageMode
      | [a] => if bool_decide (a = arg "fsck") then runFsck testfs_img false else runListPartitions a
      | [a; b] =>
          if bool_decide (a = arg "fsck") then
            if bool_decide (b = arg "--fix") then fail (Errorf "usage: werunos fsck [--fix] <device> [<partNum>]")
            else runFsck b false
          else n <- part_number b ;; runReadPartition a n
      | [a; b; c] =>
          if bool_decide (a = arg "fsck") then
            if bool_decide (b = arg "--fix") then runFsck c true
            else n <- part_number c ;; runFsckPartition b n false
          else fail (Errorf "usage")
      | [a; b; c; d] =>
          if bool_decide (a = arg "fsck") && bool_decide (b = arg "--fix") then
            n <- part_number d ;; runFsckPartition c n true
          else fail (Errorf "usage")
      | _ => fail (Errorf "usage")
      end
  end.

Definition run (args : list (list byte)) : Sys unit :=
  match args with
  | _ :: a :: _ =>
      if is_help a then say OutHelp
      else if bool_decide (a = arg "devices") then runDevices
      else if bool_decide (a = arg "install") then runInstall
      else if bool_decide (a = arg "mount") then runMount args
      else run_rest args
  | _ => run_rest args
  end.
End install.
End machine.
