(* ===== verification/Commands.v ===== *)
(** The commands of the program: numbers on the command line, which commands
    leave every file as it is, and that mounting a partition changes nothing
    outside it, whatever the host then asks for. *)
From S2P Require Export Main.

(** ** Numbers *)
Lemma unsigned_digit d : 0 <= d <= 9 -> byte.unsigned (byte.of_Z (48 + d)) = 48 + d.
Proof. intros. rewrite byte.unsigned_of_Z. apply Z.mod_small. lia. Qed.

Lemma digit_step d s acc : 0 <= d <= 9 -> digits_value (byte.of_Z (48 + d) :: s) acc = digits_value s (acc * 10 + d).
Proof.
  intros. cbn [digits_value]. rewrite unsigned_digit by done.
  rewrite (proj2 (Z.leb_le 48 _)), (proj2 (Z.leb_le (48 + d) 57)) by lia. cbn [andb]. f_equal. lia.
Qed.

Lemma digits_value_digits rounds n acc :
  0 <= n < 10 ^ Z.of_nat (S rounds) -> digits_value (digits (S rounds) n acc) 0 = digits_value acc n.
Proof.
  revert n acc. induction rounds as [|rounds IH]; intros n acc Hn; cbn [digits];
    pose proof (Z.mod_pos_bound n 10); pose proof (Z.div_mod n 10).
  - assert (E : n / 10 = 0) by (apply Z.div_small; lia). rewrite E. cbn [Z.eqb]. rewrite digit_step by lia. f_equal. lia.
  - destruct (Z.eqb_spec (n / 10) 0) as [E|E]; [rewrite digit_step by lia; f_equal; lia|].
    assert (0 <= n / 10 < 10 ^ Z.of_nat (S rounds)).
    { split; [apply Z.div_pos; lia|]. apply Z.div_lt_upper_bound; [lia|].
      rewrite Nat2Z.inj_succ, Z.pow_succ_r in Hn by lia. lia. }
    etransitivity; [apply IH; lia|]. rewrite digit_step by lia. f_equal. lia.
Qed.

(** The first digit. *)
Lemma digits_head rounds n acc :
  0 <= n -> exists c s, digits (S rounds) n acc = c :: s /\ 48 <= byte.unsigned c <= 57.
Proof.
  revert n acc. induction rounds as [|rounds IH]; intros n acc Hn; cbn [digits];
    pose proof (Z.mod_pos_bound n 10); pose proof (unsigned_digit (n mod 10)).
  - destruct (n / 10 =? 0); do 2 eexists; (split; [done|lia]).
  - destruct (n / 10 =? 0); [do 2 eexists; split; [done|lia]|].
    apply IH. apply Z.div_pos; lia.
Qed.

(** What [%d] prints, [Atoi] reads back: every [int] has one spelling on
    the command line that means it. *)
Lemma Atoi_itoa n : - 2 ^ 63 <= n < 2 ^ 63 -> Atoi (itoa n) = Ok n.
Proof.
  intros Hn. unfold itoa. destruct (Z.ltb_spec n 0).
  - destruct (digits_head 18 (- n) []) as (c & s & E & _); [lia|]. cbn [Atoi].
    rewrite bool_decide_eq_false_2 by (rewrite E; done).
    rewrite digits_value_digits by (cbn; lia). cbn [digits_value].
    rewrite (proj2 (Z.leb_le _ _)) by lia. f_equal. lia.
  - destruct (digits_head 18 n []) as (c & s & E & Hc); [lia|].
    assert (Ea : Atoi (digits 19 n []) =
      match digits_value (digits 19 n []) 0 with
      | None => Err (Errorf "invalid syntax")
      | Some v => if v <? 2 ^ 63 then Ok v else Err (Errorf "value out of range")
      end).
    { rewrite E. unfold Atoi. destruct c; try reflexivity; exfalso; revert Hc; vm_compute; intros [Hc _]; by apply Hc. }
    rewrite Ea, digits_value_digits by (cbn; lia). cbn [digits_value].
    by rewrite (proj2 (Z.ltb_lt _ _)) by lia.
Qed.

(** ** Commands that only read *)
Section reading.
Context {D : Type} `{ReadWriterAt D} {env : Env} {order : MapOrder} `{BtrfsCompress.Codecs}.

(** A mounted file system over the device [d]. *)
Definition mounted_on (d : D) (m : Mounted D) : Prop :=
  match m with
  | MExt4 e => on_fs (fun fs => dev fs = Direct d) e
  | MBtrfs b => BtrfsTree.dev b = d
  end.

#[local] Instance direct_field (d : D) : DeviceField (fun fs => dev fs = Direct d).
Proof. intros fs fs' E. by rewrite E. Qed.
#[local] Instance btrfs_field (d : D) : BtrfsDevice.DeviceOnly (fun b => BtrfsTree.dev b = d).
Proof. intros b b' E. by rewrite E. Qed.

Lemma ext4_mount (d : D) : on_fs (fun fs => dev fs = Direct d) (Ext4.ReadSuperBlock (Ext4.New d)).2.
Proof.
  unfold Ext4.ReadSuperBlock. rewrite modify_bind.
  match goal with |- _ (?m ?e).2 => refine ((_ : preserves (on_fs (fun fs => dev fs = Direct d)) m) e _) end.
  - body_tac.
  - by eexists.
Qed.

Lemma device_of_on (d : D) e : on_fs (fun fs => dev fs = Direct d) e -> device_of e = d.
Proof. intros (fs & E & Ed). unfold device_of. by rewrite E, Ed. Qed.

Lemma btrfs_mount (d : D) : BtrfsTree.dev (BtrfsFs.ReadSuperBlock (BtrfsTree.New d)).2 = d.
Proof. by apply (BtrfsDevice.bd_ReadSuperBlock (fun b => BtrfsTree.dev b = d)). Qed.

(** Looking for a file system changes nothing, and what is found is over the
    device. *)
Lemma openFilesystem_reads (d : D) :
  (openFilesystem d).2 = d /\ match (openFilesystem d).1 with Ok m => mounted_on d m | _ => True end.
Proof.
  unfold openFilesystem. pose proof (ext4_mount d) as He.
  destruct (Ext4.ReadSuperBlock (Ext4.New d)) as [[?|?| |] e]; cbn in He; pose proof (device_of_on d e He) as Ed; [by split..| |by split|by split].
  rewrite Ed. pose proof (btrfs_mount d) as Eb.
  destruct (BtrfsFs.ReadSuperBlock (BtrfsTree.New d)) as [[?|?| |] b]; by split.
Qed.

(** The device and the undo logs as they were. *)
Definition holds (d : D) (l : gmap (list byte) (list byte)) (s : D * Console) : Prop := s.1 = d /\ logs s.2 = l.

Lemma holds_zoom d l {A} (m : M D A) : (m d).2 = d -> preserves (holds d l) (zoom m).
Proof. intros E [d' c] [Ed El]. cbn in Ed, El. subst d'. unfold zoom. destruct (m d) as [r d']. cbn in E. by subst d'. Qed.
Lemma holds_print d l o : preserves (holds d l) (print o).
Proof. by intros [d' c] [E El]. Qed.

Lemma wrap_snd {S A} msg (m : M S A) s : (wrap msg m s).2 = (m s).2.
Proof. unfold wrap. by destruct (m s) as [[?|?| |] ?]. Qed.

(** Run [k] on what is found on the device. *)
Lemma holds_open d l msg {A} (k : Mounted D -> Cmd D A) :
  (forall m, mounted_on d m -> preserves (holds d l) (k m)) ->
  preserves (holds d l) (mbind k (zoom (wrap msg openFilesystem))).
Proof.
  intros Hk [d' c] [Ed El]. cbn in Ed, El. subst d'. destruct (openFilesystem_reads d) as [E Hm].
  unfold mbind, M_bind, zoom, wrap. destruct (openFilesystem d) as [[m|?| |] d']; cbn in E; subst d'; [|done..].
  by apply Hk.
Qed.

Lemma driving_ext4 d e {A} (m : E D A) :
  on_fs (fun fs => dev fs = Direct d) e -> preserves (on_fs (fun fs => dev fs = Direct d)) m -> (driving e device_of m d).2 = d.
Proof. intros He Hm. unfold driving. specialize (Hm e He). destruct (m e) as [r e']. by apply device_of_on. Qed.
Lemma driving_btrfs (d : D) b {A} (m : BtrfsTree.BT D A) :
  BtrfsTree.dev b = d -> preserves (fun b => BtrfsTree.dev b = d) m -> (driving b BtrfsTree.dev m d).2 = d.
Proof. intros Hb Hm. unfold driving. specialize (Hm b Hb). by destruct (m b). Qed.

Lemma holds_readRootDir d l m : mounted_on d m -> preserves (holds d l) (readRootDir m).
Proof.
  intros Hm. apply preserves_bind; [|intros; apply holds_print]. apply holds_zoom. rewrite wrap_snd. destruct m as [e|b].
  - apply driving_ext4; [done|]. cbn [op_Readdir Ext4_ops]. unfold Readdir. body_tac.
  - apply driving_btrfs; [done|]. apply BtrfsDevice.bd_Readdir, btrfs_field.
Qed.

(** A driver that keeps its device, and prints. *)
Definition over_dev {S} (device : S -> D) (d : D) (l : gmap (list byte) (list byte)) (s : S * Console) : Prop :=
  device s.1 = d /\ logs s.2 = l.
Lemma over_dev_zoom {S} (device : S -> D) d l {A} (m : M S A) :
  preserves (fun s => device s = d) m -> preserves (over_dev device d l) (zoom m).
Proof. intros Hm [s c] [Es El]. specialize (Hm s Es). unfold zoom. by destruct (m s). Qed.
Lemma over_dev_print {S} (device : S -> D) d l o : preserves (over_dev device d l) (print o).
Proof. by intros [s c] Hs. Qed.
Lemma holds_driving {S} (device : S -> D) d l s {A} (m : Cmd S A) :
  device s = d -> preserves (over_dev device d l) m -> preserves (holds d l) (driving_cmd s device m).
Proof.
  intros Es Hm [d' c] [Ed El]. unfold driving_cmd. specialize (Hm (s, c) (conj Es El)).
  by destruct (m (s, c)) as [r [s' c']].
Qed.

#[local] Instance fs_device_field (d : D) : DeviceField (fun fs => fs_device fs = d).
Proof. intros fs fs' E. unfold fs_device. by rewrite E. Qed.
#[local] Hint Resolve over_dev_print : pass.

Lemma holds_check d l : preserves (holds d l) (runFsckDevice false).
Proof.
  apply holds_open. intros [e|b] Hm; apply holds_driving.
  - by rewrite (device_of_on d e Hm).
  - unfold check_ext4. pass_tac; apply over_dev_zoom; pass_tac. intros fs Hfs. by rewrite Fsck_reads.
  - done.
  - unfold check_btrfs. pass_tac; apply over_dev_zoom; [unfold BtrfsTree.BlockSize; pass_tac|].
    + by intros b' Hb'.
    + apply BtrfsDevice.bd_Fsck; apply _.
Qed.
End reading.

Section machine.
Context {os : OS} {env : Env} {order : MapOrder} `{BtrfsCompress.Codecs} {fuse : FuseHost} {inst : Installer}.
Variable w : Files.
Variable l : gmap (list byte) (list byte).

(** The files and the undo logs as they were. *)
Definition same (s : Files * Console) : Prop := s.1 = w /\ logs s.2 = l.

Lemma same_say o : preserves same (say o).
Proof. by intros [w' c] [E El]. Qed.
Lemma unchanged_zoom {A} (m : M Files A) : (m w).2 = w -> preserves same (zoom m).
Proof. intros E [w' c] [Ew El]. cbn in Ew, El. subst w'. unfold zoom. destruct (m w) as [r w']. cbn in E. by subst w'. Qed.
#[local] Hint Resolve same_say : pass.

(** What is opened is a file, and opening it changes nothing. *)
Definition opens (path : list byte) (m : M Files OsFile) : Prop :=
  (m w).2 = w /\ forall f, (m w).1 = Ok f -> exists f0, w !! file_id path = Some f0 /\ os_file f = os_file f0.

Lemma opens_Open path : opens path (os_Open path).
Proof.
  unfold opens, os_Open. cbn [fst snd]. split; [done|]. intros f.
  destruct (w !! file_id path) as [f0|] eqn:E; [|done]. intros [= <-]. by exists f0.
Qed.
Lemma opens_OpenRW path : opens path (os_OpenRW path).
Proof.
  unfold opens, os_OpenRW. cbn [fst snd]. split; [done|]. intros f.
  destruct (w !! file_id path) as [f0|] eqn:E; [|done]. destruct (os_writable f0); [|done]. intros [= <-]. by exists f0.
Qed.
Lemma opens_wrap (path : list byte) msg m : opens path m -> opens path (wrap msg m).
Proof.
  intros [E Hm]. split; [by rewrite wrap_snd|]. unfold wrap. destruct (m w) as [[f|?| |] w']; [|done..]. exact Hm.
Qed.

Lemma same_open (path : list byte) (m : M Files OsFile) {A} (k : OsFile -> M (Files * Console) A) :
  opens path m ->
  (forall f f0, w !! file_id path = Some f0 -> os_file f = os_file f0 -> preserves same (k f)) ->
  preserves same (mbind k (zoom m)).
Proof.
  intros [E Hm] Hk [w' c] [Ew El]. cbn in Ew, El. subst w'. unfold mbind, M_bind, zoom.
  destruct (m w) as [[f|?| |] w']; cbn in E, Hm; subst w'; [|done..].
  destruct (Hm f eq_refl) as (f0 & Ef & Hf). by apply (Hk f f0).
Qed.

(** A file that its user leaves alone. *)
Lemma same_with_file (path : list byte) f f0 {A} (body : Cmd OsFile A) :
  w !! file_id path = Some f0 -> os_file f = os_file f0 -> preserves (holds f l) body ->
  preserves same (with_file path f body).
Proof.
  intros Ef Hf Hb [w' c] [Ew El]. cbn in Ew, El. subst w'. unfold with_file.
  specialize (Hb (f, c) (conj eq_refl El)). destruct (body (f, c)) as [r [f' c']]. destruct Hb as [Ef' El'].
  cbn in Ef', El'. subst f'. split; [|done]. cbn. unfold store. rewrite Ef, Hf. apply insert_id. rewrite Ef. by destruct f0.
Qed.

Lemma pr_inner_New (f : OsFile) p : pr_inner (NewPartitionReader f p) = f.
Proof. unfold NewPartitionReader. by destruct (NewAlignedReaderAt _ _) as [a|?| |] eqn:E; unfold NewAlignedReaderAt in E; case_match; simplify_eq. Qed.

Lemma holds_partition f p {A} (body : Cmd (PartitionReader OsFile) A) :
  preserves (holds (NewPartitionReader f p) l) body -> preserves (holds f l) (on_partition p body).
Proof.
  intros Hb [f' c] [Ef El]. cbn in Ef, El. subst f'. unfold on_partition.
  specialize (Hb (NewPartitionReader f p, c) (conj eq_refl El)). destruct (body _) as [r [pr c']]. destruct Hb as [E El'].
  cbn in E, El'. subst pr. split; [apply pr_inner_New|done].
Qed.

(** Looking at the root directory of what is on a device. *)
Lemma holds_look {D} `{ReadWriterAt D} (d : D) o msg :
  preserves (holds d l) (print o ;; m <- zoom (wrap msg openFilesystem) ;; readRootDir m).
Proof.
  apply preserves_bind; [apply holds_print|intros _]. apply holds_open. intros m Hm. by apply holds_readRootDir.
Qed.

Lemma same_list path : preserves same (runListPartitions path).
Proof.
  apply same_open with path; [apply opens_wrap, opens_Open|]. intros f f0 Ef Hf.
  destruct (ProbePartitions f) as [[scheme parts]|?| |]; [pass_tac| |pass_tac..].
  apply same_with_file with f0; [done..|]. apply holds_look.
Qed.

Lemma same_image : preserves same runImageMode.
Proof.
  apply same_open with testfs_img; [apply opens_wrap, opens_OpenRW|]. intros f f0 Ef Hf.
  apply same_with_file with f0; [done..|]. apply holds_look.
Qed.

Lemma same_read path n : preserves same (runReadPartition path n).
Proof.
  apply same_open with path; [apply opens_wrap, opens_Open|]. intros f f0 Ef Hf.
  apply preserves_bind; [apply preserves_lift|]. intros [scheme parts].
  destruct (find_partition n parts) as [p|]; [|pass_tac].
  destruct (negb _); [pass_tac|]. apply same_with_file with f0; [done..|]. apply holds_partition, holds_look.
Qed.

Lemma same_zoom_open path : preserves same (zoom (catch (os_Open path))).
Proof. apply unchanged_zoom. unfold catch, os_Open. by destruct (w !! file_id path). Qed.
#[local] Hint Resolve same_zoom_open : pass.

Lemma same_devices : preserves same runDevices.
Proof.
  apply preserves_bind.
  - apply unchanged_zoom. rewrite wrap_snd.
    assert (Hp : preserves (eq w) EnumerateDisks); [|by rewrite <- (Hp w eq_refl)].
    unfold EnumerateDisks. pass_tac. intros w' <-. unfold os_Open. done.
  - intros disks. unfold show_disk. pass_tac.
Qed.

Lemma same_fsck path : preserves same (runFsck path false).
Proof.
  apply same_open with path; [apply opens_wrap, opens_Open|]. intros f f0 Ef Hf.
  apply same_with_file with f0; [done..|]. apply holds_check.
Qed.

Lemma same_fsck_partition path n : preserves same (runFsckPartition path n false).
Proof.
  assert (Hk : forall f f0, w !! file_id path = Some f0 -> os_file f = os_file f0 -> preserves same (
    let! (_, partitions) := lift (errorf_wrap "failed to read partition table: %w" (ProbePartitions f)) in
    match find_partition n partitions with
    | None => fail (Errorf "partition %d not found")
    | Some target => say (show_partition target) ;; with_file path f (on_partition target (runFsckDevice false))
    end)).
  { intros f f0 Ef Hf. apply preserves_bind; [apply preserves_lift|]. intros [scheme parts].
    destruct (find_partition n parts) as [p|]; [|pass_tac]. apply preserves_bind; [apply same_say|intros _].
    apply same_with_file with f0; [done..|]. apply holds_partition, holds_check. }
  intros [w' c] Hs. pose proof Hs as [Ew El]. cbn in Ew, El. subst w'. unfold runFsckPartition.
  destruct (opens_OpenRW path) as [E Ho]. unfold mbind at 1, M_bind at 1, zoom at 1, catch.
  destruct (os_OpenRW path w) as [[f|e| |] w']; cbn in E; subst w'; [| |done..].
  - destruct (Ho f eq_refl) as (f0 & Ef & Hf). rewrite M_left_id. by apply (Hk f f0).
  - refine (same_open path _ _ _ _ (w, c) Hs); [apply opens_wrap, opens_Open|exact Hk].
Qed.
End machine.

(** ** Only mounting, repairing and installing change files *)
Definition may_write (args : list (list byte)) : bool :=
  match args with
  | _ :: a :: rest =>
      bool_decide (a = arg "mount") || bool_decide (a = arg "install") ||
      bool_decide (a = arg "fsck") && bool_decide (head rest = Some (arg "--fix"))
  | _ => false
  end.

Section readonly.
Context {os : OS} {env : Env} {order : MapOrder} `{BtrfsCompress.Codecs} {fuse : FuseHost} {inst : Installer}.

Lemma same_number w l (a : list byte) : preserves (same w l) (part_number a).
Proof. unfold part_number. pass_tac. Qed.

Lemma not_fix prog a b rest :
  may_write (prog :: a :: b :: rest) = false -> a = arg "fsck" -> b <> arg "--fix".
Proof.
  intros Hw -> ->. cbn [may_write head] in Hw. rewrite !(bool_decide_eq_true_2 (_ = arg "fsck")) in Hw by done.
  rewrite (bool_decide_eq_true_2 (Some _ = _)) in Hw by done. by rewrite orb_true_r in Hw.
Qed.

Lemma same_run_rest w l args : may_write args = false -> preserves (same w l) (run_rest args).
Proof.
  intros Hw. destruct args as [|prog [|a [|b [|c [|d [|e rest]]]]]]; cbn [run_rest]; try apply preserves_fail.
  - apply same_image.
  - destruct (bool_decide (a = arg "fsck")); [apply same_fsck|apply same_list].
  - destruct (bool_decide (a = arg "fsck")).
    + destruct (bool_decide (b = _)); [apply preserves_fail|apply same_fsck].
    + apply preserves_bind; [apply same_number|intros]. apply same_read.
  - destruct (bool_decide_reflect (a = arg "fsck")) as [Ea|_]; [|apply preserves_fail].
    rewrite bool_decide_eq_false_2 by by apply (not_fix _ _ _ _ Hw).
    apply preserves_bind; [apply same_number|intros]. apply same_fsck_partition.
  - destruct (bool_decide_reflect (a = arg "fsck")) as [Ea|_]; cbn [andb]; [|apply preserves_fail].
    rewrite bool_decide_eq_false_2 by by apply (not_fix _ _ _ _ Hw). apply preserves_fail.
Qed.

(** C25: Apart from [mount], [install] and [fsck --fix], no command changes
    a file or an undo log of the machine — listing disks and partitions,
    reading a root directory and checking a volume, however the command
    ends and whatever is in the files. *)
Theorem run_reads_only (args : list (list byte)) w c :
  may_write args = false -> (run args (w, c)).2.1 = w /\ logs (run args (w, c)).2.2 = logs c.
Proof.
  intros Hw. change (same w (logs c) (run args (w, c)).2). enough (Hp : preserves (same w (logs c)) (run args)) by by apply Hp.
  pose proof (same_run_rest w (logs c) args Hw) as Hr. unfold run. destruct args as [|prog [|a rest]]; [done..|].
  destruct (is_help a); [apply same_say|]. destruct (bool_decide (a = arg "devices")); [apply same_devices|].
  cbn [may_write] in Hw. destruct (bool_decide (a = arg "install")); [by rewrite orb_true_r in Hw|].
  by destruct (bool_decide (a = arg "mount")).
Qed.
End readonly.

(** ** Mounting *)

(** What the layers of a mounted partition keep of the disk. *)
Section layers.
Context {D : Type} `{ReadWriterAt D}.

Lemma kept_safe (Q : D -> Prop) : kept_by_writes Q -> kept_by_writes (fun d : SafeDevice D => Q (sd_inner d)).
Proof.
  intros HQ d off p Hd. cbn [WriteAt Safe_rw]. unfold Safe_WriteAt. destruct (zlen p =? 0); [done|].
  destruct (pre_read d off (zlen p)) as [[old cache]|e]; [|done]. pose proof (HQ _ off p Hd) as Hw.
  by destruct (WriteAt (sd_inner d) off p) as [d' [n [err|]]].
Qed.

Lemma kept_recovery (Q : D -> Prop) d entries : kept_by_writes Q -> Q d -> Q (recover_entries d entries).1.
Proof.
  intros HQ. revert d. induction entries as [|e entries IH]; intros d Hd; [done|]. cbn [recover_entries].
  pose proof (HQ d (se_Offset e) (se_Data e) Hd) as Hw.
  destruct (WriteAt d (se_Offset e) (se_Data e)) as [d' [n [err|]]]; [done|by apply IH].
Qed.

Lemma kept_NewSafeDevice (Q : D -> Prop) d log :
  kept_by_writes Q -> Q d ->
  Q (NewSafeDevice d log).1 /\ match (NewSafeDevice d log).2 with Ok sd => Q (sd_inner sd) | _ => True end.
Proof.
  intros HQ Hd. unfold NewSafeDevice. destruct (readPending _) as [entries|?| |]; [|done..].
  pose proof (kept_recovery Q d entries HQ Hd). by destruct (recover_entries d entries) as [d' [err|]].
Qed.
End layers.

Section mounting.
Context {D : Type} `{ReadWriterAt D} {env : Env} {order : MapOrder} `{BtrfsCompress.Codecs} {fuse : FuseHost}.

Lemma kept_hosted (Q : D -> Prop) {S} `{OverDevice S D} (s : S) device cs d :
  kept_by_writes Q -> over Q s -> (forall s, over Q s -> Q (device s)) -> Q (hosted s device cs d).2.
Proof.
  intros HQ Hs Hd. unfold hosted, driving. pose proof (over_serve Q HQ cs (NewOrionFS s) Hs) as Hj.
  destruct (serve cs (NewOrionFS s)) as [r j]. by apply Hd.
Qed.

(** A mounted volume keeps what writes keep, whatever the host asks for. *)
Lemma kept_mountFilesystem (Q : D -> Prop) m mountPoint volName d c :
  kept_by_writes Q -> mounted_on d m -> Q d -> Q (mountFilesystem m mountPoint volName (d, c)).2.1.
Proof.
  intros HQ Hm Hd. unfold mountFilesystem. destruct (Mount _ _) as [callbacks ok].
  match goal with |- Q (?m (d, c)).2.1 => enough (Hp : preserves (fun s : D * Console => s.1 = d \/ Q s.1) m) by
    (destruct (Hp (d, c) (or_introl eq_refl)) as [->|?]; done) end.
  apply preserves_bind; [by intros [? ?] ?|intros _]. apply preserves_bind.
  - intros [d' c'] _. unfold zoom. right. destruct m as [e|b].
    + pose proof (kept_hosted Q e device_of callbacks d' HQ) as Hk.
      destruct (hosted e device_of callbacks d') as [r d1]. apply Hk.
      * destruct Hm as (fs & E & Ed). exists fs. split; [done|]. unfold fs_over, fs_device. by rewrite Ed.
      * intros e' (fs & E & Hfs). unfold device_of. by rewrite E.
    + pose proof (kept_hosted Q b BtrfsTree.dev callbacks d' HQ) as Hk.
      destruct (hosted b BtrfsTree.dev callbacks d') as [r d1]. apply Hk; [|done].
      cbn in Hm |- *. unfold BtrfsDevice.btrfs_over. by rewrite Hm.
  - intros _. destruct ok; [by intros [? ?] ?|apply preserves_fail].
Qed.
End mounting.

Lemma kept_mount {D} `{ReadWriterAt D} {env : Env} {order : MapOrder} `{BtrfsCompress.Codecs} {fuse : FuseHost}
    (Q : D -> Prop) deviceID mountPoint d c :
  kept_by_writes Q -> Q d -> Q (mount_device deviceID mountPoint (d, c)).2.1.
Proof.
  intros HQ Hd. unfold mount_device. destruct (kept_NewSafeDevice Q d (logs c !! sanitizeDeviceID deviceID) HQ Hd) as [H1 H2].
  destruct (NewSafeDevice d _) as [d' [sd|err| |]]; cbn in H1, H2; [|done..].
  set (Qs := fun d : SafeDevice D => Q (sd_inner d)). pose proof (kept_safe Q HQ : kept_by_writes Qs) as HQs.
  unfold mbind at 1, M_bind at 1, zoom at 1, wrap at 1. destruct (openFilesystem_reads sd) as [E Hm].
  destruct (openFilesystem sd) as [[m|?| |] sd']; cbn in E, Hm; subst sd'; [|done..].
  pose proof (kept_mountFilesystem Qs m mountPoint (code_points (Type_ m)) sd (print_out (OutDetected (Type_ m)) c) HQs Hm H2) as Hk.
  unfold mbind, M_bind, print, update. by destruct (mountFilesystem _ _ _ _) as [r [sd' c']].
Qed.

(** ** A partition on a disk *)
#[export] Program Instance OsFile_device : Device OsFile := {
  dev_ok f := os_writable f = true;
  dev_content f := f_data (os_file f)
}.
Next Obligation. intros f off n _ Ho Hn Hb. exact (dev_read (os_file f) off n I Ho Hn Hb). Qed.
Next Obligation.
  intros f off p Hok Ho Hb. destruct (dev_write (Device := File_device) (os_file f) off p I Ho Hb) as (f' & Ew & _ & E). exists (mkOsFile f' true).
  cbn [WriteAt OsFile_rw]. by rewrite Hok, Ew.
Qed.

(** The bytes of the disk [c] outside a range are those of [c0]. *)
Definition same_outside (start size : Z) (c0 c : list byte) : Prop :=
  zlen c = zlen c0 /\ forall i, 0 <= i -> i < start \/ start + size <= i -> c !! Z.to_nat i = c0 !! Z.to_nat i.

Section confined.
Context {D : Type} `{Device D} (start size : Z) (c0 : list byte).

Definition inside (pr : PartitionReader D) : Prop :=
  pr_ok pr /\ pr_startOffset pr = start /\ pr_size pr = size /\ same_outside start size c0 (dev_content (pr_disk pr)).

Lemma kept_inside : kept_by_writes inside.
Proof.
  intros pr off p (Hok & Hs & Hz & Hl & Ho). pose proof Hok as (Hd & Hs0 & Hz0 & Hfit). cbn [WriteAt PR_rw]. unfold PR_WriteAt.
  destruct (Z.ltb_spec off 0); [by split|]. destruct (Z.leb_spec (pr_size pr) off); [by split|]. cbn zeta.
  set (b := if _ <? _ then _ else _).
  assert (Hb : zlen b <= pr_size pr - off).
  { unfold b. case_match eqn:E; [apply Z.ltb_lt in E; rewrite zlen_sub; lia|apply Z.ltb_ge in E; lia]. }
  destruct (dev_write (pr_disk pr) (pr_startOffset pr + off) b) as (d' & -> & Hd' & Hc'); [done|lia..|].
  unfold inside, pr_ok. cbn [fst pr_disk pr_startOffset pr_size]. rewrite Hc', zlen_put.
  split; [done|]. split; [done|]. split; [done|]. split; [by rewrite zlen_put|].
  intros i Hi Hout. rewrite lookup_put by lia. rewrite decide_False by lia. by apply Ho.
Qed.
End confined.

(** A partition whose sectors are on the disk. *)
Definition on_disk (p : Partition) (disk : list byte) : Prop :=
  0 < p_SectorSize p < 2 ^ 63 /\ (p_SectorSize p | zlen disk) /\ 0 <= p_StartLBA p <= p_EndLBA p /\
  (p_EndLBA p + 1) * p_SectorSize p <= zlen disk /\ zlen disk < 2 ^ 63.

Definition part_start (p : Partition) : Z := p_StartLBA p * p_SectorSize p.
Definition part_size (p : Partition) : Z := (p_EndLBA p - p_StartLBA p + 1) * p_SectorSize p.

Lemma inside_New (f : OsFile) p :
  os_writable f = true -> on_disk p (f_data (os_file f)) ->
  inside (part_start p) (part_size p) (f_data (os_file f)) (NewPartitionReader f p).
Proof.
  intros Hw (Hss & Hdiv & Hlba & Hend & Hlen).
  assert (Hf : dev_ok f) by exact Hw.
  destruct (NewPartitionReader_ok f p Hf Hss Hdiv Hlba Hend Hlen) as (Hok & Hc & Hs & Hz).
  split; [done|]. split; [done|]. split; [done|]. rewrite Hc. by split.
Qed.

Lemma inside_inner start size c0 (pr : PartitionReader OsFile) :
  inside start size c0 pr -> os_writable (pr_inner pr) = true /\ same_outside start size c0 (f_data (os_file (pr_inner pr))).
Proof.
  intros ((Hok & _) & _ & _ & Ho). unfold pr_inner. destruct (pr_disk pr) as [d|a]; [by split|].
  destruct Hok as (_ & Hok & _). by split.
Qed.

Section mount_partition.
Context {os : OS} {env : Env} {order : MapOrder} `{BtrfsCompress.Codecs} {fuse : FuseHost} {inst : Installer}.

(** All files but the disk are as they were, and so is the disk outside the
    partition. *)
Definition confined (path : list byte) (disk : File) (p : Partition) (w w' : Files) : Prop :=
  (forall id, id <> file_id path -> w' !! id = w !! id) /\
  exists disk', w' !! file_id path = Some (mkOsFile disk' true) /\
    same_outside (part_start p) (part_size p) (f_data disk) (f_data disk').

Lemma print_bind {D A} o (k : unit -> Cmd D A) d c : mbind k (print o) (d, c) = k tt (d, print_out o c).
Proof. done. Qed.

Lemma confined_refl path disk p w : w !! file_id path = Some (mkOsFile disk true) -> confined path disk p w w.
Proof. intros E. split; [done|]. by exists disk. Qed.

Lemma on_partition_confined path disk p mountPoint deviceID w c :
  w !! file_id path = Some (mkOsFile disk true) -> on_disk p (f_data disk) ->
  confined path disk p w
    (with_file path (mkOsFile disk true) (on_partition p (
       print (show_partition p) ;; mount_device deviceID mountPoint)) (w, c)).2.1.
Proof.
  intros E Hp. set (f := mkOsFile disk true) in *. pose proof (inside_New f p eq_refl Hp) as Hi.
  unfold with_file, on_partition. rewrite print_bind.
  pose proof (kept_mount _ deviceID mountPoint _ (print_out (show_partition p) c) (kept_inside _ _ _) Hi) as Hk.
  destruct (mount_device _ _ _) as [r [pr c']]. cbn [fst snd] in *. apply inside_inner in Hk as [Hw Ho].
  unfold store. rewrite E. split; [intros id Hid; by rewrite lookup_insert_ne|].
  exists (os_file (pr_inner pr)). split; [apply lookup_insert_eq|done].
Qed.

(** C24: [mount] with a disk and a partition changes, whatever callbacks the
    host then makes and whatever an undo log of an earlier session holds,
    no other file and no byte of the disk outside the partition — provided
    the partition table says the truth about where the partition lies. *)
Theorem mount_confined (prog letter : list byte) (diskNum partNum : Z) (disk : File) scheme partitions p w c :
  - 2 ^ 63 <= diskNum < 2 ^ 63 -> - 2 ^ 63 <= partNum < 2 ^ 63 ->
  w !! file_id (physical_drive diskNum) = Some (mkOsFile disk true) ->
  ProbePartitions (mkOsFile disk true) = Ok (scheme, partitions) ->
  find_partition partNum partitions = Some p -> on_disk p (f_data disk) ->
  confined (physical_drive diskNum) disk p w
    (run [prog; arg "mount"; letter; itoa diskNum; itoa partNum] (w, c)).2.1.
Proof.
  intros Hd Hn E Ep Ef Hp.
  assert (Hrun : run [prog; arg "mount"; letter; itoa diskNum; itoa partNum] = runMountDisk (mount_point letter) diskNum partNum).
  { cbn [run runMount]. change (is_help (arg "mount")) with false. cbn [negb]. 
    rewrite !bool_decide_eq_false_2 by done. rewrite bool_decide_eq_true_2 by done. by rewrite !Atoi_itoa. }
  rewrite Hrun. unfold runMountDisk. unfold mbind at 1, M_bind at 1, zoom at 1, wrap at 1, os_OpenRW at 1. rewrite E. cbn [os_writable].
  change (@say) with (@print Files). rewrite print_bind, Ep. cbn [errorf_wrap]. rewrite lift_ok_bind, print_bind, Ef.
  destruct (negb _); [by apply confined_refl|]. by apply on_partition_confined.
Qed.
End mount_partition.

(** ** Examples *)

(** A machine on which a name is a file, a host that looks at the root and
    unmounts, and no network. *)
#[local] Instance ex_os : OS := { file_id := fun path => path }.
#[local] Instance ex_fuse : FuseHost := { Mount _ _ := ([CbGetattr slash; CbDestroy], true) }.
#[local] Instance ex_installer : Installer := {
  http_Get _ := Err (Errorf "no network"); decode_assets _ := Err (Errorf "no network");
  msi_path := []; msiexec _ := None
}.
#[local] Existing Instance ex_env.
#[local] Existing Instance ex_order.
#[local] Instance ex_codecs : BtrfsCompress.Codecs := {
  BtrfsCompress.zlib_NewReader _ := None; BtrfsCompress.zlib_ReadAll d := Ok d; BtrfsCompress.zlib_compress d := d;
  BtrfsCompress.zstd_NewReader _ := None; BtrfsCompress.zstd_Copy d := Ok d
}.

(** A disk of 13 sectors with a partition table and one partition, which
    holds an ext4 volume. *)
Definition ex_table_disk : File :=
  mkFile (put (put (zeros 512) 446 (binary_Write (mkMbrEntry 0 (zeros 3) 131 (zeros 3) 1 12))) 510 mbrSignature ++ ex_vol_image).
Definition ex_machine : Files := <[physical_drive 0 := mkOsFile ex_table_disk true]> ∅.
Definition ex_console : Console := mkConsole ∅ [].
Definition ex_target : Partition :=
  mkPartition 1 TypeLinuxData (code_points "Partition 1") SchemeMBR 1 12 512 (zeros 16) 131.

Lemma run_reads_only_witness :
  (run [arg "werunos"; arg "fsck"; physical_drive 0; itoa 1] (ex_machine, ex_console)).2.1 = ex_machine.
Proof.
  destruct (run_reads_only [arg "werunos"; arg "fsck"; physical_drive 0; itoa 1] ex_machine ex_console) as [E _].
  - vm_compute. reflexivity.
  - exact E.
Defined.

Lemma ex_probe : ProbePartitions (mkOsFile ex_table_disk true) = Ok (SchemeMBR, [ex_target]).
Proof. vm_compute. reflexivity. Qed.

Lemma ex_on_disk : on_disk ex_target (f_data ex_table_disk).
Proof.
  assert (E : zlen (f_data ex_table_disk) = 6656) by (vm_compute; reflexivity).
  unfold on_disk. rewrite E. cbn [ex_target p_SectorSize p_StartLBA p_EndLBA]. repeat split; try lia. by exists 13.
Qed.

(** The volume is found, mounted and unmounted. *)
Lemma mount_confined_witness :
  let '(r, (w, c)) := run [arg "werunos"; arg "mount"; arg "g"; itoa 0; itoa 1] (ex_machine, ex_console) in
  r = Ok tt /\ last (printed c) = Some OutUnmounted /\ confined (physical_drive 0) ex_table_disk ex_target ex_machine w.
Proof.
  pose proof (mount_confined (arg "werunos") (arg "g") 0 1 ex_table_disk SchemeMBR [ex_target] ex_target ex_machine ex_console) as Hc.
  assert (Er : let s := run [arg "werunos"; arg "mount"; arg "g"; itoa 0; itoa 1] (ex_machine, ex_console) in
    (s.1, last (printed s.2.2)) = (Ok tt, Some OutUnmounted)) by (vm_compute; reflexivity).
  cbv zeta in Er. destruct (run _ _) as [r [w c]]. cbn [fst snd] in Er, Hc. injection Er as -> El.
  split; [reflexivity|]. split; [exact El|]. apply Hc.
  - lia.
  - lia.
  - unfold ex_machine. apply lookup_insert_eq.
  - exact ex_probe.
  - reflexivity.
  - exact ex_on_disk.
Defined.

(** *** Two names, one undo log

    The name of an undo log keeps only letters and digits of the name of the
    device: what a session on [a-b] left behind is replayed on [a_b]. *)
Definition ex_left_behind : list byte := record 4 (bytes_of_string "old!").
Definition ex_two_images : Files := <[arg "a_b" := mkOsFile (mkFile (zeros 16)) true]> (<[arg "a-b" := mkOsFile (mkFile (zeros 16)) true]> ∅).

Lemma undo_log_of_another_image :
  sanitizeDeviceID (arg "a-b") = sanitizeDeviceID (arg "a_b") /\
  let w' := (run [arg "werunos"; arg "mount"; arg "g"; arg "a_b"]
    (ex_two_images, mkConsole {[sanitizeDeviceID (arg "a-b") := ex_left_behind]} [])).2.1 in
  (os_file <$> w' !! arg "a_b") = Some (mkFile (put (zeros 16) 4 (bytes_of_string "old!"))) /\
  (os_file <$> w' !! arg "a-b") = Some (mkFile (zeros 16)).
Proof. vm_compute. done. Qed.

(** *** The undo log and the check

    A check, with or without [--fix], neither applies the undo log of an
    interrupted session nor removes it: the next mount writes it over what
    was repaired. *)
Lemma fsck_leaves_undo_log (path : list byte) fix_ w c : logs (runFsck path fix_ (w, c)).2.2 = logs c.
Proof.
  enough (Hp : preserves (fun s : Files * Console => logs s.2 = logs c) (runFsck path fix_)) by by apply Hp.
  assert (Hz : forall S A (m : M S A), preserves (fun s : S * Console => logs s.2 = logs c) (zoom m)).
  { intros S A m [s c'] Hc. unfold zoom. by destruct (m s). }
  assert (Hprint : forall S o, preserves (fun s : S * Console => logs s.2 = logs c) (print o)) by by intros S o [s c'].
  assert (Hd : forall D S s (device : S -> D) A (m : Cmd S A), preserves (fun s : S * Console => logs s.2 = logs c) m ->
    preserves (fun s : D * Console => logs s.2 = logs c) (driving_cmd s device m)).
  { intros D S s device A m Hm [d c'] Hc. unfold driving_cmd. specialize (Hm (s, c') Hc). by destruct (m (s, c')) as [r [s' c'']]. }
  unfold runFsck. apply preserves_bind; [destruct fix_; apply Hz|]. intros f [w' c'] Hc. unfold with_file.
  enough (Hb : preserves (fun s : OsFile * Console => logs s.2 = logs c) (runFsckDevice fix_)).
  { specialize (Hb (f, c') Hc). by destruct (runFsckDevice fix_ (f, c')) as [r [f' c'']]. }
  unfold runFsckDevice. apply preserves_bind; [apply Hz|]. intros [e|b]; apply Hd; unfold check_ext4, check_btrfs; pass_tac.
Qed.

(** *** The partition of an image

    With the name of an image in the place of the number of a disk the
    partition number is not looked at, not even for being a number: the
    whole image is mounted. *)
Lemma mount_image_ignores_partition {os : OS} {env : Env} {order : MapOrder} `{BtrfsCompress.Codecs} {fuse : FuseHost}
    (prog letter image part : list byte) :
  is_Ok (Atoi image) = false ->
  runMount [prog; arg "mount"; letter; image; part] = runMount [prog; arg "mount"; letter; image].
Proof. cbn [runMount]. by destruct (Atoi image). Qed.
